(** * Frame preparation of the Qt Quick 3D layer renderer

    A shallow embedding of [QSSGLayerRenderData]
    (src/runtimerender/rendererimpl/qssglayerrenderdata.cpp): material
    preparation, model and particle preparation, level-of-detail selection,
    camera resolution, the light and shadow budget, reflection probe
    injection, the sorted render lists and the pass schedule.

    C++ [float] is IEEE-754 binary32; it is modelled with the parametric
    specification of the Standard Library ([SpecFloat]) at precision 24 and
    maximal exponent 128, so every comparison and rounding of the source can
    be evaluated. *)

From Stdlib Require Import ZArith List Bool Lia SpecFloat Permutation Sorted.
From stdpp Require Import base list sorting.

Local Open Scope Z_scope.

(** ** binary32 *)

Module F32.
Definition float : Type := spec_float.
Definition prec : Z := 24.
Definition emax : Z := 128.

Definition add : float -> float -> float := SFadd prec emax.
Definition sub : float -> float -> float := SFsub prec emax.
Definition mul : float -> float -> float := SFmul prec emax.
Definition div : float -> float -> float := SFdiv prec emax.
Definition neg : float -> float := SFopp.

(** [a < b], [a <= b], [a > b], [a >= b] of C++; every comparison with a
    NaN operand is false. *)
Definition ltb : float -> float -> bool := SFltb.
Definition leb : float -> float -> bool := SFleb.
Definition gtb (x y : float) : bool := SFltb y x.
Definition geb (x y : float) : bool := SFleb y x.

Definition zero : float := S754_zero false.
Definition one : float := SFone prec emax.
(** Conversion of an integer literal or an [int] value, round to nearest even. *)
Definition of_Z (z : Z) : float := binary_normalize prec emax z 0 false.

Definition is_nan (x : float) : bool :=
  match x with S754_nan => true | _ => false end.

(** [qMax(a, b)] is [(a < b) ? b : a]. *)
Definition qMax (a b : float) : float := if ltb a b then b else a.
End F32.

Abbreviation float := F32.float.

(** ** QVector3D and QSSGBounds3 *)

Record QVector3D := mkVec3 { vx : float; vy : float; vz : float }.

Definition vec3_sub (a b : QVector3D) : QVector3D :=
  mkVec3 (F32.sub (vx a) (vx b)) (F32.sub (vy a) (vy b)) (F32.sub (vz a) (vz b)).

Definition vec3_add (a b : QVector3D) : QVector3D :=
  mkVec3 (F32.add (vx a) (vx b)) (F32.add (vy a) (vy b)) (F32.add (vz a) (vz b)).

Definition vec3_neg (a : QVector3D) : QVector3D :=
  mkVec3 (F32.neg (vx a)) (F32.neg (vy a)) (F32.neg (vz a)).

Definition vec3_div (a : QVector3D) (d : float) : QVector3D :=
  mkVec3 (F32.div (vx a) d) (F32.div (vy a) d) (F32.div (vz a) d).

(** [QVector3D::dotProduct]: the three products summed left to right. *)
Definition dotProduct (a b : QVector3D) : float :=
  F32.add (F32.add (F32.mul (vx a) (vx b)) (F32.mul (vy a) (vy b)))
          (F32.mul (vz a) (vz b)).

Definition vec3_zero : QVector3D := mkVec3 F32.zero F32.zero F32.zero.

Record QSSGBounds3 := mkBounds { minimum : QVector3D; maximum : QVector3D }.

(** [QMatrix4x4]: the sixteen floats of [constData()]. *)
Definition QMatrix4x4 : Type := list float.

(** ** Renderable object flags

    [QSSGRenderableObjectFlags] is a [QFlags] over a 32-bit enumeration.  The
    header that numbers the bits is not part of the sources at hand; the bits
    are numbered here in the order the flags are used, and only their being
    distinct matters. *)

Inductive QSSGRenderableObjectFlag :=
| HasTransparency
| CompletelyTransparent
| Dirty
| CastsShadows
| ReceivesShadows
| HasAttributePosition
| HasAttributeNormal
| HasAttributeTexCoord0
| HasAttributeTexCoord1
| HasAttributeTangent
| HasAttributeBinormal
| HasAttributeColor
| HasAttributeJointAndWeight
| IsPointsTopology
| HasAttributeMorphTarget
| RequiresScreenTexture
| ReceivesReflections
| UsedInBakedLighting
| RendersWithLightmap
| HasAttributeTexCoordLightmap
| CastsReflections.

Definition flagBit (f : QSSGRenderableObjectFlag) : Z :=
  match f with
  | HasTransparency => 0
  | CompletelyTransparent => 1
  | Dirty => 2
  | CastsShadows => 3
  | ReceivesShadows => 4
  | HasAttributePosition => 5
  | HasAttributeNormal => 6
  | HasAttributeTexCoord0 => 7
  | HasAttributeTexCoord1 => 8
  | HasAttributeTangent => 9
  | HasAttributeBinormal => 10
  | HasAttributeColor => 11
  | HasAttributeJointAndWeight => 12
  | IsPointsTopology => 13
  | HasAttributeMorphTarget => 14
  | RequiresScreenTexture => 15
  | ReceivesReflections => 16
  | UsedInBakedLighting => 17
  | RendersWithLightmap => 18
  | HasAttributeTexCoordLightmap => 19
  | CastsReflections => 20
  end.

Definition QSSGRenderableObjectFlags : Type := Z.

Definition noFlags : QSSGRenderableObjectFlags := 0.

Definition testFlag (fl : QSSGRenderableObjectFlags) (f : QSSGRenderableObjectFlag) : bool :=
  Z.testbit fl (flagBit f).

(** [QFlags::setFlag(f, on)]. *)
Definition setFlag (fl : QSSGRenderableObjectFlags) (f : QSSGRenderableObjectFlag)
    (on : bool) : QSSGRenderableObjectFlags :=
  if on then Z.setbit fl (flagBit f) else Z.clearbit fl (flagBit f).

(** [fl |= f]. *)
Definition orFlag (fl : QSSGRenderableObjectFlags) (f : QSSGRenderableObjectFlag)
    : QSSGRenderableObjectFlags :=
  Z.lor fl (Z.shiftl 1 (flagBit f)).

(** The pass requirements gathered during preparation
    ([QSSGLayerRenderPreparationResultFlags]). *)
Record QSSGLayerRenderPreparationResultFlags := mkPrepFlags {
  wasDirty : bool;
  layerDataDirty : bool;
  requiresDepthTexture : bool;
  requiresSsaoPass : bool;
  requiresShadowMapPass : bool;
  requiresScreenTexture : bool;
  requiresMipmapsForScreenTexture : bool
}.

Definition noPrepFlags : QSSGLayerRenderPreparationResultFlags :=
  mkPrepFlags false false false false false false false.

Definition setRequiresDepthTexture (b : bool) (f : QSSGLayerRenderPreparationResultFlags) :=
  mkPrepFlags (wasDirty f) (layerDataDirty f) b (requiresSsaoPass f)
    (requiresShadowMapPass f) (requiresScreenTexture f) (requiresMipmapsForScreenTexture f).

Definition setRequiresSsaoPass (b : bool) (f : QSSGLayerRenderPreparationResultFlags) :=
  mkPrepFlags (wasDirty f) (layerDataDirty f) (requiresDepthTexture f) b
    (requiresShadowMapPass f) (requiresScreenTexture f) (requiresMipmapsForScreenTexture f).

Definition setRequiresShadowMapPass (b : bool) (f : QSSGLayerRenderPreparationResultFlags) :=
  mkPrepFlags (wasDirty f) (layerDataDirty f) (requiresDepthTexture f) (requiresSsaoPass f)
    b (requiresScreenTexture f) (requiresMipmapsForScreenTexture f).

Definition setRequiresScreenTexture (b : bool) (f : QSSGLayerRenderPreparationResultFlags) :=
  mkPrepFlags (wasDirty f) (layerDataDirty f) (requiresDepthTexture f) (requiresSsaoPass f)
    (requiresShadowMapPass f) b (requiresMipmapsForScreenTexture f).

Definition setRequiresMipmapsForScreenTexture (b : bool) (f : QSSGLayerRenderPreparationResultFlags) :=
  mkPrepFlags (wasDirty f) (layerDataDirty f) (requiresDepthTexture f) (requiresSsaoPass f)
    (requiresShadowMapPass f) (requiresScreenTexture f) b.

Definition setWasDirty (b : bool) (f : QSSGLayerRenderPreparationResultFlags) :=
  mkPrepFlags b (layerDataDirty f) (requiresDepthTexture f) (requiresSsaoPass f)
    (requiresShadowMapPass f) (requiresScreenTexture f) (requiresMipmapsForScreenTexture f).

Definition setLayerDataDirty (b : bool) (f : QSSGLayerRenderPreparationResultFlags) :=
  mkPrepFlags (wasDirty f) b (requiresDepthTexture f) (requiresSsaoPass f)
    (requiresShadowMapPass f) (requiresScreenTexture f) (requiresMipmapsForScreenTexture f).

(** ** Images and materials *)

(** What [QSSGBufferManager::loadRenderImage] hands back: the texture, null
    while the image is not available, and the flags read from it. *)
Inductive QRhiTextureFormat := RED_OR_ALPHA8 | R8 | OtherFormat.

Record QSSGRenderImageTexture := mkImageTexture {
  m_texture : option QRhiTextureFormat;
  m_flags_hasTransparency : bool
}.

(** [QSSGRenderImage]; [image_dirty] is what [clearDirty()] returns at the
    time the image is prepared. *)
Record QSSGRenderImage := mkImage {
  image_id : nat;
  image_dirty : bool
}.

Inductive QSSGRenderableImageType :=
| ImgDiffuse | ImgBaseColor | ImgOcclusion | ImgHeight | ImgClearcoat
| ImgClearcoatRoughness | ImgClearcoatNormal | ImgTransmission | ImgThickness
| ImgMetalness | ImgEmissive | ImgSpecular | ImgRoughness | ImgOpacity | ImgBump
| ImgSpecularAmountMap | ImgNormal | ImgTranslucency.

(** One link of the first/next chain of resolved images. *)
Record QSSGRenderableImage := mkRenderableImage {
  m_mapType : QSSGRenderableImageType;
  m_imageNode : QSSGRenderImage;
  m_imageTexture : QSSGRenderImageTexture
}.

Inductive MaterialBlendMode := SourceOver | Screen | Multiply.
Inductive MaterialAlphaMode := AlphaDefault | AlphaMask | AlphaBlend | AlphaOpaque.
Inductive DefaultMaterialType := DefaultMaterial | PrincipledMaterial | SpecularGlossyMaterial.

Record QSSGRenderDefaultMaterial := mkDefaultMaterial {
  mat_type : DefaultMaterialType;
  mat_isDirty : bool;
  mat_opacity : float;
  blendMode : MaterialBlendMode;
  alphaMode : MaterialAlphaMode;
  (** [isTransmissionEnabled()] *)
  isTransmissionEnabled : bool;
  colorMap : option QSSGRenderImage;
  occlusionMap : option QSSGRenderImage;
  heightMap : option QSSGRenderImage;
  clearcoatMap : option QSSGRenderImage;
  clearcoatRoughnessMap : option QSSGRenderImage;
  clearcoatNormalMap : option QSSGRenderImage;
  transmissionMap : option QSSGRenderImage;
  thicknessMap : option QSSGRenderImage;
  metalnessMap : option QSSGRenderImage;
  emissiveMap : option QSSGRenderImage;
  specularReflection : option QSSGRenderImage;
  roughnessMap : option QSSGRenderImage;
  opacityMap : option QSSGRenderImage;
  bumpMap : option QSSGRenderImage;
  specularMap : option QSSGRenderImage;
  normalMap : option QSSGRenderImage;
  translucencyMap : option QSSGRenderImage
}.

(** The capabilities a custom material declares ([m_renderFlags]); the flags
    that only reach the shader key are left out with the key. *)
Record QSSGRenderCustomMaterial := mkCustomMaterial {
  rf_Blending : bool;
  rf_ScreenTexture : bool;
  rf_ScreenMipTexture : bool;
  rf_DepthTexture : bool;
  rf_AoTexture : bool
}.

(** An entry of [model.materials] that is not null. *)
Inductive QSSGRenderGraphObject :=
| DefaultMaterialObject (m : QSSGRenderDefaultMaterial)
| CustomMaterialObject (m : QSSGRenderCustomMaterial)
| OtherGraphObject.

(** [QSSGDefaultMaterialPreparationResult], without the shader key. *)
Record QSSGDefaultMaterialPreparationResult := mkPrepResult {
  firstImage : list QSSGRenderableImage;
  opacity : float;
  renderableFlags : QSSGRenderableObjectFlags;
  dirty : bool
}.

(** ** Scene nodes *)

Abbreviation NodeId := nat.

Inductive CameraType :=
| PerspectiveCamera | OrthographicCamera | CustomFrustumCamera | CustomCamera.

Record QSSGRenderCamera := mkCamera {
  camera_id : NodeId;
  camera_type : CameraType;
  camera_isDirty : bool;
  (** [getGlobalState(GlobalState::Active)] *)
  camera_active : bool;
  camera_globalTransform : QMatrix4x4;
  horizontalMagnification : float;
  verticalMagnification : float;
  levelOfDetailPixelThreshold : float
}.

Record QRect := mkRect { rect_x : Z; rect_y : Z; rect_width : Z; rect_height : Z }.

Record QSSGCameraGlobalCalculationResult := mkCalcResult {
  m_wasDirty : bool;
  m_computeFrustumSucceeded : bool
}.

Record QSSGCameraData := mkCameraData {
  cd_direction : QVector3D;
  cd_position : QVector3D
}.

Inductive LightType := DirectionalLight | PointLight | SpotLight.

Record QSSGRenderLight := mkLight {
  light_id : NodeId;
  light_type : LightType;
  m_castShadow : bool;
  m_fullyBaked : bool;
  m_scope : option NodeId;
  m_shadowMapRes : Z;
  light_globalTransform : QMatrix4x4
}.

Record QSSGShaderLight := mkShaderLight {
  sl_light : QSSGRenderLight;
  sl_shadows : bool;
  sl_direction : QVector3D
}.

Inductive InputSemantic :=
| PositionSemantic | NormalSemantic | TexCoord0Semantic | TexCoord1Semantic
| TexCoordLightmapSemantic | TangentSemantic | BinormalSemantic | ColorSemantic
| JointSemantic | WeightSemantic.

Record QSSGRenderSubset := mkSubset {
  subset_bounds : QSSGBounds3;
  (** [lods[i].distance] *)
  lods : list float;
  (** [rhi.ia.topology == QRhiGraphicsPipeline::Points] *)
  topologyIsPoints : bool;
  ia_inputs : list InputSemantic;
  hasTargetsTexture : bool
}.

Record QSSGRenderMesh := mkMesh { subsets : list QSSGRenderSubset }.

Record QSSGRenderModel := mkModel {
  model_id : NodeId;
  model_globalTransform : QMatrix4x4;
  model_globalOpacity : float;
  (** [materials]; [None] is a null entry *)
  materials : list (option QSSGRenderGraphObject);
  castsShadows : bool;
  receivesShadows : bool;
  receivesReflections : bool;
  castsReflections : bool;
  usedInBakedLighting : bool;
  hasLightmap : bool;
  model_hasTransparency : bool;
  levelOfDetailBias : float;
  (** [instancing()] and [instanceTable->hasTransparency()] *)
  instancing : bool;
  instanceTable_hasTransparency : bool
}.

(** [QSSGRenderableNodeEntry]: the node and the mesh resolved for it. *)
Record QSSGRenderableNodeEntry (N : Type) := mkEntry {
  entry_node : N;
  entry_mesh : option QSSGRenderMesh
}.
Arguments mkEntry {N}.
Arguments entry_node {N}.
Arguments entry_mesh {N}.

Record QSSGRenderParticles := mkParticles {
  particles_id : NodeId;
  particles_globalTransform : QMatrix4x4;
  particles_globalOpacity : float;
  m_hasTransparency : bool;
  m_castsReflections : bool;
  (** [m_particleBuffer.particleCount()] and [m_particleBuffer.bounds()] *)
  particleCount : Z;
  particleBounds : QSSGBounds3;
  m_depthBiasSq : float;
  m_sprite : option QSSGRenderImage;
  m_colorTable : option QSSGRenderImage
}.

Record QSSGRenderItem2D := mkItem2D {
  item_id : NodeId;
  (** [parent], null for an item without a parent node *)
  item_parent : option NodeId;
  zOrder : Z
}.

Record QSSGRenderReflectionProbe := mkProbe {
  probe_id : NodeId;
  probe_globalTransform : QMatrix4x4;
  boxSize : QVector3D;
  boxOffset : QVector3D;
  parallaxCorrection : bool;
  (** [texture != nullptr] *)
  probe_hasTexture : bool
}.

(** ** Renderable records *)

Inductive RenderableType :=
| DefaultMaterialMeshSubset | CustomMaterialMeshSubset | Particles.

Record QSSGReflectionProbeData := mkProbeData {
  rp_parallaxCorrection : bool;
  rp_probeCubeMapCenter : QVector3D;
  rp_probeBoxMax : QVector3D;
  rp_probeBoxMin : QVector3D;
  rp_enabled : bool
}.

Definition noProbeData : QSSGReflectionProbeData :=
  mkProbeData false vec3_zero vec3_zero vec3_zero false.

(** [QSSGRenderableObject] with the members of [QSSGSubsetRenderable] and
    [QSSGParticlesRenderable] the preparation reads or writes. *)
Record QSSGRenderableObject := mkRenderable {
  ro_type : RenderableType;
  ro_flags : QSSGRenderableObjectFlags;
  worldCenterPoint : QVector3D;
  depthBiasSq : float;
  ro_node : NodeId;
  ro_subsetIndex : nat;
  ro_opacity : float;
  subsetLevelOfDetail : Z;
  ro_firstImage : list QSSGRenderableImage;
  ro_bounds : QSSGBounds3;
  ro_globalTransform : QMatrix4x4;
  reflectionProbeIndex : Z;
  distanceFromReflectionProbe : float;
  reflectionProbe : QSSGReflectionProbeData
}.

(** [QSSGRenderableObjectHandle]: [obj] points into the per-frame allocator,
    modelled as the index of the record in the frame's arena. *)
Record QSSGRenderableObjectHandle := mkHandle {
  obj : nat;
  cameraDistanceSq : float
}.

Abbreviation QSSGRenderableObjectList := (list QSSGRenderableObjectHandle).

(** ** Collaborators

    Constants and functions of Qt Quick 3D that the source uses and that are
    declared in headers and units outside the sources at hand. *)

Class Collaborators := {
  QSSG_RENDER_MINIMUM_RENDER_OPACITY : float;
  QSSG_MAX_NUM_LIGHTS : nat;
  QSSG_REDUCED_MAX_NUM_LIGHTS : nat;
  QSSG_MAX_NUM_SHADOW_MAPS : nat;
  (** [QSSGBufferManager] *)
  loadRenderImage : QSSGRenderImage -> QSSGRenderImageTexture;
  loadMesh : QSSGRenderModel -> option QSSGRenderMesh;
  loadLightmap : QSSGRenderModel -> bool;
  (** [QSSGRenderNode] and [QSSGRenderCamera] *)
  getGlobalPos : QMatrix4x4 -> QVector3D;
  getScalingCorrectDirection : QMatrix4x4 -> QVector3D;
  getLevelOfDetailMultiplier : QSSGRenderCamera -> float;
  calculateGlobalVariables :
    QRect -> QSSGRenderCamera -> QSSGRenderCamera * QSSGCameraGlobalCalculationResult;
  (** [mat44], [QSSGBounds3], [QSSGPlane], [QVector3D] *)
  mat44_getScale : QMatrix4x4 -> QVector3D;
  mat44_transform : QMatrix4x4 -> QVector3D -> QVector3D;
  mat44_map : QMatrix4x4 -> QVector3D -> QVector3D;
  bounds_transform : QSSGBounds3 -> QMatrix4x4 -> QSSGBounds3;
  bounds_getSupport : QSSGBounds3 -> QVector3D -> QVector3D;
  bounds_center : QSSGBounds3 -> QVector3D;
  bounds_centerExtents : QVector3D -> QVector3D -> QSSGBounds3;
  bounds_intersects : QSSGBounds3 -> QSSGBounds3 -> bool;
  plane_distance : QVector3D -> QVector3D -> QVector3D -> float;
  distanceToPoint : QVector3D -> QVector3D -> float;
  (** the depth bias the constructor of [QSSGSubsetRenderable] squares *)
  materialDepthBiasSq : QSSGRenderGraphObject -> float;
  (** [QRhi::isFeatureSupported(QRhi::Instancing)], the two texture formats
      particles need, and [QSSGRhiContext::maxUniformBufferRange()] *)
  rhiSupportsInstancing : bool;
  rhiSupportsRgba32f : bool;
  rhiSupportsRgba16f : bool;
  maxUniformBufferRange : Z;
  (** [QSSGCustomMaterialSystem::prepareForRender] *)
  customMaterialPrepareForRender :
    QSSGRenderModel -> QSSGRenderSubset -> QSSGRenderCustomMaterial -> bool
}.

(** ** The layer and its render data *)

Record QSSGRenderEffect := mkEffect {
  effect_isDirty : bool;
  effect_requiresDepthTexture : bool
}.

Record QSSGRenderLayer := mkLayer {
  layer_isDirty : bool;
  (** [layerFlags.testFlag(LayerFlag::EnableDepthTest)] *)
  enableDepthTest : bool;
  explicitCamera : option QSSGRenderCamera;
  (** [ssaoEnabled()] *)
  ssaoEnabled : bool;
  (** the chain [firstEffect], [m_nextEffect], ... *)
  effects : list QSSGRenderEffect;
  ssaaEnabled : bool;
  ssaaMultiplier : float
}.

Inductive QSSGRenderPass :=
| depthMapPass | ssaoMapPass | shadowMapPass | reflectionMapPass
| zPrePassPass | screenMapPass | mainPass.

Inductive ShadowMapModes := CUBE | VSM.

Record ShadowMapEntry := mkShadowMapEntry {
  sme_lightIdx : nat;
  sme_size : Z;
  sme_mode : ShadowMapModes
}.

(** What [QSSGRenderReflectionMap] was asked to add. *)
Inductive ReflectionMapEntry :=
| TexturedReflectionMapEntry (probeIdx : nat)
| LiveReflectionMapEntry (probeIdx : nat).

Record QSSGBakedLightingModel := mkBakedLightingModel {
  blm_model : NodeId;
  blm_renderables : QSSGRenderableObjectList
}.


(** The members of [QSSGLayerRenderData] the preparation works on.
    [sceneTransforms] holds the global transform of every scene node, by node
    identity; [arena] is the per-frame allocator as far as it holds renderable
    records. *)
Record QSSGLayerRenderData := mkLayerRenderData {
  layer : QSSGRenderLayer;
  viewport : QRect;
  camera : option QSSGRenderCamera;
  cameraData : option QSSGCameraData;
  cameras : list QSSGRenderCamera;
  lights : list QSSGRenderLight;
  reflectionProbes : list QSSGRenderReflectionProbe;
  renderableModels : list (QSSGRenderableNodeEntry QSSGRenderModel);
  renderableParticles : list (QSSGRenderableNodeEntry QSSGRenderParticles);
  renderableItem2Ds : list QSSGRenderItem2D;
  sceneTransforms : list QMatrix4x4;
  arena : list QSSGRenderableObject;
  opaqueObjects : QSSGRenderableObjectList;
  transparentObjects : QSSGRenderableObjectList;
  screenTextureObjects : QSSGRenderableObjectList;
  bakedLightingModels : list QSSGBakedLightingModel;
  renderedOpaqueObjects : QSSGRenderableObjectList;
  renderedTransparentObjects : QSSGRenderableObjectList;
  renderedScreenTextureObjects : QSSGRenderableObjectList;
  renderedItem2Ds : list QSSGRenderItem2D;
  globalLights : list QSSGShaderLight;
  activePasses : list QSSGRenderPass;
  layerPrepResult : option QSSGLayerRenderPreparationResultFlags;
  feature_ReduceMaxNumLights : bool;
  feature_Ssao : bool;
  feature_Ssm : bool;
  shadowMapEntries : list ShadowMapEntry;
  reflectionMapEntries : list ReflectionMapEntry;
  tooManyLightsWarningShown : bool;
  tooManyShadowLightsWarningShown : bool;
  particlesNotSupportedWarningShown : bool
}.

Definition set_layer (v : QSSGRenderLayer) (this : QSSGLayerRenderData) : QSSGLayerRenderData :=
  mkLayerRenderData v (viewport this) (camera this) (cameraData this) (cameras this)
    (lights this) (reflectionProbes this) (renderableModels this) (renderableParticles
    this) (renderableItem2Ds this) (sceneTransforms this) (arena this) (opaqueObjects
    this) (transparentObjects this) (screenTextureObjects this) (bakedLightingModels
    this) (renderedOpaqueObjects this) (renderedTransparentObjects this)
    (renderedScreenTextureObjects this) (renderedItem2Ds this) (globalLights this)
    (activePasses this) (layerPrepResult this) (feature_ReduceMaxNumLights this)
    (feature_Ssao this) (feature_Ssm this) (shadowMapEntries this) (reflectionMapEntries
    this) (tooManyLightsWarningShown this) (tooManyShadowLightsWarningShown this)
    (particlesNotSupportedWarningShown this).

Definition set_viewport (v : QRect) (this : QSSGLayerRenderData) : QSSGLayerRenderData :=
  mkLayerRenderData (layer this) v (camera this) (cameraData this) (cameras this)
    (lights this) (reflectionProbes this) (renderableModels this) (renderableParticles
    this) (renderableItem2Ds this) (sceneTransforms this) (arena this) (opaqueObjects
    this) (transparentObjects this) (screenTextureObjects this) (bakedLightingModels
    this) (renderedOpaqueObjects this) (renderedTransparentObjects this)
    (renderedScreenTextureObjects this) (renderedItem2Ds this) (globalLights this)
    (activePasses this) (layerPrepResult this) (feature_ReduceMaxNumLights this)
    (feature_Ssao this) (feature_Ssm this) (shadowMapEntries this) (reflectionMapEntries
    this) (tooManyLightsWarningShown this) (tooManyShadowLightsWarningShown this)
    (particlesNotSupportedWarningShown this).

Definition set_camera (v : option QSSGRenderCamera) (this : QSSGLayerRenderData) : QSSGLayerRenderData :=
  mkLayerRenderData (layer this) (viewport this) v (cameraData this) (cameras this)
    (lights this) (reflectionProbes this) (renderableModels this) (renderableParticles
    this) (renderableItem2Ds this) (sceneTransforms this) (arena this) (opaqueObjects
    this) (transparentObjects this) (screenTextureObjects this) (bakedLightingModels
    this) (renderedOpaqueObjects this) (renderedTransparentObjects this)
    (renderedScreenTextureObjects this) (renderedItem2Ds this) (globalLights this)
    (activePasses this) (layerPrepResult this) (feature_ReduceMaxNumLights this)
    (feature_Ssao this) (feature_Ssm this) (shadowMapEntries this) (reflectionMapEntries
    this) (tooManyLightsWarningShown this) (tooManyShadowLightsWarningShown this)
    (particlesNotSupportedWarningShown this).

Definition set_cameraData (v : option QSSGCameraData) (this : QSSGLayerRenderData) : QSSGLayerRenderData :=
  mkLayerRenderData (layer this) (viewport this) (camera this) v (cameras this) (lights
    this) (reflectionProbes this) (renderableModels this) (renderableParticles this)
    (renderableItem2Ds this) (sceneTransforms this) (arena this) (opaqueObjects this)
    (transparentObjects this) (screenTextureObjects this) (bakedLightingModels this)
    (renderedOpaqueObjects this) (renderedTransparentObjects this)
    (renderedScreenTextureObjects this) (renderedItem2Ds this) (globalLights this)
    (activePasses this) (layerPrepResult this) (feature_ReduceMaxNumLights this)
    (feature_Ssao this) (feature_Ssm this) (shadowMapEntries this) (reflectionMapEntries
    this) (tooManyLightsWarningShown this) (tooManyShadowLightsWarningShown this)
    (particlesNotSupportedWarningShown this).

Definition set_cameras (v : list QSSGRenderCamera) (this : QSSGLayerRenderData) : QSSGLayerRenderData :=
  mkLayerRenderData (layer this) (viewport this) (camera this) (cameraData this) v
    (lights this) (reflectionProbes this) (renderableModels this) (renderableParticles
    this) (renderableItem2Ds this) (sceneTransforms this) (arena this) (opaqueObjects
    this) (transparentObjects this) (screenTextureObjects this) (bakedLightingModels
    this) (renderedOpaqueObjects this) (renderedTransparentObjects this)
    (renderedScreenTextureObjects this) (renderedItem2Ds this) (globalLights this)
    (activePasses this) (layerPrepResult this) (feature_ReduceMaxNumLights this)
    (feature_Ssao this) (feature_Ssm this) (shadowMapEntries this) (reflectionMapEntries
    this) (tooManyLightsWarningShown this) (tooManyShadowLightsWarningShown this)
    (particlesNotSupportedWarningShown this).

Definition set_lights (v : list QSSGRenderLight) (this : QSSGLayerRenderData) : QSSGLayerRenderData :=
  mkLayerRenderData (layer this) (viewport this) (camera this) (cameraData this)
    (cameras this) v (reflectionProbes this) (renderableModels this)
    (renderableParticles this) (renderableItem2Ds this) (sceneTransforms this) (arena
    this) (opaqueObjects this) (transparentObjects this) (screenTextureObjects this)
    (bakedLightingModels this) (renderedOpaqueObjects this) (renderedTransparentObjects
    this) (renderedScreenTextureObjects this) (renderedItem2Ds this) (globalLights this)
    (activePasses this) (layerPrepResult this) (feature_ReduceMaxNumLights this)
    (feature_Ssao this) (feature_Ssm this) (shadowMapEntries this) (reflectionMapEntries
    this) (tooManyLightsWarningShown this) (tooManyShadowLightsWarningShown this)
    (particlesNotSupportedWarningShown this).

Definition set_reflectionProbes (v : list QSSGRenderReflectionProbe) (this : QSSGLayerRenderData) : QSSGLayerRenderData :=
  mkLayerRenderData (layer this) (viewport this) (camera this) (cameraData this)
    (cameras this) (lights this) v (renderableModels this) (renderableParticles this)
    (renderableItem2Ds this) (sceneTransforms this) (arena this) (opaqueObjects this)
    (transparentObjects this) (screenTextureObjects this) (bakedLightingModels this)
    (renderedOpaqueObjects this) (renderedTransparentObjects this)
    (renderedScreenTextureObjects this) (renderedItem2Ds this) (globalLights this)
    (activePasses this) (layerPrepResult this) (feature_ReduceMaxNumLights this)
    (feature_Ssao this) (feature_Ssm this) (shadowMapEntries this) (reflectionMapEntries
    this) (tooManyLightsWarningShown this) (tooManyShadowLightsWarningShown this)
    (particlesNotSupportedWarningShown this).

Definition set_renderableModels (v : list (QSSGRenderableNodeEntry QSSGRenderModel)) (this : QSSGLayerRenderData) : QSSGLayerRenderData :=
  mkLayerRenderData (layer this) (viewport this) (camera this) (cameraData this)
    (cameras this) (lights this) (reflectionProbes this) v (renderableParticles this)
    (renderableItem2Ds this) (sceneTransforms this) (arena this) (opaqueObjects this)
    (transparentObjects this) (screenTextureObjects this) (bakedLightingModels this)
    (renderedOpaqueObjects this) (renderedTransparentObjects this)
    (renderedScreenTextureObjects this) (renderedItem2Ds this) (globalLights this)
    (activePasses this) (layerPrepResult this) (feature_ReduceMaxNumLights this)
    (feature_Ssao this) (feature_Ssm this) (shadowMapEntries this) (reflectionMapEntries
    this) (tooManyLightsWarningShown this) (tooManyShadowLightsWarningShown this)
    (particlesNotSupportedWarningShown this).

Definition set_renderableParticles (v : list (QSSGRenderableNodeEntry QSSGRenderParticles)) (this : QSSGLayerRenderData) : QSSGLayerRenderData :=
  mkLayerRenderData (layer this) (viewport this) (camera this) (cameraData this)
    (cameras this) (lights this) (reflectionProbes this) (renderableModels this) v
    (renderableItem2Ds this) (sceneTransforms this) (arena this) (opaqueObjects this)
    (transparentObjects this) (screenTextureObjects this) (bakedLightingModels this)
    (renderedOpaqueObjects this) (renderedTransparentObjects this)
    (renderedScreenTextureObjects this) (renderedItem2Ds this) (globalLights this)
    (activePasses this) (layerPrepResult this) (feature_ReduceMaxNumLights this)
    (feature_Ssao this) (feature_Ssm this) (shadowMapEntries this) (reflectionMapEntries
    this) (tooManyLightsWarningShown this) (tooManyShadowLightsWarningShown this)
    (particlesNotSupportedWarningShown this).

Definition set_renderableItem2Ds (v : list QSSGRenderItem2D) (this : QSSGLayerRenderData) : QSSGLayerRenderData :=
  mkLayerRenderData (layer this) (viewport this) (camera this) (cameraData this)
    (cameras this) (lights this) (reflectionProbes this) (renderableModels this)
    (renderableParticles this) v (sceneTransforms this) (arena this) (opaqueObjects
    this) (transparentObjects this) (screenTextureObjects this) (bakedLightingModels
    this) (renderedOpaqueObjects this) (renderedTransparentObjects this)
    (renderedScreenTextureObjects this) (renderedItem2Ds this) (globalLights this)
    (activePasses this) (layerPrepResult this) (feature_ReduceMaxNumLights this)
    (feature_Ssao this) (feature_Ssm this) (shadowMapEntries this) (reflectionMapEntries
    this) (tooManyLightsWarningShown this) (tooManyShadowLightsWarningShown this)
    (particlesNotSupportedWarningShown this).

Definition set_sceneTransforms (v : list QMatrix4x4) (this : QSSGLayerRenderData) : QSSGLayerRenderData :=
  mkLayerRenderData (layer this) (viewport this) (camera this) (cameraData this)
    (cameras this) (lights this) (reflectionProbes this) (renderableModels this)
    (renderableParticles this) (renderableItem2Ds this) v (arena this) (opaqueObjects
    this) (transparentObjects this) (screenTextureObjects this) (bakedLightingModels
    this) (renderedOpaqueObjects this) (renderedTransparentObjects this)
    (renderedScreenTextureObjects this) (renderedItem2Ds this) (globalLights this)
    (activePasses this) (layerPrepResult this) (feature_ReduceMaxNumLights this)
    (feature_Ssao this) (feature_Ssm this) (shadowMapEntries this) (reflectionMapEntries
    this) (tooManyLightsWarningShown this) (tooManyShadowLightsWarningShown this)
    (particlesNotSupportedWarningShown this).

Definition set_arena (v : list QSSGRenderableObject) (this : QSSGLayerRenderData) : QSSGLayerRenderData :=
  mkLayerRenderData (layer this) (viewport this) (camera this) (cameraData this)
    (cameras this) (lights this) (reflectionProbes this) (renderableModels this)
    (renderableParticles this) (renderableItem2Ds this) (sceneTransforms this) v
    (opaqueObjects this) (transparentObjects this) (screenTextureObjects this)
    (bakedLightingModels this) (renderedOpaqueObjects this) (renderedTransparentObjects
    this) (renderedScreenTextureObjects this) (renderedItem2Ds this) (globalLights this)
    (activePasses this) (layerPrepResult this) (feature_ReduceMaxNumLights this)
    (feature_Ssao this) (feature_Ssm this) (shadowMapEntries this) (reflectionMapEntries
    this) (tooManyLightsWarningShown this) (tooManyShadowLightsWarningShown this)
    (particlesNotSupportedWarningShown this).

Definition set_opaqueObjects (v : QSSGRenderableObjectList) (this : QSSGLayerRenderData) : QSSGLayerRenderData :=
  mkLayerRenderData (layer this) (viewport this) (camera this) (cameraData this)
    (cameras this) (lights this) (reflectionProbes this) (renderableModels this)
    (renderableParticles this) (renderableItem2Ds this) (sceneTransforms this) (arena
    this) v (transparentObjects this) (screenTextureObjects this) (bakedLightingModels
    this) (renderedOpaqueObjects this) (renderedTransparentObjects this)
    (renderedScreenTextureObjects this) (renderedItem2Ds this) (globalLights this)
    (activePasses this) (layerPrepResult this) (feature_ReduceMaxNumLights this)
    (feature_Ssao this) (feature_Ssm this) (shadowMapEntries this) (reflectionMapEntries
    this) (tooManyLightsWarningShown this) (tooManyShadowLightsWarningShown this)
    (particlesNotSupportedWarningShown this).

Definition set_transparentObjects (v : QSSGRenderableObjectList) (this : QSSGLayerRenderData) : QSSGLayerRenderData :=
  mkLayerRenderData (layer this) (viewport this) (camera this) (cameraData this)
    (cameras this) (lights this) (reflectionProbes this) (renderableModels this)
    (renderableParticles this) (renderableItem2Ds this) (sceneTransforms this) (arena
    this) (opaqueObjects this) v (screenTextureObjects this) (bakedLightingModels this)
    (renderedOpaqueObjects this) (renderedTransparentObjects this)
    (renderedScreenTextureObjects this) (renderedItem2Ds this) (globalLights this)
    (activePasses this) (layerPrepResult this) (feature_ReduceMaxNumLights this)
    (feature_Ssao this) (feature_Ssm this) (shadowMapEntries this) (reflectionMapEntries
    this) (tooManyLightsWarningShown this) (tooManyShadowLightsWarningShown this)
    (particlesNotSupportedWarningShown this).

Definition set_screenTextureObjects (v : QSSGRenderableObjectList) (this : QSSGLayerRenderData) : QSSGLayerRenderData :=
  mkLayerRenderData (layer this) (viewport this) (camera this) (cameraData this)
    (cameras this) (lights this) (reflectionProbes this) (renderableModels this)
    (renderableParticles this) (renderableItem2Ds this) (sceneTransforms this) (arena
    this) (opaqueObjects this) (transparentObjects this) v (bakedLightingModels this)
    (renderedOpaqueObjects this) (renderedTransparentObjects this)
    (renderedScreenTextureObjects this) (renderedItem2Ds this) (globalLights this)
    (activePasses this) (layerPrepResult this) (feature_ReduceMaxNumLights this)
    (feature_Ssao this) (feature_Ssm this) (shadowMapEntries this) (reflectionMapEntries
    this) (tooManyLightsWarningShown this) (tooManyShadowLightsWarningShown this)
    (particlesNotSupportedWarningShown this).

Definition set_bakedLightingModels (v : list QSSGBakedLightingModel) (this : QSSGLayerRenderData) : QSSGLayerRenderData :=
  mkLayerRenderData (layer this) (viewport this) (camera this) (cameraData this)
    (cameras this) (lights this) (reflectionProbes this) (renderableModels this)
    (renderableParticles this) (renderableItem2Ds this) (sceneTransforms this) (arena
    this) (opaqueObjects this) (transparentObjects this) (screenTextureObjects this) v
    (renderedOpaqueObjects this) (renderedTransparentObjects this)
    (renderedScreenTextureObjects this) (renderedItem2Ds this) (globalLights this)
    (activePasses this) (layerPrepResult this) (feature_ReduceMaxNumLights this)
    (feature_Ssao this) (feature_Ssm this) (shadowMapEntries this) (reflectionMapEntries
    this) (tooManyLightsWarningShown this) (tooManyShadowLightsWarningShown this)
    (particlesNotSupportedWarningShown this).

Definition set_renderedOpaqueObjects (v : QSSGRenderableObjectList) (this : QSSGLayerRenderData) : QSSGLayerRenderData :=
  mkLayerRenderData (layer this) (viewport this) (camera this) (cameraData this)
    (cameras this) (lights this) (reflectionProbes this) (renderableModels this)
    (renderableParticles this) (renderableItem2Ds this) (sceneTransforms this) (arena
    this) (opaqueObjects this) (transparentObjects this) (screenTextureObjects this)
    (bakedLightingModels this) v (renderedTransparentObjects this)
    (renderedScreenTextureObjects this) (renderedItem2Ds this) (globalLights this)
    (activePasses this) (layerPrepResult this) (feature_ReduceMaxNumLights this)
    (feature_Ssao this) (feature_Ssm this) (shadowMapEntries this) (reflectionMapEntries
    this) (tooManyLightsWarningShown this) (tooManyShadowLightsWarningShown this)
    (particlesNotSupportedWarningShown this).

Definition set_renderedTransparentObjects (v : QSSGRenderableObjectList) (this : QSSGLayerRenderData) : QSSGLayerRenderData :=
  mkLayerRenderData (layer this) (viewport this) (camera this) (cameraData this)
    (cameras this) (lights this) (reflectionProbes this) (renderableModels this)
    (renderableParticles this) (renderableItem2Ds this) (sceneTransforms this) (arena
    this) (opaqueObjects this) (transparentObjects this) (screenTextureObjects this)
    (bakedLightingModels this) (renderedOpaqueObjects this) v
    (renderedScreenTextureObjects this) (renderedItem2Ds this) (globalLights this)
    (activePasses this) (layerPrepResult this) (feature_ReduceMaxNumLights this)
    (feature_Ssao this) (feature_Ssm this) (shadowMapEntries this) (reflectionMapEntries
    this) (tooManyLightsWarningShown this) (tooManyShadowLightsWarningShown this)
    (particlesNotSupportedWarningShown this).

Definition set_renderedScreenTextureObjects (v : QSSGRenderableObjectList) (this : QSSGLayerRenderData) : QSSGLayerRenderData :=
  mkLayerRenderData (layer this) (viewport this) (camera this) (cameraData this)
    (cameras this) (lights this) (reflectionProbes this) (renderableModels this)
    (renderableParticles this) (renderableItem2Ds this) (sceneTransforms this) (arena
    this) (opaqueObjects this) (transparentObjects this) (screenTextureObjects this)
    (bakedLightingModels this) (renderedOpaqueObjects this) (renderedTransparentObjects
    this) v (renderedItem2Ds this) (globalLights this) (activePasses this)
    (layerPrepResult this) (feature_ReduceMaxNumLights this) (feature_Ssao this)
    (feature_Ssm this) (shadowMapEntries this) (reflectionMapEntries this)
    (tooManyLightsWarningShown this) (tooManyShadowLightsWarningShown this)
    (particlesNotSupportedWarningShown this).

Definition set_renderedItem2Ds (v : list QSSGRenderItem2D) (this : QSSGLayerRenderData) : QSSGLayerRenderData :=
  mkLayerRenderData (layer this) (viewport this) (camera this) (cameraData this)
    (cameras this) (lights this) (reflectionProbes this) (renderableModels this)
    (renderableParticles this) (renderableItem2Ds this) (sceneTransforms this) (arena
    this) (opaqueObjects this) (transparentObjects this) (screenTextureObjects this)
    (bakedLightingModels this) (renderedOpaqueObjects this) (renderedTransparentObjects
    this) (renderedScreenTextureObjects this) v (globalLights this) (activePasses this)
    (layerPrepResult this) (feature_ReduceMaxNumLights this) (feature_Ssao this)
    (feature_Ssm this) (shadowMapEntries this) (reflectionMapEntries this)
    (tooManyLightsWarningShown this) (tooManyShadowLightsWarningShown this)
    (particlesNotSupportedWarningShown this).

Definition set_globalLights (v : list QSSGShaderLight) (this : QSSGLayerRenderData) : QSSGLayerRenderData :=
  mkLayerRenderData (layer this) (viewport this) (camera this) (cameraData this)
    (cameras this) (lights this) (reflectionProbes this) (renderableModels this)
    (renderableParticles this) (renderableItem2Ds this) (sceneTransforms this) (arena
    this) (opaqueObjects this) (transparentObjects this) (screenTextureObjects this)
    (bakedLightingModels this) (renderedOpaqueObjects this) (renderedTransparentObjects
    this) (renderedScreenTextureObjects this) (renderedItem2Ds this) v (activePasses
    this) (layerPrepResult this) (feature_ReduceMaxNumLights this) (feature_Ssao this)
    (feature_Ssm this) (shadowMapEntries this) (reflectionMapEntries this)
    (tooManyLightsWarningShown this) (tooManyShadowLightsWarningShown this)
    (particlesNotSupportedWarningShown this).

Definition set_activePasses (v : list QSSGRenderPass) (this : QSSGLayerRenderData) : QSSGLayerRenderData :=
  mkLayerRenderData (layer this) (viewport this) (camera this) (cameraData this)
    (cameras this) (lights this) (reflectionProbes this) (renderableModels this)
    (renderableParticles this) (renderableItem2Ds this) (sceneTransforms this) (arena
    this) (opaqueObjects this) (transparentObjects this) (screenTextureObjects this)
    (bakedLightingModels this) (renderedOpaqueObjects this) (renderedTransparentObjects
    this) (renderedScreenTextureObjects this) (renderedItem2Ds this) (globalLights this)
    v (layerPrepResult this) (feature_ReduceMaxNumLights this) (feature_Ssao this)
    (feature_Ssm this) (shadowMapEntries this) (reflectionMapEntries this)
    (tooManyLightsWarningShown this) (tooManyShadowLightsWarningShown this)
    (particlesNotSupportedWarningShown this).

Definition set_layerPrepResult (v : option QSSGLayerRenderPreparationResultFlags) (this : QSSGLayerRenderData) : QSSGLayerRenderData :=
  mkLayerRenderData (layer this) (viewport this) (camera this) (cameraData this)
    (cameras this) (lights this) (reflectionProbes this) (renderableModels this)
    (renderableParticles this) (renderableItem2Ds this) (sceneTransforms this) (arena
    this) (opaqueObjects this) (transparentObjects this) (screenTextureObjects this)
    (bakedLightingModels this) (renderedOpaqueObjects this) (renderedTransparentObjects
    this) (renderedScreenTextureObjects this) (renderedItem2Ds this) (globalLights this)
    (activePasses this) v (feature_ReduceMaxNumLights this) (feature_Ssao this)
    (feature_Ssm this) (shadowMapEntries this) (reflectionMapEntries this)
    (tooManyLightsWarningShown this) (tooManyShadowLightsWarningShown this)
    (particlesNotSupportedWarningShown this).

Definition set_feature_ReduceMaxNumLights (v : bool) (this : QSSGLayerRenderData) : QSSGLayerRenderData :=
  mkLayerRenderData (layer this) (viewport this) (camera this) (cameraData this)
    (cameras this) (lights this) (reflectionProbes this) (renderableModels this)
    (renderableParticles this) (renderableItem2Ds this) (sceneTransforms this) (arena
    this) (opaqueObjects this) (transparentObjects this) (screenTextureObjects this)
    (bakedLightingModels this) (renderedOpaqueObjects this) (renderedTransparentObjects
    this) (renderedScreenTextureObjects this) (renderedItem2Ds this) (globalLights this)
    (activePasses this) (layerPrepResult this) v (feature_Ssao this) (feature_Ssm this)
    (shadowMapEntries this) (reflectionMapEntries this) (tooManyLightsWarningShown this)
    (tooManyShadowLightsWarningShown this) (particlesNotSupportedWarningShown this).

Definition set_feature_Ssao (v : bool) (this : QSSGLayerRenderData) : QSSGLayerRenderData :=
  mkLayerRenderData (layer this) (viewport this) (camera this) (cameraData this)
    (cameras this) (lights this) (reflectionProbes this) (renderableModels this)
    (renderableParticles this) (renderableItem2Ds this) (sceneTransforms this) (arena
    this) (opaqueObjects this) (transparentObjects this) (screenTextureObjects this)
    (bakedLightingModels this) (renderedOpaqueObjects this) (renderedTransparentObjects
    this) (renderedScreenTextureObjects this) (renderedItem2Ds this) (globalLights this)
    (activePasses this) (layerPrepResult this) (feature_ReduceMaxNumLights this) v
    (feature_Ssm this) (shadowMapEntries this) (reflectionMapEntries this)
    (tooManyLightsWarningShown this) (tooManyShadowLightsWarningShown this)
    (particlesNotSupportedWarningShown this).

Definition set_feature_Ssm (v : bool) (this : QSSGLayerRenderData) : QSSGLayerRenderData :=
  mkLayerRenderData (layer this) (viewport this) (camera this) (cameraData this)
    (cameras this) (lights this) (reflectionProbes this) (renderableModels this)
    (renderableParticles this) (renderableItem2Ds this) (sceneTransforms this) (arena
    this) (opaqueObjects this) (transparentObjects this) (screenTextureObjects this)
    (bakedLightingModels this) (renderedOpaqueObjects this) (renderedTransparentObjects
    this) (renderedScreenTextureObjects this) (renderedItem2Ds this) (globalLights this)
    (activePasses this) (layerPrepResult this) (feature_ReduceMaxNumLights this)
    (feature_Ssao this) v (shadowMapEntries this) (reflectionMapEntries this)
    (tooManyLightsWarningShown this) (tooManyShadowLightsWarningShown this)
    (particlesNotSupportedWarningShown this).

Definition set_shadowMapEntries (v : list ShadowMapEntry) (this : QSSGLayerRenderData) : QSSGLayerRenderData :=
  mkLayerRenderData (layer this) (viewport this) (camera this) (cameraData this)
    (cameras this) (lights this) (reflectionProbes this) (renderableModels this)
    (renderableParticles this) (renderableItem2Ds this) (sceneTransforms this) (arena
    this) (opaqueObjects this) (transparentObjects this) (screenTextureObjects this)
    (bakedLightingModels this) (renderedOpaqueObjects this) (renderedTransparentObjects
    this) (renderedScreenTextureObjects this) (renderedItem2Ds this) (globalLights this)
    (activePasses this) (layerPrepResult this) (feature_ReduceMaxNumLights this)
    (feature_Ssao this) (feature_Ssm this) v (reflectionMapEntries this)
    (tooManyLightsWarningShown this) (tooManyShadowLightsWarningShown this)
    (particlesNotSupportedWarningShown this).

Definition set_reflectionMapEntries (v : list ReflectionMapEntry) (this : QSSGLayerRenderData) : QSSGLayerRenderData :=
  mkLayerRenderData (layer this) (viewport this) (camera this) (cameraData this)
    (cameras this) (lights this) (reflectionProbes this) (renderableModels this)
    (renderableParticles this) (renderableItem2Ds this) (sceneTransforms this) (arena
    this) (opaqueObjects this) (transparentObjects this) (screenTextureObjects this)
    (bakedLightingModels this) (renderedOpaqueObjects this) (renderedTransparentObjects
    this) (renderedScreenTextureObjects this) (renderedItem2Ds this) (globalLights this)
    (activePasses this) (layerPrepResult this) (feature_ReduceMaxNumLights this)
    (feature_Ssao this) (feature_Ssm this) (shadowMapEntries this) v
    (tooManyLightsWarningShown this) (tooManyShadowLightsWarningShown this)
    (particlesNotSupportedWarningShown this).

Definition set_tooManyLightsWarningShown (v : bool) (this : QSSGLayerRenderData) : QSSGLayerRenderData :=
  mkLayerRenderData (layer this) (viewport this) (camera this) (cameraData this)
    (cameras this) (lights this) (reflectionProbes this) (renderableModels this)
    (renderableParticles this) (renderableItem2Ds this) (sceneTransforms this) (arena
    this) (opaqueObjects this) (transparentObjects this) (screenTextureObjects this)
    (bakedLightingModels this) (renderedOpaqueObjects this) (renderedTransparentObjects
    this) (renderedScreenTextureObjects this) (renderedItem2Ds this) (globalLights this)
    (activePasses this) (layerPrepResult this) (feature_ReduceMaxNumLights this)
    (feature_Ssao this) (feature_Ssm this) (shadowMapEntries this) (reflectionMapEntries
    this) v (tooManyShadowLightsWarningShown this) (particlesNotSupportedWarningShown
    this).

Definition set_tooManyShadowLightsWarningShown (v : bool) (this : QSSGLayerRenderData) : QSSGLayerRenderData :=
  mkLayerRenderData (layer this) (viewport this) (camera this) (cameraData this)
    (cameras this) (lights this) (reflectionProbes this) (renderableModels this)
    (renderableParticles this) (renderableItem2Ds this) (sceneTransforms this) (arena
    this) (opaqueObjects this) (transparentObjects this) (screenTextureObjects this)
    (bakedLightingModels this) (renderedOpaqueObjects this) (renderedTransparentObjects
    this) (renderedScreenTextureObjects this) (renderedItem2Ds this) (globalLights this)
    (activePasses this) (layerPrepResult this) (feature_ReduceMaxNumLights this)
    (feature_Ssao this) (feature_Ssm this) (shadowMapEntries this) (reflectionMapEntries
    this) (tooManyLightsWarningShown this) v (particlesNotSupportedWarningShown this).

Definition set_particlesNotSupportedWarningShown (v : bool) (this : QSSGLayerRenderData) : QSSGLayerRenderData :=
  mkLayerRenderData (layer this) (viewport this) (camera this) (cameraData this)
    (cameras this) (lights this) (reflectionProbes this) (renderableModels this)
    (renderableParticles this) (renderableItem2Ds this) (sceneTransforms this) (arena
    this) (opaqueObjects this) (transparentObjects this) (screenTextureObjects this)
    (bakedLightingModels this) (renderedOpaqueObjects this) (renderedTransparentObjects
    this) (renderedScreenTextureObjects this) (renderedItem2Ds this) (globalLights this)
    (activePasses this) (layerPrepResult this) (feature_ReduceMaxNumLights this)
    (feature_Ssao this) (feature_Ssm this) (shadowMapEntries this) (reflectionMapEntries
    this) (tooManyLightsWarningShown this) (tooManyShadowLightsWarningShown this) v.

(** ** Material preparation *)

Section Preparation.
Context `{Collaborators}.

Definition isTransparencyMap (t : QSSGRenderableImageType) : bool :=
  match t with
  | ImgDiffuse | ImgOpacity | ImgTranslucency => true
  | _ => false
  end.

(** [prepareImageForRender]: the state is the first/next chain built so far
    and the renderable flags. *)
Definition prepareImageForRender (inImage : QSSGRenderImage)
    (inMapType : QSSGRenderableImageType)
    (st : list QSSGRenderableImage * QSSGRenderableObjectFlags)
    : list QSSGRenderableImage * QSSGRenderableObjectFlags :=
  let '(images, ioFlags) := st in
  let ioFlags := if image_dirty inImage then orFlag ioFlags Dirty else ioFlags in
  let texture := loadRenderImage inImage in
  match m_texture texture with
  | Some _ =>
      let ioFlags :=
        if m_flags_hasTransparency texture && isTransparencyMap inMapType
        then orFlag ioFlags HasTransparency else ioFlags in
      (images ++ [mkRenderableImage inMapType inImage texture], ioFlags)
  | None => (images, ioFlags)
  end.

Definition CHECK_IMAGE_AND_PREPARE (img : option QSSGRenderImage)
    (imgtype : QSSGRenderableImageType)
    (st : list QSSGRenderableImage * QSSGRenderableObjectFlags) :=
  match img with
  | Some i => prepareImageForRender i imgtype st
  | None => st
  end.

(** The images of a default material, in the order the source visits them. *)
Definition prepareMaterialImages (theMaterial : QSSGRenderDefaultMaterial)
    (st : list QSSGRenderableImage * QSSGRenderableObjectFlags) :=
  let st :=
    match mat_type theMaterial with
    | PrincipledMaterial | SpecularGlossyMaterial =>
        let st := CHECK_IMAGE_AND_PREPARE (colorMap theMaterial) ImgBaseColor st in
        let st := CHECK_IMAGE_AND_PREPARE (occlusionMap theMaterial) ImgOcclusion st in
        let st := CHECK_IMAGE_AND_PREPARE (heightMap theMaterial) ImgHeight st in
        let st := CHECK_IMAGE_AND_PREPARE (clearcoatMap theMaterial) ImgClearcoat st in
        let st := CHECK_IMAGE_AND_PREPARE (clearcoatRoughnessMap theMaterial) ImgClearcoatRoughness st in
        let st := CHECK_IMAGE_AND_PREPARE (clearcoatNormalMap theMaterial) ImgClearcoatNormal st in
        let st := CHECK_IMAGE_AND_PREPARE (transmissionMap theMaterial) ImgTransmission st in
        let st := CHECK_IMAGE_AND_PREPARE (thicknessMap theMaterial) ImgThickness st in
        match mat_type theMaterial with
        | PrincipledMaterial =>
            CHECK_IMAGE_AND_PREPARE (metalnessMap theMaterial) ImgMetalness st
        | _ => st
        end
    | DefaultMaterial =>
        CHECK_IMAGE_AND_PREPARE (colorMap theMaterial) ImgDiffuse st
    end in
  let st := CHECK_IMAGE_AND_PREPARE (emissiveMap theMaterial) ImgEmissive st in
  let st := CHECK_IMAGE_AND_PREPARE (specularReflection theMaterial) ImgSpecular st in
  let st := CHECK_IMAGE_AND_PREPARE (roughnessMap theMaterial) ImgRoughness st in
  let st := CHECK_IMAGE_AND_PREPARE (opacityMap theMaterial) ImgOpacity st in
  let st := CHECK_IMAGE_AND_PREPARE (bumpMap theMaterial) ImgBump st in
  let st := CHECK_IMAGE_AND_PREPARE (specularMap theMaterial) ImgSpecularAmountMap st in
  let st := CHECK_IMAGE_AND_PREPARE (normalMap theMaterial) ImgNormal st in
  CHECK_IMAGE_AND_PREPARE (translucencyMap theMaterial) ImgTranslucency st.

Definition isSourceOver (b : MaterialBlendMode) : bool :=
  match b with SourceOver => true | _ => false end.

Definition isAlphaBlend (a : MaterialAlphaMode) : bool :=
  match a with AlphaBlend => true | _ => false end.

(** The two tests that close the opacity handling of both material kinds
    (lines 794-806 and 836-848): first [subsetOpacity < MIN], then
    [subsetOpacity > 1.f - MIN] on the value the first test left. *)
Definition clampSubsetOpacity (subsetOpacity : float)
    (renderableFlags : QSSGRenderableObjectFlags)
    : float * QSSGRenderableObjectFlags :=
  let '(subsetOpacity, renderableFlags) :=
    if F32.ltb subsetOpacity QSSG_RENDER_MINIMUM_RENDER_OPACITY
    then (F32.zero,
          orFlag (orFlag renderableFlags HasTransparency) CompletelyTransparent)
    else (subsetOpacity, renderableFlags) in
  if F32.gtb subsetOpacity (F32.sub F32.one QSSG_RENDER_MINIMUM_RENDER_OPACITY)
  then (F32.one, renderableFlags)
  else (subsetOpacity, orFlag renderableFlags HasTransparency).

(** [prepareDefaultMaterialForRender], without the shader key and the
    shader features. *)
Definition prepareDefaultMaterialForRender (inMaterial : QSSGRenderDefaultMaterial)
    (inExistingFlags : QSSGRenderableObjectFlags) (inOpacity : float)
    (ioFlags : QSSGLayerRenderPreparationResultFlags)
    : QSSGDefaultMaterialPreparationResult * QSSGLayerRenderPreparationResultFlags :=
  let renderableFlags := inExistingFlags in
  let subsetOpacity := inOpacity in
  let renderableFlags :=
    if mat_isDirty inMaterial then orFlag renderableFlags Dirty else renderableFlags in
  let subsetOpacity := F32.mul subsetOpacity (mat_opacity inMaterial) in
  let '(firstImage, renderableFlags) :=
    if F32.geb subsetOpacity QSSG_RENDER_MINIMUM_RENDER_OPACITY then
      let renderableFlags :=
        if negb (isSourceOver (blendMode inMaterial))
           || bool_decide (is_Some (opacityMap inMaterial))
           || isAlphaBlend (alphaMode inMaterial)
        then orFlag renderableFlags HasTransparency else renderableFlags in
      prepareMaterialImages inMaterial ([], renderableFlags)
    else ([], renderableFlags) in
  let '(subsetOpacity, renderableFlags) := clampSubsetOpacity subsetOpacity renderableFlags in
  let '(ioFlags, renderableFlags) :=
    if isTransmissionEnabled inMaterial then
      (setRequiresMipmapsForScreenTexture true (setRequiresScreenTexture true ioFlags),
       orFlag renderableFlags RequiresScreenTexture)
    else (ioFlags, renderableFlags) in
  (mkPrepResult firstImage subsetOpacity renderableFlags (testFlag renderableFlags Dirty),
   ioFlags).

(** [prepareCustomMaterialForRender], without the shader key. *)
Definition prepareCustomMaterialForRender (inMaterial : QSSGRenderCustomMaterial)
    (inExistingFlags : QSSGRenderableObjectFlags) (inOpacity : float)
    (ioFlags : QSSGLayerRenderPreparationResultFlags)
    : QSSGDefaultMaterialPreparationResult * QSSGLayerRenderPreparationResultFlags :=
  let renderableFlags := inExistingFlags in
  let subsetOpacity := inOpacity in
  let '(subsetOpacity, renderableFlags) := clampSubsetOpacity subsetOpacity renderableFlags in
  let renderableFlags :=
    if rf_Blending inMaterial then orFlag renderableFlags HasTransparency
    else renderableFlags in
  let '(ioFlags, renderableFlags) :=
    if rf_ScreenTexture inMaterial then
      (setRequiresScreenTexture true ioFlags, orFlag renderableFlags RequiresScreenTexture)
    else (ioFlags, renderableFlags) in
  let '(ioFlags, renderableFlags) :=
    if rf_ScreenMipTexture inMaterial then
      (setRequiresMipmapsForScreenTexture true (setRequiresScreenTexture true ioFlags),
       orFlag renderableFlags RequiresScreenTexture)
    else (ioFlags, renderableFlags) in
  let ioFlags :=
    if rf_DepthTexture inMaterial then setRequiresDepthTexture true ioFlags else ioFlags in
  let ioFlags :=
    if rf_AoTexture inMaterial
    then setRequiresSsaoPass true (setRequiresDepthTexture true ioFlags) else ioFlags in
  (mkPrepResult [] subsetOpacity renderableFlags false, ioFlags).


(** ** Camera distance and the per-frame allocator *)

Definition getCameraDirectionAndPosition (this : QSSGLayerRenderData)
    : QSSGCameraData * QSSGLayerRenderData :=
  match cameraData this with
  | Some cd => (cd, this)
  | None =>
      let cd :=
        match camera this with
        | Some c =>
            mkCameraData (getScalingCorrectDirection (camera_globalTransform c))
                         (getGlobalPos (camera_globalTransform c))
        | None =>
            mkCameraData (mkVec3 F32.zero F32.zero (F32.neg F32.one)) vec3_zero
        end in
      (cd, set_cameraData (Some cd) this)
  end.

Definition getCameraDistanceSq (o : QSSGRenderableObject) (camera : QSSGCameraData)
    : float :=
  let difference := vec3_sub (worldCenterPoint o) (cd_position camera) in
  F32.add (dotProduct difference (cd_direction camera)) (depthBiasSq o).

(** [RENDER_FRAME_NEW] of a renderable record: the pointer it returns is the
    index of the new record in the arena. *)
Definition RENDER_FRAME_NEW (o : QSSGRenderableObject) (this : QSSGLayerRenderData)
    : nat * QSSGLayerRenderData :=
  (length (arena this), set_arena (arena this ++ [o]) this).

(** The constructor of [QSSGSubsetRenderable] keeps its arguments, takes the
    bounds of the subset and the global transform of the model, and starts
    without a reflection probe (index -1). *)
Definition newSubsetRenderable (ty : RenderableType) (flags : QSSGRenderableObjectFlags)
    (center : QVector3D) (model : QSSGRenderModel) (idx : nat)
    (theSubset : QSSGRenderSubset) (subsetOpacity : float) (lod : Z)
    (material : QSSGRenderGraphObject) (images : list QSSGRenderableImage)
    : QSSGRenderableObject :=
  mkRenderable ty flags center (materialDepthBiasSq material) (model_id model) idx
    subsetOpacity lod images (subset_bounds theSubset) (model_globalTransform model)
    (-1) F32.zero noProbeData.

(** The constructor of [QSSGParticlesRenderable]. *)
Definition newParticlesRenderable (flags : QSSGRenderableObjectFlags)
    (center : QVector3D) (particles : QSSGRenderParticles)
    (images : list QSSGRenderableImage) (opacity : float) : QSSGRenderableObject :=
  mkRenderable Particles flags center (m_depthBiasSq particles) (particles_id particles) 0
    opacity 0 images (particleBounds particles) (particles_globalTransform particles)
    (-1) F32.zero noProbeData.

(** The bucket choice of lines 1401-1408 and 1490-1497. *)
Definition pushRenderable (theRenderableObject : nat) (o : QSSGRenderableObject)
    (cameraData : QSSGCameraData) (this : QSSGLayerRenderData) : QSSGLayerRenderData :=
  let handle := mkHandle theRenderableObject (getCameraDistanceSq o cameraData) in
  if testFlag (ro_flags o) RequiresScreenTexture then
    set_screenTextureObjects (screenTextureObjects this ++ [handle]) this
  else if testFlag (ro_flags o) HasTransparency then
    set_transparentObjects (transparentObjects this ++ [handle]) this
  else
    set_opaqueObjects (opaqueObjects this ++ [handle]) this.

(** ** Level of detail (lines 1113-1166) *)

(** The loop over [theSubset.lods]: [i] is the index of the head of [ls]. *)
Fixpoint lodLoop (ls : list float) (i : Z) (currentLod : Z)
    (modelScale modelBias threshold lodThreshold : float) : Z :=
  match ls with
  | [] => currentLod
  | distance :: rest =>
      let subsetDistance := F32.mul (F32.mul distance modelScale) modelBias in
      let screenSize := F32.div subsetDistance threshold in
      if F32.gtb screenSize lodThreshold then currentLod
      else lodLoop rest (i + 1) i modelScale modelBias threshold lodThreshold
  end.

Definition lodDistanceThreshold (cam : QSSGRenderCamera) (model : QSSGRenderModel)
    (theSubset : QSSGRenderSubset) : float :=
  match camera_type cam with
  | OrthographicCamera => F32.one
  | _ =>
      let transformedBounds :=
        bounds_transform (subset_bounds theSubset) (model_globalTransform model) in
      let cameraNormal := getScalingCorrectDirection (camera_globalTransform cam) in
      let cameraPosition := getGlobalPos (camera_globalTransform cam) in
      let lodSupportMin := bounds_getSupport transformedBounds (vec3_neg cameraNormal) in
      let lodSupportMax := bounds_getSupport transformedBounds cameraNormal in
      let distanceMin := plane_distance cameraPosition cameraNormal lodSupportMin in
      let distanceMax := plane_distance cameraPosition cameraNormal lodSupportMax in
      if F32.ltb (F32.mul distanceMin distanceMax) F32.zero then F32.zero
      else if F32.geb distanceMin F32.zero then distanceMin
      else if F32.leb distanceMax F32.zero then F32.neg distanceMax
      else F32.zero
  end.

(** The value of [subsetLevelOfDetail]; [None] stands for the null camera
    being dereferenced. *)
Definition selectLevelOfDetail (camera : option QSSGRenderCamera)
    (model : QSSGRenderModel) (theSubset : QSSGRenderSubset) (lodThreshold : float)
    : option Z :=
  if negb (bool_decide (lods theSubset = [])) && F32.gtb lodThreshold F32.zero then
    cam ← camera;
    let lodDistanceMultiplier := getLevelOfDetailMultiplier cam in
    let scale := mat44_getScale (model_globalTransform model) in
    let modelScale := F32.qMax (vx scale) (F32.qMax (vy scale) (vz scale)) in
    let distanceThreshold := lodDistanceThreshold cam model theSubset in
    let currentLod :=
      if F32.gtb (levelOfDetailBias model) F32.zero then
        let threshold := F32.mul distanceThreshold lodDistanceMultiplier in
        let modelBias := F32.div F32.one (levelOfDetailBias model) in
        lodLoop (lods theSubset) 0 (-1) modelScale modelBias threshold lodThreshold
      else -1 in
    Some (if currentLod =? -1 then 0 else currentLod + 1)
  else Some 0.

(** ** Model preparation *)

(** The flags shared by the subsets of a model (lines 1025-1079). *)
Definition setInputSemantic (sem : InputSemantic)
    (acc : QSSGRenderableObjectFlags * bool * bool)
    : QSSGRenderableObjectFlags * bool * bool :=
  let '(fl, hasJoint, hasWeight) := acc in
  match sem with
  | PositionSemantic => (setFlag fl HasAttributePosition true, hasJoint, hasWeight)
  | NormalSemantic => (setFlag fl HasAttributeNormal true, hasJoint, hasWeight)
  | TexCoord0Semantic => (setFlag fl HasAttributeTexCoord0 true, hasJoint, hasWeight)
  | TexCoord1Semantic => (setFlag fl HasAttributeTexCoord1 true, hasJoint, hasWeight)
  | TexCoordLightmapSemantic =>
      (setFlag fl HasAttributeTexCoordLightmap true, hasJoint, hasWeight)
  | TangentSemantic => (setFlag fl HasAttributeTangent true, hasJoint, hasWeight)
  | BinormalSemantic => (setFlag fl HasAttributeBinormal true, hasJoint, hasWeight)
  | ColorSemantic => (setFlag fl HasAttributeColor true, hasJoint, hasWeight)
  | JointSemantic => (fl, true, hasWeight)
  | WeightSemantic => (fl, hasJoint, true)
  end.

Definition renderableFlagsForModel (model : QSSGRenderModel) (theMesh : QSSGRenderMesh)
    : QSSGRenderableObjectFlags :=
  match subsets theMesh with
  | [] => noFlags
  | theSubset :: _ =>
      let fl := setFlag noFlags CastsShadows (castsShadows model) in
      let fl := setFlag fl ReceivesShadows (receivesShadows model) in
      let fl := setFlag fl ReceivesReflections (receivesReflections model) in
      let fl := setFlag fl CastsReflections (castsReflections model) in
      let fl := setFlag fl UsedInBakedLighting (usedInBakedLighting model) in
      let fl :=
        if hasLightmap model && loadLightmap model
        then setFlag fl RendersWithLightmap true else fl in
      let '(fl, hasJoint, hasWeight) :=
        fold_left (fun acc sem => setInputSemantic sem acc) (ia_inputs theSubset)
                  (fl, false, false) in
      let fl := setFlag fl HasAttributeJointAndWeight (hasJoint && hasWeight) in
      setFlag fl HasAttributeMorphTarget (hasTargetsTexture theSubset)
  end.

(** The locals of the loop over models together with the render data. *)
Record ModelLoopState := mkModelLoopState {
  ls_wasDirty : bool;
  ls_ioFlags : QSSGLayerRenderPreparationResultFlags;
  ls_bakedLightingObjects : QSSGRenderableObjectList;
  ls_this : QSSGLayerRenderData
}.

(** [model.materials.last()] and [model.materials.at(idx)] on a list that is
    not empty; the list holds pointers, [None] is the null pointer. *)
Definition materialForSubset (mats : list (option QSSGRenderGraphObject)) (idx : nat)
    : option QSSGRenderGraphObject :=
  if (length mats <? idx + 1)%nat then mjoin (last mats) else mjoin (mats !! idx).

(** One turn of the loop over the subsets, for a material that is not null
    (lines 1099-1411). *)
Definition prepareSubset (model : QSSGRenderModel) (theMesh : QSSGRenderMesh)
    (idx : nat) (theSubset : QSSGRenderSubset)
    (theMaterialObject : QSSGRenderGraphObject)
    (cameraData : QSSGCameraData) (lodThreshold : float)
    (st : ModelLoopState) : option ModelLoopState :=
  let this := ls_this st in
  let subsetFlags := renderableFlagsForModel model theMesh in
  let subsetOpacity := model_globalOpacity model in
  let subsetFlags :=
    setFlag subsetFlags IsPointsTopology (topologyIsPoints theSubset) in
  let usesInstancing := instancing model && rhiSupportsInstancing in
  let subsetFlags :=
    if usesInstancing && instanceTable_hasTransparency model
    then orFlag subsetFlags HasTransparency else subsetFlags in
  let subsetFlags :=
    if model_hasTransparency model
    then orFlag subsetFlags HasTransparency else subsetFlags in
  lod ← selectLevelOfDetail (camera this) model theSubset lodThreshold;
  let theModelCenter :=
    mat44_transform (model_globalTransform model) (bounds_center (subset_bounds theSubset)) in
  let '(theRenderableObject, wasDirty, ioFlags) :=
    match theMaterialObject with
    | DefaultMaterialObject theMaterial =>
        let '(theMaterialPrepResult, ioFlags) :=
          prepareDefaultMaterialForRender theMaterial subsetFlags subsetOpacity
            (ls_ioFlags st) in
        let wasDirty := ls_wasDirty st || dirty theMaterialPrepResult in
        let preparedFlags := renderableFlags theMaterialPrepResult in
        (Some (newSubsetRenderable DefaultMaterialMeshSubset preparedFlags
                 theModelCenter model idx theSubset (opacity theMaterialPrepResult) lod
                 theMaterialObject (firstImage theMaterialPrepResult)),
         wasDirty || testFlag preparedFlags Dirty, ioFlags)
    | CustomMaterialObject theMaterial =>
        let wasDirty :=
          ls_wasDirty st || customMaterialPrepareForRender model theSubset theMaterial in
        let '(theMaterialPrepResult, ioFlags) :=
          prepareCustomMaterialForRender theMaterial subsetFlags subsetOpacity
            (ls_ioFlags st) in
        let preparedFlags := renderableFlags theMaterialPrepResult in
        (Some (newSubsetRenderable CustomMaterialMeshSubset preparedFlags
                 theModelCenter model idx theSubset (opacity theMaterialPrepResult) lod
                 theMaterialObject (firstImage theMaterialPrepResult)),
         wasDirty, ioFlags)
    | OtherGraphObject => (None, ls_wasDirty st, ls_ioFlags st)
    end in
  match theRenderableObject with
  | Some o =>
      let '(ptr, this) := RENDER_FRAME_NEW o this in
      let this := pushRenderable ptr o cameraData this in
      let baked :=
        if testFlag (ro_flags o) UsedInBakedLighting
        then ls_bakedLightingObjects st ++ [mkHandle ptr (getCameraDistanceSq o cameraData)]
        else ls_bakedLightingObjects st in
      Some (mkModelLoopState wasDirty ioFlags baked this)
  | None => Some (mkModelLoopState wasDirty ioFlags (ls_bakedLightingObjects st) this)
  end.

(** The loop over the subsets (lines 1086-1412); [idx] is the index of the
    head of [remaining]. *)
Fixpoint prepareSubsets (model : QSSGRenderModel) (theMesh : QSSGRenderMesh)
    (idx : nat) (remaining : list QSSGRenderSubset)
    (cameraData : QSSGCameraData) (lodThreshold : float)
    (st : ModelLoopState) : option ModelLoopState :=
  match remaining with
  | [] => Some st
  | theSubset :: rest =>
      if bool_decide (materials model = []) then Some st
      else
        match materialForSubset (materials model) idx with
        | None => prepareSubsets model theMesh (S idx) rest cameraData lodThreshold st
        | Some theMaterialObject =>
            st ← prepareSubset model theMesh idx theSubset theMaterialObject
                   cameraData lodThreshold st;
            prepareSubsets model theMesh (S idx) rest cameraData lodThreshold st
        end
  end.

(** The body of the third loop over the models (lines 1013-1416). *)
Definition prepareModel (renderable : QSSGRenderableNodeEntry QSSGRenderModel)
    (cameraData : QSSGCameraData) (lodThreshold : float)
    (wasDirty : bool) (ioFlags : QSSGLayerRenderPreparationResultFlags)
    (this : QSSGLayerRenderData)
    : option (bool * QSSGLayerRenderPreparationResultFlags * QSSGLayerRenderData) :=
  let model := entry_node renderable in
  match entry_mesh renderable with
  | None => Some (wasDirty, ioFlags, this)
  | Some theMesh =>
      st ← prepareSubsets model theMesh 0 (subsets theMesh) cameraData lodThreshold
             (mkModelLoopState wasDirty ioFlags [] this);
      let this := ls_this st in
      let this :=
        if bool_decide (ls_bakedLightingObjects st = []) then this
        else set_bakedLightingModels
               (bakedLightingModels this
                  ++ [mkBakedLightingModel (model_id model) (ls_bakedLightingObjects st)])
               this in
      Some (ls_wasDirty st, ls_ioFlags st, this)
  end.

Fixpoint prepareModels (renderables : list (QSSGRenderableNodeEntry QSSGRenderModel))
    (cameraData : QSSGCameraData) (lodThreshold : float)
    (wasDirty : bool) (ioFlags : QSSGLayerRenderPreparationResultFlags)
    (this : QSSGLayerRenderData)
    : option (bool * QSSGLayerRenderPreparationResultFlags * QSSGLayerRenderData) :=
  match renderables with
  | [] => Some (wasDirty, ioFlags, this)
  | renderable :: rest =>
      '(wasDirty, ioFlags, this) ←
        prepareModel renderable cameraData lodThreshold wasDirty ioFlags this;
      prepareModels rest cameraData lodThreshold wasDirty ioFlags this
  end.

(** [prepareModelForRender]: the meshes are loaded for every model first
    (the bounding volume hierarchies for picking and the bone textures of the
    second loop are left out, and so are the model contexts), then the
    subsets are prepared.  The mesh is kept in the entry, which nothing reads
    once this function is over. *)
Definition prepareModelForRender
    (renderableModels : list (QSSGRenderableNodeEntry QSSGRenderModel))
    (ioFlags : QSSGLayerRenderPreparationResultFlags)
    (cameraData : QSSGCameraData) (lodThreshold : float)
    (this : QSSGLayerRenderData)
    : option (bool * QSSGLayerRenderPreparationResultFlags * QSSGLayerRenderData) :=
  let this :=
    if negb rhiSupportsRgba32f && negb rhiSupportsRgba16f
    then set_particlesNotSupportedWarningShown true this else this in
  let loaded :=
    map (fun renderable => mkEntry (entry_node renderable) (loadMesh (entry_node renderable)))
        renderableModels in
  prepareModels loaded cameraData lodThreshold false ioFlags this.

(** ** Particle preparation *)

Definition prepareParticles (renderable : QSSGRenderableNodeEntry QSSGRenderParticles)
    (cameraData : QSSGCameraData) (dirty : bool) (this : QSSGLayerRenderData)
    : bool * QSSGLayerRenderData :=
  let particles := entry_node renderable in
  let renderableFlags := setFlag noFlags CastsShadows false in
  let renderableFlags := setFlag renderableFlags ReceivesShadows false in
  let renderableFlags := setFlag renderableFlags HasAttributePosition true in
  let renderableFlags := setFlag renderableFlags HasAttributeNormal true in
  let renderableFlags := setFlag renderableFlags HasAttributeTexCoord0 true in
  let renderableFlags := setFlag renderableFlags HasAttributeColor true in
  let renderableFlags := setFlag renderableFlags HasTransparency (m_hasTransparency particles) in
  let renderableFlags := setFlag renderableFlags CastsReflections (m_castsReflections particles) in
  let opacity := particles_globalOpacity particles in
  let center :=
    mat44_transform (particles_globalTransform particles)
                    (bounds_center (particleBounds particles)) in
  let '(firstImage, dirty) :=
    match m_sprite particles with
    | Some sprite =>
        ([mkRenderableImage ImgDiffuse sprite (loadRenderImage sprite)],
         if image_dirty sprite then true else dirty)
    | None => ([], dirty)
    end in
  let dirty :=
    match m_colorTable particles with
    | Some table => if image_dirty table then true else dirty
    | None => dirty
    end in
  if F32.gtb opacity F32.zero && negb (particleCount particles =? 0) then
    let o := newParticlesRenderable renderableFlags center particles firstImage opacity in
    let '(theRenderableObject, this) := RENDER_FRAME_NEW o this in
    (dirty, pushRenderable theRenderableObject o cameraData this)
  else (dirty, this).

Fixpoint prepareParticlesLoop
    (renderables : list (QSSGRenderableNodeEntry QSSGRenderParticles))
    (cameraData : QSSGCameraData) (dirty : bool) (this : QSSGLayerRenderData)
    : bool * QSSGLayerRenderData :=
  match renderables with
  | [] => (dirty, this)
  | renderable :: rest =>
      let '(dirty, this) := prepareParticles renderable cameraData dirty this in
      prepareParticlesLoop rest cameraData dirty this
  end.

Definition prepareParticlesForRender
    (renderableParticles : list (QSSGRenderableNodeEntry QSSGRenderParticles))
    (cameraData : QSSGCameraData) (this : QSSGLayerRenderData)
    : bool * QSSGLayerRenderData :=
  if negb rhiSupportsRgba32f && negb rhiSupportsRgba16f then
    (false, set_particlesNotSupportedWarningShown true this)
  else prepareParticlesLoop renderableParticles cameraData false this.

(** ** Reflection probes (lines 1533-1586) *)

(** [injectProbe] for probe [i] on the record a handle points to; the result
    holds the record as it is left and whether the probe took it. *)
Definition injectProbe (i : nat) (probe : QSSGRenderReflectionProbe)
    (probeBound : QSSGBounds3) (renderableObj : QSSGRenderableObject)
    : QSSGRenderableObject * bool :=
  if testFlag (ro_flags renderableObj) ReceivesReflections
     && negb (match ro_type renderableObj with Particles => true | _ => false end)
  then
    let vmin := mat44_map (ro_globalTransform renderableObj) (minimum (ro_bounds renderableObj)) in
    let vmax := mat44_map (ro_globalTransform renderableObj) (maximum (ro_bounds renderableObj)) in
    let nodeBound := mkBounds vmin vmax in
    if bounds_intersects probeBound nodeBound then
      let nodeBoundCenter := bounds_center nodeBound in
      let probeBoundCenter := bounds_center probeBound in
      let distance := distanceToPoint nodeBoundCenter probeBoundCenter in
      if (reflectionProbeIndex renderableObj =? -1)
         || F32.ltb distance (distanceFromReflectionProbe renderableObj)
      then
        (mkRenderable (ro_type renderableObj) (ro_flags renderableObj)
           (worldCenterPoint renderableObj) (depthBiasSq renderableObj)
           (ro_node renderableObj) (ro_subsetIndex renderableObj)
           (ro_opacity renderableObj) (subsetLevelOfDetail renderableObj)
           (ro_firstImage renderableObj) (ro_bounds renderableObj)
           (ro_globalTransform renderableObj)
           (Z.of_nat i) distance
           (mkProbeData (parallaxCorrection probe)
              (getGlobalPos (probe_globalTransform probe))
              (maximum probeBound) (minimum probeBound) true),
         true)
      else (renderableObj, false)
    else (renderableObj, false)
  else (renderableObj, false).

(** [injectProbe] over the handles of one bucket; the records live in the
    arena and are updated in place. *)
Fixpoint injectProbeList (i : nat) (probe : QSSGRenderReflectionProbe)
    (probeBound : QSSGBounds3) (handles : QSSGRenderableObjectList)
    (frame : list QSSGRenderableObject) (reflectionObjectCount : nat)
    : list QSSGRenderableObject * nat :=
  match handles with
  | [] => (frame, reflectionObjectCount)
  | handle :: rest =>
      match frame !! obj handle with
      | Some renderableObj =>
          let '(renderableObj, taken) := injectProbe i probe probeBound renderableObj in
          injectProbeList i probe probeBound rest
            (<[obj handle := renderableObj]> frame)
            (if taken then S reflectionObjectCount else reflectionObjectCount)
      | None => injectProbeList i probe probeBound rest frame reflectionObjectCount
      end
  end.

(** One turn of the loop over the probes. *)
Definition prepareReflectionProbe (i : nat) (probe : QSSGRenderReflectionProbe)
    (this : QSSGLayerRenderData) : QSSGLayerRenderData :=
  let probeExtent := vec3_div (boxSize probe) (F32.of_Z 2) in
  let probeBound :=
    bounds_centerExtents
      (vec3_add (getGlobalPos (probe_globalTransform probe)) (boxOffset probe))
      probeExtent in
  let '(frame, reflectionObjectCount) :=
    injectProbeList i probe probeBound (transparentObjects this) (arena this) 0%nat in
  let '(frame, reflectionObjectCount) :=
    injectProbeList i probe probeBound (opaqueObjects this) frame reflectionObjectCount in
  let this := set_arena frame this in
  if probe_hasTexture probe then
    set_reflectionMapEntries
      (reflectionMapEntries this ++ [TexturedReflectionMapEntry i]) this
  else if (0 <? reflectionObjectCount)%nat then
    set_reflectionMapEntries
      (reflectionMapEntries this ++ [LiveReflectionMapEntry i]) this
  else this.

Fixpoint prepareReflectionProbesLoop (i : nat) (probes : list QSSGRenderReflectionProbe)
    (this : QSSGLayerRenderData) : QSSGLayerRenderData :=
  match probes with
  | [] => this
  | probe :: rest =>
      prepareReflectionProbesLoop (S i) rest (prepareReflectionProbe i probe this)
  end.

Definition prepareReflectionProbesForRender (this : QSSGLayerRenderData)
    : QSSGLayerRenderData :=
  prepareReflectionProbesLoop 0 (reflectionProbes this) this.

(** ** Sorting

    [std::sort] and [std::stable_sort] belong to the C++ library.  They are
    modelled as GNU libstdc++ implements them (GCC 12, bits/stl_algo.h and
    bits/stl_heap.h); a range is a list.  The comparisons of this file are
    not all strict weak orders (a distance can be a NaN, and the z-orders of
    two parents are not compared), so the result depends on the comparisons
    the library really makes, and its routines are followed step by step. *)

Section StdAlgo.
Context {A : Type} (comp : A -> A -> bool).

(** [__unguarded_linear_insert]: the value is moved left past every element
    [comp] puts it before.  [rprefix] is the range before the value, last
    element first, and so is the result.  The loop has no bound check:
    [__insertion_sort] calls it once [comp] has failed at the first element
    of the range, [__unguarded_insertion_sort] relies on the partitioning
    that went before.  Here the loop ends at the front of the range at the
    latest. *)
Fixpoint unguarded_linear_insert (val : A) (rprefix : list A) : list A :=
  match rprefix with
  | [] => [val]
  | next :: rest =>
      if comp val next then next :: unguarded_linear_insert val rest
      else val :: next :: rest
  end.

(** One round of the loop of [__insertion_sort]; [sorted] is the range
    before [i].  An element that [comp] puts before the first one goes to
    the front at once, whatever lies between. *)
Definition insertion_sort_step (sorted : list A) (i : A) : list A :=
  match sorted with
  | [] => [i]
  | first :: _ =>
      if comp i first then i :: sorted
      else rev (unguarded_linear_insert i (rev sorted))
  end.

(** [__insertion_sort]. *)
Definition insertion_sort (l : list A) : list A :=
  match l with
  | [] => []
  | first :: rest => fold_left insertion_sort_step rest [first]
  end.

(** *** [std::sort]

    The range is the whole list, an iterator is a position in it.  The
    routines below read and write through iterators as the library does;
    several of their loops have no bound check, and a read outside the list,
    which the library would make outside the array, ends the loop here.
    [steps] and [rounds] bound the loops: a loop of the library runs at most
    once for each element of the range. *)

(** [comp(a, b)] on iterators. *)
Definition comp_iter (l : list A) (a b : nat) : bool :=
  match l !! a, l !! b with
  | Some x, Some y => comp x y
  | _, _ => false
  end.

(** [std::iter_swap]. *)
Definition iter_swap (a b : nat) (l : list A) : list A :=
  match l !! a, l !! b with
  | Some x, Some y => <[b:=x]> (<[a:=y]> l)
  | _, _ => l
  end.

(** [__move_median_to_first]. *)
Definition move_median_to_first (result a b c : nat) (l : list A) : list A :=
  if comp_iter l a b then
    if comp_iter l b c then iter_swap result b l
    else if comp_iter l a c then iter_swap result c l
    else iter_swap result a l
  else if comp_iter l a c then iter_swap result a l
  else if comp_iter l b c then iter_swap result c l
  else iter_swap result b l.

(** [while (comp(first, pivot)) ++first;] *)
Fixpoint partition_forward (steps : nat) (l : list A) (first pivot : nat) : nat :=
  match steps with
  | O => first
  | S steps =>
      if comp_iter l first pivot then partition_forward steps l (S first) pivot
      else first
  end.

(** [while (comp(pivot, last)) --last;] *)
Fixpoint partition_backward (steps : nat) (l : list A) (pivot last : nat) : nat :=
  match steps with
  | O => last
  | S steps =>
      if comp_iter l pivot last then partition_backward steps l pivot (last - 1)
      else last
  end.

(** [__unguarded_partition]: the cut and the range. *)
Fixpoint unguarded_partition (rounds first last pivot : nat) (l : list A)
    : nat * list A :=
  match rounds with
  | O => (first, l)
  | S rounds =>
      let first := partition_forward (length l) l first pivot in
      let last := (last - 1)%nat in
      let last := partition_backward (length l) l pivot last in
      if negb (first <? last)%nat then (first, l)
      else unguarded_partition rounds (S first) last pivot (iter_swap first last l)
  end.

(** [__unguarded_partition_pivot]. *)
Definition unguarded_partition_pivot (first last : nat) (l : list A) : nat * list A :=
  let mid := (first + (last - first) / 2)%nat in
  let l := move_median_to_first first (first + 1) mid (last - 1) l in
  unguarded_partition (length l) (first + 1) last first l.

(** The loop of [__push_heap]; [*(first + holeIndex) = value] ends it. *)
Fixpoint push_heap_loop (steps first holeIndex topIndex : nat) (value : A) (l : list A)
    : list A :=
  let parent := ((holeIndex - 1) / 2)%nat in
  match steps, l !! (first + parent)%nat with
  | S steps, Some atParent =>
      if (topIndex <? holeIndex)%nat && comp atParent value
      then push_heap_loop steps first parent topIndex value
             (<[(first + holeIndex)%nat := atParent]> l)
      else <[(first + holeIndex)%nat := value]> l
  | _, _ => <[(first + holeIndex)%nat := value]> l
  end.

(** [__push_heap]. *)
Definition push_heap (first holeIndex topIndex : nat) (value : A) (l : list A) : list A :=
  push_heap_loop holeIndex first holeIndex topIndex value l.

(** The loop of [__adjust_heap]: the hole goes down to the greater child;
    the result is the hole, [secondChild] and the range. *)
Fixpoint adjust_heap_loop (steps first holeIndex secondChild len : nat) (l : list A)
    : nat * nat * list A :=
  match steps with
  | O => (holeIndex, secondChild, l)
  | S steps =>
      if (secondChild <? (len - 1) / 2)%nat then
        let secondChild := (2 * (secondChild + 1))%nat in
        let secondChild :=
          if comp_iter l (first + secondChild) (first + (secondChild - 1))
          then (secondChild - 1)%nat else secondChild in
        match l !! (first + secondChild)%nat with
        | Some child =>
            adjust_heap_loop steps first secondChild secondChild len
              (<[(first + holeIndex)%nat := child]> l)
        | None => (holeIndex, secondChild, l)
        end
      else (holeIndex, secondChild, l)
  end.

(** [__adjust_heap].  The distances are signed: [(len - 2) / 2] is -1 for
    an empty range. *)
Definition adjust_heap (first holeIndex len : nat) (value : A) (l : list A) : list A :=
  let topIndex := holeIndex in
  let '(holeIndex, secondChild, l) := adjust_heap_loop len first holeIndex holeIndex len l in
  let '(holeIndex, l) :=
    if Nat.even len && (Z.of_nat secondChild =? Z.quot (Z.of_nat len - 2) 2)%Z then
      let secondChild := (2 * (secondChild + 1))%nat in
      match l !! (first + (secondChild - 1))%nat with
      | Some child => ((secondChild - 1)%nat, <[(first + holeIndex)%nat := child]> l)
      | None => (holeIndex, l)
      end
    else (holeIndex, l) in
  push_heap first holeIndex topIndex value l.

(** [__pop_heap]. *)
Definition pop_heap (first last result : nat) (l : list A) : list A :=
  match l !! result, l !! first with
  | Some value, Some top => adjust_heap first 0 (last - first) value (<[result:=top]> l)
  | _, _ => l
  end.

(** The loop of [__make_heap], from [parent] down to 0. *)
Fixpoint make_heap_loop (parent first len : nat) (l : list A) : list A :=
  let l :=
    match l !! (first + parent)%nat with
    | Some value => adjust_heap first parent len value l
    | None => l
    end in
  match parent with
  | O => l
  | S parent => make_heap_loop parent first len l
  end.

(** [__make_heap]. *)
Definition make_heap (first last : nat) (l : list A) : list A :=
  if (last - first <? 2)%nat then l
  else
    let len := (last - first)%nat in
    make_heap_loop ((len - 2) / 2) first len l.

(** [__sort_heap]. *)
Fixpoint sort_heap_loop (rounds first last : nat) (l : list A) : list A :=
  match rounds with
  | O => l
  | S rounds =>
      if (1 <? last - first)%nat then
        let last := (last - 1)%nat in
        sort_heap_loop rounds first last (pop_heap first last last l)
      else l
  end.

Definition sort_heap (first last : nat) (l : list A) : list A :=
  sort_heap_loop (last - first) first last l.

(** [__heap_select]. *)
Definition heap_select (first middle last : nat) (l : list A) : list A :=
  let l := make_heap first middle l in
  fold_left (fun l i => if comp_iter l i first then pop_heap first middle i l else l)
    (seq middle (last - middle)) l.

(** [__partial_sort]. *)
Definition partial_sort (first middle last : nat) (l : list A) : list A :=
  sort_heap first middle (heap_select first middle last l).

Definition S_threshold : nat := 16.

(** [__introsort_loop]: every round of the loop takes one from
    [depth_limit]. *)
Fixpoint introsort_loop (depth_limit first last : nat) (l : list A) : list A :=
  if (S_threshold <? last - first)%nat then
    match depth_limit with
    | O => partial_sort first last last l
    | S depth_limit =>
        let '(cut, l) := unguarded_partition_pivot first last l in
        let l := introsort_loop depth_limit cut last l in
        introsort_loop depth_limit first cut l
    end
  else l.

(** [__unguarded_insertion_sort] of the range that follows [sorted]. *)
Definition unguarded_insertion_sort (sorted rest : list A) : list A :=
  fold_left (fun sorted i => rev (unguarded_linear_insert i (rev sorted))) rest sorted.

(** [__final_insertion_sort]. *)
Definition final_insertion_sort (l : list A) : list A :=
  if (S_threshold <? length l)%nat
  then unguarded_insertion_sort (insertion_sort (firstn S_threshold l))
         (skipn S_threshold l)
  else insertion_sort l.

(** [std::sort] ([__sort]); [__lg] is the binary logarithm, rounded down. *)
Definition std_sort (l : list A) : list A :=
  match l with
  | [] => []
  | _ =>
      final_insertion_sort
        (introsort_loop (Nat.log2 (length l) * 2) 0 (length l) l)
  end.

(** *** [std::stable_sort] *)

(** [__chunk_insertion_sort]: the chunks of [chunk_size] elements, and the
    rest, are sorted one by one.  The loop runs once for each whole chunk;
    [rounds] bounds it. *)
Fixpoint chunk_insertion_sort_loop (rounds chunk_size : nat) (l : list A) : list A :=
  match rounds with
  | O => insertion_sort l
  | S rounds =>
      if (chunk_size <=? length l)%nat
      then insertion_sort (firstn chunk_size l)
           ++ chunk_insertion_sort_loop rounds chunk_size (skipn chunk_size l)
      else insertion_sort l
  end.

Definition chunk_insertion_sort (chunk_size : nat) (l : list A) : list A :=
  chunk_insertion_sort_loop (length l) chunk_size l.

(** [__move_merge]: an element of the second run is taken when [comp] puts
    it before the current element of the first run, and what is left of
    either run follows. *)
Fixpoint move_merge (l1 l2 : list A) : list A :=
  let fix move_merge_second (l2 : list A) : list A :=
    match l1, l2 with
    | [], _ => l2
    | _, [] => l1
    | first1 :: rest1, first2 :: rest2 =>
        if comp first2 first1 then first2 :: move_merge_second rest2
        else first1 :: move_merge rest1 l2
    end in
  move_merge_second l2.

(** [__merge_sort_loop]: the runs of [step_size] elements are merged two by
    two; the last merge takes what is left. *)
Fixpoint merge_sort_loop_rounds (rounds step_size : nat) (l : list A) : list A :=
  match rounds with
  | O => l
  | S rounds =>
      let two_step := (2 * step_size)%nat in
      if (two_step <=? length l)%nat
      then move_merge (firstn step_size l) (firstn step_size (skipn step_size l))
           ++ merge_sort_loop_rounds rounds step_size (skipn two_step l)
      else
        let step_size := Nat.min (length l) step_size in
        move_merge (firstn step_size l) (skipn step_size l)
  end.

Definition merge_sort_loop (step_size : nat) (l : list A) : list A :=
  merge_sort_loop_rounds (S (length l)) step_size l.

Definition S_chunk_size : nat := 7.

(** The loop of [__merge_sort_with_buffer]: to the buffer with runs of
    [step_size], and back with runs twice as long. *)
Fixpoint merge_sort_passes (rounds step_size : nat) (l : list A) : list A :=
  match rounds with
  | O => l
  | S rounds =>
      if (step_size <? length l)%nat then
        let buffer := merge_sort_loop step_size l in
        let step_size := (step_size * 2)%nat in
        let l := merge_sort_loop step_size buffer in
        let step_size := (step_size * 2)%nat in
        merge_sort_passes rounds step_size l
      else l
  end.

(** [__merge_sort_with_buffer]. *)
Definition merge_sort_with_buffer (l : list A) : list A :=
  let step_size := S_chunk_size in
  let l := chunk_insertion_sort step_size l in
  merge_sort_passes (length l) step_size l.

(** [__move_merge_adaptive]: the first run lies in the buffer and is merged
    with the second one as [__move_merge] does; what is left of the second
    run is in its place already. *)
Definition move_merge_adaptive (buffer l2 : list A) : list A := move_merge buffer l2.

(** The loop of [__move_merge_adaptive_backward]: the runs are read from
    their last elements, given here last element first, and the range is
    filled from its end: the last element of the first run is taken when
    [comp] puts the last element of the second run before it. *)
Fixpoint move_merge_backward (r1 r2 : list A) : list A :=
  let fix move_merge_backward_second (r2 : list A) : list A :=
    match r1, r2 with
    | [], _ => r2
    | _, [] => r1
    | last1 :: rest1, last2 :: rest2 =>
        if comp last2 last1 then last1 :: move_merge_backward rest1 r2
        else last2 :: move_merge_backward_second rest2
    end in
  move_merge_backward_second r2.

Definition move_merge_adaptive_backward (l1 buffer : list A) : list A :=
  rev (move_merge_backward (rev l1) (rev buffer)).

(** [__merge_adaptive] with a buffer that holds either run: the shorter run
    is moved to the buffer, the first one on a tie. *)
Definition merge_adaptive (l1 l2 : list A) : list A :=
  if (length l1 <=? length l2)%nat then move_merge_adaptive l1 l2
  else move_merge_adaptive_backward l1 l2.

(** [__stable_sort_adaptive] with a buffer of [(len + 1) / 2] elements: the
    two halves are sorted by [__merge_sort_with_buffer] and merged. *)
Definition stable_sort_adaptive (l : list A) : list A :=
  let len := ((length l + 1) / 2)%nat in
  let first_half := merge_sort_with_buffer (firstn len l) in
  let second_half := merge_sort_with_buffer (skipn len l) in
  merge_adaptive first_half second_half.

(** [std::stable_sort] ([__stable_sort]).  The temporary buffer asks for
    [(len + 1) / 2] elements and is taken to get them; with less memory the
    library merges by rotations, which is not modelled. *)
Definition std_stable_sort (l : list A) : list A :=
  match l with
  | [] => []
  | _ => stable_sort_adaptive l
  end.

End StdAlgo.

(** ** The sorted lists *)

Definition isRenderObjectPtrLessThan (lhs rhs : QSSGRenderableObjectHandle) : bool :=
  F32.ltb (cameraDistanceSq lhs) (cameraDistanceSq rhs).

Definition iSRenderObjectPtrGreatThan (lhs rhs : QSSGRenderableObjectHandle) : bool :=
  F32.gtb (cameraDistanceSq lhs) (cameraDistanceSq rhs).

Definition getSortedOpaqueRenderableObjects (this : QSSGLayerRenderData)
    : QSSGRenderableObjectList * QSSGLayerRenderData :=
  if negb (bool_decide (renderedOpaqueObjects this = []))
     || bool_decide (camera this = None)
  then (renderedOpaqueObjects this, this)
  else if enableDepthTest (layer this) && negb (bool_decide (opaqueObjects this = [])) then
    let this :=
      set_renderedOpaqueObjects
        (std_sort isRenderObjectPtrLessThan (opaqueObjects this)) this in
    (renderedOpaqueObjects this, this)
  else (renderedOpaqueObjects this, this).

Definition getSortedTransparentRenderableObjects (this : QSSGLayerRenderData)
    : QSSGRenderableObjectList * QSSGLayerRenderData :=
  if negb (bool_decide (renderedTransparentObjects this = []))
     || bool_decide (camera this = None)
  then (renderedTransparentObjects this, this)
  else
    let rendered := transparentObjects this in
    let rendered :=
      if negb (enableDepthTest (layer this)) then rendered ++ opaqueObjects this
      else rendered in
    let rendered :=
      if negb (bool_decide (rendered = []))
      then std_sort iSRenderObjectPtrGreatThan rendered else rendered in
    let this := set_renderedTransparentObjects rendered this in
    (renderedTransparentObjects this, this).

Definition getSortedScreenTextureRenderableObjects (this : QSSGLayerRenderData)
    : QSSGRenderableObjectList * QSSGLayerRenderData :=
  if negb (bool_decide (renderedScreenTextureObjects this = []))
     || bool_decide (camera this = None)
  then (renderedScreenTextureObjects this, this)
  else
    let rendered := screenTextureObjects this in
    let rendered :=
      if negb (bool_decide (rendered = []))
      then std_sort iSRenderObjectPtrGreatThan rendered else rendered in
    let this := set_renderedScreenTextureObjects rendered this in
    (renderedScreenTextureObjects this, this).

(** ** 2D items *)

(** [parent->getGlobalPos()]; the parent is found by its identity among the
    scene nodes. *)
Definition parentGlobalPos (this : QSSGLayerRenderData) (parent : NodeId) : QVector3D :=
  getGlobalPos (default [] (sceneTransforms this !! parent)).

Definition isItemNodeDistanceGreatThan (this : QSSGLayerRenderData)
    (cameraDirection cameraPosition : QVector3D) (lhs rhs : QSSGRenderItem2D) : bool :=
  match item_parent lhs, item_parent rhs with
  | Some lparent, Some rparent =>
      let lhsDifference := vec3_sub (parentGlobalPos this lparent) cameraPosition in
      let lhsCameraDistanceSq := dotProduct lhsDifference cameraDirection in
      let rhsDifference := vec3_sub (parentGlobalPos this rparent) cameraPosition in
      let rhsCameraDistanceSq := dotProduct rhsDifference cameraDirection in
      F32.gtb lhsCameraDistanceSq rhsCameraDistanceSq
  | _, _ => false
  end.

Definition isItemZOrderLessThan (lhs rhs : QSSGRenderItem2D) : bool :=
  match item_parent lhs, item_parent rhs with
  | Some lparent, Some rparent =>
      if (lparent =? rparent)%nat then zOrder lhs <? zOrder rhs else false
  | _, _ => false
  end.

Definition getRenderableItem2Ds (this : QSSGLayerRenderData)
    : list QSSGRenderItem2D * QSSGLayerRenderData :=
  if negb (bool_decide (renderedItem2Ds this = [])) || bool_decide (camera this = None)
  then (renderedItem2Ds this, this)
  else
    let this := set_renderedItem2Ds (renderableItem2Ds this) this in
    if negb (bool_decide (renderedItem2Ds this = [])) then
      let '(cameraDirectionAndPosition, this) := getCameraDirectionAndPosition this in
      let cameraDirection := cd_direction cameraDirectionAndPosition in
      let cameraPosition := cd_position cameraDirectionAndPosition in
      let sorted :=
        std_stable_sort (isItemNodeDistanceGreatThan this cameraDirection cameraPosition)
          (renderedItem2Ds this) in
      let sorted := std_stable_sort isItemZOrderLessThan sorted in
      let this := set_renderedItem2Ds sorted this in
      (renderedItem2Ds this, this)
    else (renderedItem2Ds this, this).

(** ** Camera resolution (lines 1800-1831) *)

Definition withMagnification (c : QSSGRenderCamera) (h v : float) : QSSGRenderCamera :=
  mkCamera (camera_id c) (camera_type c) (camera_isDirty c) (camera_active c)
    (camera_globalTransform c) h v (levelOfDetailPixelThreshold c).

(** [QSSGLayerRenderPreparationResult::setupCameraForRender]; the camera it
    returns is the camera object as the call leaves it. *)
Definition setupCameraForRender (layer : QSSGRenderLayer) (viewport : QRect)
    (inCamera : QSSGRenderCamera) : QSSGRenderCamera * QSSGCameraGlobalCalculationResult :=
  let savedHorizontal := horizontalMagnification inCamera in
  let savedVertical := verticalMagnification inCamera in
  let factor := if ssaaEnabled layer then ssaaMultiplier layer else F32.one in
  let inCamera :=
    withMagnification inCamera (F32.mul savedHorizontal factor)
      (F32.mul savedVertical factor) in
  let '(inCamera, result) := calculateGlobalVariables viewport inCamera in
  (withMagnification inCamera savedHorizontal savedVertical, result).

(** The search of step 3: the cameras as the loop leaves them, the camera it
    selects and [wasDataDirty]. *)
Fixpoint findActiveCamera (layer : QSSGRenderLayer) (viewport : QRect)
    (iter : list QSSGRenderCamera) (wasDataDirty : bool)
    : list QSSGRenderCamera * option QSSGRenderCamera * bool :=
  match iter with
  | [] => ([], None, wasDataDirty)
  | theCamera :: rest =>
      let wasDataDirty := wasDataDirty || camera_isDirty theCamera in
      let '(theCamera, theResult) := setupCameraForRender layer viewport theCamera in
      let wasDataDirty := wasDataDirty || m_wasDirty theResult in
      if camera_active theCamera then (theCamera :: rest, Some theCamera, wasDataDirty)
      else
        let '(rest, found, wasDataDirty) :=
          findActiveCamera layer viewport rest wasDataDirty in
        (theCamera :: rest, found, wasDataDirty)
  end.

Definition withExplicitCamera (l : QSSGRenderLayer) (c : option QSSGRenderCamera)
    : QSSGRenderLayer :=
  mkLayer (layer_isDirty l) (enableDepthTest l) c (ssaoEnabled l) (effects l)
    (ssaaEnabled l) (ssaaMultiplier l).

Definition resolveCamera (wasDataDirty : bool) (this : QSSGLayerRenderData)
    : bool * QSSGLayerRenderData :=
  match explicitCamera (layer this) with
  | Some cam =>
      let wasDataDirty := wasDataDirty || camera_isDirty cam in
      let '(cam, theResult) := setupCameraForRender (layer this) (viewport this) cam in
      let wasDataDirty := wasDataDirty || m_wasDirty theResult in
      let this := set_layer (withExplicitCamera (layer this) (Some cam)) this in
      (wasDataDirty, set_camera (if camera_active cam then Some cam else None) this)
  | None =>
      let '(cams, found, wasDataDirty) :=
        findActiveCamera (layer this) (viewport this) (cameras this) wasDataDirty in
      (wasDataDirty, set_camera found (set_cameras cams this))
  end.

(** ** Lights and shadows (lines 1839-1949) *)

Definition effectiveMaxLightCount (this : QSSGLayerRenderData) : nat :=
  if feature_ReduceMaxNumLights this then QSSG_REDUCED_MAX_NUM_LIGHTS
  else QSSG_MAX_NUM_LIGHTS.

(** The loop from [it] to [end] over the reversed light list. *)
Fixpoint selectLightsLoop (range : list QSSGRenderLight) (shadowMapCount : nat)
    (hasScopedLights : bool) (renderableLights : list QSSGShaderLight)
    : nat * bool * list QSSGShaderLight :=
  match range with
  | [] => (shadowMapCount, hasScopedLights, renderableLights)
  | renderLight :: rest =>
      let hasScopedLights :=
        hasScopedLights || bool_decide (is_Some (m_scope renderLight)) in
      let mightCastShadows := m_castShadow renderLight && negb (m_fullyBaked renderLight) in
      let shadows :=
        mightCastShadows && (shadowMapCount <? QSSG_MAX_NUM_SHADOW_MAPS)%nat in
      let shadowMapCount := (shadowMapCount + (if shadows then 1 else 0))%nat in
      let direction := getScalingCorrectDirection (light_globalTransform renderLight) in
      selectLightsLoop rest shadowMapCount hasScopedLights
        (renderableLights ++ [mkShaderLight renderLight shadows direction])
  end.

Definition selectLights (this : QSSGLayerRenderData)
    : nat * bool * list QSSGShaderLight * QSSGLayerRenderData :=
  let maxLightCount := effectiveMaxLightCount this in
  let showLightCountWarning :=
    negb (tooManyLightsWarningShown this) && (maxLightCount <? length (lights this))%nat in
  let this :=
    if showLightCountWarning then set_tooManyLightsWarningShown true this else this in
  let range := take (Nat.min maxLightCount (length (lights this))) (rev (lights this)) in
  let '(shadowMapCount, hasScopedLights, renderableLights) :=
    selectLightsLoop range 0%nat false [] in
  let this :=
    if (QSSG_MAX_NUM_SHADOW_MAPS <=? shadowMapCount)%nat
       && negb (tooManyShadowLightsWarningShown this)
    then set_tooManyShadowLightsWarningShown true this else this in
  (shadowMapCount, hasScopedLights, renderableLights, this).

(** The shadow map entries (lines 1875-1899); [i] is the index of the head
    of [rest] in [renderableLights]. *)
Fixpoint addShadowMapEntries (i : nat) (rest : list QSSGShaderLight)
    (flags : QSSGLayerRenderPreparationResultFlags) (this : QSSGLayerRenderData)
    : QSSGLayerRenderPreparationResultFlags * QSSGLayerRenderData :=
  match rest with
  | [] => (flags, this)
  | shaderLight :: rest =>
      if sl_shadows shaderLight then
        let mapSize := Z.shiftl 1 (m_shadowMapRes (sl_light shaderLight)) mod 2 ^ 32 in
        let mapMode :=
          match light_type (sl_light shaderLight) with
          | DirectionalLight => VSM
          | _ => CUBE
          end in
        let this :=
          set_shadowMapEntries
            (shadowMapEntries this ++ [mkShadowMapEntry i mapSize mapMode]) this in
        addShadowMapEntries (S i) rest (setRequiresShadowMapPass true flags)
          (set_feature_Ssm true this)
      else addShadowMapEntries (S i) rest flags this
  end.

Definition setupShadowMaps (shadowMapCount : nat) (renderableLights : list QSSGShaderLight)
    (flags : QSSGLayerRenderPreparationResultFlags) (this : QSSGLayerRenderData)
    : QSSGLayerRenderPreparationResultFlags * QSSGLayerRenderData :=
  if (0 <? shadowMapCount)%nat then addShadowMapEntries 0 renderableLights flags this
  else (flags, this).

(** [globalLights]; the light lists of the single nodes only feed the shader
    keys and are left out with them. *)
Definition setupGlobalLights (hasScopedLights : bool)
    (renderableLights : list QSSGShaderLight) (this : QSSGLayerRenderData)
    : QSSGLayerRenderData :=
  if hasScopedLights then
    set_globalLights
      (List.filter (fun shaderLight =>
                      negb (bool_decide (is_Some (m_scope (sl_light shaderLight)))))
                   renderableLights)
      this
  else set_globalLights renderableLights this.

(** ** The passes (lines 2028-2052) *)

Definition preparePasses (flags : QSSGLayerRenderPreparationResultFlags)
    (this : QSSGLayerRenderData) : QSSGLayerRenderData :=
  let activePasses : list QSSGRenderPass := [] in
  let activePasses :=
    if requiresDepthTexture flags then activePasses ++ [depthMapPass] else activePasses in
  let activePasses :=
    if requiresSsaoPass flags then activePasses ++ [ssaoMapPass] else activePasses in
  let activePasses :=
    if requiresShadowMapPass flags then activePasses ++ [shadowMapPass] else activePasses in
  let activePasses := activePasses ++ [reflectionMapPass] in
  let activePasses := activePasses ++ [zPrePassPass] in
  let activePasses :=
    if requiresScreenTexture flags then activePasses ++ [screenMapPass] else activePasses in
  let activePasses := activePasses ++ [mainPass] in
  set_activePasses activePasses this.

(** ** [prepareForRender]

    The lists of cameras, lights, probes, models, particles and 2D items are
    the ones the traversal of the scene ([maybeQueueNodeForRender]) left in
    the render data.  Left out: the pipeline state, tone mapping, the light
    probe of the layer, resource loaders, skeletons, the view projection and
    the clipping frustum, and antialiasing.  [None] stands for the null
    camera being dereferenced in the level-of-detail code. *)

Definition REDUCED_MAX_LIGHT_COUNT_THRESHOLD_BYTES : Z := 4096.

Definition prepareForRender (this : QSSGLayerRenderData) : option QSSGLayerRenderData :=
  match layerPrepResult this with
  | Some _ => Some this
  | None =>
      let wasDirty := layer_isDirty (layer this) in
      let wasDataDirty := false in
      let flags := noPrepFlags in
      let SSAOEnabled := ssaoEnabled (layer this) in
      let flags := setRequiresSsaoPass SSAOEnabled flags in
      let this := set_feature_Ssao SSAOEnabled this in
      let wasDirty := wasDirty || existsb effect_isDirty (effects (layer this)) in
      let requiresDepthTexture :=
        SSAOEnabled || existsb effect_requiresDepthTexture (effects (layer this)) in
      let flags := setRequiresDepthTexture requiresDepthTexture flags in
      let this :=
        if maxUniformBufferRange <? REDUCED_MAX_LIGHT_COUNT_THRESHOLD_BYTES
        then set_feature_ReduceMaxNumLights true this else this in
      let '(wasDataDirty, this) := resolveCamera wasDataDirty this in
      let '(shadowMapCount, hasScopedLights, renderableLights, this) := selectLights this in
      let '(flags, this) := setupShadowMaps shadowMapCount renderableLights flags this in
      let this := setupGlobalLights hasScopedLights renderableLights (set_globalLights [] this) in
      let meshLodThreshold :=
        match camera this with
        | Some c =>
            F32.div (levelOfDetailPixelThreshold c) (F32.of_Z (rect_width (viewport this)))
        | None => F32.one
        end in
      let '(cameraData, this) := getCameraDirectionAndPosition this in
      '(dirtyModels, flags, this) ←
        prepareModelForRender (renderableModels this) flags cameraData meshLodThreshold this;
      let wasDirty := wasDirty || dirtyModels in
      let '(dirtyParticles, this) :=
        prepareParticlesForRender (renderableParticles this) cameraData this in
      let wasDirty := wasDirty || dirtyParticles in
      let wasDirty := wasDirty || negb (bool_decide (renderableItem2Ds this = [])) in
      let this := prepareReflectionProbesForRender this in
      let wasDirty := wasDirty || wasDataDirty in
      let flags := setLayerDataDirty wasDataDirty (setWasDirty wasDirty flags) in
      let this := set_layerPrepResult (Some flags) this in
      Some (preparePasses flags this)
  end.

(** [resetForFrame], for the members modelled here; the per-frame allocator
    is reset along with the frame. *)
Definition resetForFrame (this : QSSGLayerRenderData) : QSSGLayerRenderData :=
  let this := set_activePasses [] this in
  let this := set_transparentObjects [] this in
  let this := set_screenTextureObjects [] this in
  let this := set_opaqueObjects [] this in
  let this := set_bakedLightingModels [] this in
  let this := set_layerPrepResult None this in
  let this := set_camera None this in
  let this := set_cameraData None this in
  let this := set_renderedOpaqueObjects [] this in
  let this := set_renderedTransparentObjects [] this in
  let this := set_renderedScreenTextureObjects [] this in
  let this := set_renderedItem2Ds [] this in
  let this := set_renderableItem2Ds [] this in
  let this := set_globalLights [] this in
  let this := set_feature_ReduceMaxNumLights false this in
  let this := set_feature_Ssao false this in
  let this := set_feature_Ssm false this in
  set_arena [] this.

End Preparation.

(** ** The claims in the words of the specification *)

#[global] Instance QSSGRenderableObjectFlag_eq_dec : EqDecision QSSGRenderableObjectFlag.
Proof. solve_decision. Defined.

Section Statements.
Context `{Collaborators}.

(** What marks a default material transparent whatever its opacity is: a
    blend mode other than source-over, an opacity map, the alpha mode Blend,
    or an image with transparency among the diffuse, opacity and
    translucency maps. *)
Definition opacityIndependentTransparency (m : QSSGRenderDefaultMaterial) : bool :=
  negb (isSourceOver (blendMode m))
  || bool_decide (is_Some (opacityMap m))
  || isAlphaBlend (alphaMode m)
  || testFlag (snd (prepareMaterialImages m ([], noFlags))) HasTransparency.

(** The two bounds of the opacity clamp as the specification words them,
    for a default material: an effective opacity at or below the epsilon is
    forced to 0.0 and flagged HasTransparency and CompletelyTransparent; one
    at or above one minus the epsilon is snapped to 1.0 and not marked
    transparent on account of its value. *)
Definition opacity_floor_as_stated (m : QSSGRenderDefaultMaterial)
    (fl : QSSGRenderableObjectFlags) (inOpacity : float)
    (io : QSSGLayerRenderPreparationResultFlags) : Prop :=
  let eps := QSSG_RENDER_MINIMUM_RENDER_OPACITY in
  let x := F32.mul inOpacity (mat_opacity m) in
  let d := fst (prepareDefaultMaterialForRender m fl inOpacity io) in
  F32.leb x eps = true ->
  opacity d = F32.zero
  /\ testFlag (renderableFlags d) HasTransparency = true
  /\ testFlag (renderableFlags d) CompletelyTransparent = true.

Definition opacity_ceiling_as_stated (m : QSSGRenderDefaultMaterial)
    (fl : QSSGRenderableObjectFlags) (inOpacity : float)
    (io : QSSGLayerRenderPreparationResultFlags) : Prop :=
  let eps := QSSG_RENDER_MINIMUM_RENDER_OPACITY in
  let x := F32.mul inOpacity (mat_opacity m) in
  let d := fst (prepareDefaultMaterialForRender m fl inOpacity io) in
  F32.geb x (F32.sub F32.one eps) = true ->
  opacity d = F32.one
  /\ testFlag (renderableFlags d) HasTransparency
     = testFlag fl HasTransparency || opacityIndependentTransparency m.

(** A step on the image chain and the flags adds [HasTransparency] or not,
    whatever the chain and the flags are. *)
Definition uniformTransparency
    (s : list QSSGRenderableImage * QSSGRenderableObjectFlags ->
         list QSSGRenderableImage * QSSGRenderableObjectFlags) : Prop :=
  exists c : bool, forall l fl,
    testFlag (snd (s (l, fl))) HasTransparency = testFlag fl HasTransparency || c.

Definition keepsFlag (g : QSSGRenderableObjectFlag)
    (s : list QSSGRenderableImage * QSSGRenderableObjectFlags ->
         list QSSGRenderableImage * QSSGRenderableObjectFlags) : Prop :=
  forall l fl, testFlag (snd (s (l, fl))) g = testFlag fl g.

(** The level the specification selects: the levels are numbered from 1 in
    the order of [lods], 0 being the finest one; a level is accepted when
    [accepted] holds of its distance, and the last accepted level wins. *)
Fixpoint lastAcceptedLevel (accepted : float -> bool) (ls : list float) (i : Z)
    (best : Z) : Z :=
  match ls with
  | [] => best
  | d :: rest => lastAcceptedLevel accepted rest (i + 1) (if accepted d then i else best)
  end.

(** Level-of-detail selection as the specification words it: a level is
    accepted exactly when [levelDistance * modelUniformScale /
    levelOfDetailBias] divided by [distanceThreshold * cameraLodMultiplier]
    is above the pixel-error threshold. *)
Definition lod_selection_as_stated (cam : QSSGRenderCamera) (model : QSSGRenderModel)
    (theSubset : QSSGRenderSubset) (lodThreshold : float) : Prop :=
  lods theSubset <> [] ->
  F32.gtb lodThreshold F32.zero = true ->
  F32.gtb (levelOfDetailBias model) F32.zero = true ->
  let scale := mat44_getScale (model_globalTransform model) in
  let modelScale := F32.qMax (vx scale) (F32.qMax (vy scale) (vz scale)) in
  let ratio d :=
    F32.div (F32.div (F32.mul d modelScale) (levelOfDetailBias model))
            (F32.mul (lodDistanceThreshold cam model theSubset)
                     (getLevelOfDetailMultiplier cam)) in
  selectLevelOfDetail (Some cam) model theSubset lodThreshold
  = Some (lastAcceptedLevel (fun d => F32.gtb (ratio d) lodThreshold)
            (lods theSubset) 1 0).

(** A light is shadow-eligible when it is set to cast shadows and is not
    fully baked. *)
Definition shadowEligible (l : QSSGRenderLight) : bool :=
  m_castShadow l && negb (m_fullyBaked l).

(** The number of shadow-eligible lights among the first [i] of [ls]. *)
Definition eligibleBefore (i : nat) (ls : list QSSGRenderLight) : nat :=
  length (List.filter shadowEligible (take i ls)).

(** The sorted-opaque accessor as the specification words it: sorted when a
    camera was resolved, depth testing is enabled and the opaque bucket is
    not empty, and the unsorted opaque bucket otherwise. *)
Definition sorted_opaque_as_stated (this : QSSGLayerRenderData) : Prop :=
  let result := fst (getSortedOpaqueRenderableObjects this) in
  (camera this <> None /\ enableDepthTest (layer this) = true
   /\ opaqueObjects this <> [] ->
     Permutation result (opaqueObjects this)
     /\ StronglySorted
          (fun a b => F32.leb (cameraDistanceSq a) (cameraDistanceSq b) = true) result)
  /\ (~ (camera this <> None /\ enableDepthTest (layer this) = true
         /\ opaqueObjects this <> []) ->
        result = opaqueObjects this).

(** The 2D items of one parent and one z-order. *)
Definition sameParentAndZOrder (parent : option NodeId) (z : Z) (item : QSSGRenderItem2D)
    : bool :=
  bool_decide (item_parent item = parent) && (zOrder item =? z).

(** The three classification buckets, and the bucket the flags of a record
    select by the precedence requires-screen-texture, has-transparency,
    opaque. *)
Inductive Bucket := ScreenTextureBucket | TransparentBucket | OpaqueBucket.

Definition bucketOf (fl : QSSGRenderableObjectFlags) : Bucket :=
  if testFlag fl RequiresScreenTexture then ScreenTextureBucket
  else if testFlag fl HasTransparency then TransparentBucket
  else OpaqueBucket.

Definition bucketHandles (this : QSSGLayerRenderData) : QSSGRenderableObjectList :=
  screenTextureObjects this ++ transparentObjects this ++ opaqueObjects this.

(** Every handle of [handles] points to a record of the arena whose flags
    select the bucket [b]. *)
Definition bucketHolds (this : QSSGLayerRenderData) (b : Bucket)
    (handles : QSSGRenderableObjectList) : Prop :=
  Forall (fun h => exists o, arena this !! obj h = Some o /\ bucketOf (ro_flags o) = b)
         handles.

(** The records of the frame are the entries of the arena; the buckets hold
    each of them once, in the bucket its flags select. *)
Definition bucketsPartitionFrame (this : QSSGLayerRenderData) : Prop :=
  Permutation (map obj (bucketHandles this)) (seq 0 (length (arena this)))
  /\ bucketHolds this ScreenTextureBucket (screenTextureObjects this)
  /\ bucketHolds this TransparentBucket (transparentObjects this)
  /\ bucketHolds this OpaqueBucket (opaqueObjects this).

(** A property of the render data that allocating a record and pushing it,
    and writing the members the preparers write besides, all keep. *)
Definition keptByPreparers (P : QSSGLayerRenderData -> Prop) : Prop :=
  (forall this o cameraData,
     P this ->
     P (pushRenderable (length (arena this)) o cameraData
          (set_arena (arena this ++ [o]) this)))
  /\ (forall this v, P this -> P (set_bakedLightingModels v this))
  /\ (forall this v, P this -> P (set_particlesNotSupportedWarningShown v this)).

(** Some handle of the opaque or the transparent bucket points to a record
    that is assigned to probe [i]. *)
Definition someRecordAssignedTo (i : nat) (this : QSSGLayerRenderData) : Prop :=
  exists h o,
    In h (transparentObjects this ++ opaqueObjects this)
    /\ arena this !! obj h = Some o
    /\ reflectionProbeIndex o = Z.of_nat i.

(** Probe registration as the specification words it: a probe without a
    texture has a live entry only if a record ends the frame assigned to
    it. *)
Definition live_entries_as_stated (this : QSSGLayerRenderData) : Prop :=
  let this' := prepareReflectionProbesForRender this in
  forall i probe,
    reflectionProbes this !! i = Some probe ->
    probe_hasTexture probe = false ->
    In (LiveReflectionMapEntry i) (reflectionMapEntries this') ->
    someRecordAssignedTo i this'.

Definition entryProbeIndex (e : ReflectionMapEntry) : nat :=
  match e with
  | TexturedReflectionMapEntry i => i
  | LiveReflectionMapEntry i => i
  end.

(** Two states of the render data with the same records, buckets and shadow
    map entries. *)
Definition sameFrameData (this this' : QSSGLayerRenderData) : Prop :=
  arena this' = arena this
  /\ screenTextureObjects this' = screenTextureObjects this
  /\ transparentObjects this' = transparentObjects this
  /\ opaqueObjects this' = opaqueObjects this
  /\ shadowMapEntries this' = shadowMapEntries this.

(** The pass list the specification gives for the pass requirements. *)
Definition scheduledPasses (flags : QSSGLayerRenderPreparationResultFlags)
    : list QSSGRenderPass :=
  (if requiresDepthTexture flags then [depthMapPass] else [])
  ++ (if requiresSsaoPass flags then [ssaoMapPass] else [])
  ++ (if requiresShadowMapPass flags then [shadowMapPass] else [])
  ++ [reflectionMapPass; zPrePassPass]
  ++ (if requiresScreenTexture flags then [screenMapPass] else [])
  ++ [mainPass].

(** A property of the pass requirements: the shadow map requirement is [b],
    ambient occlusion comes with the depth texture, and ambient occlusion
    stays required once [a] says so. *)
Definition passRequirementsKept (b a : bool)
    (flags : QSSGLayerRenderPreparationResultFlags) : Prop :=
  requiresShadowMapPass flags = b
  /\ (requiresSsaoPass flags = true -> requiresDepthTexture flags = true)
  /\ (a = true -> requiresSsaoPass flags = true).

End Statements.

(** ** Sample scene data *)

(** 0.01f, the value [QSSG_RENDER_MINIMUM_RENDER_OPACITY] has in Qt Quick 3D. *)
Definition f0_01 : float := F32.div F32.one (F32.of_Z 100).

Definition identityMatrix : QMatrix4x4 :=
  [F32.one; F32.zero; F32.zero; F32.zero;
   F32.zero; F32.one; F32.zero; F32.zero;
   F32.zero; F32.zero; F32.one; F32.zero;
   F32.zero; F32.zero; F32.zero; F32.one].

(** Collaborators for the examples: the budgets of Qt Quick 3D (15 lights,
    5 when reduced, 8 shadow maps), no textures, a mesh of two subsets for
    every model but the one of identity 0, unit scale, translation read from
    the last column of the matrix, and distances measured along x. *)
Definition sampleCollaborators : Collaborators := {|
  QSSG_RENDER_MINIMUM_RENDER_OPACITY := f0_01;
  QSSG_MAX_NUM_LIGHTS := 15;
  QSSG_REDUCED_MAX_NUM_LIGHTS := 5;
  QSSG_MAX_NUM_SHADOW_MAPS := 8;
  loadRenderImage := fun _ => mkImageTexture None false;
  loadMesh := fun model =>
    match model_id model with
    | O => None
    | S _ =>
        Some (mkMesh [mkSubset (mkBounds vec3_zero vec3_zero) [] false
                        [PositionSemantic; NormalSemantic] false;
                      mkSubset (mkBounds vec3_zero vec3_zero) [F32.one] false
                        [PositionSemantic; NormalSemantic] false])
    end;
  loadLightmap := fun _ => false;
  getGlobalPos := fun m =>
    mkVec3 (nth 12 m F32.zero) (nth 13 m F32.zero) (nth 14 m F32.zero);
  getScalingCorrectDirection := fun _ => mkVec3 F32.zero F32.zero (F32.neg F32.one);
  getLevelOfDetailMultiplier := fun _ => F32.one;
  calculateGlobalVariables := fun _ c => (c, mkCalcResult false true);
  mat44_getScale := fun _ => mkVec3 F32.one F32.one F32.one;
  mat44_transform := fun _ v => v;
  mat44_map := fun _ v => v;
  bounds_transform := fun b _ => b;
  bounds_getSupport := fun b _ => minimum b;
  bounds_center := fun b => minimum b;
  bounds_centerExtents := fun c e => mkBounds (vec3_sub c e) (vec3_add c e);
  bounds_intersects := fun _ _ => true;
  plane_distance := fun _ _ _ => F32.one;
  distanceToPoint := fun a b => SFabs (F32.sub (vx a) (vx b));
  materialDepthBiasSq := fun _ => F32.zero;
  rhiSupportsInstancing := true;
  rhiSupportsRgba32f := true;
  rhiSupportsRgba16f := true;
  maxUniformBufferRange := 65536;
  customMaterialPrepareForRender := fun _ _ _ => false
|}.

Definition sampleDefaultMaterial (o : float) : QSSGRenderDefaultMaterial :=
  mkDefaultMaterial PrincipledMaterial false o SourceOver AlphaDefault false
    None None None None None None None None None None None None None None None None None.

Definition sampleCustomMaterial : QSSGRenderCustomMaterial :=
  mkCustomMaterial false false false false false.

Definition sampleBounds : QSSGBounds3 := mkBounds vec3_zero vec3_zero.

Definition sampleCamera (ty : CameraType) (active : bool) : QSSGRenderCamera :=
  mkCamera 1 ty false active identityMatrix F32.one F32.one F32.one.

(** A subset with the given level-of-detail distances. *)
Definition sampleSubset (ls : list float) : QSSGRenderSubset :=
  mkSubset sampleBounds ls false [PositionSemantic; NormalSemantic] false.

(** An opaque model of opacity 1.0 and level-of-detail bias 1.0. *)
Definition sampleModel (id : NodeId) (mats : list (option QSSGRenderGraphObject))
    : QSSGRenderModel :=
  mkModel id identityMatrix F32.one mats true true true true false false false F32.one
    false false.

Definition sampleLayer (depthTest : bool) (explicit : option QSSGRenderCamera)
    : QSSGRenderLayer :=
  mkLayer false depthTest explicit false [] false F32.one.

(** Render data right after [resetForFrame], with the lists the traversal of
    the scene classified. *)
Definition sampleRenderData (layer : QSSGRenderLayer)
    (cameras : list QSSGRenderCamera) (lights : list QSSGRenderLight)
    (probes : list QSSGRenderReflectionProbe)
    (models : list (QSSGRenderableNodeEntry QSSGRenderModel))
    (particles : list (QSSGRenderableNodeEntry QSSGRenderParticles))
    (items : list QSSGRenderItem2D) (transforms : list QMatrix4x4)
    : QSSGLayerRenderData :=
  mkLayerRenderData layer (mkRect 0 0 640 480) None None cameras lights probes models
    particles items transforms [] [] [] [] [] [] [] [] [] [] [] None false false false
    [] [] false false false.

Definition translation (x y z : Z) : QMatrix4x4 :=
  [F32.one; F32.zero; F32.zero; F32.zero;
   F32.zero; F32.one; F32.zero; F32.zero;
   F32.zero; F32.zero; F32.one; F32.zero;
   F32.of_Z x; F32.of_Z y; F32.of_Z z; F32.one].

(** A frame with a resolved camera and three opaque handles at the squared
    distances 3, 1 and 2. *)
Definition sampleOpaqueData (depthTest : bool) : QSSGLayerRenderData :=
  set_opaqueObjects
    [mkHandle 0 (F32.of_Z 3); mkHandle 1 (F32.of_Z 1); mkHandle 2 (F32.of_Z 2)]
    (set_camera (Some (sampleCamera PerspectiveCamera true))
       (sampleRenderData (sampleLayer depthTest None) [] [] [] [] [] [] [])).

(** A frame with a resolved camera, depth testing and four opaque handles at
    the squared distances 3, 1, NaN and 2. *)
Definition sampleNaNOpaqueData : QSSGLayerRenderData :=
  set_opaqueObjects
    [mkHandle 0 (F32.of_Z 3); mkHandle 1 (F32.of_Z 1); mkHandle 2 S754_nan;
     mkHandle 3 (F32.of_Z 2)]
    (set_camera (Some (sampleCamera PerspectiveCamera true))
       (sampleRenderData (sampleLayer true None) [] [] [] [] [] [] [])).

(** A frame with a resolved camera and eight 2D items under four scene nodes
    that lie at the same depth.  In the scene, node 3 has the items 17, 16
    and 15; node 0 comes next with the items 14 and 13, both of z-order 0,
    the child node 1, which has the item 12, and the item 11 of z-order 1;
    node 2 comes last with the item 10.  The traversal pushes each item to
    the front of [renderableItem2Ds]. *)
Definition sampleNestedItemData : QSSGLayerRenderData :=
  set_camera (Some (sampleCamera PerspectiveCamera true))
    (sampleRenderData (sampleLayer true None) [] [] [] [] []
       [mkItem2D 10 (Some 2%nat) 0; mkItem2D 11 (Some 0%nat) 1;
        mkItem2D 12 (Some 1%nat) 0; mkItem2D 13 (Some 0%nat) 0;
        mkItem2D 14 (Some 0%nat) 0; mkItem2D 15 (Some 3%nat) 0;
        mkItem2D 16 (Some 3%nat) 0; mkItem2D 17 (Some 3%nat) 0]
       [translation 0 0 (-5); translation 0 0 (-5); translation 1 0 (-5);
        translation (-1) 0 (-5)]).

(** A probe at (x, 0, 0) with an empty box. *)
Definition sampleProbe (id : NodeId) (x : Z) (textured : bool) : QSSGRenderReflectionProbe :=
  mkProbe id (translation x 0 0) vec3_zero vec3_zero false textured.

(** A frame with one opaque record at the origin that receives reflections,
    not yet assigned to a probe, and the given probes. *)
Definition sampleProbeData (probes : list QSSGRenderReflectionProbe) : QSSGLayerRenderData :=
  set_opaqueObjects [mkHandle 0 F32.zero]
    (set_arena
       [mkRenderable DefaultMaterialMeshSubset (orFlag noFlags ReceivesReflections)
          vec3_zero F32.zero 1 0 F32.one 0 [] sampleBounds identityMatrix (-1) F32.zero
          noProbeData]
       (set_camera (Some (sampleCamera PerspectiveCamera true))
          (sampleRenderData (sampleLayer true None) [] [] probes [] [] [] []))).

Definition sampleTransmissionMaterial : QSSGRenderDefaultMaterial :=
  mkDefaultMaterial PrincipledMaterial false F32.one SourceOver AlphaDefault true
    None None None None None None None None None None None None None None None None None.

Definition sampleLight (id : NodeId) (castShadow : bool) : QSSGRenderLight :=
  mkLight id DirectionalLight castShadow false None 9 identityMatrix.

Definition sampleParticles (id : NodeId) : QSSGRenderParticles :=
  mkParticles id identityMatrix F32.one true false 5 sampleBounds F32.zero None None.

(** A frame to prepare: an active camera, a directional light that casts
    shadows, a probe without texture, a model with an opaque default material
    and a blending custom material, a model with a transmission material, a
    model without materials, and a particle system. *)
Definition sampleFrame : QSSGLayerRenderData :=
  sampleRenderData (sampleLayer true None)
    [sampleCamera PerspectiveCamera false; sampleCamera OrthographicCamera true]
    [sampleLight 30 true]
    [sampleProbe 20 1 false]
    [mkEntry (sampleModel 1
                [Some (DefaultMaterialObject (sampleDefaultMaterial F32.one));
                 Some (CustomMaterialObject (mkCustomMaterial true false false false false))])
             None;
     mkEntry (sampleModel 2 [Some (DefaultMaterialObject sampleTransmissionMaterial)]) None;
     mkEntry (sampleModel 3 []) None]
    [mkEntry (sampleParticles 40) None]
    [] [].

(** * Further parts of the layer render data

    What the further properties of qssglayerrenderdata.cpp are stated with:
    the cached lists the accessors read, the shadow map entries, light
    scoping, the records of particles, models and material images, and
    stable sorting by a key. *)

(** ** What the accessors read

    The camera and the four cached render lists: they decide what the sorted
    accessors return. *)
Definition renderCaches (this : QSSGLayerRenderData)
    : QSSGRenderableObjectList * QSSGRenderableObjectList * QSSGRenderableObjectList
      * list QSSGRenderItem2D :=
  (renderedOpaqueObjects this, renderedTransparentObjects this,
   renderedScreenTextureObjects this, renderedItem2Ds this).

Definition drawInputs (this : QSSGLayerRenderData) :=
  (camera this, renderCaches this).

(** A frame whose traversal queued a particle system but no camera. *)
Definition sampleBlindFrame : QSSGLayerRenderData :=
  sampleRenderData (sampleLayer true None) [] [] [] [] [mkEntry (sampleParticles 40) None]
    [] [].

(** A frame without a camera whose model gets a mesh with a level-of-detail
    subset. *)
Definition sampleBlindLodFrame : QSSGLayerRenderData :=
  sampleRenderData (sampleLayer true None) [] [] []
    [mkEntry (sampleModel 1 [Some (DefaultMaterialObject (sampleDefaultMaterial F32.one))])
       None]
    [] [] [].

(** A frame with a resolved camera, three opaque handles at the squared
    distances 3, 1 and 2, a transparent one at 5 and two screen texture
    handles at 4 and 6. *)
Definition sampleBucketsData (depthTest : bool) : QSSGLayerRenderData :=
  set_screenTextureObjects [mkHandle 4 (F32.of_Z 4); mkHandle 5 (F32.of_Z 6)]
    (set_transparentObjects [mkHandle 3 (F32.of_Z 5)] (sampleOpaqueData depthTest)).

(** A light is scoped when [m_scope] is set. *)
Definition isScoped (shaderLight : QSSGShaderLight) : bool :=
  bool_decide (is_Some (m_scope (sl_light shaderLight))).

(** The shadow map entry of the light at index [i] of the selected lights. *)
Definition shadowMapEntryFor (i : nat) (shaderLight : QSSGShaderLight) : ShadowMapEntry :=
  mkShadowMapEntry i (Z.shiftl 1 (m_shadowMapRes (sl_light shaderLight)) mod 2 ^ 32)
    (match light_type (sl_light shaderLight) with
     | DirectionalLight => VSM
     | _ => CUBE
     end).

(** The entries for the shadow-casting lights among [ls], whose head has the
    index [i]. *)
Fixpoint shadowMapEntriesFrom (i : nat) (ls : list QSSGShaderLight) : list ShadowMapEntry :=
  match ls with
  | [] => []
  | shaderLight :: rest =>
      if sl_shadows shaderLight
      then shadowMapEntryFor i shaderLight :: shadowMapEntriesFrom (S i) rest
      else shadowMapEntriesFrom (S i) rest
  end.

(** Eleven lights, the third one scoped to node 7, all set to cast shadows. *)
Definition sampleManyLights : list QSSGRenderLight :=
  map (fun id => mkLight id (if (id =? 2)%nat then SpotLight else DirectionalLight)
                   true false (if (id =? 2)%nat then Some 7%nat else None) 9
                   identityMatrix)
      (seq 0 11).

Definition sampleLightsFrame : QSSGLayerRenderData :=
  sampleRenderData (sampleLayer true None) [] sampleManyLights [] [] [] [] [].

(** ** Light scoping (lines 1588-1597 and 1903-1944)

    [scopeLight] follows the [parent] pointers of a node up to the root.  A
    node is given here with the chain of its parents. *)
Inductive QSSGRenderNodeRef :=
| rootNode (ref_id : NodeId)
| childNode (ref_id : NodeId) (ref_parent : QSSGRenderNodeRef).

(** The loop from a node that is not null. *)
Fixpoint scopeLightFrom (node : QSSGRenderNodeRef) (lightScope : NodeId) : bool :=
  match node with
  | rootNode id => (id =? lightScope)%nat
  | childNode id parent =>
      if (id =? lightScope)%nat then true else scopeLightFrom parent lightScope
  end.

Definition scopeLight (node : option QSSGRenderNodeRef) (lightScope : NodeId) : bool :=
  match node with
  | None => false
  | Some n => scopeLightFrom n lightScope
  end.

(** The identities of a node and of the nodes above it. *)
Fixpoint ancestry (node : QSSGRenderNodeRef) : list NodeId :=
  match node with
  | rootNode id => [id]
  | childNode id parent => id :: ancestry parent
  end.

(** The inner loop of [prepareLightsWithScopedLights]: the lights of the
    frame without those scoped to a node that is not above [node]. *)
Definition filterLightsForNode (renderableLights : list QSSGShaderLight)
    (node : QSSGRenderNodeRef) : list QSSGShaderLight :=
  fold_left
    (fun filteredLights light =>
       match m_scope (sl_light light) with
       | Some scope =>
           if negb (scopeLight (Some node) scope) then filteredLights
           else filteredLights ++ [light]
       | None => filteredLights ++ [light]
       end)
    renderableLights [].

(** [sizeof(NodeLights) / sizeof(QSSGShaderLight)]: the slots of a per-node
    light list. *)
Definition NodeLightsSlots : nat := 16.

(** The light list a renderable node is given: the global list, or a list
    of its own copied into an array of [NodeLightsSlots] slots; [None] stands
    for a copy that runs past the array. *)
Definition prepareLightsForNode (hasScopedLights : bool)
    (renderableLights globalLights : list QSSGShaderLight) (node : QSSGRenderNodeRef)
    : option (list QSSGShaderLight) :=
  if hasScopedLights then
    let filteredLights := filterLightsForNode renderableLights node in
    if bool_decide (filteredLights = []) then Some globalLights
    else if (length filteredLights <=? NodeLightsSlots)%nat then Some filteredLights
    else None
  else Some globalLights.

(** A light reaches a node when it is not scoped or scoped to the node or to
    a node above it. *)
Definition lightReaches (node : QSSGRenderNodeRef) (shaderLight : QSSGShaderLight) : bool :=
  match m_scope (sl_light shaderLight) with
  | Some scope => bool_decide (scope ∈ ancestry node)
  | None => true
  end.

(** Node 9 under node 7 under node 1. *)
Definition sampleNodeRef : QSSGRenderNodeRef :=
  childNode 9 (childNode 7 (rootNode 1)).

(** ** Particle systems *)

(** A particle system gets a record when its opacity is above zero and it
    holds a particle. *)
Definition particlesDrawable (particles : QSSGRenderParticles) : bool :=
  F32.gtb (particles_globalOpacity particles) F32.zero
  && negb (particleCount particles =? 0).

Definition imageDirty (image : option QSSGRenderImage) : bool :=
  match image with
  | Some i => image_dirty i
  | None => false
  end.

(** What is known of the record of a particle system. *)
Definition isParticlesRecord (particles : QSSGRenderParticles) (o : QSSGRenderableObject)
    : Prop :=
  ro_type o = Particles
  /\ ro_node o = particles_id particles
  /\ ro_opacity o = particles_globalOpacity particles
  /\ testFlag (ro_flags o) HasTransparency = m_hasTransparency particles
  /\ testFlag (ro_flags o) CastsReflections = m_castsReflections particles
  /\ testFlag (ro_flags o) RequiresScreenTexture = false
  /\ testFlag (ro_flags o) CastsShadows = false
  /\ testFlag (ro_flags o) ReceivesShadows = false
  /\ testFlag (ro_flags o) ReceivesReflections = false.

(** A particle system that is not drawn: its opacity is zero. *)
Definition sampleHiddenParticles (id : NodeId) : QSSGRenderParticles :=
  mkParticles id identityMatrix F32.zero true false 5 sampleBounds F32.zero None None.

(** ** The records of a model *)

(** The kind of record a material gives: none for a graph object that is
    neither a default nor a custom material. *)
Definition recordTypeOf (material : QSSGRenderGraphObject) : option RenderableType :=
  match material with
  | DefaultMaterialObject _ => Some DefaultMaterialMeshSubset
  | CustomMaterialObject _ => Some CustomMaterialMeshSubset
  | OtherGraphObject => None
  end.

(** The subset index and the kind of the record of subset [idx] of a model,
    if the subset gets one. *)
Definition subsetRecord (model : QSSGRenderModel) (idx : nat)
    : option (nat * RenderableType) :=
  material ← materialForSubset (materials model) idx;
  ty ← recordTypeOf material;
  Some (idx, ty).

(** A model of three subsets with two materials, the first one null. *)
Definition sampleThreeSubsets : QSSGRenderMesh :=
  mkMesh [sampleSubset []; sampleSubset []; sampleSubset []].

Definition sampleTwoMaterials : QSSGRenderModel :=
  sampleModel 5 [None; Some (CustomMaterialObject sampleCustomMaterial)].

(** ** The image chain of a default material *)

(** The map types in the order [prepareDefaultMaterialForRender] visits the
    maps of a material of the given kind. *)
Definition materialMapOrder (ty : DefaultMaterialType) : list QSSGRenderableImageType :=
  match ty with
  | PrincipledMaterial =>
      [ImgBaseColor; ImgOcclusion; ImgHeight; ImgClearcoat; ImgClearcoatRoughness;
       ImgClearcoatNormal; ImgTransmission; ImgThickness; ImgMetalness]
  | SpecularGlossyMaterial =>
      [ImgBaseColor; ImgOcclusion; ImgHeight; ImgClearcoat; ImgClearcoatRoughness;
       ImgClearcoatNormal; ImgTransmission; ImgThickness]
  | DefaultMaterial => [ImgDiffuse]
  end
  ++ [ImgEmissive; ImgSpecular; ImgRoughness; ImgOpacity; ImgBump; ImgSpecularAmountMap;
      ImgNormal; ImgTranslucency].

(** The map of a material that is prepared with the given type. *)
Definition materialMap (m : QSSGRenderDefaultMaterial) (t : QSSGRenderableImageType)
    : option QSSGRenderImage :=
  match t with
  | ImgDiffuse | ImgBaseColor => colorMap m
  | ImgOcclusion => occlusionMap m
  | ImgHeight => heightMap m
  | ImgClearcoat => clearcoatMap m
  | ImgClearcoatRoughness => clearcoatRoughnessMap m
  | ImgClearcoatNormal => clearcoatNormalMap m
  | ImgTransmission => transmissionMap m
  | ImgThickness => thicknessMap m
  | ImgMetalness => metalnessMap m
  | ImgEmissive => emissiveMap m
  | ImgSpecular => specularReflection m
  | ImgRoughness => roughnessMap m
  | ImgOpacity => opacityMap m
  | ImgBump => bumpMap m
  | ImgSpecularAmountMap => specularMap m
  | ImgNormal => normalMap m
  | ImgTranslucency => translucencyMap m
  end.

Section MorePreparation.
Context `{Collaborators}.

(** The end of [prepareForRender], from the result of the preparation of the
    models on (lines 1976-2051). *)
Definition finishPreparation (wasDirty wasDataDirty : bool) (cameraData : QSSGCameraData)
    (prepared : bool * QSSGLayerRenderPreparationResultFlags * QSSGLayerRenderData)
    : QSSGLayerRenderData :=
  let '(dirtyModels, flags, this) := prepared in
  let wasDirty := wasDirty || dirtyModels in
  let '(dirtyParticles, this) :=
    prepareParticlesForRender (renderableParticles this) cameraData this in
  let wasDirty := wasDirty || dirtyParticles in
  let wasDirty := wasDirty || negb (bool_decide (renderableItem2Ds this = [])) in
  let this := prepareReflectionProbesForRender this in
  let wasDirty := wasDirty || wasDataDirty in
  let flags := setLayerDataDirty wasDataDirty (setWasDirty wasDirty flags) in
  let this := set_layerPrepResult (Some flags) this in
  preparePasses flags this.

(** A link of the image chain is in order for a material: it holds the map
    the material has for its type and the texture loaded for that map, which
    is available. *)
Definition imageLinkOf (m : QSSGRenderDefaultMaterial) (link : QSSGRenderableImage)
    : Prop :=
  materialMap m (m_mapType link) = Some (m_imageNode link)
  /\ m_imageTexture link = loadRenderImage (m_imageNode link)
  /\ m_texture (m_imageTexture link) <> None.

End MorePreparation.

(** ** Stable sorting by a key

    What a stable sort by an integer key gives: the elements in ascending
    order of key, those of one key in the order they had. *)
Definition hasKey {A : Type} (key : A -> Z) (k : Z) (a : A) : bool := key a =? k.

Definition ascending {A : Type} (key : A -> Z) (l : list A) : Prop :=
  StronglySorted (fun a b => key a <= key b) l.

Definition descending {A : Type} (key : A -> Z) (l : list A) : Prop :=
  StronglySorted (fun a b => key b <= key a) l.

Definition stableFor {A : Type} (key : A -> Z) (l result : list A) : Prop :=
  forall k, List.filter (hasKey key k) result = List.filter (hasKey key k) l.

(** A range made of ascending runs of [step_size] elements, the last one
    possibly shorter, as the merge passes of [std::stable_sort] see it. *)
Definition ascendingRuns {A : Type} (key : A -> Z) (step_size : nat) (l : list A) : Prop :=
  forall n, ascending key (firstn step_size (skipn (n * step_size) l)).

(** A frame with a resolved camera and nine 2D items, all of them under the
    scene node 0. *)
Definition sampleSiblingItemData : QSSGLayerRenderData :=
  set_camera (Some (sampleCamera PerspectiveCamera true))
    (sampleRenderData (sampleLayer true None) [] [] [] [] []
       [mkItem2D 10 (Some 0%nat) 2; mkItem2D 11 (Some 0%nat) 0;
        mkItem2D 12 (Some 0%nat) 1; mkItem2D 13 (Some 0%nat) 0;
        mkItem2D 14 (Some 0%nat) 2; mkItem2D 15 (Some 0%nat) 1;
        mkItem2D 16 (Some 0%nat) 0; mkItem2D 17 (Some 0%nat) 2;
        mkItem2D 18 (Some 0%nat) 1]
       [translation 0 0 (-5)]).

(** * Properties *)

(** ** binary32 comparisons *)

Lemma F32_ltb_irrefl (x : float) : F32.ltb x x = false.
Proof.
  unfold F32.ltb, SFltb.
  destruct x as [[]|[]| |[] m e]; simpl; try reflexivity;
    rewrite Z.compare_refl; change (Pos.compare_cont Eq m m) with (Pos.compare m m);
    rewrite Pos.compare_refl; reflexivity.
Qed.

Ltac compare_cases :=
  repeat match goal with
  | H : context [Z.compare ?a ?b] |- _ => destruct (Z.compare_spec a b)
  | |- context [Z.compare ?a ?b] => destruct (Z.compare_spec a b)
  | H : context [Pos.compare ?a ?b] |- _ => destruct (Pos.compare_spec a b)
  | |- context [Pos.compare ?a ?b] => destruct (Pos.compare_spec a b)
  end.

Ltac float_order :=
  unfold F32.gtb, F32.geb, F32.leb, F32.ltb, SFltb, SFleb, SFcompare in *;
  change (Pos.compare_cont Eq) with Pos.compare in *;
  repeat match goal with
  | x : spec_float |- _ => destruct x as [[]|[]| |[] ? ?]
  | x : float |- _ => destruct x as [[]|[]| |[] ? ?]
  end;
  simpl in *; try reflexivity; try discriminate;
  compare_cases; simpl in *; subst; try reflexivity; try discriminate; try lia.

Lemma F32_leb_trans (a b c : float) :
  F32.leb a b = true -> F32.leb b c = true -> F32.leb a c = true.
Proof. intros H1 H2. float_order. Qed.

Lemma F32_ltb_false_leb (a b : float) :
  F32.is_nan a = false -> F32.is_nan b = false ->
  F32.ltb a b = false -> F32.leb b a = true.
Proof. intros Ha Hb H1. float_order. Qed.

Lemma F32_ltb_leb (a b : float) : F32.ltb a b = true -> F32.leb a b = true.
Proof. intros H1. float_order. Qed.

Lemma F32_ltb_asym (a b : float) : F32.ltb a b = true -> F32.leb b a = false.
Proof. intros H1. float_order. Qed.

Lemma F32_ltb_not_nan (a b : float) :
  F32.ltb a b = true -> F32.is_nan a = false /\ F32.is_nan b = false.
Proof. intros H1. float_order; split; reflexivity. Qed.

Lemma F32_sub_not_nan_r (a b : float) :
  F32.is_nan (F32.sub a b) = false -> F32.is_nan b = false.
Proof.
  destruct b; try reflexivity.
  unfold F32.sub. destruct a; simpl; intros; discriminate.
Qed.

(** ** Flags *)

Lemma flagBit_nonneg (f : QSSGRenderableObjectFlag) : 0 <= flagBit f.
Proof. destruct f; simpl; lia. Qed.

Lemma flagBit_inj (f g : QSSGRenderableObjectFlag) : flagBit f = flagBit g -> f = g.
Proof. destruct f, g; simpl; intros Hfg; try reflexivity; discriminate Hfg. Qed.

Lemma flagBit_eqb (f g : QSSGRenderableObjectFlag) :
  (flagBit f =? flagBit g) = bool_decide (f = g).
Proof.
  destruct (decide (f = g)) as [->|Hne].
  - rewrite Z.eqb_refl, bool_decide_eq_true_2; reflexivity.
  - rewrite bool_decide_eq_false_2 by assumption.
    apply Z.eqb_neq. intros Hb. apply Hne, flagBit_inj, Hb.
Qed.

Lemma testFlag_orFlag (fl : QSSGRenderableObjectFlags) (f g : QSSGRenderableObjectFlag) :
  testFlag (orFlag fl f) g = bool_decide (f = g) || testFlag fl g.
Proof.
  unfold testFlag, orFlag.
  change (Z.lor fl (Z.shiftl 1 (flagBit f))) with (Z.setbit fl (flagBit f)).
  rewrite Z.setbit_eqb by apply flagBit_nonneg.
  rewrite flagBit_eqb. reflexivity.
Qed.

Lemma testFlag_setFlag (fl : QSSGRenderableObjectFlags) (f g : QSSGRenderableObjectFlag)
    (b : bool) :
  testFlag (setFlag fl f b) g = if bool_decide (f = g) then b else testFlag fl g.
Proof.
  unfold testFlag, setFlag. destruct b.
  - rewrite Z.setbit_eqb by apply flagBit_nonneg. rewrite flagBit_eqb.
    destruct (bool_decide (f = g)); reflexivity.
  - rewrite Z.clearbit_eqb. rewrite flagBit_eqb.
    destruct (bool_decide (f = g)); simpl; [apply andb_false_r | apply andb_true_r].
Qed.

Lemma testFlag_orFlag_same (fl : QSSGRenderableObjectFlags) (f : QSSGRenderableObjectFlag) :
  testFlag (orFlag fl f) f = true.
Proof. rewrite testFlag_orFlag, bool_decide_eq_true_2; reflexivity. Qed.

Lemma testFlag_orFlag_other (fl : QSSGRenderableObjectFlags)
    (f g : QSSGRenderableObjectFlag) :
  f <> g -> testFlag (orFlag fl f) g = testFlag fl g.
Proof. intros Hne. rewrite testFlag_orFlag, bool_decide_eq_false_2; auto. Qed.

Lemma testFlag_noFlags (f : QSSGRenderableObjectFlag) : testFlag noFlags f = false.
Proof. unfold testFlag, noFlags. apply Z.testbit_0_l. Qed.

Section Properties.
Context `{Collaborators}.

(** ** Material preparation *)

Lemma uniformTransparency_id : uniformTransparency (fun st => st).
Proof. exists false. intros l fl. simpl. rewrite orb_false_r. reflexivity. Qed.

Lemma uniformTransparency_comp s1 s2 :
  uniformTransparency s1 -> uniformTransparency s2 ->
  uniformTransparency (fun st => s2 (s1 st)).
Proof.
  intros [c1 H1] [c2 H2]. exists (c1 || c2). intros l fl.
  destruct (s1 (l, fl)) as [l1 fl1] eqn:E1.
  rewrite H2. specialize (H1 l fl). rewrite E1 in H1. simpl in H1.
  rewrite H1, orb_assoc. reflexivity.
Qed.

Lemma uniformTransparency_image img ty :
  uniformTransparency (prepareImageForRender img ty).
Proof.
  exists (bool_decide (is_Some (m_texture (loadRenderImage img)))
          && (m_flags_hasTransparency (loadRenderImage img) && isTransparencyMap ty)).
  intros l fl. unfold prepareImageForRender.
  assert (Hd : testFlag (if image_dirty img then orFlag fl Dirty else fl) HasTransparency
               = testFlag fl HasTransparency).
  { destruct (image_dirty img); [apply testFlag_orFlag_other; discriminate | reflexivity]. }
  destruct (m_texture (loadRenderImage img)) as [t|]; simpl.
  - destruct (m_flags_hasTransparency (loadRenderImage img) && isTransparencyMap ty).
    + rewrite testFlag_orFlag_same, orb_true_r. reflexivity.
    + rewrite Hd, orb_false_r. reflexivity.
  - rewrite Hd, orb_false_r. reflexivity.
Qed.

Lemma uniformTransparency_check img ty :
  uniformTransparency (CHECK_IMAGE_AND_PREPARE img ty).
Proof.
  destruct img as [i|]; simpl.
  - apply uniformTransparency_image.
  - apply uniformTransparency_id.
Qed.

Lemma uniformTransparency_images m : uniformTransparency (prepareMaterialImages m).
Proof.
  unfold prepareMaterialImages.
  repeat first
    [ apply uniformTransparency_check
    | apply uniformTransparency_id
    | apply (uniformTransparency_comp _ (CHECK_IMAGE_AND_PREPARE _ _)) ].
  destruct (mat_type m);
    repeat first
      [ apply uniformTransparency_check
      | apply uniformTransparency_id
      | apply (uniformTransparency_comp _ (CHECK_IMAGE_AND_PREPARE _ _)) ].
Qed.

Lemma prepareMaterialImages_transparency m l fl :
  testFlag (snd (prepareMaterialImages m (l, fl))) HasTransparency
  = testFlag fl HasTransparency
    || testFlag (snd (prepareMaterialImages m ([], noFlags))) HasTransparency.
Proof.
  destruct (uniformTransparency_images m) as [c Hc].
  rewrite (Hc l fl), (Hc [] noFlags), testFlag_noFlags. reflexivity.
Qed.

Lemma keepsFlag_comp g s1 s2 :
  keepsFlag g s1 -> keepsFlag g s2 -> keepsFlag g (fun st => s2 (s1 st)).
Proof.
  intros H1 H2 l fl. destruct (s1 (l, fl)) as [l1 fl1] eqn:E1.
  rewrite H2. specialize (H1 l fl). rewrite E1 in H1. exact H1.
Qed.

Lemma keepsFlag_check g img ty :
  g <> Dirty -> g <> HasTransparency -> keepsFlag g (CHECK_IMAGE_AND_PREPARE img ty).
Proof.
  intros Hd Ht l fl. destruct img as [i|]; simpl; [|reflexivity].
  unfold prepareImageForRender.
  assert (Hdirty : testFlag (if image_dirty i then orFlag fl Dirty else fl) g = testFlag fl g).
  { destruct (image_dirty i); [apply testFlag_orFlag_other; congruence | reflexivity]. }
  destruct (m_texture (loadRenderImage i)); simpl; [|exact Hdirty].
  destruct (m_flags_hasTransparency (loadRenderImage i) && isTransparencyMap ty);
    [rewrite testFlag_orFlag_other by congruence|]; exact Hdirty.
Qed.

Lemma keepsFlag_images g m :
  g <> Dirty -> g <> HasTransparency -> keepsFlag g (prepareMaterialImages m).
Proof.
  intros Hd Ht. unfold prepareMaterialImages.
  repeat first
    [ apply (keepsFlag_check g _ _ Hd Ht)
    | apply (keepsFlag_comp g _ (CHECK_IMAGE_AND_PREPARE _ _)) ].
  destruct (mat_type m);
    repeat first
      [ apply (keepsFlag_check g _ _ Hd Ht)
      | apply (keepsFlag_comp g _ (CHECK_IMAGE_AND_PREPARE _ _))
      | (intros l fl; reflexivity) ].
Qed.

(** The clamp by cases, on the comparisons the source makes. *)
Lemma clampSubsetOpacity_below x fl :
  F32.gtb F32.zero (F32.sub F32.one QSSG_RENDER_MINIMUM_RENDER_OPACITY) = false ->
  F32.ltb x QSSG_RENDER_MINIMUM_RENDER_OPACITY = true ->
  clampSubsetOpacity x fl
  = (F32.zero, orFlag (orFlag (orFlag fl HasTransparency) CompletelyTransparent)
                 HasTransparency).
Proof. intros Heps Hx. unfold clampSubsetOpacity. rewrite Hx, Heps. reflexivity. Qed.

Lemma clampSubsetOpacity_above x fl :
  F32.ltb x QSSG_RENDER_MINIMUM_RENDER_OPACITY = false ->
  F32.gtb x (F32.sub F32.one QSSG_RENDER_MINIMUM_RENDER_OPACITY) = true ->
  clampSubsetOpacity x fl = (F32.one, fl).
Proof. intros Hlo Hhi. unfold clampSubsetOpacity. rewrite Hlo, Hhi. reflexivity. Qed.

Lemma clampSubsetOpacity_between x fl :
  F32.ltb x QSSG_RENDER_MINIMUM_RENDER_OPACITY = false ->
  F32.gtb x (F32.sub F32.one QSSG_RENDER_MINIMUM_RENDER_OPACITY) = false ->
  clampSubsetOpacity x fl = (x, orFlag fl HasTransparency).
Proof. intros Hlo Hhi. unfold clampSubsetOpacity. rewrite Hlo, Hhi. reflexivity. Qed.

(** The flags and the opacity of the default material, in terms of the
    clamp and of the flags the images leave. *)
Lemma prepareDefaultMaterialForRender_result m fl inOpacity io :
  let x := F32.mul inOpacity (mat_opacity m) in
  let fl0 := if mat_isDirty m then orFlag fl Dirty else fl in
  let pre :=
    if F32.geb x QSSG_RENDER_MINIMUM_RENDER_OPACITY then
      snd (prepareMaterialImages m
             ([], if negb (isSourceOver (blendMode m))
                     || bool_decide (is_Some (opacityMap m))
                     || isAlphaBlend (alphaMode m)
                  then orFlag fl0 HasTransparency else fl0))
    else fl0 in
  let d := fst (prepareDefaultMaterialForRender m fl inOpacity io) in
  opacity d = fst (clampSubsetOpacity x pre)
  /\ forall g, g <> RequiresScreenTexture ->
       testFlag (renderableFlags d) g = testFlag (snd (clampSubsetOpacity x pre)) g.
Proof.
  intros x fl0 pre d. subst d. unfold prepareDefaultMaterialForRender.
  fold x. fold fl0.
  match goal with
  | |- context [prepareMaterialImages m ?a] => destruct (prepareMaterialImages m a) as [imgs fli] eqn:Ei
  end.
  subst pre. simpl.
  destruct (F32.geb x QSSG_RENDER_MINIMUM_RENDER_OPACITY);
    match goal with
    | |- context [clampSubsetOpacity x ?a] => destruct (clampSubsetOpacity x a) as [o' fl'] eqn:Ec
    end;
    destruct (isTransmissionEnabled m); simpl; split; try reflexivity;
    intros g Hg; try reflexivity; apply testFlag_orFlag_other; congruence.
Qed.

(** C2 (as amended): the opacity clamp of material preparation.  With [x] the
    effective subset opacity (the incoming opacity times the opacity of a
    default material, the incoming opacity itself for a custom material):
    when [x] is strictly below the minimum render opacity the opacity becomes
    0.0 and the record gets HasTransparency and CompletelyTransparent; when
    [x] is strictly above one minus the minimum the opacity becomes 1.0,
    CompletelyTransparent is left as it was and HasTransparency is set only
    by what does not depend on the opacity; in every other case, the two
    bounds themselves included, the opacity is kept and HasTransparency is
    set. *)
Theorem opacity_clamp_strict (m : QSSGRenderDefaultMaterial)
    (cm : QSSGRenderCustomMaterial) (fl : QSSGRenderableObjectFlags)
    (inOpacity : float) (io : QSSGLayerRenderPreparationResultFlags)
    (Heps : F32.gtb F32.zero (F32.sub F32.one QSSG_RENDER_MINIMUM_RENDER_OPACITY) = false) :
  let eps := QSSG_RENDER_MINIMUM_RENDER_OPACITY in
  let x := F32.mul inOpacity (mat_opacity m) in
  let d := fst (prepareDefaultMaterialForRender m fl inOpacity io) in
  let c := fst (prepareCustomMaterialForRender cm fl inOpacity io) in
  (F32.ltb x eps = true ->
     opacity d = F32.zero
     /\ testFlag (renderableFlags d) HasTransparency = true
     /\ testFlag (renderableFlags d) CompletelyTransparent = true)
  /\ (F32.ltb x eps = false -> F32.gtb x (F32.sub F32.one eps) = true ->
        opacity d = F32.one
        /\ testFlag (renderableFlags d) CompletelyTransparent
           = testFlag fl CompletelyTransparent
        /\ testFlag (renderableFlags d) HasTransparency
           = testFlag fl HasTransparency || opacityIndependentTransparency m)
  /\ (F32.ltb x eps = false -> F32.gtb x (F32.sub F32.one eps) = false ->
        opacity d = x
        /\ testFlag (renderableFlags d) HasTransparency = true
        /\ testFlag (renderableFlags d) CompletelyTransparent
           = testFlag fl CompletelyTransparent)
  /\ (F32.ltb inOpacity eps = true ->
        opacity c = F32.zero
        /\ testFlag (renderableFlags c) HasTransparency = true
        /\ testFlag (renderableFlags c) CompletelyTransparent = true)
  /\ (F32.ltb inOpacity eps = false -> F32.gtb inOpacity (F32.sub F32.one eps) = true ->
        opacity c = F32.one
        /\ testFlag (renderableFlags c) CompletelyTransparent
           = testFlag fl CompletelyTransparent
        /\ testFlag (renderableFlags c) HasTransparency
           = testFlag fl HasTransparency || rf_Blending cm)
  /\ (F32.ltb inOpacity eps = false -> F32.gtb inOpacity (F32.sub F32.one eps) = false ->
        opacity c = inOpacity
        /\ testFlag (renderableFlags c) HasTransparency = true
        /\ testFlag (renderableFlags c) CompletelyTransparent
           = testFlag fl CompletelyTransparent).
Proof.
  intros eps x d c.
  destruct (prepareDefaultMaterialForRender_result m fl inOpacity io) as [Hop Hfl].
  fold x in Hop, Hfl. fold d in Hop, Hfl.
  assert (Hdirty : forall g, g <> Dirty ->
            testFlag (if mat_isDirty m then orFlag fl Dirty else fl) g = testFlag fl g).
  { intros g Hg. destruct (mat_isDirty m); [apply testFlag_orFlag_other; congruence|reflexivity]. }
  assert (Hcustom : forall o' fl',
            clampSubsetOpacity inOpacity fl = (o', fl') ->
            opacity c = o'
            /\ testFlag (renderableFlags c) HasTransparency
               = testFlag fl' HasTransparency || rf_Blending cm
            /\ testFlag (renderableFlags c) CompletelyTransparent
               = testFlag fl' CompletelyTransparent).
  { intros o' fl' Hc. subst c. unfold prepareCustomMaterialForRender. rewrite Hc.
    destruct (rf_Blending cm), (rf_ScreenTexture cm), (rf_ScreenMipTexture cm); simpl;
      repeat split;
      repeat (rewrite testFlag_orFlag_other by discriminate);
      try rewrite testFlag_orFlag_same;
      try rewrite orb_true_r; try rewrite orb_false_r; reflexivity. }
  split; [intros Hlow | split; [intros Hlow Hhigh | split; [intros Hlow Hhigh |
    split; [intros Hlow | split; [intros Hlow Hhigh | intros Hlow Hhigh]]]]];
    repeat split.
  - rewrite Hop, (clampSubsetOpacity_below _ _ Heps Hlow). reflexivity.
  - rewrite Hfl by discriminate. rewrite (clampSubsetOpacity_below _ _ Heps Hlow).
    apply testFlag_orFlag_same.
  - rewrite Hfl by discriminate. rewrite (clampSubsetOpacity_below _ _ Heps Hlow). simpl.
    rewrite testFlag_orFlag_other by discriminate. apply testFlag_orFlag_same.
  - rewrite Hop, (clampSubsetOpacity_above _ _ Hlow Hhigh). reflexivity.
  - rewrite Hfl by discriminate. rewrite (clampSubsetOpacity_above _ _ Hlow Hhigh). simpl.
    destruct (F32.geb x QSSG_RENDER_MINIMUM_RENDER_OPACITY).
    + rewrite (keepsFlag_images CompletelyTransparent m) by discriminate.
      match goal with |- context [if ?b then _ else _] => destruct b end;
        [rewrite testFlag_orFlag_other by discriminate|]; apply Hdirty; discriminate.
    + apply Hdirty; discriminate.
  - rewrite Hfl by discriminate. rewrite (clampSubsetOpacity_above _ _ Hlow Hhigh). simpl.
    assert (Hge : F32.geb x QSSG_RENDER_MINIMUM_RENDER_OPACITY = true).
    { destruct (F32_ltb_not_nan _ _ Hhigh) as [Hn1 Hn2].
      apply F32_ltb_false_leb; [assumption| |assumption].
      apply (F32_sub_not_nan_r F32.one). assumption. }
    rewrite Hge, prepareMaterialImages_transparency.
    unfold opacityIndependentTransparency.
    match goal with |- context [if ?b then _ else _] => destruct b eqn:Eb end.
    + rewrite testFlag_orFlag_same. simpl. rewrite orb_true_r. reflexivity.
    + rewrite Hdirty by discriminate. simpl. reflexivity.
  - rewrite Hop, (clampSubsetOpacity_between _ _ Hlow Hhigh). reflexivity.
  - rewrite Hfl by discriminate. rewrite (clampSubsetOpacity_between _ _ Hlow Hhigh).
    apply testFlag_orFlag_same.
  - rewrite Hfl by discriminate. rewrite (clampSubsetOpacity_between _ _ Hlow Hhigh). simpl.
    rewrite testFlag_orFlag_other by discriminate.
    destruct (F32.geb x QSSG_RENDER_MINIMUM_RENDER_OPACITY).
    + rewrite (keepsFlag_images CompletelyTransparent m) by discriminate.
      match goal with |- context [if ?b then _ else _] => destruct b end;
        [rewrite testFlag_orFlag_other by discriminate|]; apply Hdirty; discriminate.
    + apply Hdirty; discriminate.
  - destruct (Hcustom _ _ (clampSubsetOpacity_below _ _ Heps Hlow)) as (? & ? & ?). assumption.
  - destruct (Hcustom _ _ (clampSubsetOpacity_below _ _ Heps Hlow)) as (? & Ht & ?).
    rewrite Ht, testFlag_orFlag_same. reflexivity.
  - destruct (Hcustom _ _ (clampSubsetOpacity_below _ _ Heps Hlow)) as (? & ? & Hc).
    rewrite Hc, testFlag_orFlag_other by discriminate. apply testFlag_orFlag_same.
  - destruct (Hcustom _ _ (clampSubsetOpacity_above _ _ Hlow Hhigh)) as (? & ? & ?). assumption.
  - destruct (Hcustom _ _ (clampSubsetOpacity_above _ _ Hlow Hhigh)) as (? & ? & ?). assumption.
  - destruct (Hcustom _ _ (clampSubsetOpacity_above _ _ Hlow Hhigh)) as (? & ? & ?). assumption.
  - destruct (Hcustom _ _ (clampSubsetOpacity_between _ _ Hlow Hhigh)) as (? & ? & ?). assumption.
  - destruct (Hcustom _ _ (clampSubsetOpacity_between _ _ Hlow Hhigh)) as (? & Ht & ?).
    rewrite Ht, testFlag_orFlag_same. reflexivity.
  - destruct (Hcustom _ _ (clampSubsetOpacity_between _ _ Hlow Hhigh)) as (? & ? & Hc).
    rewrite Hc. apply testFlag_orFlag_other. discriminate.
Qed.

(** ** Level of detail *)

Lemma lodLoop_prefix (ls : list float) (i currentLod : Z)
    (modelScale modelBias threshold lodThreshold : float) :
  let screenSize d := F32.div (F32.mul (F32.mul d modelScale) modelBias) threshold in
  exists n : nat,
    (n <= length ls)%nat
    /\ lodLoop ls i currentLod modelScale modelBias threshold lodThreshold
       = (if (n =? 0)%nat then currentLod else i + Z.of_nat n - 1)
    /\ (forall k d, (k < n)%nat -> ls !! k = Some d ->
          F32.gtb (screenSize d) lodThreshold = false)
    /\ (forall d, ls !! n = Some d -> F32.gtb (screenSize d) lodThreshold = true).
Proof.
  intros screenSize. revert i currentLod.
  induction ls as [|d rest IH]; intros i currentLod.
  - exists 0%nat. simpl. repeat split; try lia; intros; discriminate.
  - simpl. fold (screenSize d).
    destruct (F32.gtb (screenSize d) lodThreshold) eqn:Hd.
    + exists 0%nat. simpl. repeat split; try lia.
      intros d' Hd'. injection Hd' as <-. exact Hd.
    + destruct (IH (i + 1) i) as (n & Hn & Hres & Hbefore & Hat).
      exists (S n). repeat split.
      * simpl. lia.
      * rewrite Hres. simpl. destruct n; simpl; lia.
      * intros k d' Hk Hlook. destruct k as [|k]; simpl in Hlook.
        -- injection Hlook as <-. exact Hd.
        -- apply (Hbefore k); [lia | exact Hlook].
      * intros d' Hlook. simpl in Hlook. apply Hat. exact Hlook.
Qed.

(** C3 (as amended): level-of-detail selection.  Without level-of-detail
    distances or without a positive threshold the level is 0, and so it is
    when the bias of the model is not positive.  Otherwise the levels are
    visited in the order of [lods] and the selected level is the number [n]
    of leading levels whose screen size, [distance * modelScale * (1 / bias)]
    divided by [distanceThreshold * lodMultiplier], is not above the
    threshold: the visit stops at the first level that is above it, and 0 is
    selected when already the first level is. *)
Theorem lod_selection_prefix (cam : QSSGRenderCamera) (model : QSSGRenderModel)
    (theSubset : QSSGRenderSubset) (lodThreshold : float) :
  let scale := mat44_getScale (model_globalTransform model) in
  let modelScale := F32.qMax (vx scale) (F32.qMax (vy scale) (vz scale)) in
  let threshold :=
    F32.mul (lodDistanceThreshold cam model theSubset) (getLevelOfDetailMultiplier cam) in
  let screenSize d :=
    F32.div (F32.mul (F32.mul d modelScale) (F32.div F32.one (levelOfDetailBias model)))
            threshold in
  (lods theSubset = [] \/ F32.gtb lodThreshold F32.zero = false ->
     forall camera, selectLevelOfDetail camera model theSubset lodThreshold = Some 0)
  /\ (F32.gtb (levelOfDetailBias model) F32.zero = false ->
        selectLevelOfDetail (Some cam) model theSubset lodThreshold = Some 0)
  /\ (lods theSubset <> [] -> F32.gtb lodThreshold F32.zero = true ->
      F32.gtb (levelOfDetailBias model) F32.zero = true ->
      exists n : nat,
        selectLevelOfDetail (Some cam) model theSubset lodThreshold = Some (Z.of_nat n)
        /\ (n <= length (lods theSubset))%nat
        /\ (forall k d, (k < n)%nat -> lods theSubset !! k = Some d ->
              F32.gtb (screenSize d) lodThreshold = false)
        /\ (forall d, lods theSubset !! n = Some d ->
              F32.gtb (screenSize d) lodThreshold = true)).
Proof.
  intros scale modelScale threshold screenSize. repeat split.
  - intros Hoff camera. unfold selectLevelOfDetail.
    destruct Hoff as [Hnil|Hthr].
    + rewrite Hnil. reflexivity.
    + rewrite Hthr, andb_false_r. reflexivity.
  - intros Hbias. unfold selectLevelOfDetail. simpl. rewrite Hbias.
    destruct (negb (bool_decide (lods theSubset = [])) && F32.gtb lodThreshold F32.zero);
      reflexivity.
  - intros Hlods Hthr Hbias.
    destruct (lodLoop_prefix (lods theSubset) 0 (-1) modelScale
                (F32.div F32.one (levelOfDetailBias model)) threshold lodThreshold)
      as (n & Hn & Hres & Hbefore & Hat).
    exists n. split; [|auto].
    unfold selectLevelOfDetail.
    rewrite bool_decide_eq_false_2 by exact Hlods.
    rewrite Hthr. cbn [negb andb mbind option_bind]. rewrite Hbias.
    subst scale modelScale threshold. rewrite Hres.
    destruct n as [|n]; [reflexivity|].
    f_equal. cbn [Nat.eqb].
    destruct (Z.eqb_spec (0 + Z.of_nat (S n) - 1) (-1)); lia.
Qed.

(** ** Lights and shadows *)

Lemma selectLightsLoop_spec (range : list QSSGRenderLight) :
  forall (shadowMapCount eligible : nat) (hasScopedLights : bool)
         (renderableLights : list QSSGShaderLight),
    shadowMapCount = Nat.min eligible QSSG_MAX_NUM_SHADOW_MAPS ->
    exists selected : list QSSGShaderLight,
      snd (selectLightsLoop range shadowMapCount hasScopedLights renderableLights)
      = renderableLights ++ selected
      /\ map sl_light selected = range
      /\ forall i sl, selected !! i = Some sl ->
           sl_shadows sl
           = shadowEligible (sl_light sl)
             && (eligible + eligibleBefore i range <? QSSG_MAX_NUM_SHADOW_MAPS)%nat.
Proof.
  induction range as [|renderLight rest IH];
    intros shadowMapCount eligible hasScopedLights renderableLights Hcount.
  - exists []. simpl. rewrite app_nil_r. repeat split. intros i sl Hl. discriminate Hl.
  - simpl.
    set (shadows := m_castShadow renderLight && negb (m_fullyBaked renderLight)
                    && (shadowMapCount <? QSSG_MAX_NUM_SHADOW_MAPS)%nat).
    set (new := mkShaderLight renderLight shadows
                  (getScalingCorrectDirection (light_globalTransform renderLight))).
    destruct (IH (shadowMapCount + (if shadows then 1 else 0))%nat
                 (eligible + (if shadowEligible renderLight then 1 else 0))%nat
                 (hasScopedLights || bool_decide (is_Some (m_scope renderLight)))
                 (renderableLights ++ [new]))
      as (selected & Hsel & Hmap & Hflags).
    { subst shadows. unfold shadowEligible.
      destruct (m_castShadow renderLight && negb (m_fullyBaked renderLight)); simpl.
      - destruct (Nat.ltb_spec shadowMapCount QSSG_MAX_NUM_SHADOW_MAPS); lia.
      - lia. }
    exists (new :: selected). repeat split.
    + rewrite Hsel, <- app_assoc. reflexivity.
    + simpl. rewrite Hmap. reflexivity.
    + intros i sl Hl. destruct i as [|i]; simpl in Hl.
      * injection Hl as <-. simpl. subst shadows. unfold shadowEligible, eligibleBefore.
        simpl. f_equal.
        destruct (Nat.ltb_spec shadowMapCount QSSG_MAX_NUM_SHADOW_MAPS),
                 (Nat.ltb_spec (eligible + 0) QSSG_MAX_NUM_SHADOW_MAPS); try reflexivity; lia.
      * rewrite (Hflags i sl Hl). f_equal. unfold eligibleBefore. simpl.
        destruct (shadowEligible renderLight); simpl;
          match goal with
          | |- (?a <? _)%nat = (?b <? _)%nat => replace a with b by lia
          end; reflexivity.
Qed.

(** C4: the light and shadow budget.  The lights selected for the frame are
    the first min(N, L_max) lights of the reversed light list, L_max being
    the reduced budget when the reduce-max-lights feature is set and the full
    budget otherwise; a selected light is flagged as shadow-casting exactly
    when it is shadow-eligible and fewer than S_max shadow-eligible lights
    come before it in the selection. *)
Theorem light_and_shadow_budget (this : QSSGLayerRenderData) :
  let renderableLights := snd (fst (selectLights this)) in
  let maxLightCount :=
    if feature_ReduceMaxNumLights this then QSSG_REDUCED_MAX_NUM_LIGHTS
    else QSSG_MAX_NUM_LIGHTS in
  let selected := map sl_light renderableLights in
  selected = take (Nat.min (length (lights this)) maxLightCount) (rev (lights this))
  /\ length renderableLights = Nat.min (length (lights this)) maxLightCount
  /\ forall i sl, renderableLights !! i = Some sl ->
       sl_shadows sl
       = shadowEligible (sl_light sl)
         && (eligibleBefore i selected <? QSSG_MAX_NUM_SHADOW_MAPS)%nat.
Proof.
  intros renderableLights maxLightCount selected.
  set (range := take (Nat.min maxLightCount (length (lights this))) (rev (lights this))).
  destruct (selectLightsLoop_spec range 0%nat 0%nat false [] eq_refl)
    as (sel & Hsel & Hmap & Hflags).
  assert (Hrl : renderableLights = sel).
  { subst renderableLights. unfold selectLights. fold maxLightCount.
    unfold effectiveMaxLightCount. fold maxLightCount.
    match goal with
    | |- context [if ?b then set_tooManyLightsWarningShown true this else this] =>
        destruct b
    end; simpl; fold range;
      destruct (selectLightsLoop range 0 false []) as [[cnt scoped] rl] eqn:El;
      simpl in Hsel; subst rl;
      match goal with |- context [if ?b then _ else _] => destruct b end; reflexivity. }
  assert (Hselected : selected = range) by (subst selected; rewrite Hrl; exact Hmap).
  repeat split.
  - rewrite Hselected. subst range. rewrite Nat.min_comm. reflexivity.
  - rewrite <- (length_map sl_light). fold selected. rewrite Hselected. subst range.
    rewrite length_take, length_rev. lia.
  - intros i sl Hl. rewrite Hrl in Hl. rewrite (Hflags i sl Hl), Hselected. reflexivity.
Qed.

(** ** Camera resolution *)

Lemma findActiveCamera_find (layer : QSSGRenderLayer) (viewport : QRect)
    (iter : list QSSGRenderCamera) (wasDataDirty : bool) :
  snd (fst (findActiveCamera layer viewport iter wasDataDirty))
  = List.find camera_active
      (map (fun c => fst (setupCameraForRender layer viewport c)) iter).
Proof.
  revert wasDataDirty. induction iter as [|theCamera rest IH]; intros wasDataDirty.
  - reflexivity.
  - simpl. destruct (setupCameraForRender layer viewport theCamera) as [c res] eqn:Es.
    simpl. destruct (camera_active c) eqn:Ea; [reflexivity|].
    specialize (IH (wasDataDirty || camera_isDirty theCamera || m_wasDirty res)).
    destruct (findActiveCamera layer viewport rest
                (wasDataDirty || camera_isDirty theCamera || m_wasDirty res))
      as [[cams found] w].
    exact IH.
Qed.

(** C5: camera resolution.  With an explicit camera, the camera selected for
    the frame is that camera if it is active once its global variables are
    recomputed and no camera otherwise, whatever the classified camera list
    holds; without an explicit camera it is the first camera of the
    classified list, in traversal order, that is active once recomputed. *)
Theorem camera_resolution (wasDataDirty : bool) (this : QSSGLayerRenderData) :
  let recompute c := fst (setupCameraForRender (layer this) (viewport this) c) in
  camera (snd (resolveCamera wasDataDirty this))
  = match explicitCamera (layer this) with
    | Some c => if camera_active (recompute c) then Some (recompute c) else None
    | None => List.find camera_active (map recompute (cameras this))
    end.
Proof.
  intros recompute. unfold resolveCamera.
  destruct (explicitCamera (layer this)) as [cam|].
  - subst recompute. simpl.
    destruct (setupCameraForRender (layer this) (viewport this) cam) as [c res].
    reflexivity.
  - pose proof (findActiveCamera_find (layer this) (viewport this) (cameras this)
                  wasDataDirty) as Hfind.
    destruct (findActiveCamera (layer this) (viewport this) (cameras this) wasDataDirty)
      as [[cams found] w].
    simpl in *. exact Hfind.
Qed.

(** ** Sorting *)

Section Sorting.
Context {A : Type} (comp : A -> A -> bool).

Lemma unguarded_linear_insert_Permutation (val : A) (rprefix : list A) :
  Permutation (unguarded_linear_insert comp val rprefix) (val :: rprefix).
Proof.
  induction rprefix as [|next rest IH]; simpl.
  - reflexivity.
  - destruct (comp val next); [|reflexivity].
    rewrite IH. apply perm_swap.
Qed.

Lemma insertion_sort_step_Permutation (sorted : list A) (i : A) :
  Permutation (insertion_sort_step comp sorted i) (i :: sorted).
Proof.
  unfold insertion_sort_step. destruct sorted as [|first rest] eqn:Hsorted; [reflexivity|].
  destruct (comp i first); [reflexivity|]. rewrite <- Hsorted.
  etransitivity; [symmetry; apply Permutation_rev|].
  etransitivity; [apply unguarded_linear_insert_Permutation|].
  constructor. symmetry. apply Permutation_rev.
Qed.

Lemma fold_insertion_sort_step_Permutation (l sorted : list A) :
  Permutation (fold_left (insertion_sort_step comp) l sorted) (l ++ sorted).
Proof.
  revert sorted. induction l as [|i l IH]; intros sorted; simpl.
  - reflexivity.
  - rewrite IH, insertion_sort_step_Permutation. symmetry. apply Permutation_middle.
Qed.

Lemma insertion_sort_fold (l : list A) :
  insertion_sort comp l = fold_left (insertion_sort_step comp) l [].
Proof. destruct l; reflexivity. Qed.

Lemma insertion_sort_Permutation (l : list A) : Permutation (insertion_sort comp l) l.
Proof.
  rewrite insertion_sort_fold, fold_insertion_sort_step_Permutation, app_nil_r.
  reflexivity.
Qed.

(** Writing [v] where [x] was read, after [x] has been written elsewhere,
    moves the elements around. *)
Lemma insert_head_Permutation (l : list A) (i : nat) (x v : A) :
  l !! i = Some x -> Permutation (x :: <[i:=v]> l) (v :: l).
Proof.
  revert i. induction l as [|a l IH]; intros [|i] Hl; simpl in *; try discriminate.
  - injection Hl as ->. apply perm_swap.
  - etransitivity; [apply perm_swap|]. etransitivity; [apply perm_skip, (IH i Hl)|].
    apply perm_swap.
Qed.

Lemma insert_fill_Permutation (l : list A) (hole c : nat) (x v : A) :
  l !! c = Some x -> (hole < length l)%nat ->
  Permutation (<[c:=v]> (<[hole:=x]> l)) (<[hole:=v]> l).
Proof.
  revert hole c. induction l as [|a l IH]; intros hole c Hc Hhole; [discriminate Hc|].
  destruct hole as [|hole], c as [|c]; simpl in *.
  - reflexivity.
  - apply insert_head_Permutation. exact Hc.
  - injection Hc as ->.
    destruct (lookup_lt_is_Some_2 l hole ltac:(lia)) as [y Hy].
    apply (Permutation_cons_inv (a := y)).
    etransitivity; [apply perm_swap|].
    etransitivity; [apply perm_skip, (insert_head_Permutation l hole y x Hy)|].
    etransitivity; [apply perm_swap|].
    etransitivity; [|apply perm_swap].
    apply perm_skip. symmetry. apply insert_head_Permutation. exact Hy.
  - apply perm_skip, IH; [exact Hc | lia].
Qed.

Lemma iter_swap_Permutation (a b : nat) (l : list A) : Permutation (iter_swap a b l) l.
Proof.
  unfold iter_swap. destruct (l !! a) as [x|] eqn:Ha; [|reflexivity].
  destruct (l !! b) as [y|] eqn:Hb; [|reflexivity].
  rewrite (insert_fill_Permutation l a b y x Hb (lookup_lt_Some _ _ _ Ha)).
  rewrite (list_insert_id _ _ _ Ha). reflexivity.
Qed.

Lemma move_median_to_first_Permutation (result a b c : nat) (l : list A) :
  Permutation (move_median_to_first comp result a b c l) l.
Proof.
  unfold move_median_to_first.
  repeat match goal with |- context [if ?t then _ else _] => destruct t end;
    apply iter_swap_Permutation.
Qed.

Lemma unguarded_partition_Permutation (rounds first last pivot : nat) (l : list A) :
  Permutation (snd (unguarded_partition comp rounds first last pivot l)) l.
Proof.
  revert first last l. induction rounds as [|rounds IH]; intros first last l;
    [reflexivity|].
  cbn [unguarded_partition]. cbv zeta.
  match goal with |- context [if ?t then _ else _] => destruct t end; [reflexivity|].
  rewrite IH. apply iter_swap_Permutation.
Qed.

Lemma unguarded_partition_pivot_Permutation (first last : nat) (l : list A) :
  Permutation (snd (unguarded_partition_pivot comp first last l)) l.
Proof.
  unfold unguarded_partition_pivot.
  rewrite unguarded_partition_Permutation. apply move_median_to_first_Permutation.
Qed.

Lemma push_heap_loop_Permutation (steps first holeIndex topIndex : nat) (value : A)
    (l : list A) :
  (first + holeIndex < length l)%nat ->
  Permutation (push_heap_loop comp steps first holeIndex topIndex value l)
    (<[(first + holeIndex)%nat := value]> l).
Proof.
  revert holeIndex l. induction steps as [|steps IH]; intros holeIndex l Hhole;
    cbn [push_heap_loop];
    [first [reflexivity | destruct (l !! (first + (holeIndex - 1) / 2)%nat); reflexivity]|].
  destruct (l !! (first + (holeIndex - 1) / 2)%nat) as [atParent|] eqn:Hparent;
    [|reflexivity].
  destruct ((topIndex <? holeIndex)%nat && comp atParent value); [|reflexivity].
  rewrite IH.
  - apply insert_fill_Permutation; assumption.
  - rewrite length_insert. eapply lookup_lt_Some. exact Hparent.
Qed.

Lemma adjust_heap_loop_Permutation (steps first holeIndex secondChild len : nat)
    (value : A) (l : list A) :
  (first + holeIndex < length l)%nat ->
  let '(hole, _, range) := adjust_heap_loop comp steps first holeIndex secondChild len l in
  (first + hole < length range)%nat
  /\ Permutation (<[(first + hole)%nat := value]> range)
       (<[(first + holeIndex)%nat := value]> l).
Proof.
  revert holeIndex secondChild l.
  induction steps as [|steps IH]; intros holeIndex secondChild l Hhole;
    cbn [adjust_heap_loop]; [split; [exact Hhole | reflexivity]|].
  destruct (secondChild <? (len - 1) / 2)%nat; [|split; [exact Hhole | reflexivity]].
  cbv zeta.
  match goal with |- context [l !! ?i] => destruct (l !! i) as [child|] eqn:Hchild end;
    [|split; [exact Hhole | reflexivity]].
  match goal with
  | Hchild : l !! (first + ?sc)%nat = Some child |- _ =>
      specialize (IH sc sc (<[(first + holeIndex)%nat := child]> l));
      destruct (adjust_heap_loop comp steps first sc sc len
                  (<[(first + holeIndex)%nat := child]> l)) as [[hole s] range];
      destruct IH as [Hrange Hperm];
        [rewrite length_insert; eapply lookup_lt_Some; exact Hchild|];
      split; [exact Hrange|];
      rewrite Hperm; apply insert_fill_Permutation; assumption
  end.
Qed.

Lemma adjust_heap_Permutation (first holeIndex len : nat) (value : A) (l : list A) :
  (first + holeIndex < length l)%nat ->
  Permutation (adjust_heap comp first holeIndex len value l)
    (<[(first + holeIndex)%nat := value]> l).
Proof.
  intros Hhole. unfold adjust_heap.
  pose proof (adjust_heap_loop_Permutation len first holeIndex holeIndex len value l Hhole)
    as Hloop.
  destruct (adjust_heap_loop comp len first holeIndex holeIndex len l)
    as [[hole secondChild] range].
  destruct Hloop as [Hrange Hperm].
  destruct (Nat.even len && (Z.of_nat secondChild =? Z.quot (Z.of_nat len - 2) 2)%Z).
  - destruct (range !! (first + (2 * (secondChild + 1) - 1))%nat) as [child|] eqn:Hchild.
    + unfold push_heap. rewrite push_heap_loop_Permutation.
      * rewrite <- Hperm. apply insert_fill_Permutation; assumption.
      * rewrite length_insert. eapply lookup_lt_Some. exact Hchild.
    + unfold push_heap. rewrite push_heap_loop_Permutation; assumption.
  - unfold push_heap. rewrite push_heap_loop_Permutation; assumption.
Qed.

Lemma pop_heap_Permutation (first last result : nat) (l : list A) :
  Permutation (pop_heap comp first last result l) l.
Proof.
  unfold pop_heap. destruct (l !! result) as [value|] eqn:Hresult; [|reflexivity].
  destruct (l !! first) as [top|] eqn:Hfirst; [|reflexivity].
  rewrite adjust_heap_Permutation.
  - rewrite Nat.add_0_r.
    rewrite (insert_fill_Permutation l result first top value Hfirst
               (lookup_lt_Some _ _ _ Hresult)).
    rewrite (list_insert_id _ _ _ Hresult). reflexivity.
  - rewrite length_insert, Nat.add_0_r. eapply lookup_lt_Some. exact Hfirst.
Qed.

Lemma make_heap_loop_Permutation (parent first len : nat) (l : list A) :
  Permutation (make_heap_loop comp parent first len l) l.
Proof.
  revert l. induction parent as [|parent IH]; intros l; cbn [make_heap_loop]; cbv zeta.
  - destruct (l !! (first + 0)%nat) as [value|] eqn:Hvalue; [|reflexivity].
    rewrite adjust_heap_Permutation by (eapply lookup_lt_Some; exact Hvalue).
    rewrite (list_insert_id _ _ _ Hvalue). reflexivity.
  - rewrite IH.
    destruct (l !! (first + S parent)%nat) as [value|] eqn:Hvalue; [|reflexivity].
    rewrite adjust_heap_Permutation by (eapply lookup_lt_Some; exact Hvalue).
    rewrite (list_insert_id _ _ _ Hvalue). reflexivity.
Qed.

Lemma make_heap_Permutation (first last : nat) (l : list A) :
  Permutation (make_heap comp first last l) l.
Proof.
  unfold make_heap. destruct (last - first <? 2)%nat; [reflexivity|].
  apply make_heap_loop_Permutation.
Qed.

Lemma sort_heap_Permutation (first last : nat) (l : list A) :
  Permutation (sort_heap comp first last l) l.
Proof.
  unfold sort_heap. generalize (last - first)%nat as rounds. intros rounds.
  revert last l. induction rounds as [|rounds IH]; intros last l; [reflexivity|].
  cbn [sort_heap_loop]. destruct (1 <? last - first)%nat; [|reflexivity].
  cbv zeta. rewrite IH. apply pop_heap_Permutation.
Qed.

Lemma heap_select_Permutation (first middle last : nat) (l : list A) :
  Permutation (heap_select comp first middle last l) l.
Proof.
  unfold heap_select. cbv zeta. rewrite <- (make_heap_Permutation first middle l) at 2.
  generalize (make_heap comp first middle l) as heap.
  generalize (seq middle (last - middle)) as range.
  induction range as [|i range IH]; intros heap; [reflexivity|].
  cbn [fold_left]. rewrite IH.
  destruct (comp_iter comp heap i first); [apply pop_heap_Permutation | reflexivity].
Qed.

Lemma partial_sort_Permutation (first middle last : nat) (l : list A) :
  Permutation (partial_sort comp first middle last l) l.
Proof.
  unfold partial_sort. rewrite sort_heap_Permutation. apply heap_select_Permutation.
Qed.

Lemma introsort_loop_Permutation (depth_limit first last : nat) (l : list A) :
  Permutation (introsort_loop comp depth_limit first last l) l.
Proof.
  revert first last l. induction depth_limit as [|depth_limit IH]; intros first last l;
    cbn [introsort_loop]; destruct (S_threshold <? last - first)%nat; try reflexivity.
  - apply partial_sort_Permutation.
  - pose proof (unguarded_partition_pivot_Permutation first last l) as Hcut.
    destruct (unguarded_partition_pivot comp first last l) as [cut range].
    rewrite !IH. exact Hcut.
Qed.

Lemma unguarded_insertion_sort_Permutation (sorted rest : list A) :
  Permutation (unguarded_insertion_sort comp sorted rest) (sorted ++ rest).
Proof.
  unfold unguarded_insertion_sort. revert sorted.
  induction rest as [|i rest IH]; intros sorted; cbn [fold_left].
  - rewrite app_nil_r. reflexivity.
  - rewrite IH. rewrite <- Permutation_rev, unguarded_linear_insert_Permutation.
    rewrite <- Permutation_rev. rewrite (Permutation_middle sorted rest i).
    reflexivity.
Qed.

Lemma final_insertion_sort_Permutation (l : list A) :
  Permutation (final_insertion_sort comp l) l.
Proof.
  unfold final_insertion_sort. destruct (S_threshold <? length l)%nat.
  - rewrite unguarded_insertion_sort_Permutation, insertion_sort_Permutation.
    rewrite firstn_skipn. reflexivity.
  - apply insertion_sort_Permutation.
Qed.

(** [std::sort] returns the elements it is given. *)
Lemma std_sort_Permutation (l : list A) : Permutation (std_sort comp l) l.
Proof.
  unfold std_sort. destruct l as [|first rest] eqn:Hl; [reflexivity|]. rewrite <- Hl.
  rewrite final_insertion_sort_Permutation. apply introsort_loop_Permutation.
Qed.

Lemma chunk_insertion_sort_loop_Permutation (rounds chunk_size : nat) (l : list A) :
  Permutation (chunk_insertion_sort_loop comp rounds chunk_size l) l.
Proof.
  revert l. induction rounds as [|rounds IH]; intros l; simpl.
  - apply insertion_sort_Permutation.
  - destruct (chunk_size <=? length l)%nat.
    + rewrite insertion_sort_Permutation, IH, firstn_skipn. reflexivity.
    + apply insertion_sort_Permutation.
Qed.

Lemma move_merge_Permutation (l1 l2 : list A) :
  Permutation (move_merge comp l1 l2) (l1 ++ l2).
Proof.
  revert l2. induction l1 as [|first1 rest1 IH1]; intros l2.
  - destruct l2; reflexivity.
  - induction l2 as [|first2 rest2 IH2].
    + rewrite app_nil_r. reflexivity.
    + simpl. destruct (comp first2 first1).
      * etransitivity; [apply perm_skip, IH2|]. apply Permutation_middle.
      * rewrite IH1. reflexivity.
Qed.

Lemma merge_sort_loop_rounds_Permutation (rounds step_size : nat) (l : list A) :
  Permutation (merge_sort_loop_rounds comp rounds step_size l) l.
Proof.
  revert l. induction rounds as [|rounds IH]; intros l; [reflexivity|].
  cbn [merge_sort_loop_rounds]. cbv zeta.
  destruct (2 * step_size <=? length l)%nat.
  - rewrite move_merge_Permutation, IH.
    replace (2 * step_size)%nat with (step_size + step_size)%nat by lia.
    rewrite <- skipn_skipn, <- app_assoc, (firstn_skipn step_size (skipn step_size l)).
    rewrite firstn_skipn. reflexivity.
  - rewrite move_merge_Permutation, firstn_skipn. reflexivity.
Qed.

Lemma merge_sort_loop_Permutation (step_size : nat) (l : list A) :
  Permutation (merge_sort_loop comp step_size l) l.
Proof. apply merge_sort_loop_rounds_Permutation. Qed.

Lemma merge_sort_passes_Permutation (rounds step_size : nat) (l : list A) :
  Permutation (merge_sort_passes comp rounds step_size l) l.
Proof.
  revert step_size l. induction rounds as [|rounds IH]; intros step_size l; [reflexivity|].
  cbn [merge_sort_passes]. cbv zeta.
  destruct (step_size <? length l)%nat; [|reflexivity].
  rewrite IH, !merge_sort_loop_Permutation. reflexivity.
Qed.

Lemma merge_sort_with_buffer_Permutation (l : list A) :
  Permutation (merge_sort_with_buffer comp l) l.
Proof.
  unfold merge_sort_with_buffer, chunk_insertion_sort.
  rewrite merge_sort_passes_Permutation. apply chunk_insertion_sort_loop_Permutation.
Qed.

Lemma move_merge_backward_Permutation (r1 r2 : list A) :
  Permutation (move_merge_backward comp r1 r2) (r1 ++ r2).
Proof.
  revert r2. induction r1 as [|last1 rest1 IH1]; intros r2.
  - destruct r2; reflexivity.
  - induction r2 as [|last2 rest2 IH2].
    + rewrite app_nil_r. reflexivity.
    + simpl. destruct (comp last2 last1).
      * rewrite IH1. reflexivity.
      * etransitivity; [apply perm_skip, IH2|]. apply Permutation_middle.
Qed.

Lemma merge_adaptive_Permutation (l1 l2 : list A) :
  Permutation (merge_adaptive comp l1 l2) (l1 ++ l2).
Proof.
  unfold merge_adaptive, move_merge_adaptive, move_merge_adaptive_backward.
  destruct (length l1 <=? length l2)%nat; [apply move_merge_Permutation|].
  etransitivity; [symmetry; apply Permutation_rev|].
  rewrite move_merge_backward_Permutation.
  apply Permutation_app; symmetry; apply Permutation_rev.
Qed.

(** [std::stable_sort] returns the elements it is given. *)
Lemma std_stable_sort_Permutation (l : list A) : Permutation (std_stable_sort comp l) l.
Proof.
  unfold std_stable_sort. destruct l as [|first rest] eqn:Hl; [reflexivity|].
  rewrite <- Hl. unfold stable_sort_adaptive.
  rewrite merge_adaptive_Permutation, !merge_sort_with_buffer_Permutation.
  rewrite firstn_skipn. reflexivity.
Qed.

End Sorting.

Lemma StronglySorted_rev_flip {A : Type} (R : A -> A -> Prop) (l : list A) :
  StronglySorted (fun a b => R b a) l -> StronglySorted R (rev l).
Proof.
  induction 1 as [|x l Hl IH Hx]; simpl.
  - constructor.
  - apply StronglySorted_app. repeat split.
    + intros x1 x2 H1 H2. apply list_elem_of_singleton in H2. subst x2.
      rewrite Forall_forall in Hx. apply Hx.
      apply list_elem_of_In in H1. apply in_rev in H1. apply list_elem_of_In. exact H1.
    + exact IH.
    + repeat constructor.
Qed.

(** Sorting with a comparison that agrees with an order [R] on the valid
    elements: the result of [std::sort] is sorted for [R]. *)
Section SortedOrder.
Context {A : Type} (comp : A -> A -> bool) (R : A -> A -> Prop) (valid : A -> Prop).
Hypothesis comp_before : forall t k, comp t k = true -> R t k.
Hypothesis comp_after : forall t k, valid t -> valid k -> comp t k = false -> R k t.
Hypothesis R_trans : forall a b c, R a b -> R b c -> R a c.

Lemma unguarded_linear_insert_descending (val : A) (rprefix : list A) :
  valid val -> Forall valid rprefix ->
  StronglySorted (fun a b => R b a) rprefix ->
  StronglySorted (fun a b => R b a) (unguarded_linear_insert comp val rprefix).
Proof.
  intros Ht Hvalid Hsorted. induction Hsorted as [|k rest Hrest IH Hk]; simpl.
  - repeat constructor.
  - inversion Hvalid as [|? ? Hvk Hvrest]; subst.
    destruct (comp val k) eqn:Hc.
    + constructor; [apply IH; assumption|].
      rewrite (unguarded_linear_insert_Permutation comp val rest).
      constructor; [|exact Hk].
      apply comp_before. exact Hc.
    + assert (Hkt : R k val) by (apply comp_after; assumption).
      constructor; [constructor; assumption|].
      constructor; [exact Hkt|].
      rewrite Forall_forall in Hk |- *. intros x Hx.
      apply (R_trans _ k); [apply Hk; exact Hx | exact Hkt].
Qed.

Lemma insertion_sort_step_sorted (sorted : list A) (i : A) :
  valid i -> Forall valid sorted -> StronglySorted R sorted ->
  StronglySorted R (insertion_sort_step comp sorted i).
Proof.
  intros Hi Hvalid Hsorted. unfold insertion_sort_step.
  destruct sorted as [|first rest] eqn:Heq; [repeat constructor|].
  destruct (comp i first) eqn:Hc.
  - constructor; [exact Hsorted|].
    inversion Hsorted as [|? ? _ Hfirst]; subst.
    constructor; [apply comp_before; exact Hc|].
    rewrite Forall_forall in Hfirst |- *. intros x Hx.
    apply (R_trans _ first); [apply comp_before; exact Hc | apply Hfirst; exact Hx].
  - rewrite <- Heq in *. apply StronglySorted_rev_flip.
    apply unguarded_linear_insert_descending.
    + exact Hi.
    + apply Forall_rev. exact Hvalid.
    + apply (StronglySorted_rev_flip (fun a b => R b a)). exact Hsorted.
Qed.

Lemma fold_insertion_sort_step_sorted (l sorted : list A) :
  Forall valid l -> Forall valid sorted -> StronglySorted R sorted ->
  StronglySorted R (fold_left (insertion_sort_step comp) l sorted).
Proof.
  revert sorted. induction l as [|i l IH]; intros sorted Hl Hvalid Hsorted; simpl.
  - exact Hsorted.
  - inversion Hl as [|? ? Hi Hl']; subst. apply IH.
    + exact Hl'.
    + rewrite (insertion_sort_step_Permutation comp sorted i). constructor; assumption.
    + apply insertion_sort_step_sorted; assumption.
Qed.

Lemma insertion_sort_sorted (l : list A) :
  Forall valid l -> StronglySorted R (insertion_sort comp l).
Proof.
  intros Hl. rewrite insertion_sort_fold.
  apply fold_insertion_sort_step_sorted; [exact Hl | constructor | constructor].
Qed.

Lemma unguarded_insertion_sort_sorted (sorted rest : list A) :
  Forall valid sorted -> Forall valid rest -> StronglySorted R sorted ->
  StronglySorted R (unguarded_insertion_sort comp sorted rest).
Proof.
  unfold unguarded_insertion_sort. revert sorted.
  induction rest as [|i rest IH]; intros sorted Hvalid Hrest Hsorted; cbn [fold_left].
  - exact Hsorted.
  - inversion Hrest as [|? ? Hi Hrest']; subst. apply IH.
    + rewrite <- Permutation_rev, unguarded_linear_insert_Permutation.
      constructor; [exact Hi|]. rewrite <- Permutation_rev. exact Hvalid.
    + exact Hrest'.
    + apply StronglySorted_rev_flip. apply unguarded_linear_insert_descending.
      * exact Hi.
      * apply Forall_rev. exact Hvalid.
      * apply (StronglySorted_rev_flip (fun a b => R b a)). exact Hsorted.
Qed.

Lemma final_insertion_sort_sorted (l : list A) :
  Forall valid l -> StronglySorted R (final_insertion_sort comp l).
Proof.
  intros Hl. unfold final_insertion_sort.
  rewrite <- (firstn_skipn S_threshold l) in Hl. apply Forall_app in Hl as [Hfirst Hrest].
  destruct (S_threshold <? length l)%nat.
  - apply unguarded_insertion_sort_sorted.
    + rewrite insertion_sort_Permutation. exact Hfirst.
    + exact Hrest.
    + apply insertion_sort_sorted. exact Hfirst.
  - apply insertion_sort_sorted.
    rewrite <- (firstn_skipn S_threshold l). apply Forall_app. split; assumption.
Qed.

(** The last pass of [std::sort] puts the range in order, whatever the
    partitioning has left. *)
Lemma std_sort_sorted_for (l : list A) :
  Forall valid l -> StronglySorted R (std_sort comp l).
Proof.
  intros Hl. unfold std_sort. destruct l as [|first rest] eqn:Heq; [constructor|].
  rewrite <- Heq in *. apply final_insertion_sort_sorted.
  rewrite introsort_loop_Permutation. exact Hl.
Qed.

End SortedOrder.

(** Sorting by a binary32 key with [<]: without NaN among the keys the
    result is in non-decreasing order. *)
Lemma std_sort_sorted {A : Type} (key : A -> float) (l : list A) :
  Forall (fun a => F32.is_nan (key a) = false) l ->
  StronglySorted (fun a b => F32.leb (key a) (key b) = true)
    (std_sort (fun a b => F32.ltb (key a) (key b)) l).
Proof.
  apply (std_sort_sorted_for _ (fun a b => F32.leb (key a) (key b) = true)
           (fun a => F32.is_nan (key a) = false)).
  - intros t k Hlt. apply F32_ltb_leb. exact Hlt.
  - intros t k Ht Hk Hlt. apply F32_ltb_false_leb; assumption.
  - intros a b c. apply F32_leb_trans.
Qed.

(** ** The sorted lists *)

(** C7 (as amended): the sorted-opaque accessor.  A list cached earlier in
    the frame is returned as it is.  Without one: when a camera was
    resolved, depth testing is enabled and the opaque bucket is not empty,
    the accessor returns the handles of the opaque bucket, in non-decreasing
    order of squared camera distance provided no distance is a NaN;
    otherwise it returns the cached list, which is empty, and not the opaque
    bucket. *)
Theorem sorted_opaque_accessor (this : QSSGLayerRenderData) :
  (renderedOpaqueObjects this <> [] ->
     getSortedOpaqueRenderableObjects this = (renderedOpaqueObjects this, this))
  /\ (renderedOpaqueObjects this = [] -> camera this <> None ->
      enableDepthTest (layer this) = true -> opaqueObjects this <> [] ->
        Permutation (fst (getSortedOpaqueRenderableObjects this)) (opaqueObjects this)
        /\ (Forall (fun h => F32.is_nan (cameraDistanceSq h) = false) (opaqueObjects this) ->
            StronglySorted
              (fun a b => F32.leb (cameraDistanceSq a) (cameraDistanceSq b) = true)
              (fst (getSortedOpaqueRenderableObjects this))))
  /\ (renderedOpaqueObjects this = [] ->
      camera this = None \/ enableDepthTest (layer this) = false
      \/ opaqueObjects this = [] ->
        getSortedOpaqueRenderableObjects this = ([], this)).
Proof.
  unfold getSortedOpaqueRenderableObjects.
  split; [intros Hcache | split; [intros Hcache Hcam Hdepth Hbucket | intros Hcache Hoff]].
  - rewrite (bool_decide_eq_false_2 _ Hcache). reflexivity.
  - rewrite (bool_decide_eq_true_2 _ Hcache), (bool_decide_eq_false_2 _ Hcam), Hdepth,
      (bool_decide_eq_false_2 _ Hbucket).
    simpl. split.
    + apply std_sort_Permutation.
    + intros Hvalid. apply (std_sort_sorted cameraDistanceSq). exact Hvalid.
  - rewrite (bool_decide_eq_true_2 _ Hcache). simpl.
    destruct Hoff as [Hcam|[Hdepth|Hempty]].
    + rewrite (bool_decide_eq_true_2 _ Hcam), Hcache. reflexivity.
    + rewrite Hdepth, Hcache. destruct (bool_decide (camera this = None)); reflexivity.
    + rewrite (bool_decide_eq_true_2 _ Hempty), andb_false_r, Hcache.
      destruct (bool_decide (camera this = None)); reflexivity.
Qed.

(** ** Models without materials *)

Lemma prepareSubsets_no_materials (model : QSSGRenderModel) (theMesh : QSSGRenderMesh)
    (idx : nat) (remaining : list QSSGRenderSubset) (cameraData : QSSGCameraData)
    (lodThreshold : float) (st : ModelLoopState) :
  materials model = [] ->
  prepareSubsets model theMesh idx remaining cameraData lodThreshold st = Some st.
Proof.
  intros Hnone. destruct remaining as [|theSubset rest]; simpl.
  - reflexivity.
  - rewrite (bool_decide_eq_true_2 _ Hnone). reflexivity.
Qed.

Lemma prepareSubsets_app (model : QSSGRenderModel) (theMesh : QSSGRenderMesh)
    (before after : list QSSGRenderSubset) (cameraData : QSSGCameraData)
    (lodThreshold : float) :
  materials model <> [] ->
  forall (idx : nat) (st : ModelLoopState),
    prepareSubsets model theMesh idx (before ++ after) cameraData lodThreshold st
    = (st' ← prepareSubsets model theMesh idx before cameraData lodThreshold st;
       prepareSubsets model theMesh (idx + length before) after cameraData lodThreshold st').
Proof.
  intros Hmats. induction before as [|theSubset rest IH]; intros idx st; simpl.
  - rewrite Nat.add_0_r. reflexivity.
  - rewrite (bool_decide_eq_false_2 _ Hmats).
    replace (idx + S (length rest))%nat with (S idx + length rest)%nat by lia.
    destruct (materialForSubset (materials model) idx) as [theMaterialObject|].
    + destruct (prepareSubset model theMesh idx theSubset theMaterialObject cameraData
                  lodThreshold st) as [st1|]; simpl; [apply IH | reflexivity].
    + apply IH.
Qed.

(** C10: a model whose materials list is empty leaves the render data as it
    is, whatever mesh was resolved for it: no record, nothing in any bucket.
    A null material at the index of one subset skips that subset only: the
    subsets before and after it are prepared as they are without it, at
    their own indices. *)
Theorem empty_materials_emit_nothing (model : QSSGRenderModel) (theMesh : QSSGRenderMesh)
    (cameraData : QSSGCameraData) (lodThreshold : float) (wasDirty : bool)
    (ioFlags : QSSGLayerRenderPreparationResultFlags) (this : QSSGLayerRenderData) :
  (materials model = [] ->
     prepareModel (mkEntry model (Some theMesh)) cameraData lodThreshold wasDirty ioFlags this
     = Some (wasDirty, ioFlags, this))
  /\ (materials model <> [] ->
      forall (before after : list QSSGRenderSubset) (theSubset : QSSGRenderSubset)
             (st : ModelLoopState),
        materialForSubset (materials model) (length before) = None ->
        prepareSubsets model theMesh 0 (before ++ theSubset :: after) cameraData
          lodThreshold st
        = (st' ← prepareSubsets model theMesh 0 before cameraData lodThreshold st;
           prepareSubsets model theMesh (S (length before)) after cameraData
             lodThreshold st')).
Proof.
  split.
  - intros Hnone. unfold prepareModel. simpl.
    rewrite (prepareSubsets_no_materials _ _ _ _ _ _ _ Hnone). reflexivity.
  - intros Hmats before after theSubset st Hnull.
    rewrite (prepareSubsets_app model theMesh before (theSubset :: after) cameraData
               lodThreshold Hmats 0 st).
    destruct (prepareSubsets model theMesh 0 before cameraData lodThreshold st)
      as [st'|]; simpl; [|reflexivity].
    rewrite (bool_decide_eq_false_2 _ Hmats), Hnull. reflexivity.
Qed.

(** ** The preparers and the buckets *)

Section Kept.
Context (P : QSSGLayerRenderData -> Prop) (HP : keptByPreparers P).

Lemma prepareSubset_kept model theMesh idx theSubset theMaterialObject cameraData
    lodThreshold st st' :
  prepareSubset model theMesh idx theSubset theMaterialObject cameraData lodThreshold st
  = Some st' ->
  P (ls_this st) -> P (ls_this st').
Proof.
  destruct HP as (Hpush & _ & _).
  unfold prepareSubset. intros Hrun Hthis.
  destruct (selectLevelOfDetail _ _ _ _) as [lod|]; [|discriminate Hrun].
  cbn [mbind option_bind] in Hrun.
  destruct theMaterialObject as [theMaterial|theMaterial|].
  - destruct (prepareDefaultMaterialForRender _ _ _ _) as [res io].
    injection Hrun as <-. cbn [ls_this]. apply Hpush. exact Hthis.
  - destruct (prepareCustomMaterialForRender _ _ _ _) as [res io].
    injection Hrun as <-. cbn [ls_this]. apply Hpush. exact Hthis.
  - injection Hrun as <-. exact Hthis.
Qed.

Lemma prepareSubsets_kept model theMesh cameraData lodThreshold remaining :
  forall idx st st',
    prepareSubsets model theMesh idx remaining cameraData lodThreshold st = Some st' ->
    P (ls_this st) -> P (ls_this st').
Proof.
  induction remaining as [|theSubset rest IH]; intros idx st st' Hrun Hthis; simpl in Hrun.
  - injection Hrun as <-. exact Hthis.
  - destruct (bool_decide (materials model = [])); [injection Hrun as <-; exact Hthis|].
    destruct (materialForSubset (materials model) idx) as [theMaterialObject|].
    + destruct (prepareSubset model theMesh idx theSubset theMaterialObject cameraData
                  lodThreshold st) as [st1|] eqn:Hstep; [|discriminate Hrun].
      cbn [mbind option_bind] in Hrun.
      apply (IH _ _ _ Hrun). apply (prepareSubset_kept _ _ _ _ _ _ _ _ _ Hstep Hthis).
    + apply (IH _ _ _ Hrun Hthis).
Qed.

Lemma prepareModel_kept renderable cameraData lodThreshold wasDirty ioFlags this
    wasDirty' ioFlags' this' :
  prepareModel renderable cameraData lodThreshold wasDirty ioFlags this
  = Some (wasDirty', ioFlags', this') ->
  P this -> P this'.
Proof.
  unfold prepareModel. intros Hrun Hthis.
  destruct (entry_mesh renderable) as [theMesh|]; [|injection Hrun as <- <- <-; exact Hthis].
  destruct (prepareSubsets _ _ _ _ _ _ _) as [st|] eqn:Hsub; [|discriminate Hrun].
  cbn [mbind option_bind] in Hrun.
  pose proof (prepareSubsets_kept _ _ _ _ _ _ _ _ Hsub Hthis) as Hst.
  destruct (bool_decide (ls_bakedLightingObjects st = [])); injection Hrun as <- <- <-.
  - exact Hst.
  - destruct HP as (_ & Hbaked & _). apply Hbaked. exact Hst.
Qed.

Lemma prepareModels_kept cameraData lodThreshold renderables :
  forall wasDirty ioFlags this wasDirty' ioFlags' this',
    prepareModels renderables cameraData lodThreshold wasDirty ioFlags this
    = Some (wasDirty', ioFlags', this') ->
    P this -> P this'.
Proof.
  induction renderables as [|renderable rest IH];
    intros wasDirty ioFlags this wasDirty' ioFlags' this' Hrun Hthis; simpl in Hrun.
  - injection Hrun as <- <- <-. exact Hthis.
  - destruct (prepareModel renderable cameraData lodThreshold wasDirty ioFlags this)
      as [[[d1 f1] this1]|] eqn:Hstep; [|discriminate Hrun].
    cbn [mbind option_bind] in Hrun.
    apply (IH _ _ _ _ _ _ Hrun). apply (prepareModel_kept _ _ _ _ _ _ _ _ _ Hstep Hthis).
Qed.

Lemma prepareModelForRender_kept renderableModels ioFlags cameraData lodThreshold this
    wasDirty' ioFlags' this' :
  prepareModelForRender renderableModels ioFlags cameraData lodThreshold this
  = Some (wasDirty', ioFlags', this') ->
  P this -> P this'.
Proof.
  unfold prepareModelForRender. intros Hrun Hthis.
  apply (prepareModels_kept _ _ _ _ _ _ _ _ _ Hrun).
  destruct (negb rhiSupportsRgba32f && negb rhiSupportsRgba16f); [|exact Hthis].
  destruct HP as (_ & _ & Hwarn). apply Hwarn. exact Hthis.
Qed.

Lemma prepareParticles_kept renderable cameraData dirty this :
  P this -> P (snd (prepareParticles renderable cameraData dirty this)).
Proof.
  destruct HP as (Hpush & _ & _). intros Hthis. unfold prepareParticles.
  destruct (m_sprite (entry_node renderable)); simpl;
    (destruct (F32.gtb _ _ && negb _); simpl; [apply Hpush|]; exact Hthis).
Qed.

Lemma prepareParticlesLoop_kept cameraData renderables :
  forall dirty this, P this -> P (snd (prepareParticlesLoop renderables cameraData dirty this)).
Proof.
  induction renderables as [|renderable rest IH]; intros dirty this Hthis; simpl.
  - exact Hthis.
  - pose proof (prepareParticles_kept renderable cameraData dirty this Hthis) as Hstep.
    destruct (prepareParticles renderable cameraData dirty this) as [d1 this1].
    apply IH. exact Hstep.
Qed.

Lemma prepareParticlesForRender_kept renderableParticles cameraData this :
  P this -> P (snd (prepareParticlesForRender renderableParticles cameraData this)).
Proof.
  intros Hthis. unfold prepareParticlesForRender.
  destruct (negb rhiSupportsRgba32f && negb rhiSupportsRgba16f); simpl.
  - destruct HP as (_ & _ & Hwarn). apply Hwarn. exact Hthis.
  - apply prepareParticlesLoop_kept. exact Hthis.
Qed.

End Kept.

Lemma bucketHolds_arena (this this' : QSSGLayerRenderData) (b : Bucket)
    (handles : QSSGRenderableObjectList) :
  (forall i o, arena this !! i = Some o ->
     exists o', arena this' !! i = Some o' /\ ro_flags o' = ro_flags o) ->
  bucketHolds this b handles -> bucketHolds this' b handles.
Proof.
  intros Harena. unfold bucketHolds. apply List.Forall_impl.
  intros h (o & Hlook & Hb). destruct (Harena _ _ Hlook) as (o' & Hlook' & Hfl).
  exists o'. split; [exact Hlook'|]. rewrite Hfl. exact Hb.
Qed.

Lemma bucketHolds_snoc (this : QSSGLayerRenderData) (b : Bucket)
    (handles : QSSGRenderableObjectList) (o : QSSGRenderableObject) (d : float)
    (others : list QSSGRenderableObject -> QSSGLayerRenderData) :
  arena (others (arena this ++ [o])) = arena this ++ [o] ->
  bucketOf (ro_flags o) = b ->
  bucketHolds this b handles ->
  bucketHolds (others (arena this ++ [o])) b (handles ++ [mkHandle (length (arena this)) d]).
Proof.
  intros Harena Hb Hholds. unfold bucketHolds in *. apply Forall_app. split.
  - revert Hholds. apply List.Forall_impl. intros h (o' & Hlook & Hb').
    exists o'. split; [|exact Hb']. rewrite Harena. apply lookup_app_l_Some. exact Hlook.
  - constructor; [|constructor]. exists o. split; [|exact Hb].
    rewrite Harena. simpl. apply list_lookup_middle. reflexivity.
Qed.

Lemma bucketsPartitionFrame_kept : keptByPreparers bucketsPartitionFrame.
Proof.
  unfold keptByPreparers. split; [|split].
  - intros this o cameraData (Hperm & Hs & Ht & Ho).
    assert (Hgrow : forall i o0, arena this !! i = Some o0 ->
              exists o', (arena this ++ [o]) !! i = Some o' /\ ro_flags o' = ro_flags o0).
    { intros i o0 Hlook. exists o0. split; [apply lookup_app_l_Some; exact Hlook|reflexivity]. }
    unfold bucketsPartitionFrame, bucketHandles in *. unfold pushRenderable.
    rewrite !map_app in Hperm.
    destruct (testFlag (ro_flags o) RequiresScreenTexture) eqn:Hscreen;
      [|destruct (testFlag (ro_flags o) HasTransparency) eqn:Htransp];
      cbn [arena screenTextureObjects transparentObjects opaqueObjects
           set_arena set_screenTextureObjects set_transparentObjects set_opaqueObjects];
      rewrite length_app, Nat.add_1_r, seq_S, !map_app; cbn [map obj Nat.add];
      (split; [rewrite <- Hperm; solve_Permutation|]).
    + split; [|split].
      * apply (bucketHolds_snoc this ScreenTextureBucket _ o _
                 (fun a => set_screenTextureObjects _ (set_arena a this)));
          [reflexivity | unfold bucketOf; rewrite Hscreen; reflexivity | exact Hs].
      * revert Ht. apply bucketHolds_arena. exact Hgrow.
      * revert Ho. apply bucketHolds_arena. exact Hgrow.
    + split; [|split].
      * revert Hs. apply bucketHolds_arena. exact Hgrow.
      * apply (bucketHolds_snoc this TransparentBucket _ o _
                 (fun a => set_transparentObjects _ (set_arena a this)));
          [reflexivity | unfold bucketOf; rewrite Hscreen, Htransp; reflexivity | exact Ht].
      * revert Ho. apply bucketHolds_arena. exact Hgrow.
    + split; [|split].
      * revert Hs. apply bucketHolds_arena. exact Hgrow.
      * revert Ht. apply bucketHolds_arena. exact Hgrow.
      * apply (bucketHolds_snoc this OpaqueBucket _ o _
                 (fun a => set_opaqueObjects _ (set_arena a this)));
          [reflexivity | unfold bucketOf; rewrite Hscreen, Htransp; reflexivity | exact Ho].
  - intros this v HI. exact HI.
  - intros this v HI. exact HI.
Qed.

(** ** Reflection probes *)

Lemma injectProbe_flags i probe probeBound o :
  ro_flags (fst (injectProbe i probe probeBound o)) = ro_flags o.
Proof.
  unfold injectProbe.
  repeat match goal with |- context [if ?b then _ else _] => destruct b end; reflexivity.
Qed.

Lemma injectProbe_not_taken i probe probeBound o :
  snd (injectProbe i probe probeBound o) = false ->
  fst (injectProbe i probe probeBound o) = o.
Proof.
  unfold injectProbe.
  repeat match goal with |- context [if ?b then _ else _] => destruct b end;
    simpl; intros Ht; [discriminate Ht | reflexivity..].
Qed.

Lemma injectProbe_taken i probe probeBound o :
  snd (injectProbe i probe probeBound o) = true ->
  reflectionProbeIndex (fst (injectProbe i probe probeBound o)) = Z.of_nat i
  /\ (reflectionProbeIndex o <> -1 ->
      F32.ltb (distanceFromReflectionProbe (fst (injectProbe i probe probeBound o)))
              (distanceFromReflectionProbe o) = true).
Proof.
  unfold injectProbe.
  destruct (testFlag (ro_flags o) ReceivesReflections && _); [|discriminate].
  destruct (bounds_intersects _ _); [|discriminate].
  destruct (reflectionProbeIndex o =? -1) eqn:Hidx; simpl.
  - intros _. split; [reflexivity|]. intros Hne. apply Z.eqb_eq in Hidx. contradiction.
  - destruct (F32.ltb _ _) eqn:Hlt; simpl; [|discriminate].
    intros _. split; [reflexivity|]. intros _. exact Hlt.
Qed.

Lemma injectProbe_index i probe probeBound o :
  reflectionProbeIndex (fst (injectProbe i probe probeBound o)) = Z.of_nat i
  \/ fst (injectProbe i probe probeBound o) = o.
Proof.
  destruct (snd (injectProbe i probe probeBound o)) eqn:Ht.
  - left. apply injectProbe_taken. exact Ht.
  - right. apply injectProbe_not_taken. exact Ht.
Qed.

(** One pass of [injectProbe] over a list of handles. *)
Lemma injectProbeList_spec i probe probeBound handles :
  forall frame count,
    let frame' := fst (injectProbeList i probe probeBound handles frame count) in
    let count' := snd (injectProbeList i probe probeBound handles frame count) in
    (count <= count')%nat
    /\ length frame' = length frame
    /\ (forall j o, frame !! j = Some o ->
          exists o', frame' !! j = Some o' /\ ro_flags o' = ro_flags o
            /\ (reflectionProbeIndex o' = Z.of_nat i \/ o' = o))
    /\ (count' = count -> frame' = frame)
    /\ ((count < count')%nat ->
        exists h o, In h handles /\ frame' !! obj h = Some o
                    /\ reflectionProbeIndex o = Z.of_nat i).
Proof.
  induction handles as [|handle rest IH]; intros frame count; simpl.
  - repeat split; try lia.
    intros j o Hlook. exists o. auto.
  - destruct (frame !! obj handle) as [renderableObj|] eqn:Hlook.
    + destruct (injectProbe i probe probeBound renderableObj) as [o1 taken] eqn:Hinj.
      pose proof (injectProbe_flags i probe probeBound renderableObj) as Hfl.
      pose proof (injectProbe_index i probe probeBound renderableObj) as Hidx.
      pose proof (injectProbe_taken i probe probeBound renderableObj) as Htaken.
      pose proof (injectProbe_not_taken i probe probeBound renderableObj) as Hnot.
      rewrite Hinj in Hfl, Hidx, Htaken, Hnot. simpl in Hfl, Hidx, Htaken, Hnot.
      specialize (IH (<[obj handle := o1]> frame)
                     (if taken then S count else count)).
      cbv zeta in IH. destruct IH as (Hle & Hlen & Hkeep & Hsame & Hsome).
      assert (Hstep : forall j o, frame !! j = Some o ->
                exists o', <[obj handle := o1]> frame !! j = Some o'
                  /\ ro_flags o' = ro_flags o
                  /\ (reflectionProbeIndex o' = Z.of_nat i \/ o' = o)).
      { intros j o Hj. destruct (decide (j = obj handle)) as [->|Hne].
        - exists o1. rewrite list_lookup_insert_eq by (eapply lookup_lt_Some; eauto).
          rewrite Hlook in Hj. injection Hj as <-. auto.
        - exists o. rewrite list_lookup_insert_ne by congruence. auto. }
      repeat split.
      * destruct taken; lia.
      * rewrite Hlen. apply length_insert.
      * intros j o Hj. destruct (Hstep j o Hj) as (o' & Hj' & Hfl' & Hidx').
        destruct (Hkeep j o' Hj') as (o'' & Hj'' & Hfl'' & Hidx'').
        exists o''. split; [exact Hj''|]. split; [congruence|].
        destruct Hidx'' as [Hi | ->]; [left; exact Hi | exact Hidx'].
      * intros Hcount. destruct taken; [lia|].
        rewrite (Hsame Hcount). rewrite (Hnot eq_refl).
        apply list_insert_id. exact Hlook.
      * intros Hcount. destruct (decide ((if taken then S count else count)
                                         < snd (injectProbeList i probe probeBound rest
                                                  (<[obj handle := o1]> frame)
                                                  (if taken then S count else count)))%nat)
          as [Hlater|Hnolater].
        -- destruct (Hsome Hlater) as (h & o & Hin & Hh & Hi).
           exists h, o. auto.
        -- destruct taken; [|lia].
           destruct (Hstep (obj handle) renderableObj Hlook) as (o' & Hj' & _ & _).
           rewrite list_lookup_insert_eq in Hj' by (eapply lookup_lt_Some; eauto).
           injection Hj' as <-.
           destruct (Hkeep (obj handle) o1) as (o'' & Hj'' & _ & Hidx'').
           { apply list_lookup_insert_eq. eapply lookup_lt_Some; eauto. }
           exists handle, o''. split; [left; reflexivity|]. split; [exact Hj''|].
           destruct Hidx'' as [Hi | ->]; [exact Hi|]. apply Htaken. reflexivity.
    + specialize (IH frame count). cbv zeta in IH.
      destruct IH as (Hle & Hlen & Hkeep & Hsame & Hsome).
      repeat split; try assumption.
      intros Hcount. destruct (Hsome Hcount) as (h & o & Hin & Hh & Hi).
      exists h, o. auto.
Qed.

(** One turn of the loop over the probes. *)
Lemma prepareReflectionProbe_spec (i : nat) (probe : QSSGRenderReflectionProbe)
    (this : QSSGLayerRenderData) :
  let this' := prepareReflectionProbe i probe this in
  (screenTextureObjects this' = screenTextureObjects this
   /\ transparentObjects this' = transparentObjects this
   /\ opaqueObjects this' = opaqueObjects this)
  /\ length (arena this') = length (arena this)
  /\ (forall j o, arena this !! j = Some o ->
        exists o', arena this' !! j = Some o' /\ ro_flags o' = ro_flags o
          /\ (reflectionProbeIndex o' = Z.of_nat i \/ o' = o))
  /\ exists entries,
       reflectionMapEntries this' = reflectionMapEntries this ++ entries
       /\ (probe_hasTexture probe = true -> entries = [TexturedReflectionMapEntry i])
       /\ (probe_hasTexture probe = false ->
             (entries = [LiveReflectionMapEntry i] /\ someRecordAssignedTo i this')
             \/ (entries = [] /\ arena this' = arena this)).
Proof.
  unfold prepareReflectionProbe.
  set (probeBound := bounds_centerExtents _ _).
  pose proof (injectProbeList_spec i probe probeBound (transparentObjects this)
                (arena this) 0%nat) as H1. cbv zeta in H1.
  destruct (injectProbeList i probe probeBound (transparentObjects this) (arena this) 0)
    as [frame1 count1]. simpl in H1.
  destruct H1 as (Hle1 & Hlen1 & Hkeep1 & Hsame1 & Hsome1).
  pose proof (injectProbeList_spec i probe probeBound (opaqueObjects this)
                frame1 count1) as H2. cbv zeta in H2.
  destruct (injectProbeList i probe probeBound (opaqueObjects this) frame1 count1)
    as [frame2 count2]. simpl in H2.
  destruct H2 as (Hle2 & Hlen2 & Hkeep2 & Hsame2 & Hsome2).
  assert (Hkeep : forall j o, arena this !! j = Some o ->
            exists o', frame2 !! j = Some o' /\ ro_flags o' = ro_flags o
              /\ (reflectionProbeIndex o' = Z.of_nat i \/ o' = o)).
  { intros j o Hj. destruct (Hkeep1 j o Hj) as (o1 & Hj1 & Hfl1 & Hidx1).
    destruct (Hkeep2 j o1 Hj1) as (o2 & Hj2 & Hfl2 & Hidx2).
    exists o2. split; [exact Hj2|]. split; [congruence|].
    destruct Hidx2 as [Hi | ->]; [left; exact Hi | exact Hidx1]. }
  assert (Hassigned : (0 < count2)%nat ->
            exists h o, In h (transparentObjects this ++ opaqueObjects this)
                        /\ frame2 !! obj h = Some o
                        /\ reflectionProbeIndex o = Z.of_nat i).
  { intros Hpos. destruct (decide (count1 < count2)%nat) as [Hlater|Hnolater].
    - destruct (Hsome2 Hlater) as (h & o & Hin & Hh & Hi).
      exists h, o. split; [apply in_or_app; right; exact Hin | auto].
    - assert (Hfirst : (0 < count1)%nat) by lia.
      destruct (Hsome1 Hfirst) as (h & o & Hin & Hh & Hi).
      destruct (Hkeep2 _ _ Hh) as (o2 & Hh2 & _ & Hidx2).
      exists h, o2. split; [apply in_or_app; left; exact Hin|]. split; [exact Hh2|].
      destruct Hidx2 as [Hi2 | ->]; assumption. }
  destruct (probe_hasTexture probe) eqn:Htex;
    [|destruct (0 <? count2)%nat eqn:Hcount]; cbv zeta;
    cbn [arena screenTextureObjects transparentObjects opaqueObjects reflectionMapEntries
         set_arena set_reflectionMapEntries];
    (split; [auto|]); (split; [congruence|]); (split; [exact Hkeep|]).
  - exists [TexturedReflectionMapEntry i].
    split; [reflexivity|]. split; [reflexivity | discriminate].
  - exists [LiveReflectionMapEntry i].
    split; [reflexivity|]. split; [discriminate|].
    intros _. left. split; [reflexivity|].
    apply Nat.ltb_lt in Hcount. destruct (Hassigned Hcount) as (h & o & Hin & Hh & Hi).
    exists h, o. auto.
  - exists []. rewrite app_nil_r.
    split; [reflexivity|]. split; [discriminate|].
    intros _. right. split; [reflexivity|].
    apply Nat.ltb_ge in Hcount.
    rewrite Hsame2 by lia. apply Hsame1. lia.
Qed.

Lemma prepareReflectionProbesLoop_app (before after : list QSSGRenderReflectionProbe) :
  forall i this,
    prepareReflectionProbesLoop i (before ++ after) this
    = prepareReflectionProbesLoop (i + length before) after
        (prepareReflectionProbesLoop i before this).
Proof.
  induction before as [|probe rest IH]; intros i this; simpl.
  - rewrite Nat.add_0_r. reflexivity.
  - rewrite IH. f_equal. lia.
Qed.

(** The loop over the probes, from a state where every record is assigned
    to a probe before [i] or to none. *)
Lemma prepareReflectionProbesLoop_spec (probes : list QSSGRenderReflectionProbe) :
  forall (i : nat) (this : QSSGLayerRenderData),
    Forall (fun o => -1 <= reflectionProbeIndex o < Z.of_nat i) (arena this) ->
    let this' := prepareReflectionProbesLoop i probes this in
    (screenTextureObjects this' = screenTextureObjects this
     /\ transparentObjects this' = transparentObjects this
     /\ opaqueObjects this' = opaqueObjects this)
    /\ length (arena this') = length (arena this)
    /\ (forall j o, arena this !! j = Some o ->
          exists o', arena this' !! j = Some o' /\ ro_flags o' = ro_flags o)
    /\ Forall (fun o => -1 <= reflectionProbeIndex o < Z.of_nat (i + length probes))
         (arena this')
    /\ exists entries,
         reflectionMapEntries this' = reflectionMapEntries this ++ entries
         /\ Forall (fun e => (i <= entryProbeIndex e)%nat) entries
         /\ forall k probe, probes !! k = Some probe ->
              (probe_hasTexture probe = true ->
                 In (TexturedReflectionMapEntry (i + k)) entries)
              /\ (probe_hasTexture probe = false ->
                    (In (LiveReflectionMapEntry (i + k)) entries
                     <-> someRecordAssignedTo (i + k)
                           (prepareReflectionProbesLoop i (take (S k) probes) this))).
Proof.
  induction probes as [|probe rest IH]; intros i this Hbefore.
  - simpl. repeat split; try reflexivity.
    + intros j o Hj. exists o. auto.
    + revert Hbefore. apply List.Forall_impl. intros o Ho. lia.
    + exists []. rewrite app_nil_r. repeat split; try constructor;
        intros; discriminate.
  - cbv zeta. cbn [prepareReflectionProbesLoop].
    pose proof (prepareReflectionProbe_spec i probe this) as Hturn. cbv zeta in Hturn.
    remember (prepareReflectionProbe i probe this) as this1 eqn:Hthis1.
    destruct Hturn as ((Hs1 & Ht1 & Ho1) & Hlen1 & Hkeep1 & entries1 & Hent1 & Htex1 & Hlive1).
    assert (Hbefore1 : Forall (fun o => -1 <= reflectionProbeIndex o < Z.of_nat (S i))
                         (arena this1)).
    { rewrite Forall_forall in Hbefore |- *. intros o1 Hin1.
      apply list_elem_of_lookup in Hin1 as [j Hj1].
      assert (Hlt : (j < length (arena this))%nat).
      { rewrite <- Hlen1. eapply lookup_lt_Some; eauto. }
      apply lookup_lt_is_Some in Hlt as [o Hj].
      destruct (Hkeep1 j o Hj) as (o' & Hj' & _ & Hidx).
      rewrite Hj1 in Hj'. injection Hj' as <-.
      destruct Hidx as [Hi | ->].
      - lia.
      - assert (Hin : o ∈ arena this) by (apply list_elem_of_lookup; eauto).
        specialize (Hbefore o Hin). lia. }
    specialize (IH (S i) this1 Hbefore1). cbv zeta in IH.
    destruct IH as ((Hs & Ht & Ho) & Hlen & Hkeep & Hafter & entries & Hent & Hidx & Hreg).
    split; [repeat split; congruence|]. split; [congruence|]. split; [|split].
    + intros j o Hj. destruct (Hkeep1 j o Hj) as (o1 & Hj1 & Hfl1 & _).
      destruct (Hkeep j o1 Hj1) as (o2 & Hj2 & Hfl2). exists o2. split; congruence.
    + revert Hafter. apply List.Forall_impl. intros o Ho'. simpl. lia.
    + exists (entries1 ++ entries). split; [rewrite Hent, Hent1, app_assoc; reflexivity|].
      assert (Hidx1 : Forall (fun e => entryProbeIndex e = i) entries1).
      { destruct (probe_hasTexture probe).
        - rewrite (Htex1 eq_refl). repeat constructor.
        - destruct (Hlive1 eq_refl) as [[-> _]|[-> _]]; repeat constructor. }
      split.
      { apply Forall_app. split.
        - revert Hidx1. apply List.Forall_impl. intros e He. lia.
        - revert Hidx. apply List.Forall_impl. intros e He. lia. }
      intros k probe' Hk. destruct k as [|k]; simpl in Hk.
      * injection Hk as <-. rewrite Nat.add_0_r.
        change (take 1 (probe :: rest)) with [probe].
        cbn [prepareReflectionProbesLoop]. rewrite <- Hthis1. split.
        -- intros Htex. rewrite (Htex1 Htex). left. reflexivity.
        -- intros Htex. split.
           ++ intros Hin. apply in_app_or in Hin as [Hin|Hin].
              ** destruct (Hlive1 Htex) as [[_ Hassigned]|[-> _]];
                   [exact Hassigned | destruct Hin].
              ** rewrite Forall_forall in Hidx. apply list_elem_of_In in Hin.
                 specialize (Hidx _ Hin). simpl in Hidx. lia.
           ++ intros Hassigned. apply in_or_app. left.
              destruct (Hlive1 Htex) as [[-> _]|[_ Hsame]]; [left; reflexivity|].
              destruct Hassigned as (h & o & _ & Hh & Hi).
              rewrite Hsame in Hh.
              assert (Hin : o ∈ arena this) by (apply list_elem_of_lookup; eauto).
              rewrite Forall_forall in Hbefore. specialize (Hbefore o Hin). lia.
      * destruct (Hreg k probe' Hk) as [Htextured Hlive].
        replace (i + S k)%nat with (S i + k)%nat by lia.
        change (take (S (S k)) (probe :: rest)) with (probe :: take (S k) rest).
        cbn [prepareReflectionProbesLoop]. rewrite <- Hthis1. split.
        -- intros Htex. apply in_or_app. right. apply Htextured. exact Htex.
        -- intros Htex. rewrite <- (Hlive Htex). split.
           ++ intros Hin. apply in_app_or in Hin as [Hin|Hin]; [|exact Hin].
              rewrite Forall_forall in Hidx1. apply list_elem_of_In in Hin.
              specialize (Hidx1 _ Hin). simpl in Hidx1. lia.
           ++ intros Hin. apply in_or_app. right. exact Hin.
Qed.

(** C9 (as amended): reflection probe registration.  From records that are
    not yet assigned to a probe, injection registers for every probe with a
    texture a textured entry, whatever the records are, and for a probe
    without a texture a live entry exactly when, at the end of the turn of
    that probe, a record of the opaque or transparent bucket is assigned to
    it; a later probe may still take the record over.  A record has one probe
    index, none (-1) or the index of a probe, and a record that has a probe
    is given to another one only when the distance to that one is strictly
    smaller. *)
Theorem reflection_probe_registration (this : QSSGLayerRenderData)
    (Hfresh : Forall (fun o => reflectionProbeIndex o = -1) (arena this)) :
  let this' := prepareReflectionProbesForRender this in
  (exists entries,
     reflectionMapEntries this' = reflectionMapEntries this ++ entries
     /\ (forall i probe,
           reflectionProbes this !! i = Some probe -> probe_hasTexture probe = true ->
           In (TexturedReflectionMapEntry i) entries)
     /\ (forall i probe,
           reflectionProbes this !! i = Some probe -> probe_hasTexture probe = false ->
           (In (LiveReflectionMapEntry i) entries
            <-> someRecordAssignedTo i
                  (prepareReflectionProbesLoop 0 (take (S i) (reflectionProbes this)) this))))
  /\ Forall (fun o => -1 <= reflectionProbeIndex o
                      < Z.of_nat (length (reflectionProbes this))) (arena this')
  /\ (forall i probe probeBound o,
        reflectionProbeIndex o <> -1 ->
        fst (injectProbe i probe probeBound o) = o
        \/ F32.ltb (distanceFromReflectionProbe (fst (injectProbe i probe probeBound o)))
                   (distanceFromReflectionProbe o) = true).
Proof.
  intros this'. subst this'. unfold prepareReflectionProbesForRender.
  assert (Hbefore : Forall (fun o => -1 <= reflectionProbeIndex o < Z.of_nat 0) (arena this)).
  { revert Hfresh. apply List.Forall_impl. intros o Ho. rewrite Ho. simpl. lia. }
  pose proof (prepareReflectionProbesLoop_spec (reflectionProbes this) 0 this Hbefore)
    as Hloop. cbv zeta in Hloop.
  destruct Hloop as (_ & _ & _ & Hafter & entries & Hent & _ & Hreg).
  split; [|split].
  - exists entries. split; [exact Hent|]. split.
    + intros i probe Hi Htex. apply (proj1 (Hreg i probe Hi) Htex).
    + intros i probe Hi Htex. apply (proj2 (Hreg i probe Hi) Htex).
  - exact Hafter.
  - intros i probe probeBound o Hassigned.
    destruct (snd (injectProbe i probe probeBound o)) eqn:Htaken.
    + right. apply injectProbe_taken; assumption.
    + left. apply injectProbe_not_taken. exact Htaken.
Qed.

(** ** The steps of [prepareForRender] that leave the records alone *)

Lemma sameFrameData_refl this : sameFrameData this this.
Proof. repeat split. Qed.

Lemma sameFrameData_trans this1 this2 this3 :
  sameFrameData this1 this2 -> sameFrameData this2 this3 -> sameFrameData this1 this3.
Proof.
  intros (H1 & H2 & H3 & H4 & H5) (K1 & K2 & K3 & K4 & K5).
  repeat split; congruence.
Qed.

Lemma resolveCamera_sameFrameData wasDataDirty this :
  sameFrameData this (snd (resolveCamera wasDataDirty this)).
Proof.
  unfold resolveCamera. destruct (explicitCamera (layer this)) as [cam|].
  - destruct (setupCameraForRender _ _ cam) as [c res]. repeat split.
  - destruct (findActiveCamera _ _ _ _) as [[cams found] w]. repeat split.
Qed.

Lemma selectLights_sameFrameData this :
  sameFrameData this (snd (selectLights this)).
Proof.
  unfold selectLights.
  destruct (selectLightsLoop _ _ _ _) as [[cnt scoped] rl]. simpl.
  repeat match goal with |- context [if ?b then _ else _] => destruct b end; repeat split.
Qed.

Lemma setupGlobalLights_sameFrameData hasScopedLights renderableLights this :
  sameFrameData this (setupGlobalLights hasScopedLights renderableLights this).
Proof. unfold setupGlobalLights. destruct hasScopedLights; repeat split. Qed.

Lemma getCameraDirectionAndPosition_sameFrameData this :
  sameFrameData this (snd (getCameraDirectionAndPosition this)).
Proof.
  unfold getCameraDirectionAndPosition. destruct (cameraData this); repeat split.
Qed.

(** The shadow map entries: one per light flagged as shadow-casting, and the
    shadow map pass is required as soon as there is one. *)
Lemma addShadowMapEntries_spec (rest : list QSSGShaderLight) :
  forall i flags this,
    let flags' := fst (addShadowMapEntries i rest flags this) in
    let this' := snd (addShadowMapEntries i rest flags this) in
    arena this' = arena this
    /\ screenTextureObjects this' = screenTextureObjects this
    /\ transparentObjects this' = transparentObjects this
    /\ opaqueObjects this' = opaqueObjects this
    /\ requiresDepthTexture flags' = requiresDepthTexture flags
    /\ requiresSsaoPass flags' = requiresSsaoPass flags
    /\ requiresScreenTexture flags' = requiresScreenTexture flags
    /\ exists entries,
         shadowMapEntries this' = shadowMapEntries this ++ entries
         /\ length entries = length (List.filter sl_shadows rest)
         /\ requiresShadowMapPass flags'
            = requiresShadowMapPass flags || existsb sl_shadows rest.
Proof.
  induction rest as [|shaderLight rest IH]; intros i flags this; simpl.
  - repeat split. exists []. rewrite app_nil_r, orb_false_r. repeat split.
  - destruct (sl_shadows shaderLight).
    + match goal with
      | |- context [addShadowMapEntries (S i) rest ?f ?t] => specialize (IH (S i) f t)
      end.
      cbv zeta in IH. destruct IH as (H1 & H2 & H3 & H4 & H5 & H6 & H7 & entries & He & Hl & Hr).
      repeat split; try assumption.
      eexists (_ :: entries). split; [|split].
      * rewrite He. cbn [shadowMapEntries set_feature_Ssm set_shadowMapEntries].
        rewrite <- app_assoc. reflexivity.
      * simpl. rewrite Hl. reflexivity.
      * rewrite Hr. simpl. rewrite orb_true_r. reflexivity.
    + specialize (IH (S i) flags this). cbv zeta in IH.
      destruct IH as (H1 & H2 & H3 & H4 & H5 & H6 & H7 & entries & He & Hl & Hr).
      repeat split; try assumption. exists entries. repeat split; assumption.
Qed.

Lemma existsb_filter_nil {A : Type} (f : A -> bool) (l : list A) :
  existsb f l = true <-> List.filter f l <> [].
Proof.
  induction l as [|x l IH]; simpl.
  - split; [discriminate | intros Hne; contradiction].
  - destruct (f x); simpl; [split; [discriminate | reflexivity] | exact IH].
Qed.

Lemma setupShadowMaps_spec shadowMapCount renderableLights flags this :
  requiresShadowMapPass flags = false ->
  let flags' := fst (setupShadowMaps shadowMapCount renderableLights flags this) in
  let this' := snd (setupShadowMaps shadowMapCount renderableLights flags this) in
  arena this' = arena this
  /\ screenTextureObjects this' = screenTextureObjects this
  /\ transparentObjects this' = transparentObjects this
  /\ opaqueObjects this' = opaqueObjects this
  /\ requiresDepthTexture flags' = requiresDepthTexture flags
  /\ requiresSsaoPass flags' = requiresSsaoPass flags
  /\ exists entries,
       shadowMapEntries this' = shadowMapEntries this ++ entries
       /\ (requiresShadowMapPass flags' = true <-> entries <> []).
Proof.
  intros Hnone. unfold setupShadowMaps. destruct (0 <? shadowMapCount)%nat.
  - pose proof (addShadowMapEntries_spec renderableLights 0 flags this) as Hadd.
    cbv zeta in Hadd |- *.
    destruct Hadd as (H1 & H2 & H3 & H4 & H5 & H6 & _ & entries & He & Hl & Hr).
    repeat split; try assumption. exists entries. split; [exact He|].
    rewrite Hr, Hnone. simpl. rewrite existsb_filter_nil.
    destruct entries, (List.filter sl_shadows renderableLights); simpl in Hl;
      try discriminate Hl; split; intros Hne; congruence.
  - simpl. repeat split. exists []. rewrite app_nil_r. split; [reflexivity|].
    rewrite Hnone. split; [discriminate | intros Hne; contradiction].
Qed.

(** The pass requirements through material and model preparation. *)
Lemma prepareDefaultMaterialForRender_requirements b a m fl inOpacity io :
  passRequirementsKept b a io ->
  passRequirementsKept b a (snd (prepareDefaultMaterialForRender m fl inOpacity io)).
Proof.
  intros (Hs & Hao & Ha). unfold prepareDefaultMaterialForRender.
  destruct (prepareMaterialImages m _) as [imgs fli].
  destruct (F32.geb _ _); destruct (clampSubsetOpacity _ _) as [o' fl'];
    destruct (isTransmissionEnabled m); repeat split; assumption.
Qed.

Lemma prepareCustomMaterialForRender_requirements b a m fl inOpacity io :
  passRequirementsKept b a io ->
  passRequirementsKept b a (snd (prepareCustomMaterialForRender m fl inOpacity io)).
Proof.
  intros (Hs & Hao & Ha). unfold prepareCustomMaterialForRender.
  destruct (clampSubsetOpacity _ _) as [o' fl'].
  destruct (rf_ScreenTexture m), (rf_ScreenMipTexture m), (rf_DepthTexture m),
    (rf_AoTexture m); simpl; repeat split; auto.
Qed.

Section Requirements.
Context (b a : bool).

Lemma prepareSubset_requirements model theMesh idx theSubset theMaterialObject cameraData
    lodThreshold st st' :
  prepareSubset model theMesh idx theSubset theMaterialObject cameraData lodThreshold st
  = Some st' ->
  passRequirementsKept b a (ls_ioFlags st) -> passRequirementsKept b a (ls_ioFlags st').
Proof.
  unfold prepareSubset. intros Hrun Hflags.
  destruct (selectLevelOfDetail _ _ _ _) as [lod|]; [|discriminate Hrun].
  cbn [mbind option_bind] in Hrun.
  destruct theMaterialObject as [theMaterial|theMaterial|].
  - match type of Hrun with
    | context [prepareDefaultMaterialForRender ?m ?f ?o ?io] =>
        pose proof (prepareDefaultMaterialForRender_requirements b a m f o io Hflags) as Hk;
        destruct (prepareDefaultMaterialForRender m f o io) as [res io']
    end.
    injection Hrun as <-. exact Hk.
  - match type of Hrun with
    | context [prepareCustomMaterialForRender ?m ?f ?o ?io] =>
        pose proof (prepareCustomMaterialForRender_requirements b a m f o io Hflags) as Hk;
        destruct (prepareCustomMaterialForRender m f o io) as [res io']
    end.
    injection Hrun as <-. exact Hk.
  - injection Hrun as <-. exact Hflags.
Qed.

Lemma prepareSubsets_requirements model theMesh cameraData lodThreshold remaining :
  forall idx st st',
    prepareSubsets model theMesh idx remaining cameraData lodThreshold st = Some st' ->
    passRequirementsKept b a (ls_ioFlags st) -> passRequirementsKept b a (ls_ioFlags st').
Proof.
  induction remaining as [|theSubset rest IH]; intros idx st st' Hrun Hflags; simpl in Hrun.
  - injection Hrun as <-. exact Hflags.
  - destruct (bool_decide (materials model = [])); [injection Hrun as <-; exact Hflags|].
    destruct (materialForSubset (materials model) idx) as [theMaterialObject|].
    + destruct (prepareSubset model theMesh idx theSubset theMaterialObject cameraData
                  lodThreshold st) as [st1|] eqn:Hstep; [|discriminate Hrun].
      cbn [mbind option_bind] in Hrun.
      apply (IH _ _ _ Hrun).
      apply (prepareSubset_requirements _ _ _ _ _ _ _ _ _ Hstep Hflags).
    + apply (IH _ _ _ Hrun Hflags).
Qed.

Lemma prepareModels_requirements cameraData lodThreshold renderables :
  forall wasDirty ioFlags this wasDirty' ioFlags' this',
    prepareModels renderables cameraData lodThreshold wasDirty ioFlags this
    = Some (wasDirty', ioFlags', this') ->
    passRequirementsKept b a ioFlags -> passRequirementsKept b a ioFlags'.
Proof.
  induction renderables as [|renderable rest IH];
    intros wasDirty ioFlags this wasDirty' ioFlags' this' Hrun Hflags; simpl in Hrun.
  - injection Hrun as <- <- <-. exact Hflags.
  - destruct (prepareModel renderable cameraData lodThreshold wasDirty ioFlags this)
      as [[[d1 f1] this1]|] eqn:Hstep; [|discriminate Hrun].
    cbn [mbind option_bind] in Hrun.
    apply (IH _ _ _ _ _ _ Hrun).
    unfold prepareModel in Hstep.
    destruct (entry_mesh renderable) as [theMesh|];
      [|injection Hstep as <- <- <-; exact Hflags].
    destruct (prepareSubsets _ _ _ _ _ _ _) as [st|] eqn:Hsub; [|discriminate Hstep].
    cbn [mbind option_bind] in Hstep.
    pose proof (prepareSubsets_requirements _ _ _ _ _ _ _ _ Hsub Hflags) as Hst.
    injection Hstep as <- <- <-. exact Hst.
Qed.

End Requirements.

(** The probes leave the buckets and the flags of the records alone. *)
Lemma prepareReflectionProbesLoop_frame (probes : list QSSGRenderReflectionProbe) :
  forall (i : nat) (this : QSSGLayerRenderData),
    let this' := prepareReflectionProbesLoop i probes this in
    (screenTextureObjects this' = screenTextureObjects this
     /\ transparentObjects this' = transparentObjects this
     /\ opaqueObjects this' = opaqueObjects this)
    /\ shadowMapEntries this' = shadowMapEntries this
    /\ length (arena this') = length (arena this)
    /\ (forall j o, arena this !! j = Some o ->
          exists o', arena this' !! j = Some o' /\ ro_flags o' = ro_flags o).
Proof.
  induction probes as [|probe rest IH]; intros i this; cbv zeta; simpl.
  - repeat split. intros j o Hj. exists o. auto.
  - pose proof (prepareReflectionProbe_spec i probe this) as Hturn. cbv zeta in Hturn.
    destruct Hturn as ((Hs1 & Ht1 & Ho1) & Hlen1 & Hkeep1 & _).
    assert (Hshadow1 : shadowMapEntries (prepareReflectionProbe i probe this)
                       = shadowMapEntries this).
    { unfold prepareReflectionProbe.
      repeat match goal with
      | |- context [injectProbeList ?a ?b ?c ?d ?e ?f] =>
          destruct (injectProbeList a b c d e f)
      end.
      repeat match goal with |- context [if ?c then _ else _] => destruct c end;
        reflexivity. }
    specialize (IH (S i) (prepareReflectionProbe i probe this)). cbv zeta in IH.
    destruct IH as ((Hs & Ht & Ho) & Hshadow & Hlen & Hkeep).
    repeat split; try congruence.
    intros j o Hj. destruct (Hkeep1 j o Hj) as (o1 & Hj1 & Hfl1 & _).
    destruct (Hkeep j o1 Hj1) as (o2 & Hj2 & Hfl2). exists o2. split; congruence.
Qed.

(** ** [prepareForRender] step by step *)

Lemma prepareForRender_steps (this this' : QSSGLayerRenderData) :
  layerPrepResult this = None ->
  prepareForRender this = Some this' ->
  exists this0 flags0 cameraData lodThreshold dirtyModels flags1 this1 entries
         wasDirty wasDataDirty,
    (arena this0 = arena this
     /\ screenTextureObjects this0 = screenTextureObjects this
     /\ transparentObjects this0 = transparentObjects this
     /\ opaqueObjects this0 = opaqueObjects this)
    /\ shadowMapEntries this0 = shadowMapEntries this ++ entries
    /\ (requiresShadowMapPass flags0 = true <-> entries <> [])
    /\ requiresSsaoPass flags0 = ssaoEnabled (layer this)
    /\ requiresDepthTexture flags0
       = ssaoEnabled (layer this)
         || existsb effect_requiresDepthTexture (effects (layer this))
    /\ prepareModelForRender (renderableModels this0) flags0 cameraData lodThreshold this0
       = Some (dirtyModels, flags1, this1)
    /\ this'
       = preparePasses (setLayerDataDirty wasDataDirty (setWasDirty wasDirty flags1))
           (set_layerPrepResult
              (Some (setLayerDataDirty wasDataDirty (setWasDirty wasDirty flags1)))
              (prepareReflectionProbesForRender
                 (snd (prepareParticlesForRender (renderableParticles this1)
                         cameraData this1)))).
Proof.
  intros Hfresh Hrun. unfold prepareForRender in Hrun. rewrite Hfresh in Hrun.
  cbv zeta in Hrun.
  set (thisA := if maxUniformBufferRange <? REDUCED_MAX_LIGHT_COUNT_THRESHOLD_BYTES
                then _ else _) in Hrun.
  assert (HA : sameFrameData this thisA).
  { subst thisA. destruct (maxUniformBufferRange <? _); repeat split. }
  pose proof (resolveCamera_sameFrameData false thisA) as HB.
  destruct (resolveCamera false thisA) as [wasDataDirty thisB]. simpl in HB.
  pose proof (selectLights_sameFrameData thisB) as HC.
  destruct (selectLights thisB) as [[[shadowMapCount hasScopedLights] renderableLights] thisC].
  simpl in HC.
  set (flagsA := setRequiresDepthTexture _ _) in Hrun.
  pose proof (setupShadowMaps_spec shadowMapCount renderableLights flagsA thisC eq_refl) as HD.
  cbv zeta in HD.
  destruct (setupShadowMaps shadowMapCount renderableLights flagsA thisC) as [flags0 thisD].
  simpl in HD. destruct HD as (D1 & D2 & D3 & D4 & D5 & D6 & entries & D7 & D8).
  set (thisE := setupGlobalLights hasScopedLights renderableLights _) in Hrun.
  assert (HE : sameFrameData thisD thisE).
  { subst thisE. eapply sameFrameData_trans; [|apply setupGlobalLights_sameFrameData].
    repeat split. }
  pose proof (getCameraDirectionAndPosition_sameFrameData thisE) as HF.
  destruct (getCameraDirectionAndPosition thisE) as [cameraData this0]. simpl in HF.
  match type of Hrun with
  | context [prepareModelForRender ?ms ?f ?cd ?lod ?s] =>
      destruct (prepareModelForRender ms f cd lod s) as [[[dirtyModels flags1] this1]|]
        eqn:Hmodels; [|discriminate Hrun];
      set (lodThreshold := lod) in *
  end.
  cbn [mbind option_bind] in Hrun.
  destruct (prepareParticlesForRender (renderableParticles this1) cameraData this1)
    as [dirtyParticles this2] eqn:Hparticles.
  injection Hrun as <-.
  destruct HA as (A1 & A2 & A3 & A4 & A5), HB as (B1 & B2 & B3 & B4 & B5),
    HC as (C1 & C2 & C3 & C4 & C5), HE as (E1 & E2 & E3 & E4 & E5),
    HF as (F1 & F2 & F3 & F4 & F5).
  eexists this0, flags0, cameraData, lodThreshold, dirtyModels, flags1, this1, entries, _, _.
  split; [repeat split; congruence|].
  split; [rewrite F5, E5, D7, C5, B5, A5; reflexivity|].
  split; [exact D8|].
  split; [rewrite D6; reflexivity|].
  split; [rewrite D5; reflexivity|].
  split; [exact Hmodels|].
  rewrite Hparticles. reflexivity.
Qed.

Lemma bucketsPartitionFrame_ext (this this' : QSSGLayerRenderData) :
  screenTextureObjects this' = screenTextureObjects this ->
  transparentObjects this' = transparentObjects this ->
  opaqueObjects this' = opaqueObjects this ->
  length (arena this') = length (arena this) ->
  (forall j o, arena this !! j = Some o ->
     exists o', arena this' !! j = Some o' /\ ro_flags o' = ro_flags o) ->
  bucketsPartitionFrame this -> bucketsPartitionFrame this'.
Proof.
  intros Hs Ht Ho Hlen Hkeep (Hperm & Hhs & Hht & Hho).
  unfold bucketsPartitionFrame, bucketHandles. rewrite Hs, Ht, Ho, Hlen.
  split; [exact Hperm|].
  split; [|split]; eapply bucketHolds_arena; eauto.
Qed.

Lemma shadowMapEntries_kept (entries : list ShadowMapEntry) :
  keptByPreparers (fun this => shadowMapEntries this = entries).
Proof.
  unfold keptByPreparers. split; [|split].
  - intros this o cameraData Hthis. unfold pushRenderable.
    repeat match goal with |- context [if ?b then _ else _] => destruct b end;
      exact Hthis.
  - intros this v Hthis. exact Hthis.
  - intros this v Hthis. exact Hthis.
Qed.

(** ** The preparation returns

    The only step of the preparation that can fail is the level-of-detail
    selection, which reads the camera: with a camera the preparation
    returns. *)

Lemma camera_kept (c : option QSSGRenderCamera) :
  keptByPreparers (fun this => camera this = c).
Proof.
  unfold keptByPreparers. split; [|split].
  - intros this o cameraData Hthis. unfold pushRenderable.
    repeat match goal with |- context [if ?b then _ else _] => destruct b end;
      exact Hthis.
  - intros this v Hthis. exact Hthis.
  - intros this v Hthis. exact Hthis.
Qed.

Lemma selectLevelOfDetail_returns (cam : QSSGRenderCamera) (model : QSSGRenderModel)
    (theSubset : QSSGRenderSubset) (lodThreshold : float) :
  is_Some (selectLevelOfDetail (Some cam) model theSubset lodThreshold).
Proof.
  unfold selectLevelOfDetail.
  destruct (negb (bool_decide (lods theSubset = [])) && F32.gtb lodThreshold F32.zero);
    simpl; eauto.
Qed.

Lemma prepareSubset_returns model theMesh idx theSubset theMaterialObject cameraData
    lodThreshold st :
  camera (ls_this st) <> None ->
  is_Some (prepareSubset model theMesh idx theSubset theMaterialObject cameraData
             lodThreshold st).
Proof.
  intros Hcam. unfold prepareSubset.
  destruct (camera (ls_this st)) as [cam|]; [|contradiction].
  destruct (selectLevelOfDetail_returns cam model theSubset lodThreshold) as [lod ->].
  cbn [mbind option_bind].
  destruct theMaterialObject as [theMaterial|theMaterial|].
  - destruct (prepareDefaultMaterialForRender _ _ _ _) as [result ioFlags]. simpl. eauto.
  - destruct (prepareCustomMaterialForRender _ _ _ _) as [result ioFlags]. simpl. eauto.
  - simpl. eauto.
Qed.

Lemma prepareSubsets_returns model theMesh cameraData lodThreshold remaining :
  forall idx st,
    camera (ls_this st) <> None ->
    is_Some (prepareSubsets model theMesh idx remaining cameraData lodThreshold st).
Proof.
  induction remaining as [|theSubset rest IH]; intros idx st Hcam; simpl.
  - eauto.
  - destruct (bool_decide (materials model = [])); [eauto|].
    destruct (materialForSubset (materials model) idx) as [theMaterialObject|];
      [|apply IH; exact Hcam].
    destruct (prepareSubset_returns model theMesh idx theSubset theMaterialObject
                cameraData lodThreshold st Hcam) as [st' Hst'].
    rewrite Hst'. cbn [mbind option_bind]. apply IH.
    rewrite (prepareSubset_kept _ (camera_kept (camera (ls_this st)))
               _ _ _ _ _ _ _ _ _ Hst' eq_refl).
    exact Hcam.
Qed.

Lemma prepareModel_returns renderable cameraData lodThreshold wasDirty ioFlags this :
  camera this <> None ->
  is_Some (prepareModel renderable cameraData lodThreshold wasDirty ioFlags this).
Proof.
  intros Hcam. unfold prepareModel.
  destruct (entry_mesh renderable) as [theMesh|]; [|eauto].
  destruct (prepareSubsets_returns (entry_node renderable) theMesh cameraData lodThreshold
              (subsets theMesh) 0%nat (mkModelLoopState wasDirty ioFlags [] this) Hcam)
    as [st ->].
  cbn [mbind option_bind]. eauto.
Qed.

Lemma prepareModels_returns cameraData lodThreshold renderables :
  forall wasDirty ioFlags this,
    camera this <> None ->
    is_Some (prepareModels renderables cameraData lodThreshold wasDirty ioFlags this).
Proof.
  induction renderables as [|renderable rest IH]; intros wasDirty ioFlags this Hcam; simpl.
  - eauto.
  - destruct (prepareModel_returns renderable cameraData lodThreshold wasDirty ioFlags
                this Hcam) as [[[wasDirty' ioFlags'] this'] Hmodel].
    rewrite Hmodel. cbn [mbind option_bind]. apply IH.
    rewrite (prepareModel_kept _ (camera_kept (camera this)) _ _ _ _ _ _ _ _ _
               Hmodel eq_refl).
    exact Hcam.
Qed.

Lemma prepareModelForRender_returns renderableModels ioFlags cameraData lodThreshold this :
  camera this <> None ->
  is_Some (prepareModelForRender renderableModels ioFlags cameraData lodThreshold this).
Proof.
  intros Hcam. unfold prepareModelForRender. apply prepareModels_returns.
  destruct (negb rhiSupportsRgba32f && negb rhiSupportsRgba16f); exact Hcam.
Qed.

(** The camera the resolution selects depends on the layer, the viewport and
    the classified cameras only, and the steps between the resolution and
    the preparation of the models leave it in place. *)
Lemma resolveCamera_camera_ext (this this' : QSSGLayerRenderData) (wasDataDirty : bool) :
  layer this' = layer this -> viewport this' = viewport this ->
  cameras this' = cameras this ->
  camera (snd (resolveCamera wasDataDirty this'))
  = camera (snd (resolveCamera wasDataDirty this)).
Proof.
  intros Hlayer Hviewport Hcameras. unfold resolveCamera.
  rewrite Hlayer, Hviewport, Hcameras.
  destruct (explicitCamera (layer this)) as [cam|].
  - destruct (setupCameraForRender _ _ cam) as [c res]. reflexivity.
  - destruct (findActiveCamera _ _ _ _) as [[cams found] w]. reflexivity.
Qed.

Lemma selectLights_camera this : camera (snd (selectLights this)) = camera this.
Proof.
  unfold selectLights.
  destruct (selectLightsLoop _ _ _ _) as [[cnt scoped] rl]. simpl.
  repeat match goal with |- context [if ?b then _ else _] => destruct b end; reflexivity.
Qed.

Lemma addShadowMapEntries_camera (rest : list QSSGShaderLight) :
  forall i flags this, camera (snd (addShadowMapEntries i rest flags this)) = camera this.
Proof.
  induction rest as [|shaderLight rest IH]; intros i flags this; simpl.
  - reflexivity.
  - destruct (sl_shadows shaderLight); rewrite IH; reflexivity.
Qed.

Lemma setupShadowMaps_camera shadowMapCount renderableLights flags this :
  camera (snd (setupShadowMaps shadowMapCount renderableLights flags this)) = camera this.
Proof.
  unfold setupShadowMaps. destruct (0 <? shadowMapCount)%nat; [|reflexivity].
  apply addShadowMapEntries_camera.
Qed.

Lemma setupGlobalLights_camera hasScopedLights renderableLights this :
  camera (setupGlobalLights hasScopedLights renderableLights this) = camera this.
Proof. unfold setupGlobalLights. destruct hasScopedLights; reflexivity. Qed.

Lemma getCameraDirectionAndPosition_camera this :
  camera (snd (getCameraDirectionAndPosition this)) = camera this.
Proof. unfold getCameraDirectionAndPosition. destruct (cameraData this); reflexivity. Qed.

Lemma prepareForRender_returns (this : QSSGLayerRenderData) :
  camera (snd (resolveCamera false this)) <> None ->
  is_Some (prepareForRender this).
Proof.
  intros Hcam. unfold prepareForRender.
  destruct (layerPrepResult this); [eauto|]. cbv zeta.
  set (thisA := if maxUniformBufferRange <? REDUCED_MAX_LIGHT_COUNT_THRESHOLD_BYTES
                then _ else _).
  assert (HA : camera (snd (resolveCamera false thisA)) <> None).
  { rewrite (resolveCamera_camera_ext this thisA); [exact Hcam| | |];
      subst thisA; destruct (maxUniformBufferRange <? _); reflexivity. }
  destruct (resolveCamera false thisA) as [wasDataDirty thisB]. simpl in HA.
  pose proof (selectLights_camera thisB) as HC.
  destruct (selectLights thisB) as [[[shadowMapCount hasScopedLights] renderableLights] thisC].
  simpl in HC.
  set (flagsA := setRequiresDepthTexture _ _).
  pose proof (setupShadowMaps_camera shadowMapCount renderableLights flagsA thisC) as HD.
  destruct (setupShadowMaps shadowMapCount renderableLights flagsA thisC) as [flags0 thisD].
  simpl in HD.
  set (thisE := setupGlobalLights hasScopedLights renderableLights _).
  assert (HE : camera thisE = camera thisD).
  { subst thisE. rewrite setupGlobalLights_camera. reflexivity. }
  pose proof (getCameraDirectionAndPosition_camera thisE) as HF.
  destruct (getCameraDirectionAndPosition thisE) as [cameraData this0]. simpl in HF.
  match goal with
  | |- context [prepareModelForRender ?ms ?f ?cd ?lod ?s] =>
      destruct (prepareModelForRender_returns ms f cd lod s) as [[[dirtyModels flags1] this1] ->]
  end.
  - rewrite HF, HE, HD, HC. exact HA.
  - cbn [mbind option_bind].
    destruct (prepareParticlesForRender (renderableParticles this1) cameraData this1)
      as [dirtyParticles this2].
    eauto.
Qed.

(** C1: the buckets partition the records of the frame.  After a
    preparation that starts from an empty arena and empty buckets, the
    handles of the three buckets point to the records of the arena, each
    record exactly once (none lost, none twice, so the buckets are pairwise
    disjoint), and every record is in the bucket its flags select by the
    precedence requires-screen-texture, has-transparency, opaque.  The
    preparation returns whenever a camera is resolved. *)
Theorem buckets_partition_records (this : QSSGLayerRenderData)
    (Hfresh : layerPrepResult this = None)
    (Harena : arena this = [])
    (Hscreen : screenTextureObjects this = [])
    (Htransparent : transparentObjects this = [])
    (Hopaque : opaqueObjects this = []) :
  (camera (snd (resolveCamera false this)) <> None -> is_Some (prepareForRender this))
  /\ forall this' : QSSGLayerRenderData,
       prepareForRender this = Some this' ->
       Permutation (map obj (screenTextureObjects this' ++ transparentObjects this'
                             ++ opaqueObjects this'))
                   (seq 0 (length (arena this')))
       /\ NoDup (map obj (screenTextureObjects this' ++ transparentObjects this'
                          ++ opaqueObjects this'))
       /\ bucketHolds this' ScreenTextureBucket (screenTextureObjects this')
       /\ bucketHolds this' TransparentBucket (transparentObjects this')
       /\ bucketHolds this' OpaqueBucket (opaqueObjects this').
Proof.
  split; [apply prepareForRender_returns|]. intros this' Hrun.
  destruct (prepareForRender_steps this this' Hfresh Hrun)
    as (this0 & flags0 & cameraData & lodThreshold & dirtyModels & flags1 & this1
        & entries & wasDirty & wasDataDirty
        & (A1 & A2 & A3 & A4) & _ & _ & _ & _ & Hmodels & ->).
  assert (H0 : bucketsPartitionFrame this0).
  { unfold bucketsPartitionFrame, bucketHandles, bucketHolds.
    rewrite A1, A2, A3, A4, Harena, Hscreen, Htransparent, Hopaque. simpl.
    repeat split; constructor. }
  pose proof (prepareModelForRender_kept _ bucketsPartitionFrame_kept _ _ _ _ _ _ _ _
                Hmodels H0) as H1.
  pose proof (prepareParticlesForRender_kept _ bucketsPartitionFrame_kept
                (renderableParticles this1) cameraData this1 H1) as H2.
  set (this2 := snd (prepareParticlesForRender (renderableParticles this1) cameraData this1))
    in *.
  pose proof (prepareReflectionProbesLoop_frame (reflectionProbes this2) 0 this2) as Hprobes.
  cbv zeta in Hprobes. fold (prepareReflectionProbesForRender this2) in Hprobes.
  destruct Hprobes as ((P1 & P2 & P3) & _ & Plen & Pkeep).
  assert (H3 : bucketsPartitionFrame
                 (preparePasses (setLayerDataDirty wasDataDirty (setWasDirty wasDirty flags1))
                    (set_layerPrepResult
                       (Some (setLayerDataDirty wasDataDirty (setWasDirty wasDirty flags1)))
                       (prepareReflectionProbesForRender this2)))).
  { apply (bucketsPartitionFrame_ext this2); try assumption. }
  destruct H3 as (Hperm & Hs & Ht & Ho). unfold bucketHandles in Hperm.
  split; [exact Hperm|]. split; [|auto].
  rewrite Hperm. apply NoDup_ListNoDup, seq_NoDup.
Qed.

(** C6: the pass schedule.  At the end of a preparation the active passes
    are, in this order, the depth pre-pass if and only if the depth texture
    is required, the ambient occlusion pass if and only if it is required,
    the shadow map pass if and only if it is required, the reflection map
    pass, the z pre-pass, the screen texture pass if and only if the screen
    texture is required, and the main pass.  The shadow map pass is required
    exactly when a shadow map entry was added for a light in this
    preparation, and the depth texture is required whenever ambient
    occlusion is, which it is when the layer enables it.  The preparation
    returns whenever a camera is resolved. *)
Theorem pass_schedule (this : QSSGLayerRenderData)
    (Hfresh : layerPrepResult this = None) :
  (camera (snd (resolveCamera false this)) <> None -> is_Some (prepareForRender this))
  /\ forall this' : QSSGLayerRenderData,
       prepareForRender this = Some this' ->
       exists flags entries,
         layerPrepResult this' = Some flags
         /\ activePasses this' = scheduledPasses flags
         /\ shadowMapEntries this' = shadowMapEntries this ++ entries
         /\ (requiresShadowMapPass flags = true <-> entries <> [])
         /\ (requiresSsaoPass flags = true -> requiresDepthTexture flags = true)
         /\ (ssaoEnabled (layer this) = true -> requiresSsaoPass flags = true).
Proof.
  split; [apply prepareForRender_returns|]. intros this' Hrun.
  destruct (prepareForRender_steps this this' Hfresh Hrun)
    as (this0 & flags0 & cameraData & lodThreshold & dirtyModels & flags1 & this1
        & entries & wasDirty & wasDataDirty
        & _ & Hentries & Hshadow & Hssao & Hdepth & Hmodels & ->).
  assert (Hkept : passRequirementsKept (requiresShadowMapPass flags0)
                    (ssaoEnabled (layer this)) flags1).
  { unfold prepareModelForRender in Hmodels.
    apply (prepareModels_requirements _ _ _ _ _ _ _ _ _ _ _ Hmodels).
    split; [reflexivity|]. split.
    - intros Hao. rewrite Hdepth. rewrite Hssao in Hao. rewrite Hao. reflexivity.
    - intros Ha. rewrite Hssao. exact Ha. }
  destruct Hkept as (K1 & K2 & K3).
  pose proof (prepareModelForRender_kept _ (shadowMapEntries_kept _) _ _ _ _ _ _ _ _
                Hmodels eq_refl) as S1.
  pose proof (prepareParticlesForRender_kept _ (shadowMapEntries_kept _)
                (renderableParticles this1) cameraData this1 S1) as S2.
  set (this2 := snd (prepareParticlesForRender (renderableParticles this1) cameraData this1))
    in *.
  pose proof (prepareReflectionProbesLoop_frame (reflectionProbes this2) 0 this2) as Hprobes.
  cbv zeta in Hprobes. fold (prepareReflectionProbesForRender this2) in Hprobes.
  destruct Hprobes as (_ & S3 & _ & _).
  exists (setLayerDataDirty wasDataDirty (setWasDirty wasDirty flags1)), entries.
  split; [reflexivity|]. split; [|split; [|split; [|split]]].
  - unfold preparePasses, scheduledPasses.
    cbn [activePasses set_activePasses requiresDepthTexture requiresSsaoPass
         requiresShadowMapPass requiresScreenTexture setLayerDataDirty setWasDirty].
    destruct (requiresDepthTexture flags1), (requiresSsaoPass flags1),
      (requiresShadowMapPass flags1), (requiresScreenTexture flags1); reflexivity.
  - cbn [shadowMapEntries preparePasses set_activePasses set_layerPrepResult].
    rewrite S3, S2. exact Hentries.
  - cbn [requiresShadowMapPass setLayerDataDirty setWasDirty]. rewrite K1. exact Hshadow.
  - exact K2.
  - exact K3.
Qed.

End Properties.

(** * The claims on sample scenes *)

(** C2, at the lower bound itself: an incoming opacity of 1.0 on a material
    of opacity 0.01 keeps the opacity 0.01 and is marked HasTransparency but
    not CompletelyTransparent. *)
Lemma opacity_clamp_strict_witness :
  let d := fst (@prepareDefaultMaterialForRender sampleCollaborators
                  (sampleDefaultMaterial f0_01) noFlags F32.one noPrepFlags) in
  opacity d = F32.mul F32.one f0_01
  /\ testFlag (renderableFlags d) HasTransparency = true
  /\ testFlag (renderableFlags d) CompletelyTransparent
     = testFlag noFlags CompletelyTransparent.
Proof.
  refine (proj1 (proj2 (proj2
    (@opacity_clamp_strict sampleCollaborators (sampleDefaultMaterial f0_01)
       sampleCustomMaterial noFlags F32.one noPrepFlags _))) _ _);
    vm_compute; reflexivity.
Defined.

(** C2 as the specification states it fails at both bounds.  The effective
    opacity 0.01 is at the epsilon, yet it is not forced to 0.0; the
    effective opacity 1 - 0.01 is at one minus the epsilon, yet it is not
    snapped to 1.0. *)
Lemma opacity_clamp_at_epsilon :
  ~ @opacity_floor_as_stated sampleCollaborators (sampleDefaultMaterial f0_01)
      noFlags F32.one noPrepFlags
  /\ ~ @opacity_ceiling_as_stated sampleCollaborators (sampleDefaultMaterial F32.one)
        noFlags (F32.sub F32.one f0_01) noPrepFlags.
Proof.
  split.
  - intros Hlow.
    assert (Hle : F32.leb (F32.mul F32.one f0_01) f0_01 = true)
      by (vm_compute; reflexivity).
    destruct (Hlow Hle) as [Hop _]. vm_compute in Hop. discriminate Hop.
  - intros Hhigh.
    assert (Hge : F32.geb (F32.mul (F32.sub F32.one f0_01) F32.one)
                    (F32.sub F32.one f0_01) = true)
      by (vm_compute; reflexivity).
    destruct (Hhigh Hge) as [Hop _]. vm_compute in Hop. discriminate Hop.
Qed.

(** C3 on an orthographic camera, unit scale and unit bias: with the
    distances 1, 2 and 8 and the threshold 4 the first two levels are not
    above the threshold and the third is, so level 2 is selected. *)
Lemma lod_selection_prefix_witness :
  exists n : nat,
    @selectLevelOfDetail sampleCollaborators (Some (sampleCamera OrthographicCamera true))
      (sampleModel 1 []) (sampleSubset [F32.of_Z 1; F32.of_Z 2; F32.of_Z 8]) (F32.of_Z 4)
    = Some (Z.of_nat n)
    /\ (n <= 3)%nat
    /\ (forall k d, (k < n)%nat ->
          [F32.of_Z 1; F32.of_Z 2; F32.of_Z 8] !! k = Some d ->
          F32.gtb (F32.div (F32.mul (F32.mul d F32.one) (F32.div F32.one F32.one))
                           (F32.mul F32.one F32.one)) (F32.of_Z 4) = false)
    /\ (forall d, [F32.of_Z 1; F32.of_Z 2; F32.of_Z 8] !! n = Some d ->
          F32.gtb (F32.div (F32.mul (F32.mul d F32.one) (F32.div F32.one F32.one))
                           (F32.mul F32.one F32.one)) (F32.of_Z 4) = true).
Proof.
  refine (proj2 (proj2
    (@lod_selection_prefix sampleCollaborators (sampleCamera OrthographicCamera true)
       (sampleModel 1 []) (sampleSubset [F32.of_Z 1; F32.of_Z 2; F32.of_Z 8])
       (F32.of_Z 4))) _ _ _).
  - discriminate.
  - vm_compute; reflexivity.
  - vm_compute; reflexivity.
Defined.

(** C3 as the specification states it fails on one level of distance 1 and
    the threshold 2: the ratio 1 is not above 2, so no level qualifies and
    the specification selects level 0, while the source selects level 1. *)
Lemma lod_selection_not_above :
  ~ @lod_selection_as_stated sampleCollaborators (sampleCamera OrthographicCamera true)
      (sampleModel 1 []) (sampleSubset [F32.of_Z 1]) (F32.of_Z 2).
Proof.
  intros Hclaim.
  assert (Hne : lods (sampleSubset [F32.of_Z 1]) <> []) by discriminate.
  specialize (Hclaim Hne eq_refl eq_refl).
  vm_compute in Hclaim. discriminate Hclaim.
Qed.

(** C7 with depth testing enabled: the three opaque handles come back in the
    order of their distances 1, 2 and 3. *)
Lemma sorted_opaque_accessor_witness :
  Permutation (fst (getSortedOpaqueRenderableObjects (sampleOpaqueData true)))
    (opaqueObjects (sampleOpaqueData true))
  /\ StronglySorted
       (fun a b => F32.leb (cameraDistanceSq a) (cameraDistanceSq b) = true)
       (fst (getSortedOpaqueRenderableObjects (sampleOpaqueData true))).
Proof.
  destruct (proj1 (proj2 (sorted_opaque_accessor (sampleOpaqueData true))))
    as [Hperm Hsorted].
  - reflexivity.
  - discriminate.
  - reflexivity.
  - discriminate.
  - split; [exact Hperm|]. apply Hsorted. repeat constructor.
Defined.

(** C7 as the specification states it fails in two ways.  With depth
    testing disabled the accessor returns the empty cached list, not the
    opaque bucket.  With depth testing enabled and a distance that is not a
    number, the handles at the squared distances 3, 1, NaN and 2 come back
    at 1, 3, NaN and 2: the handle at 3 before the handle at 2. *)
Lemma sorted_opaque_as_stated_fails :
  ~ sorted_opaque_as_stated (sampleOpaqueData false)
  /\ map obj (fst (getSortedOpaqueRenderableObjects sampleNaNOpaqueData))
     = [1; 0; 2; 3]%nat
  /\ ~ sorted_opaque_as_stated sampleNaNOpaqueData.
Proof.
  split; [|split].
  - intros [_ Hotherwise].
    assert (Hoff : ~ (camera (sampleOpaqueData false) <> None
                      /\ enableDepthTest (layer (sampleOpaqueData false)) = true
                      /\ opaqueObjects (sampleOpaqueData false) <> [])).
    { intros (_ & Hdepth & _). discriminate Hdepth. }
    specialize (Hotherwise Hoff). vm_compute in Hotherwise. discriminate Hotherwise.
  - vm_compute. reflexivity.
  - intros [Hsorted _].
    assert (Hon : camera sampleNaNOpaqueData <> None
                  /\ enableDepthTest (layer sampleNaNOpaqueData) = true
                  /\ opaqueObjects sampleNaNOpaqueData <> []).
    { repeat split; discriminate. }
    destruct (Hsorted Hon) as [_ Horder].
    assert (Hresult : fst (getSortedOpaqueRenderableObjects sampleNaNOpaqueData)
                      = [mkHandle 1 (F32.of_Z 1); mkHandle 0 (F32.of_Z 3);
                         mkHandle 2 S754_nan; mkHandle 3 (F32.of_Z 2)])
      by (vm_compute; reflexivity).
    rewrite Hresult in Horder.
    inversion Horder as [|? ? Hrest _]; subst.
    inversion Hrest as [|? ? _ Hthree]; subst.
    inversion Hthree as [|? ? _ Htwo]; subst.
    inversion Htwo as [|? ? Hleb _]; subst.
    vm_compute in Hleb. discriminate Hleb.
Qed.

(** The comparison of the z-orders is not a strict weak order, which
    [std::stable_sort] asks for: an item of another parent is neither before
    nor after two items of one parent, one of which is before the other. *)
Lemma isItemZOrderLessThan_not_weak_order :
  let a := mkItem2D 11 (Some 0%nat) 1 in
  let b := mkItem2D 12 (Some 1%nat) 0 in
  let c := mkItem2D 13 (Some 0%nat) 0 in
  isItemZOrderLessThan a b = false /\ isItemZOrderLessThan b a = false
  /\ isItemZOrderLessThan b c = false /\ isItemZOrderLessThan c b = false
  /\ isItemZOrderLessThan c a = true.
Proof. repeat split. Qed.

(** C8 fails on eight items under four parents at the same depth (the code
    does not keep the order its comment promises).  The items 13 and 14
    share the parent 0 and the z-order 0 and stand in this order in
    [renderableItem2Ds]; [getRenderableItem2Ds] returns 14 before 13.  The
    first sort moves nothing.  The second one sorts the halves 10, 11, 12,
    13 and 14, 15, 16, 17, which stay as they are, 13 being held behind the
    item 12 of another parent, and merges them: 14 is taken before 11, an
    item of its parent with a greater z-order, and so before 13.  Nor do the
    items of parent 0 come in ascending z-order: 14, 11, 13. *)
Theorem item2D_order_not_preserved :
  let this := sampleNestedItemData in
  let result := fst (@getRenderableItem2Ds sampleCollaborators this) in
  camera this <> None /\ renderedItem2Ds this = []
  /\ map item_id (renderableItem2Ds this) = [10; 11; 12; 13; 14; 15; 16; 17]%nat
  /\ map item_id result = [10; 14; 11; 12; 13; 15; 16; 17]%nat
  /\ map item_id
       (List.filter (sameParentAndZOrder (Some 0%nat) 0) (renderableItem2Ds this))
     = [13; 14]%nat
  /\ map item_id (List.filter (sameParentAndZOrder (Some 0%nat) 0) result)
     = [14; 13]%nat
  /\ map zOrder (List.filter (fun item => bool_decide (item_parent item = Some 0%nat)) result)
     = [0; 1; 0].
Proof.
  cbv zeta. split; [discriminate|]. repeat split; vm_compute; reflexivity.
Qed.

(** C9 on one record and three probes at the distances 10, 1 and 5, the
    second one with a texture: the textured entry is registered, the first
    probe takes the record and gets a live entry, the third probe is further
    away than the second and gets none. *)
Lemma reflection_probe_registration_witness :
  exists entries,
    reflectionMapEntries
      (@prepareReflectionProbesForRender sampleCollaborators
         (sampleProbeData [sampleProbe 20 10 false; sampleProbe 21 1 true;
                           sampleProbe 22 5 false]))
    = [] ++ entries
    /\ In (TexturedReflectionMapEntry 1) entries
    /\ In (LiveReflectionMapEntry 0) entries
    /\ ~ In (LiveReflectionMapEntry 2) entries.
Proof.
  destruct (@reflection_probe_registration sampleCollaborators
              (sampleProbeData [sampleProbe 20 10 false; sampleProbe 21 1 true;
                                sampleProbe 22 5 false]))
    as ((entries & Hent & Htextured & Hlive) & _ & _).
  - repeat constructor.
  - exists entries. split; [exact Hent|]. split; [|split].
    + apply (Htextured 1%nat (sampleProbe 21 1 true)); reflexivity.
    + apply (Hlive 0%nat (sampleProbe 20 10 false)); [reflexivity..|].
      exists (mkHandle 0 F32.zero). eexists.
      split; [left; reflexivity|]. split; vm_compute; reflexivity.
    + vm_compute in Hent. subst entries.
      intros [Hin|[Hin|[]]]; discriminate Hin.
Defined.

(** C9 as the specification states it fails on one record and two probes
    without texture at the distances 10 and 1: the first probe registers a
    live entry, and the record ends the frame with the second probe. *)
Lemma live_entry_without_final_record :
  ~ @live_entries_as_stated sampleCollaborators
      (sampleProbeData [sampleProbe 20 10 false; sampleProbe 21 1 false]).
Proof.
  intros Hclaim.
  destruct (Hclaim 0%nat (sampleProbe 20 10 false)) as (h & o & Hin & Hh & Hi).
  - reflexivity.
  - reflexivity.
  - vm_compute. left. reflexivity.
  - vm_compute in Hin. destruct Hin as [<-|[]].
    vm_compute in Hh. injection Hh as <-. vm_compute in Hi. discriminate Hi.
Qed.

(** C1 on the sample frame: five records are produced, two in the screen
    texture bucket, two in the transparent bucket and one in the opaque
    bucket. *)
Lemma buckets_partition_records_witness :
  exists this',
    @prepareForRender sampleCollaborators sampleFrame = Some this'
    /\ Permutation (map obj (screenTextureObjects this' ++ transparentObjects this'
                             ++ opaqueObjects this'))
                   (seq 0 (length (arena this')))
    /\ NoDup (map obj (screenTextureObjects this' ++ transparentObjects this'
                       ++ opaqueObjects this'))
    /\ bucketHolds this' ScreenTextureBucket (screenTextureObjects this')
    /\ bucketHolds this' TransparentBucket (transparentObjects this')
    /\ bucketHolds this' OpaqueBucket (opaqueObjects this').
Proof.
  destruct (@buckets_partition_records sampleCollaborators sampleFrame
              eq_refl eq_refl eq_refl eq_refl eq_refl) as [Hreturns Hbuckets].
  destruct Hreturns as [this' Hrun]; [vm_compute; discriminate|].
  exists this'. split; [exact Hrun | exact (Hbuckets this' Hrun)].
Defined.

(** C6 on the sample frame: the light casts a shadow and a material needs
    the screen texture, so the passes are the shadow map pass, the reflection
    map pass, the z pre-pass, the screen texture pass and the main pass. *)
Lemma pass_schedule_witness :
  exists this' flags entries,
    @prepareForRender sampleCollaborators sampleFrame = Some this'
    /\ layerPrepResult this' = Some flags
    /\ activePasses this' = scheduledPasses flags
    /\ shadowMapEntries this' = shadowMapEntries sampleFrame ++ entries
    /\ (requiresShadowMapPass flags = true <-> entries <> [])
    /\ (requiresSsaoPass flags = true -> requiresDepthTexture flags = true)
    /\ (ssaoEnabled (layer sampleFrame) = true -> requiresSsaoPass flags = true).
Proof.
  destruct (@pass_schedule sampleCollaborators sampleFrame eq_refl)
    as [Hreturns Hpasses].
  destruct Hreturns as [this' Hrun]; [vm_compute; discriminate|].
  destruct (Hpasses this' Hrun) as (flags & entries & Hschedule).
  exists this', flags, entries. split; [exact Hrun | exact Hschedule].
Defined.

(** C10 on the model without materials of the sample frame, with a mesh of
    two subsets resolved for it: the render data stay as they are. *)
Lemma empty_materials_emit_nothing_witness :
  @prepareModel sampleCollaborators
    (mkEntry (sampleModel 3 [])
       (Some (mkMesh [sampleSubset []; sampleSubset [F32.one]])))
    (mkCameraData vec3_zero vec3_zero) F32.one false noPrepFlags sampleFrame
  = Some (false, noPrepFlags, sampleFrame).
Proof.
  apply (proj1 (@empty_materials_emit_nothing sampleCollaborators (sampleModel 3 [])
                  (mkMesh [sampleSubset []; sampleSubset [F32.one]])
                  (mkCameraData vec3_zero vec3_zero) F32.one false noPrepFlags
                  sampleFrame)).
  reflexivity.
Defined.

(** * [std::stable_sort] with the order of a key

    When the comparison is the order of an integer key on the elements of
    the range, the library's routine is a stable sort: the runs it builds
    are ascending, and no step moves an element past another one of its
    key. *)

Section StableOrder.
Context {A : Type} (comp : A -> A -> bool) (key : A -> Z) (valid : A -> Prop).
Hypothesis comp_key : forall a b, valid a -> valid b -> comp a b = (key a <? key b).

Lemma stableFor_refl (l : list A) : stableFor key l l.
Proof. intros k. reflexivity. Qed.

Lemma stableFor_trans (l1 l2 l3 : list A) :
  stableFor key l1 l2 -> stableFor key l2 l3 -> stableFor key l1 l3.
Proof. intros H12 H23 k. rewrite H23. apply H12. Qed.

Lemma stableFor_app (l1 l2 r1 r2 : list A) :
  stableFor key l1 r1 -> stableFor key l2 r2 -> stableFor key (l1 ++ l2) (r1 ++ r2).
Proof. intros H1 H2 k. rewrite !List.filter_app, H1, H2. reflexivity. Qed.

Lemma ascending_rev (l : list A) : ascending key l -> descending key (rev l).
Proof. intros Hl. apply (StronglySorted_rev_flip (fun a b => key b <= key a)). exact Hl. Qed.

Lemma descending_rev (l : list A) : descending key l -> ascending key (rev l).
Proof. intros Hl. apply (StronglySorted_rev_flip (fun a b => key a <= key b)). exact Hl. Qed.

Lemma filter_hasKey_none (k : Z) (l : list A) :
  Forall (fun a => key a <> k) l -> List.filter (hasKey key k) l = [].
Proof.
  induction 1 as [|a l Ha _ IH]; simpl; [reflexivity|].
  unfold hasKey at 1. destruct (Z.eqb_spec (key a) k); [contradiction | exact IH].
Qed.

Lemma unguarded_linear_insert_stable (val : A) (rprefix : list A) (k : Z) :
  valid val -> Forall valid rprefix ->
  List.filter (hasKey key k) (unguarded_linear_insert comp val rprefix)
  = List.filter (hasKey key k) (val :: rprefix).
Proof.
  intros Hval Hvalid. induction Hvalid as [|next rest Hnext _ IH]; [reflexivity|].
  cbn [unguarded_linear_insert]. rewrite (comp_key _ _ Hval Hnext).
  destruct (Z.ltb_spec (key val) (key next)) as [Hlt|Hge]; [|reflexivity].
  cbn [List.filter] in *. rewrite IH. unfold hasKey.
  destruct (Z.eqb_spec (key next) k), (Z.eqb_spec (key val) k); try reflexivity. lia.
Qed.

Lemma unguarded_linear_insert_ordered (val : A) (rprefix : list A) :
  valid val -> Forall valid rprefix -> descending key rprefix ->
  descending key (unguarded_linear_insert comp val rprefix).
Proof.
  intros Hval Hvalid Hsorted. unfold descending in *.
  induction Hsorted as [|next rest Hrest IH Hnext]; simpl.
  - repeat constructor.
  - inversion Hvalid as [|? ? Hvnext Hvrest]; subst.
    rewrite (comp_key _ _ Hval Hvnext).
    destruct (Z.ltb_spec (key val) (key next)) as [Hlt|Hge].
    + constructor; [apply IH; exact Hvrest|].
      rewrite (unguarded_linear_insert_Permutation comp val rest).
      constructor; [lia | exact Hnext].
    + constructor; [constructor; assumption|].
      constructor; [exact Hge|].
      rewrite Forall_forall in Hnext |- *. intros x Hx. specialize (Hnext x Hx). lia.
Qed.

Lemma insertion_sort_step_stable (sorted : list A) (i : A) :
  valid i -> Forall valid sorted -> ascending key sorted ->
  ascending key (insertion_sort_step comp sorted i)
  /\ stableFor key (sorted ++ [i]) (insertion_sort_step comp sorted i).
Proof.
  intros Hi Hvalid Hsorted. unfold insertion_sort_step.
  destruct sorted as [|first rest] eqn:Heq; [split; [repeat constructor | intros k; reflexivity]|].
  assert (Hfirst : valid first) by (inversion Hvalid; assumption).
  rewrite (comp_key _ _ Hi Hfirst).
  destruct (Z.ltb_spec (key i) (key first)) as [Hlt|Hge].
  - assert (Hall : Forall (fun a => key i < key a) (first :: rest)).
    { inversion Hsorted as [|? ? _ Hrest]; subst. constructor; [exact Hlt|].
      rewrite Forall_forall in Hrest |- *. intros x Hx. specialize (Hrest x Hx). lia. }
    rewrite <- Heq in *. split.
    + constructor; [exact Hsorted|].
      rewrite Forall_forall in Hall |- *. intros x Hx. specialize (Hall x Hx). lia.
    + intros k. rewrite List.filter_app.
      change (List.filter (hasKey key k) (i :: sorted))
        with (if hasKey key k i then i :: List.filter (hasKey key k) sorted
              else List.filter (hasKey key k) sorted).
      change (List.filter (hasKey key k) [i]) with (if hasKey key k i then [i] else []).
      destruct (hasKey key k i) eqn:Hk; [|rewrite app_nil_r; reflexivity].
      apply Z.eqb_eq in Hk.
      rewrite (filter_hasKey_none k sorted); [reflexivity|].
      rewrite Forall_forall in Hall |- *. intros x Hx. specialize (Hall x Hx). lia.
  - rewrite <- Heq in *. split.
    + apply descending_rev. apply unguarded_linear_insert_ordered.
      * exact Hi.
      * apply Forall_rev. exact Hvalid.
      * apply ascending_rev. exact Hsorted.
    + intros k. rewrite List.filter_rev, unguarded_linear_insert_stable.
      * rewrite <- List.filter_rev. simpl. rewrite rev_involutive. reflexivity.
      * exact Hi.
      * apply Forall_rev. exact Hvalid.
Qed.

Lemma fold_insertion_sort_step_stable (l sorted : list A) :
  Forall valid l -> Forall valid sorted -> ascending key sorted ->
  ascending key (fold_left (insertion_sort_step comp) l sorted)
  /\ stableFor key (sorted ++ l) (fold_left (insertion_sort_step comp) l sorted).
Proof.
  revert sorted. induction l as [|i l IH]; intros sorted Hl Hvalid Hsorted; cbn [fold_left].
  - rewrite app_nil_r. split; [exact Hsorted | apply stableFor_refl].
  - inversion Hl as [|? ? Hi Hl']; subst.
    destruct (insertion_sort_step_stable sorted i Hi Hvalid Hsorted) as [Hstep Hstable].
    destruct (IH (insertion_sort_step comp sorted i) Hl') as [Hfold Hfoldstable].
    + rewrite (insertion_sort_step_Permutation comp sorted i). constructor; assumption.
    + exact Hstep.
    + split; [exact Hfold|].
      eapply stableFor_trans; [|exact Hfoldstable].
      replace (sorted ++ i :: l) with ((sorted ++ [i]) ++ l) by (rewrite <- app_assoc; reflexivity).
      apply stableFor_app; [exact Hstable | apply stableFor_refl].
Qed.

Lemma insertion_sort_stable (l : list A) :
  Forall valid l ->
  ascending key (insertion_sort comp l) /\ stableFor key l (insertion_sort comp l).
Proof.
  intros Hl. rewrite insertion_sort_fold.
  apply (fold_insertion_sort_step_stable l []); [exact Hl | constructor | constructor].
Qed.


Lemma move_merge_nil_l (l2 : list A) : move_merge comp [] l2 = l2.
Proof. destruct l2; reflexivity. Qed.

Lemma move_merge_nil_r (l1 : list A) : move_merge comp l1 [] = l1.
Proof. destruct l1; reflexivity. Qed.

Lemma move_merge_cons (first1 : A) (rest1 : list A) (first2 : A) (rest2 : list A) :
  move_merge comp (first1 :: rest1) (first2 :: rest2)
  = if comp first2 first1 then first2 :: move_merge comp (first1 :: rest1) rest2
    else first1 :: move_merge comp rest1 (first2 :: rest2).
Proof. reflexivity. Qed.

Lemma move_merge_stable (l1 l2 : list A) :
  Forall valid l1 -> Forall valid l2 -> ascending key l1 -> ascending key l2 ->
  ascending key (move_merge comp l1 l2)
  /\ stableFor key (l1 ++ l2) (move_merge comp l1 l2).
Proof.
  revert l2. induction l1 as [|first1 rest1 IH1]; intros l2 Hv1 Hv2 Hs1 Hs2.
  - rewrite move_merge_nil_l. split; [exact Hs2 | apply stableFor_refl].
  - induction l2 as [|first2 rest2 IH2].
    + rewrite move_merge_nil_r, app_nil_r. split; [exact Hs1 | apply stableFor_refl].
    + rewrite move_merge_cons.
      inversion Hv1 as [|? ? Hvfirst1 Hvrest1]; subst.
      inversion Hv2 as [|? ? Hvfirst2 Hvrest2]; subst.
      inversion Hs1 as [|? ? Hsrest1 Hfirst1]; subst.
      inversion Hs2 as [|? ? Hsrest2 Hfirst2]; subst.
      rewrite (comp_key _ _ Hvfirst2 Hvfirst1).
      destruct (Z.ltb_spec (key first2) (key first1)) as [Hlt|Hge].
      * destruct (IH2 Hvrest2 Hsrest2) as [Hasc Hstable].
        assert (Hall : Forall (fun a => key first2 < key a) (first1 :: rest1)).
        { constructor; [exact Hlt|].
          rewrite Forall_forall in Hfirst1 |- *. intros x Hx. specialize (Hfirst1 x Hx). lia. }
        split.
        -- constructor; [exact Hasc|].
           rewrite move_merge_Permutation. apply Forall_app. split; [|exact Hfirst2].
           rewrite Forall_forall in Hall |- *. intros x Hx. specialize (Hall x Hx). lia.
        -- intros k. rewrite List.filter_app.
           change (List.filter (hasKey key k) (first2 :: move_merge comp (first1 :: rest1) rest2))
             with (if hasKey key k first2
                   then first2 :: List.filter (hasKey key k)
                                    (move_merge comp (first1 :: rest1) rest2)
                   else List.filter (hasKey key k) (move_merge comp (first1 :: rest1) rest2)).
           change (List.filter (hasKey key k) (first2 :: rest2))
             with (if hasKey key k first2 then first2 :: List.filter (hasKey key k) rest2
                   else List.filter (hasKey key k) rest2).
           rewrite (Hstable k), List.filter_app.
           destruct (hasKey key k first2) eqn:Hk; [|reflexivity].
           apply Z.eqb_eq in Hk.
           rewrite (filter_hasKey_none k (first1 :: rest1)); [reflexivity|].
           rewrite Forall_forall in Hall |- *. intros x Hx. specialize (Hall x Hx). lia.
      * destruct (IH1 (first2 :: rest2) Hvrest1 Hv2 Hsrest1 Hs2) as [Hasc Hstable].
        split.
        -- constructor; [exact Hasc|].
           rewrite move_merge_Permutation. apply Forall_app. split; [exact Hfirst1|].
           constructor; [exact Hge|].
           rewrite Forall_forall in Hfirst2 |- *. intros x Hx. specialize (Hfirst2 x Hx). lia.
        -- intros k.
           change (List.filter (hasKey key k) (first1 :: move_merge comp rest1 (first2 :: rest2)))
             with (if hasKey key k first1
                   then first1 :: List.filter (hasKey key k)
                                    (move_merge comp rest1 (first2 :: rest2))
                   else List.filter (hasKey key k) (move_merge comp rest1 (first2 :: rest2))).
           rewrite (Hstable k). reflexivity.
Qed.

Lemma move_merge_backward_nil_l (r2 : list A) : move_merge_backward comp [] r2 = r2.
Proof. destruct r2; reflexivity. Qed.

Lemma move_merge_backward_nil_r (r1 : list A) : move_merge_backward comp r1 [] = r1.
Proof. destruct r1; reflexivity. Qed.

Lemma move_merge_backward_cons (last1 : A) (rest1 : list A) (last2 : A) (rest2 : list A) :
  move_merge_backward comp (last1 :: rest1) (last2 :: rest2)
  = if comp last2 last1 then last1 :: move_merge_backward comp rest1 (last2 :: rest2)
    else last2 :: move_merge_backward comp (last1 :: rest1) rest2.
Proof. reflexivity. Qed.

Lemma move_merge_backward_stable (r1 r2 : list A) :
  Forall valid r1 -> Forall valid r2 -> descending key r1 -> descending key r2 ->
  descending key (move_merge_backward comp r1 r2)
  /\ stableFor key (r2 ++ r1) (move_merge_backward comp r1 r2).
Proof.
  revert r2. induction r1 as [|last1 rest1 IH1]; intros r2 Hv1 Hv2 Hs1 Hs2.
  - rewrite move_merge_backward_nil_l, app_nil_r. split; [exact Hs2 | apply stableFor_refl].
  - induction r2 as [|last2 rest2 IH2].
    + rewrite move_merge_backward_nil_r. split; [exact Hs1 | apply stableFor_refl].
    + rewrite move_merge_backward_cons.
      inversion Hv1 as [|? ? Hvlast1 Hvrest1]; subst.
      inversion Hv2 as [|? ? Hvlast2 Hvrest2]; subst.
      inversion Hs1 as [|? ? Hsrest1 Hlast1]; subst.
      inversion Hs2 as [|? ? Hsrest2 Hlast2]; subst.
      rewrite (comp_key _ _ Hvlast2 Hvlast1).
      destruct (Z.ltb_spec (key last2) (key last1)) as [Hlt|Hge].
      * destruct (IH1 (last2 :: rest2) Hvrest1 Hv2 Hsrest1 Hs2) as [Hdesc Hstable].
        assert (Hall : Forall (fun a => key a < key last1) (last2 :: rest2)).
        { constructor; [exact Hlt|].
          rewrite Forall_forall in Hlast2 |- *. intros x Hx. specialize (Hlast2 x Hx). lia. }
        split.
        -- constructor; [exact Hdesc|].
           rewrite move_merge_backward_Permutation. apply Forall_app. split; [exact Hlast1|].
           rewrite Forall_forall in Hall |- *. intros x Hx. specialize (Hall x Hx). lia.
        -- intros k. rewrite List.filter_app.
           change (List.filter (hasKey key k)
                     (last1 :: move_merge_backward comp rest1 (last2 :: rest2)))
             with (if hasKey key k last1
                   then last1 :: List.filter (hasKey key k)
                                   (move_merge_backward comp rest1 (last2 :: rest2))
                   else List.filter (hasKey key k)
                          (move_merge_backward comp rest1 (last2 :: rest2))).
           change (List.filter (hasKey key k) (last1 :: rest1))
             with (if hasKey key k last1 then last1 :: List.filter (hasKey key k) rest1
                   else List.filter (hasKey key k) rest1).
           rewrite (Hstable k), List.filter_app.
           destruct (hasKey key k last1) eqn:Hk; [|reflexivity].
           apply Z.eqb_eq in Hk.
           rewrite (filter_hasKey_none k (last2 :: rest2)); [reflexivity|].
           rewrite Forall_forall in Hall |- *. intros x Hx. specialize (Hall x Hx). lia.
      * destruct (IH2 Hvrest2 Hsrest2) as [Hdesc Hstable].
        split.
        -- constructor; [exact Hdesc|].
           rewrite move_merge_backward_Permutation. apply Forall_app. split; [|exact Hlast2].
           constructor; [exact Hge|].
           rewrite Forall_forall in Hlast1 |- *. intros x Hx. specialize (Hlast1 x Hx). lia.
        -- intros k.
           change (List.filter (hasKey key k)
                     (last2 :: move_merge_backward comp (last1 :: rest1) rest2))
             with (if hasKey key k last2
                   then last2 :: List.filter (hasKey key k)
                                   (move_merge_backward comp (last1 :: rest1) rest2)
                   else List.filter (hasKey key k)
                          (move_merge_backward comp (last1 :: rest1) rest2)).
           rewrite (Hstable k). reflexivity.
Qed.

Lemma merge_adaptive_stable (l1 l2 : list A) :
  Forall valid l1 -> Forall valid l2 -> ascending key l1 -> ascending key l2 ->
  ascending key (merge_adaptive comp l1 l2)
  /\ stableFor key (l1 ++ l2) (merge_adaptive comp l1 l2).
Proof.
  intros Hv1 Hv2 Hs1 Hs2. unfold merge_adaptive, move_merge_adaptive,
    move_merge_adaptive_backward.
  destruct (length l1 <=? length l2)%nat; [apply move_merge_stable; assumption|].
  destruct (move_merge_backward_stable (rev l1) (rev l2)) as [Hdesc Hstable].
  - apply Forall_rev. exact Hv1.
  - apply Forall_rev. exact Hv2.
  - apply ascending_rev. exact Hs1.
  - apply ascending_rev. exact Hs2.
  - split; [apply descending_rev; exact Hdesc|].
    intros k. rewrite List.filter_rev, (Hstable k), <- rev_app_distr, <- List.filter_rev.
    rewrite rev_involutive. reflexivity.
Qed.


(** The runs the merge passes work on. *)

Lemma ascendingRuns_short (step_size : nat) (l : list A) :
  (length l <= step_size)%nat -> ascending key l -> ascendingRuns key step_size l.
Proof.
  intros Hlen Hl [|n].
  - rewrite Nat.mul_0_l, drop_0, take_ge by exact Hlen. exact Hl.
  - rewrite drop_ge by lia. rewrite take_nil. constructor.
Qed.

Lemma ascendingRuns_whole (step_size : nat) (l : list A) :
  ascendingRuns key step_size l -> (length l <= step_size)%nat -> ascending key l.
Proof.
  intros Hruns Hlen. specialize (Hruns 0%nat).
  rewrite Nat.mul_0_l, drop_0, take_ge in Hruns by exact Hlen. exact Hruns.
Qed.

Lemma ascendingRuns_app (step_size : nat) (run rest : list A) :
  length run = step_size -> ascending key run -> ascendingRuns key step_size rest ->
  ascendingRuns key step_size (run ++ rest).
Proof.
  intros Hlen Hrun Hrest [|n].
  - rewrite Nat.mul_0_l, drop_0, take_app_length' by (symmetry; exact Hlen). exact Hrun.
  - replace (S n * step_size)%nat with (step_size + n * step_size)%nat by lia.
    rewrite drop_app_add' by (symmetry; exact Hlen). apply Hrest.
Qed.

Lemma ascendingRuns_first (step_size : nat) (l : list A) :
  ascendingRuns key step_size l -> ascending key (take step_size l).
Proof. intros Hruns. specialize (Hruns 0%nat). rewrite Nat.mul_0_l, drop_0 in Hruns. exact Hruns. Qed.

Lemma ascendingRuns_drop (step_size : nat) (l : list A) :
  ascendingRuns key step_size l -> ascendingRuns key step_size (drop step_size l).
Proof.
  intros Hruns n. rewrite drop_drop.
  replace (step_size + n * step_size)%nat with (S n * step_size)%nat by lia. apply Hruns.
Qed.

Lemma chunk_insertion_sort_loop_stable (rounds chunk_size : nat) (l : list A) :
  (0 < chunk_size)%nat -> (length l <= rounds * chunk_size)%nat -> Forall valid l ->
  ascendingRuns key chunk_size (chunk_insertion_sort_loop comp rounds chunk_size l)
  /\ stableFor key l (chunk_insertion_sort_loop comp rounds chunk_size l).
Proof.
  intros Hchunk. revert l. induction rounds as [|rounds IH]; intros l Hlen Hvalid;
    cbn [chunk_insertion_sort_loop].
  - destruct l; [|simpl in Hlen; lia].
    split; [apply ascendingRuns_short; [simpl; lia | constructor] | apply stableFor_refl].
  - destruct (Nat.leb_spec chunk_size (length l)) as [Hfull|Hshort].
    + destruct (insertion_sort_stable (take chunk_size l))
        as [Hrun Hstable]; [apply Forall_take; exact Hvalid|].
      destruct (IH (drop chunk_size l)) as [Hruns Hrest].
      * rewrite length_drop. lia.
      * apply Forall_drop. exact Hvalid.
      * split.
        -- apply ascendingRuns_app; [|exact Hrun | exact Hruns].
           rewrite (Permutation_length (insertion_sort_Permutation comp _)), length_take. lia.
        -- rewrite <- (take_drop chunk_size l) at 1. apply stableFor_app; assumption.
    + destruct (insertion_sort_stable l Hvalid) as [Hrun Hstable].
      split; [|exact Hstable].
      apply ascendingRuns_short; [|exact Hrun].
      rewrite (Permutation_length (insertion_sort_Permutation comp _)). lia.
Qed.

Lemma merge_sort_loop_rounds_stable (rounds step_size : nat) (l : list A) :
  (0 < step_size)%nat -> (length l <= rounds * (2 * step_size))%nat -> Forall valid l ->
  ascendingRuns key step_size l ->
  ascendingRuns key (2 * step_size) (merge_sort_loop_rounds comp rounds step_size l)
  /\ stableFor key l (merge_sort_loop_rounds comp rounds step_size l).
Proof.
  intros Hstep. revert l. induction rounds as [|rounds IH]; intros l Hlen Hvalid Hruns;
    cbn [merge_sort_loop_rounds]; cbv zeta.
  - destruct l; [|simpl in Hlen; lia].
    split; [apply ascendingRuns_short; [simpl; lia | constructor] | apply stableFor_refl].
  - destruct (Nat.leb_spec (2 * step_size) (length l)) as [Hfull|Hshort].
    + destruct (move_merge_stable (take step_size l) (take step_size (drop step_size l)))
        as [Hrun Hstable].
      * apply Forall_take. exact Hvalid.
      * apply Forall_take, Forall_drop. exact Hvalid.
      * apply ascendingRuns_first. exact Hruns.
      * apply ascendingRuns_first, ascendingRuns_drop. exact Hruns.
      * destruct (IH (drop (2 * step_size) l)) as [Hrest Hreststable].
        -- rewrite length_drop. lia.
        -- apply Forall_drop. exact Hvalid.
        -- replace (2 * step_size)%nat with (step_size + step_size)%nat by lia.
           rewrite <- drop_drop. apply ascendingRuns_drop, ascendingRuns_drop. exact Hruns.
        -- split.
           ++ apply ascendingRuns_app; [|exact Hrun | exact Hrest].
              rewrite (Permutation_length (move_merge_Permutation comp _ _)).
              rewrite length_app, !length_take, length_drop. lia.
           ++ rewrite <- (take_drop (2 * step_size) l) at 1.
              apply stableFor_app; [|exact Hreststable].
              intros k. rewrite (Hstable k). f_equal.
              replace (2 * step_size)%nat with (step_size + step_size)%nat by lia.
              rewrite <- (take_drop step_size (take (step_size + step_size) l)).
              rewrite take_take, Nat.min_l by lia. f_equal.
              rewrite <- (take_drop step_size l) at 2.
              rewrite take_app_add' by (rewrite length_take; lia).
              rewrite drop_app_length' by (rewrite length_take; lia). reflexivity.
    + destruct (Nat.le_gt_cases (length l) step_size) as [Hone|Htwo].
      * rewrite Nat.min_l by exact Hone.
        rewrite take_ge, drop_ge, move_merge_nil_r by lia.
        split; [|apply stableFor_refl].
        apply ascendingRuns_short; [lia|]. apply (ascendingRuns_whole step_size); assumption.
      * rewrite Nat.min_r by lia.
        destruct (move_merge_stable (take step_size l) (drop step_size l))
          as [Hrun Hstable].
        -- apply Forall_take. exact Hvalid.
        -- apply Forall_drop. exact Hvalid.
        -- apply ascendingRuns_first. exact Hruns.
        -- apply (ascendingRuns_whole step_size); [apply ascendingRuns_drop; exact Hruns|].
           rewrite length_drop. lia.
        -- rewrite take_drop in Hstable. split; [|exact Hstable].
           apply ascendingRuns_short; [|exact Hrun].
           rewrite (Permutation_length (move_merge_Permutation comp _ _)), length_app,
             length_take, length_drop. lia.
Qed.

Lemma merge_sort_loop_stable (step_size : nat) (l : list A) :
  (0 < step_size)%nat -> Forall valid l -> ascendingRuns key step_size l ->
  ascendingRuns key (2 * step_size) (merge_sort_loop comp step_size l)
  /\ stableFor key l (merge_sort_loop comp step_size l).
Proof.
  intros Hstep Hvalid Hruns. apply merge_sort_loop_rounds_stable; try assumption. nia.
Qed.

Lemma merge_sort_passes_stable (rounds step_size : nat) (l : list A) :
  (0 < step_size)%nat -> (length l <= step_size + rounds)%nat -> Forall valid l ->
  ascendingRuns key step_size l ->
  ascending key (merge_sort_passes comp rounds step_size l)
  /\ stableFor key l (merge_sort_passes comp rounds step_size l).
Proof.
  revert step_size l. induction rounds as [|rounds IH];
    intros step_size l Hstep Hlen Hvalid Hruns; cbn [merge_sort_passes]; cbv zeta.
  - split; [|apply stableFor_refl]. apply (ascendingRuns_whole step_size); [exact Hruns | lia].
  - destruct (Nat.ltb_spec step_size (length l)) as [Hmore|Hdone].
    + destruct (merge_sort_loop_stable step_size l Hstep Hvalid Hruns) as [Hruns1 Hstable1].
      pose proof (merge_sort_loop_Permutation comp step_size l) as Hperm1.
      rewrite (Nat.mul_comm 2 step_size) in Hruns1.
      destruct (merge_sort_loop_stable (step_size * 2) (merge_sort_loop comp step_size l))
        as [Hruns2 Hstable2]; [lia | rewrite Hperm1; exact Hvalid | exact Hruns1 |].
      pose proof (merge_sort_loop_Permutation comp (step_size * 2)
                    (merge_sort_loop comp step_size l)) as Hperm2.
      rewrite (Nat.mul_comm 2 (step_size * 2)) in Hruns2.
      destruct (IH (step_size * 2 * 2)%nat
                  (merge_sort_loop comp (step_size * 2) (merge_sort_loop comp step_size l)))
        as [Hsorted Hstable3].
      * lia.
      * rewrite (Permutation_length Hperm2), (Permutation_length Hperm1). lia.
      * rewrite Hperm2, Hperm1. exact Hvalid.
      * exact Hruns2.
      * split; [exact Hsorted|].
        eapply stableFor_trans; [|exact Hstable3].
        eapply stableFor_trans; [exact Hstable1 | exact Hstable2].
    + split; [|apply stableFor_refl].
      apply (ascendingRuns_whole step_size); [exact Hruns | exact Hdone].
Qed.

Lemma merge_sort_with_buffer_stable (l : list A) :
  Forall valid l ->
  ascending key (merge_sort_with_buffer comp l)
  /\ stableFor key l (merge_sort_with_buffer comp l).
Proof.
  intros Hvalid. unfold merge_sort_with_buffer, chunk_insertion_sort. cbv zeta.
  destruct (chunk_insertion_sort_loop_stable (length l) S_chunk_size l)
    as [Hruns Hstable]; [unfold S_chunk_size; lia | unfold S_chunk_size; lia | exact Hvalid|].
  pose proof (chunk_insertion_sort_loop_Permutation comp (length l) S_chunk_size l) as Hperm.
  destruct (merge_sort_passes_stable
              (length (chunk_insertion_sort_loop comp (length l) S_chunk_size l))
              S_chunk_size (chunk_insertion_sort_loop comp (length l) S_chunk_size l))
    as [Hsorted Hstable2].
  - unfold S_chunk_size. lia.
  - lia.
  - rewrite Hperm. exact Hvalid.
  - exact Hruns.
  - split; [exact Hsorted|]. eapply stableFor_trans; [exact Hstable | exact Hstable2].
Qed.

(** With a comparison that is the order of a key, [std::stable_sort] puts
    the elements in ascending order of key and keeps the order of the
    elements of one key. *)
Lemma std_stable_sort_stable (l : list A) :
  Forall valid l ->
  ascending key (std_stable_sort comp l) /\ stableFor key l (std_stable_sort comp l).
Proof.
  intros Hvalid. unfold std_stable_sort.
  destruct l as [|first rest] eqn:Heq; [split; [constructor | apply stableFor_refl]|].
  rewrite <- Heq in *. unfold stable_sort_adaptive. cbv zeta.
  set (len := ((length l + 1) / 2)%nat).
  destruct (merge_sort_with_buffer_stable (take len l)) as [Hfirst Hfirststable];
    [apply Forall_take; exact Hvalid|].
  destruct (merge_sort_with_buffer_stable (drop len l)) as [Hsecond Hsecondstable];
    [apply Forall_drop; exact Hvalid|].
  destruct (merge_adaptive_stable (merge_sort_with_buffer comp (take len l))
              (merge_sort_with_buffer comp (drop len l))) as [Hsorted Hstable].
  - rewrite merge_sort_with_buffer_Permutation. apply Forall_take. exact Hvalid.
  - rewrite merge_sort_with_buffer_Permutation. apply Forall_drop. exact Hvalid.
  - exact Hfirst.
  - exact Hsecond.
  - split; [exact Hsorted|].
    eapply stableFor_trans; [|exact Hstable].
    rewrite <- (take_drop len l) at 1. apply stableFor_app; assumption.
Qed.

End StableOrder.

Lemma stableFor_const {A : Type} (l result : list A) :
  stableFor (fun _ : A => 0) l result -> result = l.
Proof.
  intros Hstable. specialize (Hstable 0).
  assert (Hall : forall x : list A, List.filter (hasKey (fun _ : A => 0) 0) x = x).
  { induction x as [|a x IH]; [reflexivity|]. simpl. rewrite IH. reflexivity. }
  rewrite !Hall in Hstable. exact Hstable.
Qed.

(** * Properties of the render lists *)

Section RenderLists.
Context `{Collaborators}.

(** Sorting by a binary32 key with [>]: without NaN among the keys the
    result is in non-increasing order. *)
Lemma std_sort_sorted_descending {A : Type} (key : A -> float) (l : list A) :
  Forall (fun a => F32.is_nan (key a) = false) l ->
  StronglySorted (fun a b => F32.leb (key b) (key a) = true)
    (std_sort (fun a b => F32.gtb (key a) (key b)) l).
Proof.
  apply (std_sort_sorted_for _ (fun a b => F32.leb (key b) (key a) = true)
           (fun a => F32.is_nan (key a) = false)).
  - intros t k Hgt. apply F32_ltb_leb. exact Hgt.
  - intros t k Ht Hk Hgt. apply F32_ltb_false_leb; assumption.
  - intros a b c Hab Hbc. exact (F32_leb_trans _ _ _ Hbc Hab).
Qed.

Lemma std_stable_sort_nil_iff {A : Type} (comp : A -> A -> bool) (l : list A) :
  std_stable_sort comp l = [] <-> l = [].
Proof.
  split.
  - intros Hnil. pose proof (std_stable_sort_Permutation comp l) as Hperm.
    rewrite Hnil in Hperm. apply Permutation_nil. exact Hperm.
  - intros ->. reflexivity.
Qed.

Lemma std_sort_nil_iff {A : Type} (comp : A -> A -> bool) (l : list A) :
  std_sort comp l = [] <-> l = [].
Proof.
  split.
  - intros Hnil. pose proof (std_sort_Permutation comp l) as Hperm.
    rewrite Hnil in Hperm. apply Permutation_nil. exact Hperm.
  - intros ->. reflexivity.
Qed.

Lemma transparent_drawn_eq (this : QSSGLayerRenderData) :
  (if negb (enableDepthTest (layer this))
   then transparentObjects this ++ opaqueObjects this
   else transparentObjects this)
  = transparentObjects this
    ++ (if enableDepthTest (layer this) then [] else opaqueObjects this).
Proof.
  destruct (enableDepthTest (layer this)); simpl; [rewrite app_nil_r|]; reflexivity.
Qed.

Lemma getSortedTransparentRenderableObjects_Permutation (this : QSSGLayerRenderData) :
  renderedTransparentObjects this = [] -> camera this <> None ->
  Permutation (fst (getSortedTransparentRenderableObjects this))
    (transparentObjects this
     ++ (if enableDepthTest (layer this) then [] else opaqueObjects this)).
Proof.
  intros Hfresh Hcamera. unfold getSortedTransparentRenderableObjects.
  rewrite (bool_decide_eq_true_2 _ Hfresh), (bool_decide_eq_false_2 _ Hcamera).
  cbn [negb orb fst snd renderedTransparentObjects set_renderedTransparentObjects].
  rewrite transparent_drawn_eq.
  match goal with |- context [bool_decide (?l = [])] =>
    destruct (bool_decide (l = [])); cbn [negb]
  end; [reflexivity | apply std_sort_Permutation].
Qed.

(** The transparent accessor.  With a camera and nothing cached, the list
    holds the transparent bucket, and the opaque bucket too when the layer
    has depth testing off, from the furthest record to the nearest. *)
Theorem sorted_transparent_accessor (this : QSSGLayerRenderData)
    (Hfresh : renderedTransparentObjects this = [])
    (Hcamera : camera this <> None) :
  let drawn :=
    transparentObjects this
    ++ (if enableDepthTest (layer this) then [] else opaqueObjects this) in
  let result := fst (getSortedTransparentRenderableObjects this) in
  Permutation result drawn
  /\ renderedTransparentObjects (snd (getSortedTransparentRenderableObjects this)) = result
  /\ (Forall (fun h => F32.is_nan (cameraDistanceSq h) = false) drawn ->
      StronglySorted
        (fun a b => F32.leb (cameraDistanceSq b) (cameraDistanceSq a) = true) result).
Proof.
  intros drawn result.
  split; [exact (getSortedTransparentRenderableObjects_Permutation this Hfresh Hcamera)|].
  subst result. unfold getSortedTransparentRenderableObjects.
  rewrite (bool_decide_eq_true_2 _ Hfresh), (bool_decide_eq_false_2 _ Hcamera).
  cbn [negb orb fst snd renderedTransparentObjects set_renderedTransparentObjects].
  rewrite transparent_drawn_eq. fold drawn.
  split; [reflexivity|].
  destruct (bool_decide (drawn = [])) eqn:Hempty; cbn [negb].
  - apply bool_decide_eq_true_1 in Hempty. rewrite Hempty. intros _. constructor.
  - apply (std_sort_sorted_descending cameraDistanceSq).
Qed.

(** The screen texture accessor: with a camera and nothing cached, the
    screen texture bucket from the furthest record to the nearest. *)
Theorem sorted_screen_texture_accessor (this : QSSGLayerRenderData)
    (Hfresh : renderedScreenTextureObjects this = [])
    (Hcamera : camera this <> None) :
  let result := fst (getSortedScreenTextureRenderableObjects this) in
  Permutation result (screenTextureObjects this)
  /\ renderedScreenTextureObjects (snd (getSortedScreenTextureRenderableObjects this))
     = result
  /\ (Forall (fun h => F32.is_nan (cameraDistanceSq h) = false)
        (screenTextureObjects this) ->
      StronglySorted
        (fun a b => F32.leb (cameraDistanceSq b) (cameraDistanceSq a) = true) result).
Proof.
  intros result. subst result. unfold getSortedScreenTextureRenderableObjects.
  rewrite (bool_decide_eq_true_2 _ Hfresh), (bool_decide_eq_false_2 _ Hcamera).
  cbn [negb orb fst snd renderedScreenTextureObjects set_renderedScreenTextureObjects].
  destruct (bool_decide (screenTextureObjects this = [])) eqn:Hempty; cbn [negb].
  - apply bool_decide_eq_true_1 in Hempty. rewrite Hempty.
    split; [reflexivity|]. split; [reflexivity|]. intros _. constructor.
  - split; [apply std_sort_Permutation|]. split; [reflexivity|].
    apply (std_sort_sorted_descending cameraDistanceSq).
Qed.

(** Every opaque or transparent record is drawn once: with a camera and
    nothing cached, the opaque accessor followed by the transparent accessor
    return, between them, each handle of the two buckets exactly once,
    whether the layer tests depth or not. *)
Theorem opaque_and_transparent_drawn_once (this : QSSGLayerRenderData)
    (Hopaque : renderedOpaqueObjects this = [])
    (Htransparent : renderedTransparentObjects this = [])
    (Hcamera : camera this <> None) :
  let sortedOpaque := getSortedOpaqueRenderableObjects this in
  let sortedTransparent := getSortedTransparentRenderableObjects (snd sortedOpaque) in
  Permutation (fst sortedOpaque ++ fst sortedTransparent)
    (opaqueObjects this ++ transparentObjects this).
Proof.
  intros sortedOpaque sortedTransparent.
  assert (Hstate : camera (snd sortedOpaque) = camera this
                   /\ renderedTransparentObjects (snd sortedOpaque) = []
                   /\ layer (snd sortedOpaque) = layer this
                   /\ opaqueObjects (snd sortedOpaque) = opaqueObjects this
                   /\ transparentObjects (snd sortedOpaque) = transparentObjects this).
  { subst sortedOpaque. unfold getSortedOpaqueRenderableObjects.
    repeat match goal with |- context [if ?b then _ else _] => destruct b end;
      repeat split; assumption. }
  destruct Hstate as (Hcam' & Hfresh' & Hlayer & Ho & Ht).
  assert (Hcamera' : camera (snd sortedOpaque) <> None) by (rewrite Hcam'; exact Hcamera).
  pose proof (getSortedTransparentRenderableObjects_Permutation (snd sortedOpaque)
                Hfresh' Hcamera') as Hperm.
  fold sortedTransparent in Hperm. rewrite Hperm, Hlayer, Ho, Ht.
  subst sortedOpaque. unfold getSortedOpaqueRenderableObjects.
  rewrite (bool_decide_eq_true_2 _ Hopaque), (bool_decide_eq_false_2 _ Hcamera).
  cbn [negb orb]. destruct (enableDepthTest (layer this)); cbn [andb].
  - destruct (bool_decide (opaqueObjects this = [])) eqn:Hempty; cbn [negb fst].
    + apply bool_decide_eq_true_1 in Hempty. rewrite Hopaque, Hempty, app_nil_r.
      reflexivity.
    + cbn [renderedOpaqueObjects set_renderedOpaqueObjects].
      rewrite std_sort_Permutation, app_nil_r. reflexivity.
  - cbn [fst]. rewrite Hopaque. simpl. apply Permutation_app_comm.
Qed.

(** The accessors cache their result: a second call returns the list of the
    first one and leaves the render data as the first call left them. *)
Theorem sorted_accessors_cached (this : QSSGLayerRenderData) :
  getSortedOpaqueRenderableObjects (snd (getSortedOpaqueRenderableObjects this))
  = getSortedOpaqueRenderableObjects this
  /\ getSortedTransparentRenderableObjects
       (snd (getSortedTransparentRenderableObjects this))
     = getSortedTransparentRenderableObjects this
  /\ getSortedScreenTextureRenderableObjects
       (snd (getSortedScreenTextureRenderableObjects this))
     = getSortedScreenTextureRenderableObjects this
  /\ getRenderableItem2Ds (snd (getRenderableItem2Ds this)) = getRenderableItem2Ds this.
Proof.
  split; [|split; [|split]].
  - unfold getSortedOpaqueRenderableObjects.
    destruct (bool_decide (renderedOpaqueObjects this = [])) eqn:Hcache;
      [|cbn [negb orb snd]; rewrite Hcache; reflexivity].
    destruct (bool_decide (camera this = None)) eqn:Hcam;
      [cbn [negb orb snd]; rewrite Hcache, Hcam; reflexivity|].
    cbn [negb orb]. destruct (enableDepthTest (layer this)) eqn:Hdepth; cbn [andb];
      [|cbn [snd]; rewrite Hcache, Hcam, Hdepth; reflexivity].
    destruct (bool_decide (opaqueObjects this = [])) eqn:Hempty; cbn [negb snd];
      [rewrite Hcache, Hcam, Hdepth, Hempty; reflexivity|].
    cbn [renderedOpaqueObjects set_renderedOpaqueObjects].
    apply bool_decide_eq_false_1 in Hempty.
    rewrite <- (std_sort_nil_iff isRenderObjectPtrLessThan) in Hempty.
    rewrite (bool_decide_eq_false_2 _ Hempty). reflexivity.
  - unfold getSortedTransparentRenderableObjects.
    destruct (bool_decide (renderedTransparentObjects this = [])) eqn:Hcache;
      [|cbn [negb orb snd]; rewrite Hcache; reflexivity].
    destruct (bool_decide (camera this = None)) eqn:Hcam;
      [cbn [negb orb snd]; rewrite Hcache, Hcam; reflexivity|].
    cbn [negb orb snd renderedTransparentObjects set_renderedTransparentObjects
         camera layer transparentObjects opaqueObjects].
    rewrite Hcam.
    set (drawn := if negb (enableDepthTest (layer this))
                  then transparentObjects this ++ opaqueObjects this
                  else transparentObjects this).
    destruct (bool_decide (drawn = [])); cbn [negb orb];
      match goal with |- context [if ?b then _ else _] => destruct b end; reflexivity.
  - unfold getSortedScreenTextureRenderableObjects.
    destruct (bool_decide (renderedScreenTextureObjects this = [])) eqn:Hcache;
      [|cbn [negb orb snd]; rewrite Hcache; reflexivity].
    destruct (bool_decide (camera this = None)) eqn:Hcam;
      [cbn [negb orb snd]; rewrite Hcache, Hcam; reflexivity|].
    cbn [negb orb snd renderedScreenTextureObjects set_renderedScreenTextureObjects
         camera screenTextureObjects].
    rewrite Hcam.
    destruct (bool_decide (screenTextureObjects this = [])); cbn [negb orb];
      match goal with |- context [if ?b then _ else _] => destruct b end; reflexivity.
  - unfold getRenderableItem2Ds.
    destruct (bool_decide (renderedItem2Ds this = [])) eqn:Hcache;
      [|cbn [negb orb snd]; rewrite Hcache; reflexivity].
    destruct (bool_decide (camera this = None)) eqn:Hcam;
      [cbn [negb orb snd]; rewrite Hcache, Hcam; reflexivity|].
    cbn [negb orb renderedItem2Ds set_renderedItem2Ds].
    destruct (bool_decide (renderableItem2Ds this = [])) eqn:Hempty; cbn [negb].
    + cbn [snd renderedItem2Ds set_renderedItem2Ds camera renderableItem2Ds].
      rewrite Hcam, Hempty. apply bool_decide_eq_true_1 in Hempty. rewrite Hempty.
      reflexivity.
    + destruct (getCameraDirectionAndPosition
                  (set_renderedItem2Ds (renderableItem2Ds this) this))
        as [cd this1] eqn:Hcd.
      assert (Hrendered : renderedItem2Ds this1 = renderableItem2Ds this).
      { unfold getCameraDirectionAndPosition in Hcd. simpl in Hcd.
        destruct (cameraData this); injection Hcd as <- <-; reflexivity. }
      cbn [snd renderedItem2Ds set_renderedItem2Ds]. rewrite Hrendered.
      apply bool_decide_eq_false_1 in Hempty.
      match goal with |- context [bool_decide (?l = [])] =>
        assert (Hsorted : l <> []) by (rewrite !std_stable_sort_nil_iff; exact Hempty)
      end.
      rewrite (bool_decide_eq_false_2 _ Hsorted). reflexivity.
Qed.

Lemma getRenderableItem2Ds_fresh (this : QSSGLayerRenderData) :
  renderedItem2Ds this = [] -> camera this <> None ->
  let cameraView := fst (getCameraDirectionAndPosition this) in
  fst (getRenderableItem2Ds this)
  = match renderableItem2Ds this with
    | [] => []
    | items =>
        std_stable_sort isItemZOrderLessThan
          (std_stable_sort
             (isItemNodeDistanceGreatThan this (cd_direction cameraView)
                (cd_position cameraView)) items)
    end
  /\ renderedItem2Ds (snd (getRenderableItem2Ds this)) = fst (getRenderableItem2Ds this).
Proof.
  intros Hfresh Hcamera cameraView. unfold getRenderableItem2Ds.
  rewrite (bool_decide_eq_true_2 _ Hfresh), (bool_decide_eq_false_2 _ Hcamera).
  cbn [negb orb]. cbn [renderedItem2Ds set_renderedItem2Ds].
  destruct (renderableItem2Ds this) as [|item items] eqn:Hitems.
  - simpl. split; reflexivity.
  - rewrite bool_decide_eq_false_2 by discriminate. cbn [negb].
    destruct (getCameraDirectionAndPosition (set_renderedItem2Ds (item :: items) this))
      as [cd this1] eqn:Hcd.
    assert (Hsame : cd = cameraView
                    /\ sceneTransforms this1 = sceneTransforms this
                    /\ renderedItem2Ds this1 = item :: items).
    { subst cameraView. unfold getCameraDirectionAndPosition in Hcd |- *. simpl in Hcd.
      destruct (cameraData this);
        injection Hcd as <- <-; repeat split; reflexivity. }
    destruct Hsame as (-> & Hscene & Hrendered).
    assert (Hcomp : isItemNodeDistanceGreatThan this1 (cd_direction cameraView)
                      (cd_position cameraView)
                    = isItemNodeDistanceGreatThan this (cd_direction cameraView)
                        (cd_position cameraView)).
    { unfold isItemNodeDistanceGreatThan, parentGlobalPos. rewrite Hscene. reflexivity. }
    cbn [fst snd renderedItem2Ds set_renderedItem2Ds]. rewrite Hcomp, Hrendered.
    split; reflexivity.
Qed.

(** The 2D items.  With a camera and nothing cached, [getRenderableItem2Ds]
    returns every item of [renderableItem2Ds] once: the items as the two
    stable sorts leave them, first by the depth of the parent, then by
    z-order; and it caches the list it returns. *)
Theorem renderable_item2Ds_permutation (this : QSSGLayerRenderData)
    (Hfresh : renderedItem2Ds this = []) (Hcamera : camera this <> None) :
  let result := fst (getRenderableItem2Ds this) in
  let cameraView := fst (getCameraDirectionAndPosition this) in
  Permutation result (renderableItem2Ds this)
  /\ result
     = match renderableItem2Ds this with
       | [] => []
       | items =>
           std_stable_sort isItemZOrderLessThan
             (std_stable_sort
                (isItemNodeDistanceGreatThan this (cd_direction cameraView)
                   (cd_position cameraView)) items)
       end
  /\ renderedItem2Ds (snd (getRenderableItem2Ds this)) = result.
Proof.
  intros result cameraView. subst result.
  destruct (getRenderableItem2Ds_fresh this Hfresh Hcamera) as [Hsorted Hcached].
  fold cameraView in Hsorted. split; [|split; [exact Hsorted | exact Hcached]].
  rewrite Hsorted. destruct (renderableItem2Ds this) as [|item items]; [reflexivity|].
  rewrite !std_stable_sort_Permutation. reflexivity.
Qed.

(** 2D items of one parent.  When every item of [renderableItem2Ds] has the
    same parent node, [getRenderableItem2Ds] (with a camera and nothing
    cached) returns the items in ascending z-order, and the items of one
    z-order in the order they have in [renderableItem2Ds]. *)
Theorem item2Ds_of_one_parent (this : QSSGLayerRenderData) (parent : NodeId)
    (Hfresh : renderedItem2Ds this = []) (Hcamera : camera this <> None)
    (Hparent : Forall (fun item => item_parent item = Some parent)
                 (renderableItem2Ds this)) :
  let result := fst (getRenderableItem2Ds this) in
  Permutation result (renderableItem2Ds this)
  /\ ascending zOrder result
  /\ stableFor zOrder (renderableItem2Ds this) result.
Proof.
  intros result. subst result.
  destruct (getRenderableItem2Ds_fresh this Hfresh Hcamera) as [Hsorted _].
  cbv zeta in Hsorted. rewrite Hsorted. clear Hsorted.
  destruct (renderableItem2Ds this) as [|item items] eqn:Hitems;
    [split; [reflexivity|]; split; [constructor | apply stableFor_refl]|].
  rewrite <- Hitems in *.
  set (byDepth := isItemNodeDistanceGreatThan this _ _).
  assert (Hfirst : std_stable_sort byDepth (renderableItem2Ds this) = renderableItem2Ds this).
  { apply stableFor_const.
    apply (std_stable_sort_stable byDepth (fun _ => 0)
             (fun item => item_parent item = Some parent)); [|exact Hparent].
    intros a b Ha Hb. unfold byDepth, isItemNodeDistanceGreatThan. rewrite Ha, Hb.
    apply F32_ltb_irrefl. }
  rewrite Hfirst. split; [apply std_stable_sort_Permutation|].
  apply (std_stable_sort_stable isItemZOrderLessThan zOrder
           (fun item => item_parent item = Some parent)); [|exact Hparent].
  intros a b Ha Hb. unfold isItemZOrderLessThan. rewrite Ha, Hb, Nat.eqb_refl. reflexivity.
Qed.

(** After [resetForFrame] nothing is drawn: until a camera is resolved again
    every accessor returns the empty list and leaves the render data alone. *)
Theorem reset_empties_render_lists (this : QSSGLayerRenderData) :
  let fresh := resetForFrame this in
  getSortedOpaqueRenderableObjects fresh = ([], fresh)
  /\ getSortedTransparentRenderableObjects fresh = ([], fresh)
  /\ getSortedScreenTextureRenderableObjects fresh = ([], fresh)
  /\ getRenderableItem2Ds fresh = ([], fresh)
  /\ layerPrepResult fresh = None
  /\ arena fresh = [].
Proof.
  intros fresh.
  assert (Hcam : camera fresh = None) by reflexivity.
  unfold getSortedOpaqueRenderableObjects, getSortedTransparentRenderableObjects,
    getSortedScreenTextureRenderableObjects, getRenderableItem2Ds.
  rewrite Hcam.
  change (renderedOpaqueObjects fresh) with (@nil QSSGRenderableObjectHandle).
  change (renderedTransparentObjects fresh) with (@nil QSSGRenderableObjectHandle).
  change (renderedScreenTextureObjects fresh) with (@nil QSSGRenderableObjectHandle).
  change (renderedItem2Ds fresh) with (@nil QSSGRenderItem2D).
  cbn [negb orb]. repeat split.
Qed.

End RenderLists.

(** The eight items of the sample frame all come back, and are cached. *)
Lemma renderable_item2Ds_permutation_witness :
  Permutation (fst (@getRenderableItem2Ds sampleCollaborators sampleNestedItemData))
    (renderableItem2Ds sampleNestedItemData)
  /\ renderedItem2Ds (snd (@getRenderableItem2Ds sampleCollaborators sampleNestedItemData))
     = fst (@getRenderableItem2Ds sampleCollaborators sampleNestedItemData).
Proof.
  destruct (@renderable_item2Ds_permutation sampleCollaborators sampleNestedItemData
              eq_refl ltac:(discriminate)) as (Hperm & _ & Hcached).
  split; [exact Hperm | exact Hcached].
Defined.

(** Nine items of one parent with the z-orders 2, 0, 1, 0, 2, 1, 0, 2, 1 come
    back in ascending z-order, those of z-order 0 as 11, 13, 16. *)
Lemma item2Ds_of_one_parent_witness :
  ascending zOrder (fst (@getRenderableItem2Ds sampleCollaborators sampleSiblingItemData))
  /\ map item_id
       (List.filter (hasKey zOrder 0)
          (fst (@getRenderableItem2Ds sampleCollaborators sampleSiblingItemData)))
     = [11; 13; 16]%nat.
Proof.
  destruct (@item2Ds_of_one_parent sampleCollaborators sampleSiblingItemData 0%nat
              eq_refl ltac:(discriminate)
              ltac:(repeat constructor)) as (_ & Hascending & Hstable).
  split; [exact Hascending|]. rewrite (Hstable 0). reflexivity.
Defined.

(** With depth testing off the transparent list holds the four opaque and
    transparent handles, the furthest first. *)
Lemma sorted_transparent_accessor_witness :
  Permutation (fst (getSortedTransparentRenderableObjects (sampleBucketsData false)))
    (transparentObjects (sampleBucketsData false)
     ++ opaqueObjects (sampleBucketsData false))
  /\ StronglySorted
       (fun a b => F32.leb (cameraDistanceSq b) (cameraDistanceSq a) = true)
       (fst (getSortedTransparentRenderableObjects (sampleBucketsData false))).
Proof.
  destruct (sorted_transparent_accessor (sampleBucketsData false) eq_refl
              ltac:(discriminate)) as (Hperm & _ & Hsorted).
  split; [exact Hperm|]. apply Hsorted. repeat constructor.
Defined.

Lemma sorted_screen_texture_accessor_witness :
  Permutation (fst (getSortedScreenTextureRenderableObjects (sampleBucketsData true)))
    (screenTextureObjects (sampleBucketsData true))
  /\ StronglySorted
       (fun a b => F32.leb (cameraDistanceSq b) (cameraDistanceSq a) = true)
       (fst (getSortedScreenTextureRenderableObjects (sampleBucketsData true))).
Proof.
  destruct (sorted_screen_texture_accessor (sampleBucketsData true) eq_refl
              ltac:(discriminate)) as (Hperm & _ & Hsorted).
  split; [exact Hperm|]. apply Hsorted. repeat constructor.
Defined.

(** With depth testing on and with it off, the two accessors return the four
    opaque and transparent handles between them. *)
Lemma opaque_and_transparent_drawn_once_witness :
  Permutation
    (fst (getSortedOpaqueRenderableObjects (sampleBucketsData true))
     ++ fst (getSortedTransparentRenderableObjects
               (snd (getSortedOpaqueRenderableObjects (sampleBucketsData true)))))
    (opaqueObjects (sampleBucketsData true) ++ transparentObjects (sampleBucketsData true))
  /\ Permutation
       (fst (getSortedOpaqueRenderableObjects (sampleBucketsData false))
        ++ fst (getSortedTransparentRenderableObjects
                  (snd (getSortedOpaqueRenderableObjects (sampleBucketsData false)))))
       (opaqueObjects (sampleBucketsData false)
        ++ transparentObjects (sampleBucketsData false)).
Proof.
  split.
  - exact (opaque_and_transparent_drawn_once (sampleBucketsData true) eq_refl eq_refl
             ltac:(discriminate)).
  - exact (opaque_and_transparent_drawn_once (sampleBucketsData false) eq_refl eq_refl
             ltac:(discriminate)).
Defined.

(** * The preparation as a whole *)

Section WholePreparation.
Context `{Collaborators}.

Lemma drawInputs_kept v : keptByPreparers (fun this => drawInputs this = v).
Proof.
  unfold keptByPreparers. split; [|split].
  - intros this o cameraData Hthis. unfold pushRenderable.
    repeat match goal with |- context [if ?b then _ else _] => destruct b end;
      exact Hthis.
  - intros this v' Hthis. exact Hthis.
  - intros this v' Hthis. exact Hthis.
Qed.

Lemma queuedNodes_kept v :
  keptByPreparers
    (fun this => (renderableModels this, renderableParticles this,
                  renderableItem2Ds this, reflectionProbes this) = v).
Proof.
  unfold keptByPreparers. split; [|split].
  - intros this o cameraData Hthis. unfold pushRenderable.
    repeat match goal with |- context [if ?b then _ else _] => destruct b end;
      exact Hthis.
  - intros this v' Hthis. exact Hthis.
  - intros this v' Hthis. exact Hthis.
Qed.

Lemma prepareReflectionProbe_drawInputs i probe this :
  drawInputs (prepareReflectionProbe i probe this) = drawInputs this.
Proof.
  unfold prepareReflectionProbe.
  repeat match goal with
  | |- context [injectProbeList ?a ?b ?c ?d ?e ?f] => destruct (injectProbeList a b c d e f)
  end.
  repeat match goal with |- context [if ?c then _ else _] => destruct c end; reflexivity.
Qed.

Lemma prepareReflectionProbesLoop_drawInputs probes :
  forall i this, drawInputs (prepareReflectionProbesLoop i probes this) = drawInputs this.
Proof.
  induction probes as [|probe rest IH]; intros i this; simpl.
  - reflexivity.
  - rewrite IH. apply prepareReflectionProbe_drawInputs.
Qed.

Lemma finishPreparation_drawInputs wasDirty wasDataDirty cameraData prepared :
  drawInputs (finishPreparation wasDirty wasDataDirty cameraData prepared)
  = drawInputs (snd prepared).
Proof.
  destruct prepared as [[dirtyModels flags] this]. unfold finishPreparation.
  pose proof (prepareParticlesForRender_kept _ (drawInputs_kept (drawInputs this))
                (renderableParticles this) cameraData this eq_refl) as Hparticles.
  destruct (prepareParticlesForRender (renderableParticles this) cameraData this)
    as [dirtyParticles this2].
  cbn [snd] in Hparticles |- *. rewrite <- Hparticles.
  unfold prepareReflectionProbesForRender.
  rewrite <- (prepareReflectionProbesLoop_drawInputs (reflectionProbes this2) 0 this2).
  reflexivity.
Qed.

Lemma finishPreparation_layerPrepResult wasDirty wasDataDirty cameraData prepared :
  layerPrepResult (finishPreparation wasDirty wasDataDirty cameraData prepared) <> None.
Proof.
  destruct prepared as [[dirtyModels flags] this]. unfold finishPreparation.
  destruct (prepareParticlesForRender (renderableParticles this) cameraData this)
    as [dirtyParticles this2].
  discriminate.
Qed.

Lemma addShadowMapEntries_drawInputs (rest : list QSSGShaderLight) :
  forall i flags this,
    drawInputs (snd (addShadowMapEntries i rest flags this)) = drawInputs this
    /\ renderableModels (snd (addShadowMapEntries i rest flags this))
       = renderableModels this.
Proof.
  induction rest as [|shaderLight rest IH]; intros i flags this; simpl.
  - split; reflexivity.
  - destruct (sl_shadows shaderLight); [|apply IH].
    match goal with
    | |- context [addShadowMapEntries (S i) rest ?f' ?s'] =>
        destruct (IH (S i) f' s') as [IH1 IH2]
    end.
    rewrite IH1, IH2. split; reflexivity.
Qed.

(** [prepareForRender] on a frame that is not prepared yet: the steps up to
    the models leave the cached lists and the queued models alone, resolve
    the camera, and the rest follows the preparation of the models. *)
Lemma prepareForRender_unfold (this : QSSGLayerRenderData) :
  layerPrepResult this = None ->
  exists this0 flags0 cameraData wasDirty wasDataDirty,
    camera this0 = camera (snd (resolveCamera false this))
    /\ renderCaches this0 = renderCaches this
    /\ renderableModels this0 = renderableModels this
    /\ prepareForRender this
       = finishPreparation wasDirty wasDataDirty cameraData
           <$> prepareModelForRender (renderableModels this0) flags0 cameraData
                 (match camera this0 with
                  | Some c =>
                      F32.div (levelOfDetailPixelThreshold c)
                        (F32.of_Z (rect_width (viewport this0)))
                  | None => F32.one
                  end) this0.
Proof.
  intros Hfresh. unfold prepareForRender. rewrite Hfresh. cbv zeta.
  set (thisA := if maxUniformBufferRange <? REDUCED_MAX_LIGHT_COUNT_THRESHOLD_BYTES
                then _ else _).
  assert (HA : camera (snd (resolveCamera false thisA))
               = camera (snd (resolveCamera false this))).
  { apply resolveCamera_camera_ext;
      subst thisA; destruct (maxUniformBufferRange <? _); reflexivity. }
  assert (HA' : renderCaches thisA = renderCaches this
                /\ renderableModels thisA = renderableModels this).
  { subst thisA. destruct (maxUniformBufferRange <? _); split; reflexivity. }
  assert (HB : renderCaches (snd (resolveCamera false thisA)) = renderCaches thisA
               /\ renderableModels (snd (resolveCamera false thisA))
                  = renderableModels thisA).
  { unfold resolveCamera. destruct (explicitCamera (layer thisA)) as [cam|].
    - destruct (setupCameraForRender _ _ cam) as [c res]. split; reflexivity.
    - destruct (findActiveCamera _ _ _ _) as [[cams found] w]. split; reflexivity. }
  destruct (resolveCamera false thisA) as [wasDataDirty thisB]. cbn [snd] in HA, HB.
  assert (HC : drawInputs (snd (selectLights thisB)) = drawInputs thisB
               /\ renderableModels (snd (selectLights thisB)) = renderableModels thisB).
  { unfold selectLights. destruct (selectLightsLoop _ _ _ _) as [[cnt scoped] rl]. simpl.
    repeat match goal with |- context [if ?b then _ else _] => destruct b end;
      split; reflexivity. }
  destruct (selectLights thisB) as [[[shadowMapCount hasScopedLights] renderableLights] thisC].
  cbn [snd] in HC.
  set (flagsA := setRequiresDepthTexture _ _).
  assert (HD : drawInputs (snd (setupShadowMaps shadowMapCount renderableLights flagsA thisC))
               = drawInputs thisC
               /\ renderableModels
                    (snd (setupShadowMaps shadowMapCount renderableLights flagsA thisC))
                  = renderableModels thisC).
  { unfold setupShadowMaps. destruct (0 <? shadowMapCount)%nat; [|split; reflexivity].
    apply addShadowMapEntries_drawInputs. }
  destruct (setupShadowMaps shadowMapCount renderableLights flagsA thisC) as [flags0 thisD].
  cbn [snd] in HD.
  set (thisE := setupGlobalLights hasScopedLights renderableLights _).
  assert (HE : drawInputs thisE = drawInputs thisD
               /\ renderableModels thisE = renderableModels thisD
               /\ viewport thisE = viewport thisD).
  { subst thisE. unfold setupGlobalLights. destruct hasScopedLights; repeat split. }
  assert (HF : drawInputs (snd (getCameraDirectionAndPosition thisE)) = drawInputs thisE
               /\ renderableModels (snd (getCameraDirectionAndPosition thisE))
                  = renderableModels thisE
               /\ viewport (snd (getCameraDirectionAndPosition thisE)) = viewport thisE).
  { unfold getCameraDirectionAndPosition. destruct (cameraData thisE); repeat split. }
  destruct (getCameraDirectionAndPosition thisE) as [cameraData this0]. cbn [snd] in HF.
  destruct HA' as [A1 A2], HB as [B1 B2], HC as [C1 C2], HD as [D1 D2],
    HE as (E1 & E2 & E3), HF as (F1 & F2 & F3).
  assert (Hdraw : drawInputs this0 = drawInputs thisB) by congruence.
  assert (Hcam0 : camera this0 = camera thisE).
  { apply (f_equal fst) in F1. exact F1. }
  exists this0, flags0, cameraData.
  eexists. exists wasDataDirty.
  split; [apply (f_equal fst) in Hdraw; cbn [fst drawInputs] in Hdraw; congruence|].
  split; [apply (f_equal snd) in Hdraw; cbn [snd drawInputs] in Hdraw; congruence|].
  split; [congruence|].
  rewrite Hcam0, F3. rewrite F2.
  destruct (prepareModelForRender _ _ _ _ _) as [[[dirtyModels flags1] this1]|];
    [|reflexivity].
  cbn [mbind option_bind fmap option_fmap option_map]. unfold finishPreparation.
  destruct (prepareParticlesForRender (renderableParticles this1) cameraData this1)
    as [dirtyParticles this2].
  reflexivity.
Qed.

Lemma prepareForRender_drawInputs (this this' : QSSGLayerRenderData) :
  layerPrepResult this = None ->
  prepareForRender this = Some this' ->
  drawInputs this' = (camera (snd (resolveCamera false this)), renderCaches this)
  /\ layerPrepResult this' <> None.
Proof.
  intros Hfresh Hrun.
  destruct (prepareForRender_unfold this Hfresh)
    as (this0 & flags0 & cameraData & wasDirty & wasDataDirty & Hcam & Hcaches & _ & Heq).
  rewrite Heq in Hrun.
  destruct (prepareModelForRender _ _ _ _ _) as [prepared|] eqn:Hmodels;
    [|discriminate Hrun].
  cbn [fmap option_fmap option_map] in Hrun. injection Hrun as <-.
  split; [|apply finishPreparation_layerPrepResult].
  rewrite finishPreparation_drawInputs.
  destruct prepared as [[dirtyModels flags1] this1]. cbn [snd].
  rewrite (prepareModelForRender_kept _ (drawInputs_kept (drawInputs this0))
             _ _ _ _ _ _ _ _ Hmodels eq_refl).
  unfold drawInputs. rewrite Hcam, Hcaches. reflexivity.
Qed.

(** [prepareForRender] prepares a frame once: on render data it has prepared
    it returns them as they are. *)
Theorem prepareForRender_idempotent (this this' : QSSGLayerRenderData)
    (Hrun : prepareForRender this = Some this') :
  prepareForRender this' = Some this'.
Proof.
  destruct (layerPrepResult this) as [flags|] eqn:Hprep.
  - unfold prepareForRender in Hrun. rewrite Hprep in Hrun. injection Hrun as <-.
    unfold prepareForRender. rewrite Hprep. reflexivity.
  - destruct (prepareForRender_drawInputs this this' Hprep Hrun) as [_ Hdone].
    unfold prepareForRender.
    destruct (layerPrepResult this') as [flags|]; [reflexivity | contradiction].
Qed.

(** A frame for which no camera is resolved draws nothing: its records are
    prepared and put into the buckets all the same, but every accessor
    returns the empty list. *)
Theorem frame_without_camera_draws_nothing (this this' : QSSGLayerRenderData)
    (Hfresh : layerPrepResult this = None)
    (Hcaches : renderCaches this = ([], [], [], []))
    (Hcamera : camera (snd (resolveCamera false this)) = None)
    (Hrun : prepareForRender this = Some this') :
  getSortedOpaqueRenderableObjects this' = ([], this')
  /\ getSortedTransparentRenderableObjects this' = ([], this')
  /\ getSortedScreenTextureRenderableObjects this' = ([], this')
  /\ getRenderableItem2Ds this' = ([], this').
Proof.
  destruct (prepareForRender_drawInputs this this' Hfresh Hrun) as [Hdraw _].
  rewrite Hcamera, Hcaches in Hdraw. unfold drawInputs, renderCaches in Hdraw.
  injection Hdraw as Hcam Ho Ht Hs Hi.
  unfold getSortedOpaqueRenderableObjects, getSortedTransparentRenderableObjects,
    getSortedScreenTextureRenderableObjects, getRenderableItem2Ds.
  rewrite Hcam, Ho, Ht, Hs, Hi. repeat split.
Qed.

(** ** The null camera

    Without a camera the level-of-detail threshold stays at 1.0, so the
    first subset with level-of-detail distances that has a material makes
    the preparation read the camera that is not there. *)

Lemma prepareSubset_null_camera model theMesh idx theSubset theMaterialObject cameraData
    lodThreshold st :
  camera (ls_this st) = None -> lods theSubset <> [] ->
  F32.gtb lodThreshold F32.zero = true ->
  prepareSubset model theMesh idx theSubset theMaterialObject cameraData lodThreshold st
  = None.
Proof.
  intros Hcam Hlods Hthreshold. unfold prepareSubset, selectLevelOfDetail.
  rewrite Hcam, (bool_decide_eq_false_2 _ Hlods), Hthreshold. reflexivity.
Qed.

Lemma prepareSubsets_null_camera model theMesh cameraData lodThreshold remaining :
  forall idx st k theSubset theMaterialObject,
    camera (ls_this st) = None ->
    materials model <> [] ->
    F32.gtb lodThreshold F32.zero = true ->
    remaining !! k = Some theSubset -> lods theSubset <> [] ->
    materialForSubset (materials model) (idx + k) = Some theMaterialObject ->
    prepareSubsets model theMesh idx remaining cameraData lodThreshold st = None.
Proof.
  induction remaining as [|s rest IH];
    intros idx st k theSubset theMaterialObject Hcam Hmats Hthreshold Hk Hlods Hmat.
  - discriminate Hk.
  - simpl. rewrite (bool_decide_eq_false_2 _ Hmats).
    destruct k as [|k].
    + injection Hk as ->. rewrite Nat.add_0_r in Hmat. rewrite Hmat.
      rewrite (prepareSubset_null_camera _ _ _ _ _ _ _ _ Hcam Hlods Hthreshold).
      reflexivity.
    + simpl in Hk. replace (idx + S k)%nat with (S idx + k)%nat in Hmat by lia.
      destruct (materialForSubset (materials model) idx) as [m|].
      * destruct (prepareSubset model theMesh idx s m cameraData lodThreshold st)
          as [st'|] eqn:Hst; [|reflexivity].
        cbn [mbind option_bind].
        apply (IH (S idx) st' k theSubset theMaterialObject); try assumption.
        rewrite (prepareSubset_kept _ (camera_kept (camera (ls_this st)))
                   _ _ _ _ _ _ _ _ _ Hst eq_refl).
        exact Hcam.
      * apply (IH (S idx) st k theSubset theMaterialObject); assumption.
Qed.

Lemma prepareModels_null_camera cameraData lodThreshold renderables :
  forall wasDirty ioFlags this renderable theMesh k theSubset theMaterialObject,
    camera this = None ->
    F32.gtb lodThreshold F32.zero = true ->
    In renderable renderables ->
    entry_mesh renderable = Some theMesh ->
    materials (entry_node renderable) <> [] ->
    subsets theMesh !! k = Some theSubset -> lods theSubset <> [] ->
    materialForSubset (materials (entry_node renderable)) k = Some theMaterialObject ->
    prepareModels renderables cameraData lodThreshold wasDirty ioFlags this = None.
Proof.
  induction renderables as [|r rest IH];
    intros wasDirty ioFlags this renderable theMesh k theSubset theMaterialObject
      Hcam Hthreshold Hin Hmesh Hmats Hk Hlods Hmat.
  - destruct Hin.
  - simpl. destruct Hin as [->|Hin].
    + unfold prepareModel. rewrite Hmesh.
      rewrite (prepareSubsets_null_camera _ _ _ _ _ 0%nat _ k theSubset theMaterialObject);
        [reflexivity|assumption..].
    + destruct (prepareModel r cameraData lodThreshold wasDirty ioFlags this)
        as [[[wasDirty' ioFlags'] this']|] eqn:Hmodel; [|reflexivity].
      cbn [mbind option_bind].
      apply (IH wasDirty' ioFlags' this' renderable theMesh k theSubset theMaterialObject);
        try assumption.
      rewrite (prepareModel_kept _ (camera_kept (camera this)) _ _ _ _ _ _ _ _ _
                 Hmodel eq_refl).
      exact Hcam.
Qed.

(** When no camera is resolved and a queued model has a mesh with a subset
    that defines level-of-detail distances and has a material, the
    preparation dereferences the null camera. *)
Theorem prepareForRender_null_camera (this : QSSGLayerRenderData)
    (renderable : QSSGRenderableNodeEntry QSSGRenderModel) (theMesh : QSSGRenderMesh)
    (k : nat) (theSubset : QSSGRenderSubset) (theMaterialObject : QSSGRenderGraphObject)
    (Hfresh : layerPrepResult this = None)
    (Hcamera : camera (snd (resolveCamera false this)) = None)
    (Hqueued : In renderable (renderableModels this))
    (Hmesh : loadMesh (entry_node renderable) = Some theMesh)
    (Hsubset : subsets theMesh !! k = Some theSubset)
    (Hlods : lods theSubset <> [])
    (Hmaterial : materialForSubset (materials (entry_node renderable)) k
                 = Some theMaterialObject) :
  prepareForRender this = None.
Proof.
  destruct (prepareForRender_unfold this Hfresh)
    as (this0 & flags0 & cameraData & wasDirty & wasDataDirty & Hcam & _ & Hmodels & Heq).
  rewrite Heq, Hmodels. rewrite Hcam, Hcamera.
  unfold prepareModelForRender.
  rewrite (prepareModels_null_camera _ _ _ _ _ _
             (mkEntry (entry_node renderable) (loadMesh (entry_node renderable)))
             theMesh k theSubset theMaterialObject); [reflexivity|..].
  - destruct (negb rhiSupportsRgba32f && negb rhiSupportsRgba16f);
      [change (camera this0 = None)|]; rewrite Hcam; exact Hcamera.
  - vm_compute. reflexivity.
  - apply in_map_iff. exists renderable. split; [reflexivity | exact Hqueued].
  - exact Hmesh.
  - cbn [entry_node]. intros Hnil. rewrite Hnil in Hmaterial.
    unfold materialForSubset in Hmaterial. simpl in Hmaterial.
    destruct k; discriminate Hmaterial.
  - exact Hsubset.
  - exact Hlods.
  - exact Hmaterial.
Qed.

End WholePreparation.

(** The preparation of the sample frame is kept by a second call. *)
Lemma prepareForRender_idempotent_witness :
  exists this',
    @prepareForRender sampleCollaborators sampleFrame = Some this'
    /\ @prepareForRender sampleCollaborators this' = Some this'.
Proof.
  destruct (@prepareForRender sampleCollaborators sampleFrame) as [this'|] eqn:Hrun.
  - exists this'. split; [reflexivity|].
    exact (@prepareForRender_idempotent sampleCollaborators sampleFrame this' Hrun).
  - vm_compute in Hrun. discriminate Hrun.
Defined.

(** A frame with a particle system and no camera: the record of the
    particles is in the transparent bucket, and nothing is drawn. *)
Lemma frame_without_camera_draws_nothing_witness :
  exists this',
    @prepareForRender sampleCollaborators sampleBlindFrame = Some this'
    /\ length (transparentObjects this') = 1%nat
    /\ @getSortedOpaqueRenderableObjects this' = ([], this')
    /\ @getSortedTransparentRenderableObjects this' = ([], this')
    /\ @getSortedScreenTextureRenderableObjects this' = ([], this')
    /\ @getRenderableItem2Ds sampleCollaborators this' = ([], this').
Proof.
  destruct (@prepareForRender sampleCollaborators sampleBlindFrame) as [this'|] eqn:Hrun.
  - exists this'. split; [reflexivity|]. split.
    + vm_compute in Hrun. injection Hrun as <-. reflexivity.
    + apply (@frame_without_camera_draws_nothing sampleCollaborators sampleBlindFrame this');
        [reflexivity | reflexivity | reflexivity | exact Hrun].
  - vm_compute in Hrun. discriminate Hrun.
Defined.

(** A frame without a camera whose model has a level-of-detail subset. *)
Lemma prepareForRender_null_camera_witness :
  @prepareForRender sampleCollaborators sampleBlindLodFrame = None.
Proof.
  apply (@prepareForRender_null_camera sampleCollaborators sampleBlindLodFrame
           (mkEntry (sampleModel 1
                       [Some (DefaultMaterialObject (sampleDefaultMaterial F32.one))])
              None)
           (mkMesh [mkSubset (mkBounds vec3_zero vec3_zero) [] false
                      [PositionSemantic; NormalSemantic] false;
                    mkSubset (mkBounds vec3_zero vec3_zero) [F32.one] false
                      [PositionSemantic; NormalSemantic] false])
           1%nat
           (mkSubset (mkBounds vec3_zero vec3_zero) [F32.one] false
              [PositionSemantic; NormalSemantic] false)
           (DefaultMaterialObject (sampleDefaultMaterial F32.one))).
  - reflexivity.
  - reflexivity.
  - left. reflexivity.
  - reflexivity.
  - reflexivity.
  - discriminate.
  - reflexivity.
Defined.

(** * Camera data and lights *)

Section CameraAndLights.
Context `{Collaborators}.

(** The camera direction and position are computed once per frame: once
    [getCameraDirectionAndPosition] has returned, it returns the same value
    whatever the camera becomes, until the frame is reset; and without a
    camera the value is the direction (0, 0, -1) at the origin. *)
Theorem camera_data_computed_once (this : QSSGLayerRenderData) :
  let first := getCameraDirectionAndPosition this in
  (forall c : option QSSGRenderCamera,
     getCameraDirectionAndPosition (set_camera c (snd first))
     = (fst first, set_camera c (snd first)))
  /\ (cameraData this = None -> camera this = None ->
      fst first = mkCameraData (mkVec3 F32.zero F32.zero (F32.neg F32.one)) vec3_zero)
  /\ cameraData (resetForFrame (snd first)) = None.
Proof.
  intros first. subst first. unfold getCameraDirectionAndPosition.
  destruct (cameraData this) as [cd|] eqn:Hcd.
  - split; [|split; [discriminate | reflexivity]].
    intros c. cbn [fst snd cameraData set_camera]. rewrite Hcd. reflexivity.
  - split; [|split; [|reflexivity]].
    + intros c. reflexivity.
    + intros _ ->. reflexivity.
Qed.

(** [setupCameraForRender] hands the camera back with the magnification it
    came with, whatever the supersampling multiplier of the layer is; the
    multiplier only reaches [calculateGlobalVariables]. *)
Theorem setupCameraForRender_restores_magnification (l : QSSGRenderLayer)
    (viewport : QRect) (inCamera : QSSGRenderCamera) :
  let factor := if ssaaEnabled l then ssaaMultiplier l else F32.one in
  let scaled :=
    withMagnification inCamera
      (F32.mul (horizontalMagnification inCamera) factor)
      (F32.mul (verticalMagnification inCamera) factor) in
  horizontalMagnification (fst (setupCameraForRender l viewport inCamera))
  = horizontalMagnification inCamera
  /\ verticalMagnification (fst (setupCameraForRender l viewport inCamera))
     = verticalMagnification inCamera
  /\ snd (setupCameraForRender l viewport inCamera)
     = snd (calculateGlobalVariables viewport scaled)
  /\ camera_active (fst (setupCameraForRender l viewport inCamera))
     = camera_active (fst (calculateGlobalVariables viewport scaled)).
Proof.
  intros factor scaled. unfold setupCameraForRender. fold factor. fold scaled.
  destruct (calculateGlobalVariables viewport scaled) as [c result].
  repeat split.
Qed.

(** The counters of the loop over the lights: the number of shadow maps
    grows by the lights flagged as shadow-casting and never passes the
    budget, and the scoped flag tells whether a light of the range is
    scoped. *)
Lemma selectLightsLoop_counts (range : list QSSGRenderLight) :
  forall (shadowMapCount : nat) (hasScopedLights : bool)
         (renderableLights : list QSSGShaderLight),
    (shadowMapCount <= QSSG_MAX_NUM_SHADOW_MAPS)%nat ->
    exists selected : list QSSGShaderLight,
      selectLightsLoop range shadowMapCount hasScopedLights renderableLights
      = ((shadowMapCount + length (List.filter sl_shadows selected))%nat,
         hasScopedLights || existsb isScoped selected,
         renderableLights ++ selected)
      /\ (shadowMapCount + length (List.filter sl_shadows selected)
          <= QSSG_MAX_NUM_SHADOW_MAPS)%nat
      /\ length selected = length range.
Proof.
  induction range as [|renderLight rest IH];
    intros shadowMapCount hasScopedLights renderableLights Hcount.
  - exists []. simpl. rewrite app_nil_r, orb_false_r, Nat.add_0_r. auto.
  - simpl.
    set (shadows := m_castShadow renderLight && negb (m_fullyBaked renderLight)
                    && (shadowMapCount <? QSSG_MAX_NUM_SHADOW_MAPS)%nat).
    set (new := mkShaderLight renderLight shadows
                  (getScalingCorrectDirection (light_globalTransform renderLight))).
    destruct (IH (shadowMapCount + (if shadows then 1 else 0))%nat
                 (hasScopedLights || bool_decide (is_Some (m_scope renderLight)))
                 (renderableLights ++ [new]))
      as (selected & Hloop & Hbound & Hlen).
    { subst shadows.
      destruct (m_castShadow renderLight && negb (m_fullyBaked renderLight)); simpl;
        [|lia].
      destruct (Nat.ltb_spec shadowMapCount QSSG_MAX_NUM_SHADOW_MAPS); lia. }
    exists (new :: selected). rewrite Hloop. cbn [List.filter existsb length sl_shadows new].
    unfold isScoped at 2. cbn [sl_light new].
    rewrite <- app_assoc, orb_assoc. cbn [app].
    destruct shadows; cbn [length]; split; try split; try f_equal; try f_equal; lia.
Qed.

Lemma selectLights_counts (this : QSSGLayerRenderData) :
  exists renderableLights : list QSSGShaderLight,
    fst (selectLights this)
    = (length (List.filter sl_shadows renderableLights),
       existsb isScoped renderableLights, renderableLights)
    /\ (length (List.filter sl_shadows renderableLights) <= QSSG_MAX_NUM_SHADOW_MAPS)%nat
    /\ (length renderableLights <= effectiveMaxLightCount this)%nat
    /\ shadowMapEntries (snd (selectLights this)) = shadowMapEntries this
    /\ feature_Ssm (snd (selectLights this)) = feature_Ssm this.
Proof.
  unfold selectLights.
  set (range := take _ (rev (lights _))).
  destruct (selectLightsLoop_counts range 0%nat false [] (Nat.le_0_l _))
    as (selected & Hloop & Hbound & Hlen).
  assert (Hrange : (length range <= effectiveMaxLightCount this)%nat).
  { subst range. rewrite length_take.
    repeat match goal with |- context [if ?b then _ else _] => destruct b end;
      cbn [lights set_tooManyLightsWarningShown]; lia. }
  assert (Hsame : range
                  = take (Nat.min (effectiveMaxLightCount this) (length (lights this)))
                      (rev (lights this))).
  { subst range.
    repeat match goal with |- context [if ?b then _ else _] => destruct b end;
      reflexivity. }
  rewrite Hloop. exists selected. cbn [fst snd app Nat.add orb].
  split; [reflexivity|]. split; [exact Hbound|]. split; [lia|].
  repeat match goal with |- context [if ?b then _ else _] => destruct b end;
    split; reflexivity.
Qed.

Lemma addShadowMapEntries_entries (rest : list QSSGShaderLight) :
  forall i flags this,
    shadowMapEntries (snd (addShadowMapEntries i rest flags this))
    = shadowMapEntries this ++ shadowMapEntriesFrom i rest
    /\ feature_Ssm (snd (addShadowMapEntries i rest flags this))
       = feature_Ssm this || existsb sl_shadows rest.
Proof.
  induction rest as [|shaderLight rest IH]; intros i flags this; simpl.
  - rewrite app_nil_r, orb_false_r. split; reflexivity.
  - destruct (sl_shadows shaderLight).
    + match goal with
      | |- context [addShadowMapEntries (S i) rest ?f' ?s'] =>
          destruct (IH (S i) f' s') as [IH1 IH2]
      end.
      rewrite IH1, IH2.
      cbn [shadowMapEntries feature_Ssm set_feature_Ssm set_shadowMapEntries].
      rewrite <- app_assoc. split; [reflexivity|]. rewrite orb_true_r. reflexivity.
    + apply IH.
Qed.

Lemma shadowMapEntriesFrom_length (ls : list QSSGShaderLight) :
  forall i, length (shadowMapEntriesFrom i ls) = length (List.filter sl_shadows ls).
Proof.
  induction ls as [|shaderLight rest IH]; intros i; simpl.
  - reflexivity.
  - destruct (sl_shadows shaderLight); simpl; rewrite IH; reflexivity.
Qed.

Lemma shadowMapEntriesFrom_lookup (ls : list QSSGShaderLight) :
  forall i entry,
    In entry (shadowMapEntriesFrom i ls) ->
    exists shaderLight,
      ls !! (sme_lightIdx entry - i)%nat = Some shaderLight
      /\ (i <= sme_lightIdx entry)%nat
      /\ sl_shadows shaderLight = true
      /\ entry = shadowMapEntryFor (sme_lightIdx entry) shaderLight.
Proof.
  induction ls as [|shaderLight rest IH]; intros i entry Hin; simpl in Hin.
  - destruct Hin.
  - assert (Hrest : In entry (shadowMapEntriesFrom (S i) rest) ->
              exists sl, (shaderLight :: rest) !! (sme_lightIdx entry - i)%nat = Some sl
                         /\ (i <= sme_lightIdx entry)%nat
                         /\ sl_shadows sl = true
                         /\ entry = shadowMapEntryFor (sme_lightIdx entry) sl).
    { intros Hin'. destruct (IH (S i) entry Hin') as (sl & Hl & Hle & Hs & He).
      exists sl. split; [|split; [lia|split; assumption]].
      replace (sme_lightIdx entry - i)%nat with (S (sme_lightIdx entry - S i)) by lia.
      exact Hl. }
    destruct (sl_shadows shaderLight) eqn:Hshadows; [|apply Hrest; exact Hin].
    destruct Hin as [<-|Hin]; [|apply Hrest; exact Hin].
    exists shaderLight. cbn [sme_lightIdx shadowMapEntryFor].
    rewrite Nat.sub_diag. repeat split; [lia | exact Hshadows].
Qed.

Lemma shadowMapEntriesFrom_nil (ls : list QSSGShaderLight) :
  forall i, bool_decide (shadowMapEntriesFrom i ls = []) = negb (existsb sl_shadows ls).
Proof.
  induction ls as [|shaderLight rest IH]; intros i; simpl.
  - reflexivity.
  - destruct (sl_shadows shaderLight); simpl; [reflexivity | apply IH].
Qed.

(** The shadow maps of a frame.  The lights selected and the shadow map
    setup add one entry for each selected light flagged as shadow-casting
    and no other: the entry carries the index the light has among the
    selected lights, the size 2 to the power of the light's resolution
    setting and the mode VSM for a directional light and CUBE for any other.
    There are never more entries than [QSSG_MAX_NUM_SHADOW_MAPS], and the
    shadow feature is switched on exactly when there is one. *)
Theorem shadow_map_entries (this : QSSGLayerRenderData)
    (flags : QSSGLayerRenderPreparationResultFlags) :
  let selection := selectLights this in
  let renderableLights := snd (fst selection) in
  let this' :=
    snd (setupShadowMaps (fst (fst (fst selection))) renderableLights flags
           (snd selection)) in
  shadowMapEntries this' = shadowMapEntries this ++ shadowMapEntriesFrom 0 renderableLights
  /\ (length (shadowMapEntriesFrom 0 renderableLights) <= QSSG_MAX_NUM_SHADOW_MAPS)%nat
  /\ (forall entry, In entry (shadowMapEntriesFrom 0 renderableLights) ->
        exists shaderLight,
          renderableLights !! sme_lightIdx entry = Some shaderLight
          /\ sl_shadows shaderLight = true
          /\ entry = shadowMapEntryFor (sme_lightIdx entry) shaderLight)
  /\ feature_Ssm this'
     = feature_Ssm this || negb (bool_decide (shadowMapEntriesFrom 0 renderableLights = [])).
Proof.
  intros selection renderableLights this'.
  destruct (selectLights_counts this) as (rl & Hsel & Hbound & _ & Hentries & Hssm).
  fold selection in Hsel, Hentries, Hssm.
  assert (Hrl : renderableLights = rl) by (subst renderableLights; rewrite Hsel; reflexivity).
  assert (Hcount : fst (fst (fst selection)) = length (List.filter sl_shadows rl))
    by (rewrite Hsel; reflexivity).
  subst this'. rewrite Hcount, Hrl. clear Hrl renderableLights.
  pose proof (shadowMapEntriesFrom_nil rl 0%nat) as Hnil.
  split; [|split; [|split]].
  - unfold setupShadowMaps.
    destruct (Nat.ltb_spec 0 (length (List.filter sl_shadows rl))) as [Hpos|Hzero].
    + rewrite (proj1 (addShadowMapEntries_entries rl 0%nat flags (snd selection))),
        Hentries.
      reflexivity.
    + cbn [snd]. rewrite Hentries.
      assert (Hnone : shadowMapEntriesFrom 0 rl = []).
      { apply length_zero_iff_nil. rewrite shadowMapEntriesFrom_length. lia. }
      rewrite Hnone, app_nil_r. reflexivity.
  - rewrite shadowMapEntriesFrom_length. exact Hbound.
  - intros entry Hin.
    destruct (shadowMapEntriesFrom_lookup rl 0%nat entry Hin) as (sl & Hl & _ & Hs & He).
    rewrite Nat.sub_0_r in Hl. exists sl. auto.
  - rewrite Hnil, negb_involutive. unfold setupShadowMaps.
    destruct (Nat.ltb_spec 0 (length (List.filter sl_shadows rl))) as [Hpos|Hzero].
    + rewrite (proj2 (addShadowMapEntries_entries rl 0%nat flags (snd selection))), Hssm.
      reflexivity.
    + cbn [snd]. rewrite Hssm.
      assert (Hnone : existsb sl_shadows rl = false).
      { rewrite <- (negb_involutive (existsb sl_shadows rl)), <- Hnil.
        assert (Hn : shadowMapEntriesFrom 0 rl = []).
        { apply length_zero_iff_nil. rewrite shadowMapEntriesFrom_length. lia. }
        rewrite (bool_decide_eq_true_2 _ Hn). reflexivity. }
      rewrite Hnone, orb_false_r. reflexivity.
Qed.

Lemma setupGlobalLights_unscoped (rl : list QSSGShaderLight) (this : QSSGLayerRenderData) :
  globalLights (setupGlobalLights (existsb isScoped rl) rl (set_globalLights [] this))
  = List.filter (fun shaderLight => negb (isScoped shaderLight)) rl.
Proof.
  unfold setupGlobalLights.
  destruct (existsb isScoped rl) eqn:Hany; cbn [globalLights set_globalLights].
  - reflexivity.
  - symmetry. clear - Hany. induction rl as [|sl rest IH]; simpl in *.
    + reflexivity.
    + apply orb_false_elim in Hany as [Hsl Hrest]. rewrite Hsl. simpl.
      rewrite IH by exact Hrest. reflexivity.
Qed.

(** The global light list holds the selected lights that are not scoped, in
    the order of the selection, whether a selected light is scoped or not. *)
Theorem global_lights_are_unscoped (this : QSSGLayerRenderData) :
  let selection := selectLights this in
  let renderableLights := snd (fst selection) in
  let hasScopedLights := snd (fst (fst selection)) in
  globalLights
    (setupGlobalLights hasScopedLights renderableLights
       (set_globalLights [] (snd selection)))
  = List.filter (fun shaderLight => negb (isScoped shaderLight)) renderableLights
  /\ hasScopedLights = existsb isScoped renderableLights.
Proof.
  intros selection renderableLights hasScopedLights.
  destruct (selectLights_counts this) as (rl & Hsel & _).
  fold selection in Hsel.
  assert (Hrl : renderableLights = rl) by (subst renderableLights; rewrite Hsel; reflexivity).
  assert (Hscoped : hasScopedLights = existsb isScoped rl)
    by (subst hasScopedLights; rewrite Hsel; reflexivity).
  rewrite Hrl. split; [|exact Hscoped].
  rewrite Hscoped. apply setupGlobalLights_unscoped.
Qed.

(** [scopeLight] tells whether the scope is the node or a node above it. *)
Lemma scopeLight_ancestry (node : QSSGRenderNodeRef) (lightScope : NodeId) :
  scopeLight (Some node) lightScope = bool_decide (lightScope ∈ ancestry node).
Proof.
  cbn [scopeLight]. induction node as [id|id parent IH]; simpl.
  - destruct (Nat.eqb_spec id lightScope) as [->|Hne]; symmetry.
    + apply bool_decide_eq_true_2. apply list_elem_of_singleton. reflexivity.
    + apply bool_decide_eq_false_2. rewrite list_elem_of_singleton. congruence.
  - destruct (Nat.eqb_spec id lightScope) as [->|Hne].
    + symmetry. apply bool_decide_eq_true_2. left.
    + rewrite IH. apply bool_decide_ext. rewrite elem_of_cons. split; [tauto|].
      intros [Heq|Hin]; [congruence | exact Hin].
Qed.

Lemma filterLightsForNode_filter (rl : list QSSGShaderLight) (node : QSSGRenderNodeRef) :
  filterLightsForNode rl node = List.filter (lightReaches node) rl.
Proof.
  unfold filterLightsForNode.
  assert (Hgen : forall acc,
            fold_left
              (fun filteredLights light =>
                 match m_scope (sl_light light) with
                 | Some scope =>
                     if negb (scopeLight (Some node) scope) then filteredLights
                     else filteredLights ++ [light]
                 | None => filteredLights ++ [light]
                 end) rl acc
            = acc ++ List.filter (lightReaches node) rl).
  { induction rl as [|light rest IH]; intros acc; cbn [fold_left List.filter].
    - rewrite app_nil_r. reflexivity.
    - rewrite IH. unfold lightReaches at 2.
      destruct (m_scope (sl_light light)) as [scope|].
      + rewrite <- (scopeLight_ancestry node scope).
        destruct (scopeLight (Some node) scope); cbn [negb];
          [rewrite <- app_assoc|]; reflexivity.
      + rewrite <- app_assoc. reflexivity. }
  apply (Hgen []).
Qed.

(** The lights of a renderable node.  With at most sixteen lights in the
    budget, every node is given exactly the selected lights that reach it:
    those that are not scoped and those scoped to the node or to a node
    above it, in the order of the selection; the copy into the node's own
    array never runs past its sixteen slots. *)
Theorem node_lights_reach_node (this : QSSGLayerRenderData) (node : QSSGRenderNodeRef)
    (Hbudget : (effectiveMaxLightCount this <= NodeLightsSlots)%nat) :
  let selection := selectLights this in
  let renderableLights := snd (fst selection) in
  let hasScopedLights := snd (fst (fst selection)) in
  let this' :=
    setupGlobalLights hasScopedLights renderableLights
      (set_globalLights [] (snd selection)) in
  prepareLightsForNode hasScopedLights renderableLights (globalLights this') node
  = Some (List.filter (lightReaches node) renderableLights).
Proof.
  intros selection renderableLights hasScopedLights this'.
  destruct (selectLights_counts this) as (rl & Hsel & _ & Hlen & _).
  fold selection in Hsel.
  assert (Hrl : renderableLights = rl) by (subst renderableLights; rewrite Hsel; reflexivity).
  assert (Hscoped : hasScopedLights = existsb isScoped rl)
    by (subst hasScopedLights; rewrite Hsel; reflexivity).
  subst this'. rewrite Hrl, Hscoped, setupGlobalLights_unscoped.
  unfold prepareLightsForNode. rewrite filterLightsForNode_filter.
  destruct (existsb isScoped rl) eqn:Hany.
  - destruct (bool_decide (List.filter (lightReaches node) rl = [])) eqn:Hnone.
    + apply bool_decide_eq_true_1 in Hnone. rewrite Hnone. f_equal.
      clear - Hnone. induction rl as [|sl rest IH]; simpl in *; [reflexivity|].
      unfold lightReaches, isScoped in *.
      destruct (m_scope (sl_light sl)) as [scope|]; simpl in *.
      * destruct (bool_decide (scope ∈ _)); [discriminate Hnone | apply IH, Hnone].
      * discriminate Hnone.
    + assert (Hfit : (length (List.filter (lightReaches node) rl) <= NodeLightsSlots)%nat).
      { pose proof (List.filter_length_le (lightReaches node) rl). lia. }
      apply Nat.leb_le in Hfit. rewrite Hfit. reflexivity.
  - f_equal. clear - Hany. induction rl as [|sl rest IH]; simpl in *; [reflexivity|].
    apply orb_false_elim in Hany as [Hsl Hrest].
    rewrite Hsl. cbn [negb]. unfold lightReaches at 1. unfold isScoped in Hsl.
    destruct (m_scope (sl_light sl)) as [scope|]; simpl in Hsl; [discriminate Hsl|].
    rewrite IH by exact Hrest. reflexivity.
Qed.


End CameraAndLights.

(** * Particles, levels of detail and materials *)

Section Records.
Context `{Collaborators}.

Lemma prepareParticles_spec renderable cameraData dirty this :
  let particles := entry_node renderable in
  let result := prepareParticles renderable cameraData dirty this in
  fst result = dirty || imageDirty (m_sprite particles) || imageDirty (m_colorTable particles)
  /\ screenTextureObjects (snd result) = screenTextureObjects this
  /\ if particlesDrawable particles
     then exists o, arena (snd result) = arena this ++ [o] /\ isParticlesRecord particles o
     else snd result = this.
Proof.
  intros particles result. subst result. unfold prepareParticles. fold particles.
  assert (Hdirty : (match m_colorTable particles with
                    | Some table =>
                        if image_dirty table then true
                        else match m_sprite particles with
                             | Some sprite => if image_dirty sprite then true else dirty
                             | None => dirty
                             end
                    | None => match m_sprite particles with
                              | Some sprite => if image_dirty sprite then true else dirty
                              | None => dirty
                              end
                    end)
                   = dirty || imageDirty (m_sprite particles)
                     || imageDirty (m_colorTable particles)).
  { destruct (m_colorTable particles) as [table|], (m_sprite particles) as [sprite|];
      simpl; repeat match goal with |- context [image_dirty ?i] => destruct (image_dirty i) end;
      destruct dirty; reflexivity. }
  unfold particlesDrawable.
  set (drawn := F32.gtb (particles_globalOpacity particles) F32.zero
                && negb (particleCount particles =? 0)).
  set (fl := setFlag (setFlag _ HasTransparency _) CastsReflections _).
  assert (Hfl : testFlag fl HasTransparency = m_hasTransparency particles
                /\ testFlag fl CastsReflections = m_castsReflections particles
                /\ testFlag fl RequiresScreenTexture = false
                /\ testFlag fl CastsShadows = false
                /\ testFlag fl ReceivesShadows = false
                /\ testFlag fl ReceivesReflections = false).
  { subst fl. destruct (m_hasTransparency particles), (m_castsReflections particles);
      repeat split. }
  destruct Hfl as (Ht & Hr & Hs & Hcs & Hrs & Hrr).
  unfold RENDER_FRAME_NEW, pushRenderable, newParticlesRenderable. cbn [ro_flags].
  rewrite Hs.
  destruct (m_sprite particles) as [sprite|] eqn:Hsprite; destruct drawn;
    cbn [fst snd]; (split; [exact Hdirty|]);
    try (split; reflexivity);
    (destruct (testFlag fl HasTransparency) eqn:Hflag;
     (split; [reflexivity|]);
     eexists; (split; [reflexivity|]);
     unfold isParticlesRecord; cbn [ro_type ro_node ro_opacity ro_flags];
     repeat split; first [assumption | reflexivity | congruence]).
Qed.

Lemma prepareParticlesLoop_spec cameraData renderables :
  forall dirty this,
    let systems := map entry_node renderables in
    let result := prepareParticlesLoop renderables cameraData dirty this in
    fst result
    = dirty || existsb (fun p => imageDirty (m_sprite p) || imageDirty (m_colorTable p))
                 systems
    /\ screenTextureObjects (snd result) = screenTextureObjects this
    /\ exists records,
         arena (snd result) = arena this ++ records
         /\ Forall2 isParticlesRecord (List.filter particlesDrawable systems) records.
Proof.
  induction renderables as [|renderable rest IH]; intros dirty this; cbn zeta.
  - cbn [prepareParticlesLoop fst snd map existsb List.filter].
    rewrite orb_false_r. split; [reflexivity|]. split; [reflexivity|].
    exists []. rewrite app_nil_r. split; [reflexivity | constructor].
  - cbn [prepareParticlesLoop map existsb List.filter].
    pose proof (prepareParticles_spec renderable cameraData dirty this) as Hone.
    cbv zeta in Hone.
    destruct (prepareParticles renderable cameraData dirty this) as [dirty1 this1].
    cbn [fst snd] in Hone. destruct Hone as (Hd & Hs & Ha).
    specialize (IH dirty1 this1). cbv zeta in IH.
    destruct IH as (IHd & IHs & records & IHa & IHr).
    split; [rewrite IHd, Hd, !orb_assoc; reflexivity|].
    split; [rewrite IHs; exact Hs|].
    destruct (particlesDrawable (entry_node renderable)).
    + destruct Ha as (o & Ha & Ho). exists (o :: records).
      rewrite IHa, Ha, <- app_assoc. split; [reflexivity|]. constructor; assumption.
    + subst this1. exists records. split; assumption.
Qed.

(** The records of the particle systems.  Without support for RGBA32F and
    RGBA16F textures nothing is prepared and the warning is marked as shown.
    Otherwise each queued system with an opacity above zero and at least one
    particle gets one record, in the order of the queue, and no other system
    gets one; a record of particles is transparent if the system says so,
    never asks for the screen texture, and neither casts nor receives
    shadows nor receives reflections; the result tells whether a sprite or
    a colour table was dirty. *)
Theorem particle_records
    (renderableParticles : list (QSSGRenderableNodeEntry QSSGRenderParticles))
    (cameraData : QSSGCameraData) (this : QSSGLayerRenderData) :
  let systems := map entry_node renderableParticles in
  let result := prepareParticlesForRender renderableParticles cameraData this in
  if negb rhiSupportsRgba32f && negb rhiSupportsRgba16f
  then result = (false, set_particlesNotSupportedWarningShown true this)
  else
    fst result
    = existsb (fun p => imageDirty (m_sprite p) || imageDirty (m_colorTable p)) systems
    /\ screenTextureObjects (snd result) = screenTextureObjects this
    /\ exists records,
         arena (snd result) = arena this ++ records
         /\ Forall2 isParticlesRecord (List.filter particlesDrawable systems) records.
Proof.
  intros systems result. subst result. unfold prepareParticlesForRender.
  destruct (negb rhiSupportsRgba32f && negb rhiSupportsRgba16f); [reflexivity|].
  exact (prepareParticlesLoop_spec cameraData renderableParticles false this).
Qed.

(** ** The records of a model *)

Lemma prepareSubset_record model theMesh idx theSubset theMaterialObject cameraData
    lodThreshold st st' :
  prepareSubset model theMesh idx theSubset theMaterialObject cameraData lodThreshold st
  = Some st' ->
  exists records,
    arena (ls_this st') = arena (ls_this st) ++ records
    /\ map (fun o => (ro_subsetIndex o, ro_type o)) records
       = match recordTypeOf theMaterialObject with
         | Some ty => [(idx, ty)]
         | None => []
         end
    /\ Forall (fun o => ro_node o = model_id model) records.
Proof.
  unfold prepareSubset. intros Hrun.
  destruct (selectLevelOfDetail _ _ _ _) as [lod|]; [|discriminate Hrun].
  cbn [mbind option_bind] in Hrun.
  destruct theMaterialObject as [theMaterial|theMaterial|].
  - destruct (prepareDefaultMaterialForRender _ _ _ _) as [res io].
    injection Hrun as <-. cbn [ls_this recordTypeOf]. eexists [_].
    unfold pushRenderable, RENDER_FRAME_NEW.
    repeat match goal with |- context [if ?b then _ else _] => destruct b end;
      (split; [reflexivity|]); (split; [reflexivity|]); repeat constructor.
  - destruct (prepareCustomMaterialForRender _ _ _ _) as [res io].
    injection Hrun as <-. cbn [ls_this recordTypeOf]. eexists [_].
    unfold pushRenderable, RENDER_FRAME_NEW.
    repeat match goal with |- context [if ?b then _ else _] => destruct b end;
      (split; [reflexivity|]); (split; [reflexivity|]); repeat constructor.
  - injection Hrun as <-. exists []. cbn [ls_this recordTypeOf].
    rewrite app_nil_r. repeat split. constructor.
Qed.

Lemma prepareSubsets_records model theMesh cameraData lodThreshold remaining :
  forall idx st st',
    prepareSubsets model theMesh idx remaining cameraData lodThreshold st = Some st' ->
    exists records,
      arena (ls_this st') = arena (ls_this st) ++ records
      /\ map (fun o => (ro_subsetIndex o, ro_type o)) records
         = omap (subsetRecord model) (seq idx (length remaining))
      /\ Forall (fun o => ro_node o = model_id model) records.
Proof.
  induction remaining as [|theSubset rest IH]; intros idx st st' Hrun; simpl in Hrun.
  - injection Hrun as <-. exists []. rewrite app_nil_r. repeat split. constructor.
  - destruct (bool_decide (materials model = [])) eqn:Hmats.
    + injection Hrun as <-. apply bool_decide_eq_true_1 in Hmats.
      exists []. rewrite app_nil_r. split; [reflexivity|]. split; [|constructor].
      assert (Hnone : forall i, subsetRecord model i = None).
      { intros i. unfold subsetRecord, materialForSubset. rewrite Hmats. simpl.
        destruct i; reflexivity. }
      symmetry. clear - Hnone. generalize idx.
      induction (length (theSubset :: rest)) as [|n IHn]; intros i; simpl; [reflexivity|].
      rewrite Hnone. apply IHn.
    + cbn [length seq].
      assert (Homap : omap (subsetRecord model) (idx :: seq (S idx) (length rest))
                      = match subsetRecord model idx with
                        | Some y => y :: omap (subsetRecord model) (seq (S idx) (length rest))
                        | None => omap (subsetRecord model) (seq (S idx) (length rest))
                        end) by reflexivity.
      rewrite Homap. clear Homap. unfold subsetRecord at 1.
      destruct (materialForSubset (materials model) idx) as [theMaterialObject|].
      * destruct (prepareSubset model theMesh idx theSubset theMaterialObject cameraData
                    lodThreshold st) as [st1|] eqn:Hone; [|discriminate Hrun].
        cbn [mbind option_bind] in Hrun |- *.
        destruct (prepareSubset_record _ _ _ _ _ _ _ _ _ Hone) as (r1 & Ha1 & Hm1 & Hn1).
        destruct (IH (S idx) st1 st' Hrun) as (r2 & Ha2 & Hm2 & Hn2).
        exists (r1 ++ r2). rewrite Ha2, Ha1, <- app_assoc. split; [reflexivity|].
        split; [|apply Forall_app; split; assumption].
        rewrite map_app, Hm1, Hm2.
        destruct (recordTypeOf theMaterialObject); reflexivity.
      * cbn [mbind option_bind]. apply IH. exact Hrun.
Qed.

(** The records of a model.  A model without a mesh leaves the render data
    alone.  With a mesh, a preparation that returns has added one record for
    each subset whose material is a default or a custom material, in the
    order of the subsets and with the subset's index, and none for any other
    subset; a subset beyond the end of the material list takes the last
    material of the list. *)
Theorem model_subset_records (renderable : QSSGRenderableNodeEntry QSSGRenderModel)
    (cameraData : QSSGCameraData) (lodThreshold : float) (wasDirty : bool)
    (ioFlags : QSSGLayerRenderPreparationResultFlags) (this : QSSGLayerRenderData)
    (prepared : bool * QSSGLayerRenderPreparationResultFlags * QSSGLayerRenderData)
    (Hrun : prepareModel renderable cameraData lodThreshold wasDirty ioFlags this
            = Some prepared) :
  let model := entry_node renderable in
  match entry_mesh renderable with
  | None => prepared = (wasDirty, ioFlags, this)
  | Some theMesh =>
      exists records,
        arena (snd prepared) = arena this ++ records
        /\ map (fun o => (ro_subsetIndex o, ro_type o)) records
           = omap (subsetRecord model) (seq 0 (length (subsets theMesh)))
        /\ Forall (fun o => ro_node o = model_id model) records
  end
  /\ forall idx : nat,
       (length (materials model) <= idx)%nat ->
       materialForSubset (materials model) idx = mjoin (last (materials model)).
Proof.
  intros model. split.
  - unfold prepareModel in Hrun. fold model in Hrun.
    destruct (entry_mesh renderable) as [theMesh|]; [|injection Hrun as <-; reflexivity].
    destruct (prepareSubsets model theMesh 0 (subsets theMesh) cameraData lodThreshold
                (mkModelLoopState wasDirty ioFlags [] this)) as [st|] eqn:Hsubsets;
      [|discriminate Hrun].
    cbn [mbind option_bind] in Hrun. injection Hrun as <-.
    destruct (prepareSubsets_records _ _ _ _ _ _ _ _ Hsubsets) as (records & Ha & Hm & Hn).
    exists records. cbn [snd ls_this] in *.
    split; [|split; assumption].
    destruct (bool_decide (ls_bakedLightingObjects st = [])); exact Ha.
  - intros idx Hidx. unfold materialForSubset.
    destruct (Nat.ltb_spec (length (materials model)) (idx + 1)); [reflexivity | lia].
Qed.

(** ** The image chain *)

Lemma CHECK_IMAGE_AND_PREPARE_chain (m : QSSGRenderDefaultMaterial)
    (t : QSSGRenderableImageType) (st : list QSSGRenderableImage * QSSGRenderableObjectFlags)
    (visited : list QSSGRenderableImageType) :
  sublist (map m_mapType (fst st)) visited /\ Forall (imageLinkOf m) (fst st) ->
  sublist (map m_mapType (fst (CHECK_IMAGE_AND_PREPARE (materialMap m t) t st)))
    (visited ++ [t])
  /\ Forall (imageLinkOf m) (fst (CHECK_IMAGE_AND_PREPARE (materialMap m t) t st)).
Proof.
  intros [Hsub Hall]. destruct st as [images fl]. unfold CHECK_IMAGE_AND_PREPARE.
  destruct (materialMap m t) as [image|] eqn:Hmap;
    [|split; [apply sublist_inserts_r; exact Hsub | exact Hall]].
  unfold prepareImageForRender.
  destruct (m_texture (loadRenderImage image)) as [format|] eqn:Htex; cbn [fst] in *;
    [|split; [apply sublist_inserts_r; exact Hsub | exact Hall]].
  split.
  - rewrite map_app. apply sublist_app; [exact Hsub | reflexivity].
  - apply Forall_app. split; [exact Hall|]. constructor; [|constructor].
    unfold imageLinkOf. cbn [m_mapType m_imageNode m_imageTexture].
    split; [exact Hmap|]. split; [reflexivity|]. rewrite Htex. discriminate.
Qed.

(** The maps are visited in the order of [materialMapOrder]. *)
Lemma prepareMaterialImages_fold (m : QSSGRenderDefaultMaterial)
    (st : list QSSGRenderableImage * QSSGRenderableObjectFlags) :
  prepareMaterialImages m st
  = fold_left (fun st t => CHECK_IMAGE_AND_PREPARE (materialMap m t) t st)
      (materialMapOrder (mat_type m)) st.
Proof. unfold prepareMaterialImages, materialMapOrder. destruct (mat_type m); reflexivity. Qed.

Lemma prepareMaterialImages_chain (m : QSSGRenderDefaultMaterial)
    (fl : QSSGRenderableObjectFlags) :
  sublist (map m_mapType (fst (prepareMaterialImages m ([], fl))))
    (materialMapOrder (mat_type m))
  /\ Forall (imageLinkOf m) (fst (prepareMaterialImages m ([], fl))).
Proof.
  rewrite prepareMaterialImages_fold.
  assert (Hgen : forall ts st visited,
            sublist (map m_mapType (fst st)) visited /\ Forall (imageLinkOf m) (fst st) ->
            sublist
              (map m_mapType
                 (fst (fold_left
                         (fun st t => CHECK_IMAGE_AND_PREPARE (materialMap m t) t st) ts st)))
              (visited ++ ts)
            /\ Forall (imageLinkOf m)
                 (fst (fold_left
                         (fun st t => CHECK_IMAGE_AND_PREPARE (materialMap m t) t st)
                         ts st))).
  { induction ts as [|t ts IH]; intros st visited Hst; cbn [fold_left].
    - rewrite app_nil_r. exact Hst.
    - replace (visited ++ t :: ts) with ((visited ++ [t]) ++ ts)
        by (rewrite <- app_assoc; reflexivity).
      apply IH, CHECK_IMAGE_AND_PREPARE_chain, Hst. }
  apply (Hgen (materialMapOrder (mat_type m)) ([], fl) []).
  split; constructor.
Qed.

(** The image chain of a default material.  The links follow the fixed
    order in which the maps of the material are visited, each map type at
    most once; every link holds a map of the material together with the
    texture loaded for it, and that texture is available: a map whose
    texture is not available leaves no link.  A material whose effective
    opacity is below the minimum render opacity gets no chain at all. *)
Theorem material_image_chain (m : QSSGRenderDefaultMaterial)
    (fl : QSSGRenderableObjectFlags) (inOpacity : float)
    (io : QSSGLayerRenderPreparationResultFlags) :
  let chain := firstImage (fst (prepareDefaultMaterialForRender m fl inOpacity io)) in
  sublist (map m_mapType chain) (materialMapOrder (mat_type m))
  /\ NoDup (map m_mapType chain)
  /\ Forall (imageLinkOf m) chain
  /\ (F32.geb (F32.mul inOpacity (mat_opacity m)) QSSG_RENDER_MINIMUM_RENDER_OPACITY
      = false -> chain = []).
Proof.
  intros chain.
  assert (Hchain : chain
                   = if F32.geb (F32.mul inOpacity (mat_opacity m))
                          QSSG_RENDER_MINIMUM_RENDER_OPACITY
                     then fst (prepareMaterialImages m
                                 ([], if negb (isSourceOver (blendMode m))
                                         || bool_decide (is_Some (opacityMap m))
                                         || isAlphaBlend (alphaMode m)
                                      then orFlag (if mat_isDirty m then orFlag fl Dirty
                                                   else fl) HasTransparency
                                      else if mat_isDirty m then orFlag fl Dirty else fl))
                     else []).
  { subst chain. unfold prepareDefaultMaterialForRender.
    destruct (F32.geb (F32.mul inOpacity (mat_opacity m))
                QSSG_RENDER_MINIMUM_RENDER_OPACITY).
    - destruct (prepareMaterialImages m _) as [images fl'].
      destruct (clampSubsetOpacity _ _) as [o fl''].
      destruct (isTransmissionEnabled m); reflexivity.
    - destruct (clampSubsetOpacity _ _) as [o fl''].
      destruct (isTransmissionEnabled m); reflexivity. }
  assert (Hsub : sublist (map m_mapType chain) (materialMapOrder (mat_type m))
                 /\ Forall (imageLinkOf m) chain).
  { rewrite Hchain.
    destruct (F32.geb (F32.mul inOpacity (mat_opacity m))
                QSSG_RENDER_MINIMUM_RENDER_OPACITY).
    - apply prepareMaterialImages_chain.
    - split; [apply sublist_nil_l | constructor]. }
  destruct Hsub as [Hsub Hall].
  split; [exact Hsub|]. split; [|split; [exact Hall|]].
  - eapply sublist_NoDup; [|exact Hsub].
    destruct (mat_type m); unfold materialMapOrder; cbn [app];
      apply NoDup_ListNoDup; repeat constructor; simpl; intuition discriminate.
  - intros Hbelow. rewrite Hchain, Hbelow. reflexivity.
Qed.

End Records.

(** Eleven lights, one of them scoped to node 7: the node 9 below node 7 is
    given all eleven, a node elsewhere the ten that are not scoped. *)
Lemma node_lights_reach_node_witness :
  let selection := @selectLights sampleCollaborators sampleLightsFrame in
  let this' :=
    setupGlobalLights (snd (fst (fst selection))) (snd (fst selection))
      (set_globalLights [] (snd selection)) in
  (exists lights,
     prepareLightsForNode (snd (fst (fst selection))) (snd (fst selection))
       (globalLights this') sampleNodeRef = Some lights
     /\ length lights = 11%nat)
  /\ (exists lights,
        prepareLightsForNode (snd (fst (fst selection))) (snd (fst selection))
          (globalLights this') (rootNode 3) = Some lights
        /\ length lights = 10%nat).
Proof.
  split.
  - eexists. split.
    + apply (@node_lights_reach_node sampleCollaborators sampleLightsFrame sampleNodeRef).
      vm_compute. lia.
    + vm_compute. reflexivity.
  - eexists. split.
    + apply (@node_lights_reach_node sampleCollaborators sampleLightsFrame (rootNode 3)).
      vm_compute. lia.
    + vm_compute. reflexivity.
Defined.

(** A mesh of three subsets and a material list with a null material and a
    custom material: the first subset gets no record, the second and the
    third get one each, the third with the last material. *)
Lemma model_subset_records_witness :
  exists prepared records,
    @prepareModel sampleCollaborators (mkEntry sampleTwoMaterials (Some sampleThreeSubsets))
      (mkCameraData vec3_zero vec3_zero) F32.one false noPrepFlags sampleFrame
    = Some prepared
    /\ arena (snd prepared) = arena sampleFrame ++ records
    /\ map (fun o => (ro_subsetIndex o, ro_type o)) records
       = [(1%nat, CustomMaterialMeshSubset); (2%nat, CustomMaterialMeshSubset)].
Proof.
  destruct (@prepareModel sampleCollaborators
              (mkEntry sampleTwoMaterials (Some sampleThreeSubsets))
              (mkCameraData vec3_zero vec3_zero) F32.one false noPrepFlags sampleFrame)
    as [prepared|] eqn:Hrun.
  - destruct (proj1 (@model_subset_records sampleCollaborators _ _ _ _ _ _ _ Hrun))
      as (records & Ha & Hm & _).
    exists prepared, records. split; [reflexivity|]. split; [exact Ha | exact Hm].
  - vm_compute in Hrun. discriminate Hrun.
Defined.
